(* ===== verification/_CoqProject ===== *)
-Q . S2P
Prelude.v
Effects.v
Time.v
Channel.v
Transforms.v
Timing.v
Sequence.v
EventTx.v
ControlPdu.v
Llcp.v
Advertising.v
Hci.v
Controller.v
Connection.v
Commands.v
Runner.v
Loops.v
Channels.v
ConnectionInv.v
EventInv.v
HostProps.v
ConnectionSafety.v
Link.v
Instants.v
DataPlane.v
Delivery.v
ControlPath.v
Window.v
HostAdvertising.v
HostLog.v
AdvertiserProps.v
LoopProps.v
Mmio.v
DataFlash.v
FlashProtocol.v
FlashProps.v
RadioMachine.v
FrontEnd.v
Radio.v
RadioLogic.v
RadioProps.v
RadioTime.v
RadioInit.v
RadioTuning.v
RadioDirect.v
Gpio.v
Uart.v
UartProps.v
Adc.v
Rtc.v
Sysctl.v
SysctlProps.v
System.v
Firmware.v
FirmwareInv.v
FirmwareProps.v
FirmwareLink.v
FirmwareRefines.v
Asserts.v
LinkLayerTests.v
EventTxTests.v
LlcpTests.v
UnitTests.v
