(* ===== verification/Prelude.v ===== *)
(** * Verification of the ch58x BLE controller and HAL

    The repository is three crates: the HAL of the CH582 and CH585 ([src/]), a
    portable Link Layer core without hardware ([crates/ble-controller/src/]) and
    the CH585 controller built from both ([crates/ch58x-ble/src/]).  This library
    translates their code and proves what makes it correct.  A definition carries
    a line [(*! file first-last symbol *)] that names the code it translates, and
    keeps the name of the code where it can.

    ** How the code is modelled

    - Integers are [Z], with the wrap-around, saturation or check of the source
      written out ([wrap], [u8] .. [u64], [saturating_add64]); unmarked
      arithmetic is that of a release build, and where an overflow check would
      panic instead the theorem or a finding says so.  Byte strings are lists.
    - A method that changes its receiver, may return early or panic is a body
      [M S R A] over its state ([Effects]): [None] of a closed method is a panic.
      [Result] is [result].
    - A method that waits is split at the wait.  In [Loops], one function is one
      iteration of a loop of the [Runner], and what the iteration waits for
      (a packet of the Host, the timer, a reading of the clock, the answer of the
      radio) is its input, so that every order of these events is some sequence
      of inputs.
    - Code outside the repository is an interface, with the laws the code relies
      on as a second class and an instance that satisfies them: [EmbassyTime]
      (time), [RngCore] (random numbers), [Device] and [Pac] (registers behind
      the HAL, fields of the generated [pac] crate), [RadioDevice] (radio
      registers, DMA memory, clock, moments of the interrupt), [RunningClock] and
      [RunningCounter] (a clock, and the real-time counter, that run).
    - Hardware answers reads arbitrarily.  Theorems about drivers speak of the
      trace of their accesses, on every device.

    ** The portable core ([crates/ble-controller/src/])

    - [Channel]: channels, PHYs and errors ([lib.rs], [channel.rs], [phy.rs]) and
      Channel Selection Algorithm #1 ([link_layer.rs]), which refines its
      specification over any run and in 37 events uses exactly the enabled
      channels.
    - [Transforms]: [crc.rs] and [whitening.rs]; the CRC is the polynomial
      remainder and detects bursts, whitening is the Core shift register.
    - [Timing]: the validity of timing parameters, instants, window widening and
      access addresses.  [Sequence]: SN/NESN, exactly-once over a lossy medium.
      [EventTx]: [ConnectionEventTxState], a refinement of a stop-and-wait queue.
      [ControlPdu]: the control PDUs, parse and print.  All of [link_layer.rs].
    - [Llcp]: [llcp.rs], the procedure contexts and their manager: completion
      needs evidence, deadlines fire, instants complete on time.
    - [Advertising]: [advertising.rs]; accepted CONNECT_INDs are well-formed and
      round-trip.  [Hci]: [hci.rs] and [rf_calibration.rs].

    ** The controller ([crates/ch58x-ble/src/])

    - [Controller]: [controller.rs], the packets between Host and controller.
      [Channels]: the two bounded channels that carry them, an interface with the
      law of a queue of bounded length.
    - [Connection]: [ActiveConnection] of [link_layer.rs]: anchors and windows,
      instants, catching up, the ACL and control queues.
    - [Commands], [Runner], [Loops]: [Runner] of [link_layer.rs] and
      [link_layer/hci.rs]: HCI commands, LL control, the connection event, the
      connection loop, advertising.
    - [ConnectionInv], [EventInv], [ConnectionSafety]: the invariant of a
      connection, its preservation by every operation, and safety of every
      reachable connection.  [HostProps]: replies to the Host.  [Instants]:
      updates and channel maps take effect exactly at their instant.  [DataPlane]
      and [Delivery]: exactly-once delivery in both directions through the whole
      connection event.  [ControlPath]: replies of LL control and two places
      where procedures end a live connection.  [Window]: the receive window
      contains what the Central may send.  [HostAdvertising]: advertising data.
      [Link]: no operation changes the access address or the CRC of a connection.
      [HostLog]: what is sent to the Host, split into replies and the rest.
      [AdvertiserProps]: advertising data, settings and the radio under every
      command.  [LoopProps]: no iteration of the loops of [Runner] panics.
    - [RadioMachine], [FrontEnd], [Radio]: [radio_dma_policy.rs], [radio_phy.rs],
      [radio_rx_status.rs], [rf_frontend.rs] and [radio.rs], register by register;
      the BLEB handler may run before every access.  [RadioLogic] is the logic of
      their traces; [RadioProps] the safety of both exchanges, which gives the
      hypothesis [radio_ok] that the theorems about connections make about the
      radio; [RadioTime] that they return; [RadioInit] initialization;
      [RadioTuning] that only the two tuning calls change the link settings;
      [RadioDirect] the transmission and reception of the core's radio interface.
    - [System]: the composition.  Over the life of a connection on a calibrated
      radio, every event runs on the register-level exchange: it is called with
      frames and channels that it takes, it returns, and it leaves the radio idle
      and calibrated and the connection in its invariant.
    - [Firmware]: the controller as it runs, a labelled transition system of the
      [Runner] task, its radio register by register, the two channels and a Host
      that writes commands and data and reads replies at any moment.  A step of
      the task is one turn between two waits; a send that finds its channel full
      waits, and the task with it.  [FirmwareInv]: the invariant of the system
      and its preservation by every step.  [FirmwareProps]: from a booted
      controller, no sequence of steps panics or leaves the invariant; each
      command gets exactly its reply, in the order of the commands; packets cross
      the channels exactly once and in order; a Host that keeps reading gets every
      reply.  [FirmwareLink]: the radio is tuned to the connection that is served,
      and to the advertising channels when none is.  [FirmwareRefines]: the
      steps of the system are the connection loop and the advertising event of
      [Loops], which ties the two views of the [Runner] together.

    ** The HAL ([src/])

    - [Mmio]: registers, the trace of accesses and its rules, and
      [critical_section_impl.rs].
    - [DataFlash], [FlashProtocol], [FlashProps]: [dataflash.rs] and
      [dataflash_protocol.rs]: the exact commands the controller receives.
    - [Gpio], [Uart] and [UartProps], [Adc], [Rtc], [Sysctl] and [SysctlProps]:
      the drivers of the same names, with [lib.rs] and [peripherals.rs] in
      [Sysctl].

    ** The unit tests

    The [#[cfg(test)]] modules run in the kernel on the definitions of this
    library: [Asserts] is the language of tests, a test passes when its body does
    not panic, and [LinkLayerTests], [EventTxTests], [LlcpTests] and [UnitTests]
    translate the tests case by case.  They check the translation against
    what the authors of the code expect of it.

    ** Bounds and fuel

    Loops that the source bounds have the source's bound: 65536 polls of the
    radio, 32768 of the calibration, 0x80000 of the Flash status, 4096 of the ADC.
    [skip_loop] runs on what its 16-bit count has left, [copy_structures],
    [write_loop] and [read_loop] on the length of their data, one unit of which
    each pass uses up.  The loops bounded only by the clock take fuel: for the two
    exchanges [exchange_fuel] and [advertising_fuel] are enough on every device
    whose clock runs, as [RadioTime] proves; for the real-time counter, two
    passes.  The blocking loops of the UART wait for the other end and take fuel
    without such a bound; a device that drains or delivers shows it can be enough
    ([UartProps]).  The steps of [Firmware] take no fuel of their own.

    ** Not modelled

    - The executor: it runs the task again after a wait, so a run of [Firmware] is
      any sequence of turns, of the Host's reads and writes and of the channels'
      sends.  The futures of [embassy_sync] are library code.
    - What registers do: a device is arbitrary, apart from the laws named above.
    - [nop], [fence] and spin-loop hints, compiler fences, and the placement of
      code in RAM.
    - The zero-sized tokens of peripherals and radio, whose uniqueness is a matter
      of types; the one test that measures the layout of a type in memory; what
      the build generates. *)

From Stdlib Require Export ZArith Lia.
From stdpp Require Export base tactics option list numbers sets.

#[global] Open Scope Z_scope.
#[global] Set Default Goal Selector "!".

(** ** Results of fallible code

    [Result<A, E>] of the source; the error type comes first so that
    [result E] is a functor. *)

Inductive result (E A : Type) : Type :=
| Ok (a : A)
| Err (e : E).
Arguments Ok {E A} a.
Arguments Err {E A} e.

#[export] Instance result_ret E : MRet (result E) := λ _, Ok.
#[export] Instance result_bind E : MBind (result E) := λ _ _ k r,
  match r with Ok a => k a | Err e => Err e end.
#[export] Instance result_fmap E : FMap (result E) := λ _ _ f r,
  match r with Ok a => Ok (f a) | Err e => Err e end.

#[export] Instance result_eq_dec {E A} (dE : EqDecision E) (dA : EqDecision A) :
  EqDecision (result E A).
Proof. intros x y. unfold Decision. decide equality; [apply dA|apply dE]. Defined.

Definition map_err {E F A} (f : E → F) (r : result E A) : result F A :=
  match r with Ok a => Ok a | Err e => Err (f e) end.

Definition ok_or {E A} (o : option A) (e : E) : result E A :=
  match o with Some a => Ok a | None => Err e end.

Definition is_ok {E A} (r : result E A) : bool :=
  match r with Ok _ => true | Err _ => false end.

Lemma ok_bind_inv {E A B} (r : result E A) (k : A → result E B) b :
  r ≫= k = Ok b ↔ ∃ a, r = Ok a ∧ k a = Ok b.
Proof.
  destruct r as [a|e]; cbn; split; [eauto|intros (?&[= ->]&?); done|done|by intros (?&?&?)].
Qed.

(** ** Record update, [r <| field := v |>]

    A record type declares its eta expansion once; setters are derived from
    it by replacing one projection. *)

Class Eta (R : Type) := eta : R → R.
Class Setter {R T : Type} (proj : R → T) := set_field : (T → T) → R → R.
Arguments set_field {R T} proj {_} _ _ /.

Ltac derive_setter :=
  lazymatch goal with
  | |- @Setter ?R ?T ?p =>
      exact (fun (f : T → T) (r : R) =>
        ltac:(let i := constr:(ltac:(typeclasses eauto) : Eta R) in
              let i := eval red in i in
              let b := eval cbv beta in (i r) in
              let q := eval pattern (p r) in b in
              lazymatch q with ?F _ => exact (F (f (p r))) end))
  end.
#[export] Hint Extern 1 (Setter _) => derive_setter : typeclass_instances.

Declare Scope record_scope.
Delimit Scope record_scope with record.
Notation "r <| p := v |>" := (set_field p (λ _, v) r)
  (at level 1, left associativity, p at next level, v at level 200,
   format "r  <|  p  :=  v  |>") : record_scope.
#[global] Open Scope record_scope.

(** ** Machine integers

    A [w]-bit unsigned integer is a [Z] in [0, 2^w); [wrap w] is the
    truncation of [as u8], [as u16], ... and of [wrapping_*] arithmetic. *)

Definition wrap (w x : Z) : Z := x mod 2 ^ w.
Abbreviation u8 := (wrap 8).
Abbreviation u16 := (wrap 16).
Abbreviation u32 := (wrap 32).
Abbreviation u64 := (wrap 64).

Definition fits (w x : Z) : Prop := 0 ≤ x < 2 ^ w.
Abbreviation is_u8 := (fits 8).
Abbreviation is_u16 := (fits 16).
Abbreviation is_u32 := (fits 32).
Abbreviation is_u64 := (fits 64).

Definition U8_MAX : Z := 255.
Definition U16_MAX : Z := 65535.
Definition U32_MAX : Z := 4294967295.
Definition U64_MAX : Z := 18446744073709551615.

(** [u64::saturating_add], [saturating_mul] and [saturating_sub]. *)
Definition saturating_add64 (a b : Z) : Z := Z.min (a + b) U64_MAX.
Definition saturating_mul64 (a b : Z) : Z := Z.min (a * b) U64_MAX.
Definition saturating_sub64 (a b : Z) : Z := Z.max (a - b) 0.

(** [u64::div_ceil]. *)
Definition div_ceil (a b : Z) : Z := - ((- a) / b).

(** [u32::count_ones], by structural recursion on the positive number. *)
Fixpoint pos_ones (p : positive) : Z :=
  match p with
  | xH => 1
  | xO p => pos_ones p
  | xI p => 1 + pos_ones p
  end.

Definition count_ones (x : Z) : Z :=
  match x with Zpos p => pos_ones p | _ => 0 end.

(** [bool as u32]. *)
Definition b2z (b : bool) : Z := if b then 1 else 0.

(** [value & (1 << n) != 0]. *)
Definition bit_set (x n : Z) : bool := negb (Z.land x (Z.shiftl 1 n) =? 0).

Ltac unfold_ints :=
  unfold saturating_add64, saturating_mul64, saturating_sub64, div_ceil, b2z,
    wrap, fits, U8_MAX, U16_MAX, U32_MAX, U64_MAX in *;
  change (2 ^ 8) with 256 in *; change (2 ^ 16) with 65536 in *;
  change (2 ^ 32) with 4294967296 in *;
  change (2 ^ 64) with 18446744073709551616 in *.

(** Linear arithmetic over the machine integers, with division by constants. *)
Ltac int_lia := unfold_ints; Z.div_mod_to_equations; lia.

Lemma wrap_fits w x : 0 ≤ w → fits w (wrap w x).
Proof. intros. apply Z.mod_pos_bound. lia. Qed.

Lemma wrap_small w x : fits w x → wrap w x = x.
Proof. apply Z.mod_small. Qed.

Lemma wrap_idemp w x : wrap w (wrap w x) = wrap w x.
Proof. apply Z.mod_mod_divide, Z.divide_refl. Qed.

Lemma land_mask x n : 0 ≤ n → Z.land x (Z.ones n) = wrap n x.
Proof. intros. by apply Z.land_ones. Qed.

(** Bitwise operators stay within the width of their operands. *)
Lemma testbit_high w x i : fits w x → 0 ≤ w ≤ i → Z.testbit x i = false.
Proof.
  intros Hx Hi. rewrite <- (wrap_small w x) by done.
  apply Z.mod_pow2_bits_high. lia.
Qed.

Lemma fits_testbit w x : 0 ≤ w → (∀ i, w ≤ i → Z.testbit x i = false) → fits w x.
Proof.
  intros Hw Hx. assert (x = wrap w x) as ->; [|by apply wrap_fits].
  apply Z.bits_inj'. intros i Hi. unfold wrap. destruct (Z.lt_ge_cases i w).
  - by rewrite Z.mod_pow2_bits_low.
  - rewrite Z.mod_pow2_bits_high by lia. by apply Hx.
Qed.

Lemma lxor_fits w a b : 0 ≤ w → fits w a → fits w b → fits w (Z.lxor a b).
Proof.
  intros Hw Ha Hb. apply fits_testbit; [done|]. intros i Hi.
  by rewrite Z.lxor_spec, (testbit_high w a), (testbit_high w b).
Qed.

Lemma lor_fits w a b : 0 ≤ w → fits w a → fits w b → fits w (Z.lor a b).
Proof.
  intros Hw Ha Hb. apply fits_testbit; [done|]. intros i Hi.
  by rewrite Z.lor_spec, (testbit_high w a), (testbit_high w b).
Qed.

Lemma land_fits_l w a b : 0 ≤ w → fits w a → fits w (Z.land a b).
Proof.
  intros Hw Ha. apply fits_testbit; [done|]. intros i Hi.
  by rewrite Z.land_spec, (testbit_high w a).
Qed.

Lemma land_fits_r w a b : 0 ≤ w → fits w b → fits w (Z.land a b).
Proof. rewrite Z.land_comm. apply land_fits_l. Qed.

(** Fields at disjoint positions: [or] is [+]. *)
Lemma lor_shift_add a b n : 0 ≤ n → fits n a → Z.lor a (Z.shiftl b n) = a + 2 ^ n * b.
Proof.
  intros Hn Ha. rewrite <- (Z.add_0_r (Z.lor _ _)).
  replace 0 with (Z.land a (Z.shiftl b n)).
  - rewrite Z.add_lor_land, Z.shiftl_mul_pow2 by done. lia.
  - apply Z.bits_inj'. intros i Hi. rewrite Z.land_spec, Z.bits_0.
    destruct (Z.lt_ge_cases i n).
    + by rewrite Z.shiftl_spec_low, andb_false_r.
    + by rewrite (testbit_high n).
Qed.

Lemma shiftl_fits w n b : 0 ≤ n → fits w b → fits (w + n) (Z.shiftl b n).
Proof.
  intros Hn Hb. destruct (Z.lt_ge_cases w 0).
  - unfold fits in Hb. rewrite Z.pow_neg_r in Hb by lia. lia.
  - unfold fits in *. rewrite Z.shiftl_mul_pow2, Z.pow_add_r by lia.
    pose proof (Z.pow_pos_nonneg 2 n). nia.
Qed.

Lemma fits_mono w w' x : w ≤ w' → fits w x → fits w' x.
Proof.
  intros Hw Hx. unfold fits in *. pose proof (Z.pow_le_mono_r 2 w w' ltac:(lia) Hw). lia.
Qed.

Lemma byte_shift_fits w n b : is_u8 b → 0 ≤ n → 8 + n ≤ w → fits w (Z.shiftl b n).
Proof. intros. eapply fits_mono; [|apply shiftl_fits; [|done]]; done. Qed.

Create HintDb ints.
#[export] Hint Resolve wrap_fits wrap_small lxor_fits lor_fits land_fits_l land_fits_r : ints.

(** ** Byte strings

    Slices and arrays are lists; indices and lengths are [nat]. *)

(** [&l[a..b]]. *)
Definition slice {A} (a b : nat) (l : list A) : list A := take (b - a) (drop a l).

(** [dst[off..off + src.len()].copy_from_slice(src)]. *)
Definition splice {A} (off : nat) (src dst : list A) : list A :=
  take off dst ++ src ++ drop (off + length src) dst.

Definition bytes_ok (l : list Z) : Prop := Forall is_u8 l.

(** [uN::from_le_bytes] and [uN::to_le_bytes] for an [N = 8 * n]-bit type. *)
Fixpoint from_le (bs : list Z) : Z :=
  match bs with
  | [] => 0
  | b :: bs => b + 256 * from_le bs
  end.

Fixpoint to_le (n : nat) (x : Z) : list Z :=
  match n with
  | O => []
  | S n => x mod 256 :: to_le n (x / 256)
  end.

Lemma length_to_le n x : length (to_le n x) = n.
Proof. revert x. induction n; intros; cbn; auto. Qed.

Lemma to_le_ok n x : bytes_ok (to_le n x).
Proof.
  revert x. induction n as [|n IH]; intros x; cbn; constructor; [|apply IH].
  int_lia.
Qed.

Lemma from_to_le n x : fits (8 * Z.of_nat n) x → from_le (to_le n x) = x.
Proof.
  revert x. induction n as [|n IH]; intros x Hx; cbn [to_le from_le].
  { unfold fits in Hx. change (2 ^ (8 * Z.of_nat 0)) with 1 in Hx. lia. }
  rewrite IH; [int_lia|]. unfold fits in *.
  replace (8 * Z.of_nat (S n)) with (8 * Z.of_nat n + 8) in Hx by lia.
  rewrite Z.pow_add_r in Hx by lia. change (2 ^ 8) with 256 in Hx.
  split; [apply Z.div_pos; lia|apply Z.div_lt_upper_bound; lia].
Qed.

Lemma to_from_le bs : bytes_ok bs → to_le (length bs) (from_le bs) = bs.
Proof.
  induction 1 as [|b bs Hb _ IH]; cbn [length to_le from_le]; [done|].
  replace ((b + 256 * from_le bs) / 256) with (from_le bs) by int_lia.
  rewrite IH. f_equal. int_lia.
Qed.

Lemma from_le_fits bs : bytes_ok bs → fits (8 * Z.of_nat (length bs)) (from_le bs).
Proof.
  induction 1 as [|b bs Hb _ IH]; [done|]. cbn [length from_le].
  unfold fits in *. change (2 ^ 8) with 256 in *.
  replace (8 * Z.of_nat (S (length bs))) with (8 * Z.of_nat (length bs) + 8) by lia.
  rewrite Z.pow_add_r by lia. change (2 ^ 8) with 256. lia.
Qed.

Lemma bytes_ok_app l k : bytes_ok (l ++ k) ↔ bytes_ok l ∧ bytes_ok k.
Proof. apply Forall_app. Qed.

Lemma bytes_ok_lookup l i : bytes_ok l → (i < length l)%nat → is_u8 (l !!! i).
Proof.
  intros Hl Hi. destruct (lookup_lt_is_Some_2 l i Hi) as [b Hb].
  rewrite (list_lookup_total_correct _ _ _ Hb). by eapply Forall_lookup_1.
Qed.

Lemma bytes_ok_slice a b l : bytes_ok l → bytes_ok (slice a b l).
Proof. intros. by apply Forall_take, Forall_drop. Qed.

Lemma bytes_ok_splice off src dst :
  bytes_ok src → bytes_ok dst → bytes_ok (splice off src dst).
Proof.
  intros. unfold splice, bytes_ok.
  repeat (apply Forall_app; split); auto using Forall_take, Forall_drop.
Qed.

Lemma length_slice {A} a b (l : list A) :
  (b ≤ length l)%nat → length (slice a b l) = (b - a)%nat.
Proof. intros. unfold slice. rewrite length_take, length_drop. lia. Qed.

Lemma length_splice {A} off (src dst : list A) :
  (off + length src ≤ length dst)%nat → length (splice off src dst) = length dst.
Proof. intros. unfold splice. rewrite !length_app, length_take, length_drop. lia. Qed.

(** Writes to a buffer split at the position written. *)
Lemma insert_at_app {A} (p : list A) x rest v :
  <[length p := v]> (p ++ x :: rest) = p ++ v :: rest.
Proof. rewrite insert_app_r_alt, Nat.sub_diag by lia. done. Qed.

Lemma splice_at_app {A} (p mid rest src : list A) : length mid = length src →
  splice (length p) src (p ++ mid ++ rest) = p ++ src ++ rest.
Proof.
  intros Hlen. unfold splice. rewrite take_app_length, <- Hlen, <- length_app.
  by rewrite (app_assoc p mid rest), drop_app_length.
Qed.

Lemma take_app_slice {A} (p rest : list A) : slice 0 (length p) (p ++ rest) = p.
Proof. unfold slice. rewrite Nat.sub_0_r, drop_0. by rewrite take_app_length. Qed.

#[export] Hint Resolve to_le_ok bytes_ok_slice bytes_ok_splice bytes_ok_lookup : ints.

(** A boolean property of bytes is checked on the 256 values. *)
Lemma forall_u8 (P : Z → bool) :
  forallb P (seqZ 0 256) = true → ∀ b, is_u8 b → P b = true.
Proof.
  intros HP b Hb. rewrite forallb_forall in HP. apply HP.
  apply list_elem_of_In, elem_of_seqZ. unfold_ints. lia.
Qed.

(** ** Automation shared by the components *)

(** Split conjunctive and disjunctive boolean guards into propositions. *)
Ltac bool_to_prop :=
  repeat match goal with
  | H : negb _ = true |- _ => apply negb_true_iff in H
  | H : negb _ = false |- _ => apply negb_false_iff in H
  | H : _ && _ = true |- _ => apply andb_true_iff in H as [??]
  | H : _ || _ = false |- _ => apply orb_false_iff in H as [??]
  | H : bool_decide _ = true |- _ => apply bool_decide_eq_true in H
  | H : bool_decide _ = false |- _ => apply bool_decide_eq_false in H
  end.

(** A well-formed byte string of known shape gives one bound per byte. *)
Ltac split_bytes :=
  unfold bytes_ok in *;
  repeat match goal with
  | H : Forall _ (_ :: _) |- _ => apply Forall_cons_1 in H as [? H]
  | H : Forall _ [] |- _ => clear H
  end.

(** A literal list of in-range elements. *)
Ltac solve_forall :=
  unfold bytes_ok; repeat apply Forall_cons_2; try apply Forall_nil_2; auto.

(** Case analysis on every [match] and [if] of the goal and hypotheses. *)
Ltac break_match := repeat (case_match; simplify_eq/=; try done).

(** ** Population count *)

Lemma count_ones_step x : 0 ≤ x → count_ones x = b2z (Z.testbit x 0) + count_ones (x / 2).
Proof.
  intros Hx. rewrite <- Z.div2_div. by destruct x as [|[p|p|]|].
Qed.

Lemma length_filter_seqZ_shift (f : Z → bool) n :
  length (List.filter f (seqZ 1 n)) = length (List.filter (λ i, f (i + 1)) (seqZ 0 n)).
Proof.
  change 1 with (1 + 0) at 1. rewrite <- fmap_add_seqZ.
  induction (seqZ 0 n) as [|i l IH]; [done|]. cbn [fmap list_fmap List.filter].
  rewrite (Z.add_comm 1 i). destruct (f (i + 1)); cbn [length]; by rewrite IH.
Qed.

(** [count_ones] counts the set bits of a [w]-bit number. *)
Lemma count_ones_spec w x : fits (Z.of_nat w) x →
  count_ones x = Z.of_nat (length (List.filter (Z.testbit x) (seqZ 0 (Z.of_nat w)))).
Proof.
  revert x. induction w as [|w IH]; intros x Hx.
  { unfold fits in Hx. cbn in *. by replace x with 0 by lia. }
  unfold fits in Hx. rewrite Nat2Z.inj_succ, Z.pow_succ_r in Hx by lia.
  rewrite count_ones_step, IH by (try split; try apply Z.div_pos;
    try apply Z.div_lt_upper_bound; lia).
  rewrite (seqZ_cons 0 (Z.of_nat (S w))) by lia.
  replace (Z.pred (Z.of_nat (S w))) with (Z.of_nat w) by lia.
  cbn [List.filter].
  assert (length (List.filter (Z.testbit (x / 2)) (seqZ 0 (Z.of_nat w))) =
    length (List.filter (Z.testbit x) (seqZ 1 (Z.of_nat w)))) as ->.
  { rewrite length_filter_seqZ_shift. f_equal. apply List.filter_ext_in.
    intros i Hi%list_elem_of_In%elem_of_seqZ.
    rewrite <- Z.div2_div, Z.div2_spec, Z.shiftr_spec by lia. done. }
  change (Z.succ 0) with 1. destruct (Z.testbit x 0); cbn [length b2z]; lia.
Qed.
