(* ===== verification/Effects.v ===== *)
(** * Methods with early return and panic

    A Rust method that mutates its receiver and may leave early or panic is a
    function of the state.  [M S R A] is a piece of the body of a method over
    state [S] whose return type is [R]; [run] closes a whole body into a
    function from the state to the returned value and the new state, [None]
    being a panic. *)

From S2P Require Import Prelude.

Inductive outcome (S R A : Type) : Type :=
| Next (a : A) (s : S)
| Return (r : R) (s : S)
| Panic.
Arguments Next {S R A} a s.
Arguments Return {S R A} r s.
Arguments Panic {S R A}.

Definition M (S R A : Type) : Type := S → outcome S R A.

#[export] Instance M_ret S R : MRet (M S R) := λ A a s, Next a s.
#[export] Instance M_bind S R : MBind (M S R) := λ A B k m s,
  match m s with
  | Next a s => k a s
  | Return r s => Return r s
  | Panic => Panic
  end.

(** Reading and writing the state. *)
Definition gets {S R A} (f : S → A) : M S R A := λ s, Next (f s) s.
Definition modify {S R} (f : S → S) : M S R () := λ s, Next () (f s).

(** [return r] and [unwrap]. *)
Definition return_ {S R A} (r : R) : M S R A := λ s, Return r s.
Definition unwrap {S R A} (o : option A) : M S R A := λ s,
  match o with Some a => Next a s | None => Panic end.

(** [r?], with the error converted to the return type. *)
Definition try {S R E A} (on_err : E → R) (r : result E A) : M S R A := λ s,
  match r with Ok a => Next a s | Err e => Return (on_err e) s end.

(** [if b { ... }]. *)
Definition when_ {S R} (b : bool) (m : M S R ()) : M S R () :=
  if b then m else mret ().

(** A call of a closed method on the state, and on a part of it. *)
Definition call {S R A} (f : S → option (A * S)) : M S R A := λ s,
  match f s with Some (a, s) => Next a s | None => Panic end.
Definition zoom {S R A T} (get : S → T) (put : T → S → S) (f : T → option (A * T)) : M S R A :=
  λ s, match f (get s) with Some (a, t) => Next a (put t s) | None => Panic end.

(** A method body is closed by its final value. *)
Definition run {S R} (m : M S R R) (s : S) : option (R * S) :=
  match m s with
  | Next r s | Return r s => Some (r, s)
  | Panic => None
  end.

(** [for _ in 0..n]. *)
Fixpoint repeat_ {S R} (n : nat) (body : M S R ()) : M S R () :=
  match n with
  | O => mret ()
  | S n => body ≫= λ _, repeat_ n body
  end.

(** [for x in l]. *)
Fixpoint for_each {S R A} (l : list A) (body : A → M S R ()) : M S R () :=
  match l with
  | [] => mret ()
  | x :: l => body x ≫= λ _, for_each l body
  end.

(** ** Reasoning about bodies

    [holds m s P Q]: [m] does not panic on [s]; if it goes on, [P] holds of the
    value and the state, and if it returns, [Q] holds. *)
Definition holds {S R A} (m : M S R A) (s : S) (P : A → S → Prop) (Q : R → S → Prop) : Prop :=
  match m s with
  | Next a s => P a s
  | Return r s => Q r s
  | Panic => False
  end.

Section holds.
  Context {S R : Type}.

Lemma holds_ret {A} (a : A) (s : S) P (Q : R → S → Prop) : P a s → holds (mret a) s P Q.
Proof. done. Qed.

Lemma holds_bind {A B} (m : M S R A) (k : A → M S R B) s P P' Q :
  holds m s P' Q → (∀ a s', P' a s' → holds (k a) s' P Q) → holds (m ≫= k) s P Q.
Proof.
  intros Hm Hk. unfold holds, mbind, M_bind in *.
  destruct (m s) as [a s'|r s'|]; [by apply Hk|done|done].
Qed.

(** After a statement that never returns. *)
Lemma holds_bind_next {A B} (m : M S R A) (k : A → M S R B) s P P' Q :
  holds m s P' (λ _ _, False) → (∀ a s', P' a s' → holds (k a) s' P Q) → holds (m ≫= k) s P Q.
Proof.
  intros Hm Hk. eapply holds_bind; [|exact Hk].
  unfold holds in *. by destruct (m s).
Qed.

Lemma holds_gets {A} (f : S → A) s P (Q : R → S → Prop) : P (f s) s → holds (gets f) s P Q.
Proof. done. Qed.

Lemma holds_modify (f : S → S) s P (Q : R → S → Prop) : P () (f s) → holds (modify f) s P Q.
Proof. done. Qed.

Lemma holds_return {A} (r : R) (s : S) (P : A → S → Prop) Q : Q r s → holds (return_ r) s P Q.
Proof. done. Qed.

Lemma holds_unwrap {A} (o : option A) a (s : S) P (Q : R → S → Prop) :
  o = Some a → P a s → holds (unwrap o) s P Q.
Proof. intros ->. done. Qed.

Lemma holds_try {E A} (f : E → R) (r : result E A) (s : S) P Q :
  (∀ a, r = Ok a → P a s) → (∀ e, r = Err e → Q (f e) s) → holds (try f r) s P Q.
Proof. intros Ha He. unfold holds, try. destruct r; eauto. Qed.

Lemma holds_when (b : bool) (m : M S R ()) s P Q :
  (b = true → holds m s P Q) → (b = false → P () s) → holds (when_ b m) s P Q.
Proof. intros Ht Hf. destruct b; [by apply Ht|by apply Hf]. Qed.

Lemma holds_zoom {A T} (get : S → T) (put : T → S → S) (f : T → option (A * T)) a t (s : S) P
    (Q : R → S → Prop) :
  f (get s) = Some (a, t) → P a (put t s) → holds (zoom get put f) s P Q.
Proof. intros Hf. unfold holds, zoom. by rewrite Hf. Qed.

(** Sequencing after a statement whose effect is known. *)
Lemma holds_gets_bind {A B} (f : S → A) (k : A → M S R B) s P Q :
  holds (k (f s)) s P Q → holds (gets f ≫= k) s P Q.
Proof. done. Qed.

Lemma holds_modify_bind {B} (f : S → S) (k : () → M S R B) s P Q :
  holds (k ()) (f s) P Q → holds (modify f ≫= k) s P Q.
Proof. done. Qed.

Lemma holds_ret_bind {A B} (a : A) (k : A → M S R B) s P Q :
  holds (k a) s P Q → holds (mret a ≫= k) s P Q.
Proof. done. Qed.

Lemma holds_zoom_bind {A B T} (get : S → T) (put : T → S → S) (f : T → option (A * T)) a t
    (k : A → M S R B) s P Q :
  f (get s) = Some (a, t) → holds (k a) (put t s) P Q →
  holds (zoom get put f ≫= k) s P Q.
Proof. intros Hf. unfold holds, mbind, M_bind, zoom. by rewrite Hf. Qed.

Lemma holds_try_bind {E A B} (f : E → R) (r : result E A) a (k : A → M S R B) s P Q :
  r = Ok a → holds (k a) s P Q → holds (try f r ≫= k) s P Q.
Proof. intros ->. done. Qed.

Lemma holds_weaken {A} (m : M S R A) s (P P' : A → S → Prop) (Q Q' : R → S → Prop) :
  holds m s P Q → (∀ a s, P a s → P' a s) → (∀ r s, Q r s → Q' r s) → holds m s P' Q'.
Proof. unfold holds. destruct (m s); eauto. Qed.

(** Two facts about the same run. *)
Lemma holds_and {A} (m : M S R A) s (P P' : A → S → Prop) (Q Q' : R → S → Prop) :
  holds m s P Q → holds m s P' Q' →
  holds m s (λ a s, P a s ∧ P' a s) (λ r s, Q r s ∧ Q' r s).
Proof. unfold holds. destruct (m s); eauto. Qed.

(** What the run of a body says about a fact of it. *)
Lemma holds_next {A} (m : M S R A) s a s' P Q : holds m s P Q → m s = Next a s' → P a s'.
Proof. unfold holds. intros H E. by rewrite E in H. Qed.

Lemma run_holds (m : M S R R) s Q : holds m s Q Q → ∃ r s', run m s = Some (r, s') ∧ Q r s'.
Proof. unfold holds, run. destruct (m s); eauto; done. Qed.

End holds.
