(* ===== verification/Time.v ===== *)
(** * Time, as the controller uses it

    The [Instant] and [Duration] of the [embassy_time] crate, which is not part
    of the repository, as an interface.  The crate is configured with a tick of
    one microsecond ([tick-hz-1_000_000] in [crates/ch58x-ble/Cargo.toml]), so
    conversions from and to microseconds are exact.  [Instant::now()] has no
    operation here: every reading of the clock is an argument of the definition
    that takes it. *)

From S2P Require Import Prelude.

(** Subtraction of a duration panics below the origin of time: [None]. *)
Class EmbassyTime : Type := {
  Instant : Type;
  Duration : Type;
  instant_from_micros : Z → Instant;
  instant_as_micros : Instant → Z;
  duration_from_micros : Z → Duration;
  duration_as_micros : Duration → Z;
  instant_add : Instant → Duration → Instant;
  instant_sub : Instant → Duration → option Instant;
  saturating_duration_since : Instant → Instant → Duration;
  instant_ltb : Instant → Instant → bool;
}.

(** What the crate documents.  Addition panics beyond 64 bits, so its law is
    limited to sums that fit. *)
Class EmbassyTimeLaws `{!EmbassyTime} : Prop := {
  instant_as_from us : is_u64 us → instant_as_micros (instant_from_micros us) = us;
  duration_as_from us : is_u64 us → duration_as_micros (duration_from_micros us) = us;
  instant_as_fits i : is_u64 (instant_as_micros i);
  duration_as_fits d : is_u64 (duration_as_micros d);
  instant_add_micros i d :
    instant_as_micros i + duration_as_micros d ≤ U64_MAX →
    instant_as_micros (instant_add i d) = instant_as_micros i + duration_as_micros d;
  instant_sub_micros i d :
    duration_as_micros d ≤ instant_as_micros i →
    ∃ r, instant_sub i d = Some r ∧
         instant_as_micros r = instant_as_micros i - duration_as_micros d;
  instant_since_micros i j :
    duration_as_micros (saturating_duration_since i j) =
      Z.max (instant_as_micros i - instant_as_micros j) 0;
  instant_ltb_micros i j :
    instant_ltb i j = (instant_as_micros i <? instant_as_micros j);
}.

(** A clock that counts microseconds in 64 bits, which shows that the laws can
    hold and lets examples run. *)
#[export] Instance micros_time : EmbassyTime := {|
  Instant := Z;
  Duration := Z;
  instant_from_micros := u64;
  instant_as_micros := u64;
  duration_from_micros := u64;
  duration_as_micros := u64;
  instant_add i d := u64 i + u64 d;
  instant_sub i d := if u64 d <=? u64 i then Some (u64 i - u64 d) else None;
  saturating_duration_since i j := Z.max (u64 i - u64 j) 0;
  instant_ltb i j := u64 i <? u64 j;
|}.

#[export] Instance micros_time_laws : EmbassyTimeLaws.
Proof.
  assert (∀ x, 0 ≤ u64 x ≤ U64_MAX) as Hu.
  { intros x. pose proof (wrap_fits 64 x ltac:(lia)). unfold_ints. lia. }
  assert (∀ x, 0 ≤ x ≤ U64_MAX → u64 x = x) as Hs.
  { intros x Hx. apply wrap_small. unfold_ints. lia. }
  split; cbn [instant_as_micros instant_from_micros duration_as_micros duration_from_micros
              instant_add instant_sub saturating_duration_since instant_ltb Instant Duration
              micros_time].
  - intros us Hus. rewrite wrap_idemp. by apply wrap_small.
  - intros us Hus. rewrite wrap_idemp. by apply wrap_small.
  - intros i. by apply wrap_fits.
  - intros d. by apply wrap_fits.
  - intros i d Hle. apply Hs. pose proof (Hu i). pose proof (Hu d). lia.
  - intros i d Hle. exists (u64 i - u64 d). pose proof (Hu i). pose proof (Hu d).
    rewrite (proj2 (Z.leb_le _ _) Hle). split; [done|]. apply Hs. lia.
  - intros i j. apply Hs. pose proof (Hu i). pose proof (Hu j). lia.
  - done.
Qed.
