(* ===== verification/Channel.v ===== *)
(** * Physical channels and Channel Selection Algorithm #1

    Models [crates/ble-controller/src/{lib,channel,phy}.rs] and the channel
    map and [ChannelSelection1] parts of [link_layer.rs].  A line
    [(*! file first-last symbol *)] before a definition names the source it
    translates. *)

From S2P Require Import Prelude.

(*! crates/ble-controller/src/lib.rs 23-30 Error *)
Inductive Error : Type :=
| ErrorBusy
| ErrorTimeout
| ErrorInvalidChannel
| ErrorInvalidPacket
| ErrorHardware.
#[export] Instance Error_eq_dec : EqDecision Error.
Proof. solve_decision. Defined.

(*! crates/ble-controller/src/phy.rs 1-7 Phy *)
Inductive Phy : Type :=
| Le1M
| Le2M
| LeCodedS2
| LeCodedS8.
#[export] Instance Phy_eq_dec : EqDecision Phy.
Proof. solve_decision. Defined.

(** ** [Channel] *)

(*! crates/ble-controller/src/channel.rs 3-5 Channel *)
Record Channel : Type := mkChannel { channel_index_of : Z }.
#[export] Instance Channel_eq_dec : EqDecision Channel.
Proof. solve_decision. Defined.

(*! crates/ble-controller/src/channel.rs 8-8 Channel::ADV_37 *)
Definition ADV_37 : Channel := mkChannel 37.
(*! crates/ble-controller/src/channel.rs 9-9 Channel::ADV_38 *)
Definition ADV_38 : Channel := mkChannel 38.
(*! crates/ble-controller/src/channel.rs 10-10 Channel::ADV_39 *)
Definition ADV_39 : Channel := mkChannel 39.

(*! crates/ble-controller/src/channel.rs 12-18 Channel::new *)
Definition channel_new (index : Z) : result Error Channel :=
  if index <=? 39 then Ok (mkChannel index) else Err ErrorInvalidChannel.

(*! crates/ble-controller/src/channel.rs 20-22 Channel::index *)
Definition index (c : Channel) : Z := channel_index_of c.

(** [None] is the [unreachable!()] arm. *)
(*! crates/ble-controller/src/channel.rs 25-34 Channel::frequency_mhz *)
Definition frequency_mhz (c : Channel) : option Z :=
  let i := index c in
  if i =? 37 then Some 2402
  else if i =? 38 then Some 2426
  else if i =? 39 then Some 2480
  else if (0 <=? i) && (i <=? 10) then Some (u16 (2404 + i * 2))
  else if (11 <=? i) && (i <=? 36) then Some (u16 (2428 + (i - 11) * 2))
  else None.

(** ** Records of the interface

    Plain data of the crate that none of its operations uses. *)

Module Records.

(*! crates/ble-controller/src/link_layer.rs 721-728 State *)
Inductive State : Type := Standby | Advertising | Scanning | Initiating | Connected.

(*! crates/ble-controller/src/link_layer.rs 730-736 AdvertisingConfig *)
Record AdvertisingConfig : Type := mkAdvertisingConfig {
  ac_interval_us : Z;
  ac_channels : list (option Channel);
  ac_connectable : bool;
  ac_scannable : bool;
}.

(*! crates/ble-controller/src/link_layer.rs 738-751 AdvertisingConfig::default *)
Definition advertising_config_default : AdvertisingConfig :=
  mkAdvertisingConfig 100000 [Some ADV_37; Some ADV_38; Some ADV_39] true true.

(*! crates/ble-controller/src/link_layer.rs 753-758 ConnectionParameters *)
Record ConnectionParameters : Type := mkConnectionParameters {
  cn_interval_us : Z;
  cn_peripheral_latency : Z;
  cn_supervision_timeout_us : Z;
}.

(*! crates/ble-controller/src/link_layer.rs 760-766 Connection *)
Record Connection : Type := mkConnection {
  cn_handle : Z;
  cn_generation : Z;
  cn_parameters : ConnectionParameters;
}.

End Records.

(** ** Data-channel maps *)

(** The bit test [map[usize::from(ch / 8)] & (1 << (ch % 8)) != 0]. *)
(*! crates/ble-controller/src/link_layer.rs 1118-1118 ChannelSelection1 *)
Definition channel_enabled (map : list Z) (ch : Z) : bool :=
  bit_set (map !!! Z.to_nat (ch / 8)) (ch mod 8).

(*! crates/ble-controller/src/link_layer.rs 1067-1078 data_channel_map_is_valid *)
Definition data_channel_map_is_valid (map : list Z) : bool :=
  if negb (Z.land (map !!! 4%nat) 0xe0 =? 0) then false
  else 2 <=? foldl (λ used octet, used + count_ones octet) 0 map.

(** ** [ChannelSelection1] *)

(*! crates/ble-controller/src/link_layer.rs 1102-1108 ChannelSelection1 *)
Record ChannelSelection1 : Type := mkChannelSelection1 {
  cs_map : list Z;
  cs_used : list Z;
  cs_used_len : Z;
  cs_hop : Z;
  cs_last_unmapped : Z;
}.
#[export] Instance ChannelSelection1_eta : Eta ChannelSelection1 := λ s,
  mkChannelSelection1 (cs_map s) (cs_used s) (cs_used_len s) (cs_hop s)
    (cs_last_unmapped s).
#[export] Instance ChannelSelection1_eq_dec : EqDecision ChannelSelection1.
Proof. solve_decision. Defined.

(** One iteration of the [for channel in 0..37u8] loop, and the loop. *)
(*! crates/ble-controller/src/link_layer.rs 1117-1122 ChannelSelection1::new *)
Definition collect_step (map : list Z) (acc : list Z * nat) (channel : Z) : list Z * nat :=
  let '(used, used_len) := acc in
  if channel_enabled map channel then (<[used_len := channel]> used, S used_len)
  else (used, used_len).

(*! crates/ble-controller/src/link_layer.rs 1152-1159 ChannelSelection1::update_map *)
Definition collect_used (map : list Z) : list Z * nat :=
  foldl (collect_step map) (replicate 37 0, 0%nat) (seqZ 0 37).

(*! crates/ble-controller/src/link_layer.rs 1111-1130 ChannelSelection1::new *)
Definition cs_new (map : list Z) (hop : Z) : result Error ChannelSelection1 :=
  if negb ((5 <=? hop) && (hop <=? 16)) || negb (data_channel_map_is_valid map) then
    Err ErrorInvalidPacket
  else
    let '(used, used_len) := collect_used map in
    Ok (mkChannelSelection1 map used (u8 (Z.of_nat used_len)) hop 0).

(** [None] is a panic: a zero [used_len], an index out of bounds, or the
    [unwrap] of [Channel::new]. *)
(*! crates/ble-controller/src/link_layer.rs 1132-1141 ChannelSelection1::next_channel *)
Definition cs_next_channel (s : ChannelSelection1) : option (Channel * ChannelSelection1) :=
  let unmapped := u8 (cs_last_unmapped s + cs_hop s) mod 37 in
  let s := s <| cs_last_unmapped := unmapped |> in
  mapped ← (if channel_enabled (cs_map s) unmapped then Some unmapped
            else if cs_used_len s =? 0 then None
            else cs_used s !! Z.to_nat (unmapped mod cs_used_len s));
  match channel_new mapped with
  | Ok c => Some (c, s)
  | Err _ => None
  end.

(*! crates/ble-controller/src/link_layer.rs 1148-1164 ChannelSelection1::update_map *)
Definition cs_update_map (s : ChannelSelection1) (map : list Z)
  : result Error ChannelSelection1 :=
  if negb (data_channel_map_is_valid map) then Err ErrorInvalidPacket
  else
    let '(used, used_len) := collect_used map in
    Ok (s <| cs_map := map |> <| cs_used := used |>
          <| cs_used_len := u8 (Z.of_nat used_len) |>).

(** A run of [n] consecutive connection events. *)
Fixpoint cs_run (n : nat) (s : ChannelSelection1) : option (list Channel * ChannelSelection1) :=
  match n with
  | O => Some ([], s)
  | S n => '(c, s) ← cs_next_channel s;
           '(cs, s) ← cs_run n s;
           Some (c :: cs, s)
  end.

(** ** Well-formed maps and their enabled channels *)

Definition wf_map (map : list Z) : Prop := length map = 5%nat ∧ bytes_ok map.

(** The specification of [used]: the enabled data channels in increasing order. *)
Definition enabled_channels (map : list Z) : list Z :=
  List.filter (channel_enabled map) (seqZ 0 37).

Lemma count_ones_octet b :
  is_u8 b → count_ones b = Z.of_nat (length (List.filter (bit_set b) (seqZ 0 8))).
Proof.
  intros Hb. apply Z.eqb_eq. revert b Hb.
  apply (forall_u8 (λ b, count_ones b =? _)). by vm_compute.
Qed.

Lemma top_bits_clear b :
  is_u8 b → (Z.land b 0xe0 =? 0) = true ↔
    bit_set b 5 = false ∧ bit_set b 6 = false ∧ bit_set b 7 = false.
Proof.
  intros Hb. assert (Bool.eqb (Z.land b 0xe0 =? 0)
    (negb (bit_set b 5) && negb (bit_set b 6) && negb (bit_set b 7)) = true) as H.
  { revert b Hb.
    apply (forall_u8 (λ b, Bool.eqb _ (negb (bit_set b 5) && _ && _))). by vm_compute. }
  apply eqb_prop in H. rewrite H, !andb_true_iff, !negb_true_iff. tauto.
Qed.

(** [n] consecutive channels from [off], as shifted octet positions. *)
Definition seqZ_at (off n : Z) : list Z := List.map (λ k, k + off) (seqZ 0 n).

Lemma length_filter_at f off n :
  length (List.filter f (seqZ_at off n)) =
  length (List.filter (λ k, f (k + off)) (seqZ 0 n)).
Proof.
  unfold seqZ_at. induction (seqZ 0 n) as [|k l IH]; [done|].
  cbn [List.map List.filter]. destruct (f (k + off)); cbn [length]; by rewrite IH.
Qed.

Lemma wf_map_octets map : wf_map map →
  ∃ b0 b1 b2 b3 b4, map = [b0; b1; b2; b3; b4] ∧
    is_u8 b0 ∧ is_u8 b1 ∧ is_u8 b2 ∧ is_u8 b3 ∧ is_u8 b4.
Proof.
  intros [Hlen Hok]. do 6 (destruct map as [|? map]; try done).
  split_bytes.
  do 5 eexists. split_and!; done.
Qed.

(** The code counts bits octet by octet; the map is valid exactly when bits 37
    to 39 are clear and at least two data channels are enabled. *)
Lemma data_channel_map_valid_spec map : wf_map map →
  data_channel_map_is_valid map = true ↔
    (∀ ch, 37 ≤ ch < 40 → channel_enabled map ch = false) ∧
    (2 ≤ length (enabled_channels map))%nat.
Proof.
  intros (b0 & b1 & b2 & b3 & b4 & -> & H0 & H1 & H2 & H3 & H4)%wf_map_octets.
  assert ((∀ ch, 37 ≤ ch < 40 → channel_enabled [b0; b1; b2; b3; b4] ch = false) ↔
    bit_set b4 5 = false ∧ bit_set b4 6 = false ∧ bit_set b4 7 = false) as ->.
  { split.
    - intros H. repeat split; [apply (H 37)|apply (H 38)|apply (H 39)]; lia.
    - intros (H5 & H6 & H7) ch Hch.
      assert (ch = 37 ∨ ch = 38 ∨ ch = 39) as [->|[->| ->]] by lia; done. }
  unfold data_channel_map_is_valid. cbn [lookup_total list_lookup_total foldl].
  rewrite <- top_bits_clear by done.
  destruct (Z.land b4 0xe0 =? 0) eqn:Htop; cbn [negb]; [|naive_solver].
  apply top_bits_clear in Htop as (H5 & H6 & H7); [|done].
  unfold enabled_channels. change (seqZ 0 37) with
    (seqZ 0 8 ++ (seqZ_at 8 8 ++ seqZ_at 16 8 ++ seqZ_at 24 8 ++ seqZ_at 32 5)).
  rewrite !List.filter_app, !length_app, !count_ones_octet, !length_filter_at by done.
  change (List.filter (bit_set b4) (seqZ 0 8)) with
    (List.filter (bit_set b4) (seqZ 0 5 ++ [5; 6; 7])).
  rewrite List.filter_app. cbn [List.filter app]. rewrite H5, H6, H7, app_nil_r.
  set (m := [b0; b1; b2; b3; b4]).
  change (List.filter (channel_enabled m) (seqZ 0 8))
    with (List.filter (bit_set b0) (seqZ 0 8)).
  change (List.filter (λ k, channel_enabled m (k + 8)) (seqZ 0 8))
    with (List.filter (bit_set b1) (seqZ 0 8)).
  change (List.filter (λ k, channel_enabled m (k + 16)) (seqZ 0 8))
    with (List.filter (bit_set b2) (seqZ 0 8)).
  change (List.filter (λ k, channel_enabled m (k + 24)) (seqZ 0 8))
    with (List.filter (bit_set b3) (seqZ 0 8)).
  change (List.filter (λ k, channel_enabled m (k + 32)) (seqZ 0 5))
    with (List.filter (bit_set b4) (seqZ 0 5)).
  rewrite Z.leb_le. split; [intros; split; [done|lia]|lia].
Qed.

(** ** The [used] table *)

Lemma collect_foldl map chs pre k :
  (length chs ≤ k)%nat →
  foldl (collect_step map) (pre ++ replicate k 0, length pre) chs =
    let f := List.filter (channel_enabled map) chs in
    (pre ++ f ++ replicate (k - length f) 0, (length pre + length f)%nat).
Proof.
  revert pre k. induction chs as [|ch chs IH]; intros pre k Hk; cbn [foldl List.filter].
  { cbn. by rewrite Nat.sub_0_r, Nat.add_0_r. }
  cbn [length] in Hk. cbn [collect_step].
  destruct (channel_enabled map ch); [|rewrite IH by lia; done].
  destruct k as [|k]; [lia|].
  replace (<[length pre := ch]> (pre ++ replicate (S k) 0), S (length pre)) with
    ((pre ++ [ch]) ++ replicate k 0, length (pre ++ [ch])).
  - rewrite IH by lia. cbn zeta. rewrite length_app. cbn [length].
    rewrite <- !app_assoc. cbn [app]. f_equal; lia.
  - rewrite length_app, insert_app_r_alt, Nat.sub_diag by lia. cbn.
    by rewrite <- app_assoc, Nat.add_1_r.
Qed.

Lemma enabled_channels_length map : (length (enabled_channels map) ≤ 37)%nat.
Proof. exact (List.filter_length_le _ (seqZ 0 37)). Qed.

Lemma collect_used_spec map :
  collect_used map =
    (enabled_channels map ++ replicate (37 - length (enabled_channels map)) 0,
     length (enabled_channels map)).
Proof. exact (collect_foldl map (seqZ 0 37) [] 37 ltac:(by vm_compute; lia)). Qed.

Lemma elem_of_enabled map ch :
  ch ∈ enabled_channels map ↔ 0 ≤ ch < 37 ∧ channel_enabled map ch = true.
Proof.
  unfold enabled_channels.
  rewrite list_elem_of_In, List.filter_In, <- list_elem_of_In, elem_of_seqZ. done.
Qed.

(** ** Invariant and specification of CSA#1 *)

Record cs_ok (s : ChannelSelection1) : Prop := mk_cs_ok {
  cs_ok_map : wf_map (cs_map s);
  cs_ok_valid : data_channel_map_is_valid (cs_map s) = true;
  cs_ok_used : cs_used s = enabled_channels (cs_map s) ++
                 replicate (37 - length (enabled_channels (cs_map s))) 0;
  cs_ok_len : cs_used_len s = Z.of_nat (length (enabled_channels (cs_map s)));
  cs_ok_hop : 5 ≤ cs_hop s ≤ 16;
  cs_ok_last : 0 ≤ cs_last_unmapped s < 37;
}.

(** Core Vol 6 Part B 4.5.8.2: the unmapped channel if it is enabled, otherwise
    the entry of the enabled-channel table it selects modulo the table size. *)
Definition csa1_remap (map : list Z) (unmapped : Z) : Z :=
  if channel_enabled map unmapped then unmapped
  else enabled_channels map !!! Z.to_nat (unmapped mod Z.of_nat (length (enabled_channels map))).

Lemma valid_map_two map : wf_map map → data_channel_map_is_valid map = true →
  (2 ≤ length (enabled_channels map) ≤ 37)%nat.
Proof.
  intros Hwf [_ ?]%data_channel_map_valid_spec; [|done].
  pose proof (enabled_channels_length map). lia.
Qed.

Lemma csa1_remap_enabled map u : wf_map map → data_channel_map_is_valid map = true →
  0 ≤ u < 37 → csa1_remap map u ∈ enabled_channels map.
Proof.
  intros Hwf Hv Hu. unfold csa1_remap. destruct (channel_enabled map u) eqn:Hen.
  { by apply elem_of_enabled. }
  pose proof (valid_map_two _ Hwf Hv).
  apply list_elem_of_lookup_total_2.
  pose proof (Z.mod_pos_bound u (Z.of_nat (length (enabled_channels map)))). lia.
Qed.

Lemma cs_new_ok map hop s : wf_map map → cs_new map hop = Ok s →
  cs_ok s ∧ cs_map s = map ∧ cs_hop s = hop ∧ cs_last_unmapped s = 0.
Proof.
  intros Hwf. unfold cs_new. rewrite collect_used_spec.
  case_match eqn:Hg; [done|]. intros [= <-]. bool_to_prop.
  pose proof (enabled_channels_length map).
  split; [|done]. split; cbn; auto; try lia.
  apply wrap_small. unfold_ints. lia.
Qed.

Lemma cs_update_map_ok s map s' : cs_ok s → wf_map map → cs_update_map s map = Ok s' →
  cs_ok s' ∧ cs_map s' = map ∧ cs_hop s' = cs_hop s ∧
  cs_last_unmapped s' = cs_last_unmapped s.
Proof.
  intros Hs Hwf. unfold cs_update_map. rewrite collect_used_spec.
  case_match eqn:Hg; [done|]. intros [= <-]. bool_to_prop.
  pose proof (enabled_channels_length map). destruct Hs.
  split; [|done]. split; cbn; auto; try lia.
  apply wrap_small. unfold_ints. lia.
Qed.

(** One step of the implementation computes the specified channel, never
    panics, and advances only the phase. *)
Lemma cs_next_channel_spec s : cs_ok s →
  let u := (cs_last_unmapped s + cs_hop s) mod 37 in
  cs_next_channel s =
    Some (mkChannel (csa1_remap (cs_map s) u), s <| cs_last_unmapped := u |>).
Proof.
  intros [Hwf Hv Hused Hlen Hhop Hlast] u. unfold cs_next_channel.
  rewrite (wrap_small 8) by (unfold_ints; lia). fold u.
  assert (Hu : 0 ≤ u < 37) by (apply Z.mod_pos_bound; lia).
  assert (Hr : 0 ≤ csa1_remap (cs_map s) u < 37)
    by (eapply elem_of_enabled, csa1_remap_enabled; eauto).
  cbn. destruct (channel_enabled (cs_map s) u) eqn:Hen.
  - cbn. unfold csa1_remap, channel_new in *. rewrite Hen in *.
    by rewrite (proj2 (Z.leb_le u 39)) by lia.
  - pose proof (valid_map_two _ Hwf Hv) as Htwo.
    rewrite (proj2 (Z.eqb_neq _ 0)) by lia.
    pose proof (Z.mod_pos_bound u (cs_used_len s)).
    rewrite Hused, lookup_app_l by lia.
    rewrite list_lookup_lookup_total_lt by lia. cbn.
    unfold csa1_remap, channel_new in *. rewrite Hen, <- Hlen in *.
    by rewrite (proj2 (Z.leb_le _ 39)) by lia.
Qed.

Lemma cs_last_unmapped_ok s u : cs_ok s → 0 ≤ u < 37 →
  cs_ok (s <| cs_last_unmapped := u |>).
Proof. intros [] ?. by split. Qed.

Lemma hop_reaches hop d : 5 ≤ hop ≤ 16 → 0 ≤ d < 37 →
  ∃ k, 1 ≤ k ≤ 37 ∧ (k * hop) mod 37 = d.
Proof.
  intros Hhop Hd.
  assert (forallb (λ hop, forallb (λ d,
    existsb (λ k, (k * hop) mod 37 =? d) (seqZ 1 37)) (seqZ 0 37)) (seqZ 5 12) = true) as H
    by (by vm_compute).
  rewrite forallb_forall in H. specialize (H hop).
  rewrite <- list_elem_of_In, elem_of_seqZ, forallb_forall in H.
  specialize (H ltac:(lia) d). rewrite <- list_elem_of_In, elem_of_seqZ in H.
  specialize (H ltac:(lia)). apply existsb_exists in H as (k & Hk & He).
  apply list_elem_of_In, elem_of_seqZ in Hk. apply Z.eqb_eq in He.
  exists k. split; [lia|done].
Qed.

Definition csa1_schedule (s : ChannelSelection1) (n : nat) : list Channel :=
  (λ k, mkChannel (csa1_remap (cs_map s) ((cs_last_unmapped s + k * cs_hop s) mod 37)))
    <$> seqZ 1 (Z.of_nat n).

Lemma cs_run_spec n s : cs_ok s →
  cs_run n s = Some (csa1_schedule s n,
    s <| cs_last_unmapped := (cs_last_unmapped s + Z.of_nat n * cs_hop s) mod 37 |>).
Proof.
  revert s. induction n as [|n IH]; intros s Hs.
  { destruct s as [? ? ? ? last]; destruct Hs; cbn in *.
    by rewrite Z.add_0_r, Z.mod_small by lia. }
  cbn [cs_run]. rewrite cs_next_channel_spec by done.
  cbn [mbind option_bind]. set (u := (cs_last_unmapped s + cs_hop s) mod 37).
  rewrite IH by (apply cs_last_unmapped_ok; [done|apply Z.mod_pos_bound; lia]).
  cbn [mbind option_bind]. f_equal. f_equal.
  - unfold csa1_schedule. rewrite (seqZ_cons 1 (Z.of_nat (S n))) by lia.
    rewrite fmap_cons, Z.mul_1_l. f_equal.
    replace (Z.pred (Z.of_nat (S n))) with (Z.of_nat n) by lia.
    change (Z.succ 1) with (1 + 1). rewrite <- (fmap_add_seqZ 1 1), <- list_fmap_compose.
    apply list_fmap_ext. intros ? k _. cbn. f_equal. f_equal.
    unfold u. rewrite Zplus_mod_idemp_l. f_equal. lia.
  - destruct s; cbn. f_equal. unfold u. cbn. rewrite Zplus_mod_idemp_l. f_equal. lia.
Qed.

(** ** Properties *)

(** A concrete selector for the witnesses: channels 1, 9, 36 and hop 7. *)
Definition sample_map : list Z := [0x02; 0x02; 0x00; 0x00; 0x10].
Definition sample_selector : ChannelSelection1 :=
  mkChannelSelection1 sample_map (fst (collect_used sample_map)) 3 7 0.

Lemma sample_map_wf : wf_map sample_map.
Proof. split; [done|]. unfold bytes_ok, fits. repeat constructor; lia. Qed.

Lemma sample_selector_ok : cs_ok sample_selector.
Proof. apply (cs_new_ok sample_map 7); [apply sample_map_wf|by vm_compute]. Qed.


(** C28: Channel Selection Algorithm #1 is implemented by [next_channel]: from a
    well-formed selector, the [n] channels of [n] consecutive connection events
    are exactly the remapping of [lastUnmapped + k * hop (mod 37)] for
    [k = 1 .. n]; no step panics, and only the phase of the selector changes. *)
Theorem csa1_run_refines n s :
  cs_ok s →
  cs_run n s = Some (csa1_schedule s n,
    s <| cs_last_unmapped := (cs_last_unmapped s + Z.of_nat n * cs_hop s) mod 37 |>).
Proof. apply cs_run_spec. Qed.

Lemma csa1_run_refines_witness :
  cs_run 3 sample_selector =
    Some ([mkChannel 9; mkChannel 36; mkChannel 1],
          sample_selector <| cs_last_unmapped := 21 |>).
Proof.
  rewrite (csa1_run_refines 3 sample_selector sample_selector_ok). vm_compute. reflexivity.
Defined.

(** Fair hopping: in any 37 consecutive connection events the channels used
    are exactly the enabled channels of the map, and the phase returns to where
    it started. *)
Theorem csa1_covers_enabled s :
  cs_ok s →
  ∃ cs, cs_run 37 s = Some (cs, s) ∧
    ∀ c, c ∈ cs ↔ ∃ ch, c = mkChannel ch ∧ ch ∈ enabled_channels (cs_map s).
Proof.
  intros Hs. exists (csa1_schedule s 37). rewrite cs_run_spec by done. destruct Hs.
  split; [|intros c; split].
  - change (Z.of_nat 37) with 37.
    rewrite (Z.mul_comm 37), Z.mod_add, Z.mod_small by lia. by destruct s.
  - intros (k & -> & Hk)%list_elem_of_fmap. eexists. split; [done|].
    apply csa1_remap_enabled; auto. apply Z.mod_pos_bound. lia.
  - intros (ch & -> & (Hch & Hen)%elem_of_enabled).
    destruct (hop_reaches (cs_hop s) ((ch - cs_last_unmapped s) mod 37))
      as (k & Hk & Hkd); [done|apply Z.mod_pos_bound; lia|].
    apply list_elem_of_fmap. exists k. split; [|apply elem_of_seqZ; lia].
    rewrite <- Zplus_mod_idemp_r, Hkd, Zplus_mod_idemp_r.
    rewrite Zplus_minus, Z.mod_small by lia. unfold csa1_remap. by rewrite Hen.
Qed.

Lemma csa1_covers_enabled_witness :
  ∃ cs, cs_run 37 sample_selector = Some (cs, sample_selector) ∧
    ∀ c, c ∈ cs ↔ ∃ ch, c = mkChannel ch ∧ ch ∈ [1; 9; 36].
Proof. exact (csa1_covers_enabled sample_selector sample_selector_ok). Defined.

(** [update_map] accepts exactly the valid maps; the selector it returns is
    well formed, keeps the hop and the unmapped phase, and its next channel is
    the remapping, in the new map, of the phase the old map had reached. *)
Theorem csa1_update_map_phase s map :
  cs_ok s → wf_map map →
  match cs_update_map s map with
  | Err e => e = ErrorInvalidPacket ∧ data_channel_map_is_valid map = false
  | Ok s' =>
      data_channel_map_is_valid map = true ∧ cs_ok s' ∧
      fst <$> cs_next_channel s' =
        Some (mkChannel (csa1_remap map ((cs_last_unmapped s + cs_hop s) mod 37)))
  end.
Proof.
  intros Hs Hwf. destruct (cs_update_map s map) as [s'|e] eqn:Hu.
  - destruct (cs_update_map_ok _ _ _ Hs Hwf Hu) as (Hs' & Hmap & Hhop & Hlast).
    split; [by destruct Hs'; rewrite <- Hmap|]. split; [done|].
    rewrite cs_next_channel_spec by done. cbn. by rewrite Hmap, Hhop, Hlast.
  - unfold cs_update_map in Hu. repeat case_match; simplify_eq. by bool_to_prop.
Qed.

Lemma csa1_update_map_phase_witness :
  match cs_update_map sample_selector [0xff; 0; 0; 0; 0] with
  | Ok s => fst <$> cs_next_channel s = Some (mkChannel 7)
  | Err _ => False
  end.
Proof.
  assert (Hwf : wf_map [0xff; 0; 0; 0; 0])
    by (split; [done|]; unfold bytes_ok, fits; repeat constructor; lia).
  pose proof (csa1_update_map_phase sample_selector _ sample_selector_ok Hwf) as H.
  destruct (cs_update_map sample_selector [0xff; 0; 0; 0; 0]) as [s|e].
  - destruct H as (_ & _ & H). rewrite H. vm_compute. reflexivity.
  - destruct H as [_ H]. vm_compute in H. discriminate H.
Defined.

(** Every channel [Channel::new] accepts has a defined centre frequency, an
    even number of MHz in 2402 .. 2480, and distinct channels have distinct
    frequencies: the mapping is total and injective on the 40 channels. *)
Theorem frequency_total_injective i j ci cj :
  0 ≤ i → 0 ≤ j → channel_new i = Ok ci → channel_new j = Ok cj →
  ∃ fi fj, frequency_mhz ci = Some fi ∧ frequency_mhz cj = Some fj ∧
    2402 ≤ fi ≤ 2480 ∧ fi mod 2 = 0 ∧ (fi = fj → ci = cj).
Proof.
  unfold channel_new. intros Hi Hj. repeat case_match; [|done..]. intros [= <-] [= <-].
  unfold frequency_mhz. cbn.
  repeat case_match; try lia; do 2 eexists; (split; [done|]); (split; [done|]);
    (split; [int_lia|]); (split; [int_lia|]); intros; f_equal; int_lia.
Qed.

Lemma frequency_total_injective_witness :
  ∃ fi fj, frequency_mhz ADV_37 = Some fi ∧ frequency_mhz (mkChannel 0) = Some fj ∧
    2402 ≤ fi ≤ 2480 ∧ fi mod 2 = 0 ∧ (fi = fj → ADV_37 = mkChannel 0).
Proof. apply (frequency_total_injective 37 0); (lia || reflexivity). Defined.
