(* ===== verification/Transforms.v ===== *)
(** * PHY bit transforms: CRC24 and data whitening

    Models [crates/ble-controller/src/crc.rs] and [whitening.rs], and relates
    them to their Core-specification shift registers: the CRC is the remainder
    modulo the generator polynomial, it detects every error burst of at most 24
    bits, and whitening is the exclusive-or with the output of the
    [x^7 + x^4 + 1] register. *)

From S2P Require Import Prelude.

(** ** CRC24 *)

Module Crc.

(** One iteration of the inner loop, on one transmitted bit. *)
(*! crates/ble-controller/src/crc.rs 10-15 crc24 *)
Definition crc_step (state input : Z) : Z :=
  let feedback := Z.lxor (u8 (Z.shiftr state 23)) input in
  let state := Z.land (Z.shiftl state 1) 0x00ffffff in
  if negb (feedback =? 0) then Z.lxor state 0x0000065b else state.

(** The bit [(byte >> bit) & 1], for [bit] in [0..8]. *)
(*! crates/ble-controller/src/crc.rs 9-10 crc24 *)
Definition byte_bits (byte : Z) : list Z :=
  (λ bit, Z.land (Z.shiftr byte bit) 1) <$> seqZ 0 8.

(*! crates/ble-controller/src/crc.rs 6-19 crc24 *)
Definition crc24 (data : list Z) (init : Z) : Z :=
  foldl (λ state byte, foldl crc_step state (byte_bits byte))
    (Z.land init 0x00ffffff) data.

Example crc24_regression :
  crc24 [0x00; 0x06; 0xa1; 0xa2; 0xa3; 0xa4; 0xa5; 0xa6] 0x555555 = 0xa4092b.
Proof. by vm_compute. Qed.

(** The message as the sequence of transmitted bits. *)
Definition message_bits (data : list Z) : list Z := data ≫= byte_bits.

Definition is_bit (b : Z) : Prop := b = 0 ∨ b = 1.

Lemma crc24_bits data init :
  crc24 data init = foldl crc_step (Z.land init 0x00ffffff) (message_bits data).
Proof.
  unfold crc24. generalize (Z.land init 0x00ffffff) as s.
  induction data as [|b data IH]; intros s; [done|].
  cbn [foldl message_bits mbind list_bind]. by rewrite IH, foldl_app.
Qed.

Lemma byte_bits_ok byte : Forall is_bit (byte_bits byte).
Proof.
  apply Forall_fmap, Forall_true. intros bit. cbn.
  rewrite (Z.land_ones _ 1) by lia. change (2 ^ 1) with 2.
  unfold is_bit. Z.div_mod_to_equations. lia.
Qed.

Lemma message_bits_ok data : Forall is_bit (message_bits data).
Proof.
  apply Forall_bind, Forall_true. apply byte_bits_ok.
Qed.

(** *** The register in arithmetic form *)

Lemma crc_step_fits state b : fits 24 (crc_step state b).
Proof.
  unfold crc_step. change 0x00ffffff with (Z.ones 24). rewrite Z.land_ones by lia.
  case_match; [apply lxor_fits; [done| |done]|]; apply Z.mod_pos_bound; lia.
Qed.

Lemma crc_run_fits bits state : fits 24 state → fits 24 (foldl crc_step state bits).
Proof.
  revert state. induction bits as [|b bits IH]; intros state Hs; [done|].
  apply IH, crc_step_fits.
Qed.

(** The top bit of the register. *)
Lemma top_bit state : fits 24 state →
  u8 (Z.shiftr state 23) = Z.b2z (Z.testbit state 23).
Proof.
  intros Hs. rewrite wrap_small.
  - rewrite Z.shiftr_div_pow2 by lia. rewrite Z.testbit_spec' by lia.
    symmetry. apply Z.mod_small. unfold fits in Hs.
    split; [apply Z.div_pos; lia|apply Z.div_lt_upper_bound; lia].
  - rewrite Z.shiftr_div_pow2 by lia. unfold fits in *.
    change (2 ^ 24) with (2 ^ 23 * 2) in Hs.
    split; [apply Z.div_pos; lia|apply Z.div_lt_upper_bound; lia].
Qed.

Definition feedback (state b : Z) : bool :=
  xorb (Z.testbit state 23) (negb (b =? 0)).

Lemma crc_step_testbit state b i : fits 24 state → is_bit b → 0 ≤ i →
  Z.testbit (crc_step state b) i =
    xorb ((i <? 24) && (0 <? i) && Z.testbit state (i - 1))
         (feedback state b && Z.testbit 0x65b i).
Proof.
  intros Hs Hb Hi. unfold crc_step. rewrite top_bit by done.
  assert (negb (Z.lxor (Z.b2z (Z.testbit state 23)) b =? 0) = feedback state b) as ->.
  { unfold feedback. destruct (Z.testbit state 23), Hb as [-> | ->]; done. }
  assert (Z.testbit (Z.land (Z.shiftl state 1) 0xffffff) i =
    (i <? 24) && (0 <? i) && Z.testbit state (i - 1)) as Hsh.
  { rewrite Z.land_spec, Z.shiftl_spec by lia. change 0xffffff with (Z.ones 24).
    destruct (Z.ltb_spec i 24).
    - rewrite Z.ones_spec_low, andb_true_r by lia.
      destruct (Z.ltb_spec 0 i); [done|]. by rewrite Z.testbit_neg_r by lia.
    - by rewrite Z.ones_spec_high, andb_false_r by lia. }
  destruct (feedback state b); cbn [andb]; rewrite ?Z.lxor_spec, Hsh, ?xorb_false_r; done.
Qed.

Lemma feedback_lxor s1 s2 b1 b2 : is_bit b1 → is_bit b2 →
  feedback (Z.lxor s1 s2) (Z.lxor b1 b2) = xorb (feedback s1 b1) (feedback s2 b2).
Proof.
  intros H1 H2. unfold feedback. rewrite Z.lxor_spec.
  destruct H1 as [-> | ->], H2 as [-> | ->], (Z.testbit s1 23), (Z.testbit s2 23); done.
Qed.

Lemma is_bit_lxor b1 b2 : is_bit b1 → is_bit b2 → is_bit (Z.lxor b1 b2).
Proof. intros [-> | ->] [-> | ->]; (by left) || by right. Qed.

(** The register is linear over GF(2). *)
Lemma crc_step_lxor s1 s2 b1 b2 :
  fits 24 s1 → fits 24 s2 → is_bit b1 → is_bit b2 →
  crc_step (Z.lxor s1 s2) (Z.lxor b1 b2) = Z.lxor (crc_step s1 b1) (crc_step s2 b2).
Proof.
  intros. apply Z.bits_inj'. intros i Hi.
  rewrite Z.lxor_spec, !crc_step_testbit, feedback_lxor, Z.lxor_spec
    by auto using lxor_fits, is_bit_lxor with lia.
  destruct ((i <? 24) && (0 <? i)), (feedback s1 b1), (feedback s2 b2),
    (Z.testbit s1 (i - 1)), (Z.testbit s2 (i - 1)), (Z.testbit 0x65b i); done.
Qed.

Lemma crc_run_lxor w1 w2 s1 s2 :
  fits 24 s1 → fits 24 s2 → Forall is_bit w1 → Forall is_bit w2 → length w1 = length w2 →
  foldl crc_step (Z.lxor s1 s2) (zip_with Z.lxor w1 w2) =
    Z.lxor (foldl crc_step s1 w1) (foldl crc_step s2 w2).
Proof.
  intros H1 H2 Hw1. revert s1 s2 H1 H2 w2.
  induction Hw1 as [|b1 w1 Hb1 _ IH]; intros s1 s2 H1 H2 w2 Hw2 Hlen;
    destruct Hw2 as [|b2 w2 Hb2 Hw2]; simplify_eq/=; [done|].
  rewrite crc_step_lxor by done. apply IH; auto using crc_step_fits.
Qed.

(** If the low [j] bits are clear after a step, the step fed nothing back and
    the low [j - 1] bits were clear before it. *)
Definition low_clear (j s : Z) : Prop := ∀ i, 0 ≤ i < j → Z.testbit s i = false.

Lemma crc_step_back s b j : fits 24 s → is_bit b → 1 ≤ j ≤ 24 →
  low_clear j (crc_step s b) → feedback s b = false ∧ low_clear (j - 1) s.
Proof.
  intros Hs Hb Hj Hlow. assert (Hf : feedback s b = false).
  { specialize (Hlow 0 ltac:(lia)). rewrite crc_step_testbit in Hlow by (done || lia).
    cbn in Hlow. by rewrite andb_true_r in Hlow. }
  split; [done|]. intros i Hi. specialize (Hlow (i + 1) ltac:(lia)).
  rewrite crc_step_testbit, Hf in Hlow by (done || lia). cbn [andb] in Hlow.
  rewrite xorb_false_r, (proj2 (Z.ltb_lt _ _)), (proj2 (Z.ltb_lt _ _)) in Hlow by lia.
  by rewrite Z.add_simpl_r in Hlow.
Qed.

Lemma low_clear_zero s : fits 24 s → low_clear 24 s → s = 0.
Proof.
  intros Hs Hlow. apply Z.bits_inj'. intros i Hi. rewrite Z.bits_0.
  destruct (Z.lt_ge_cases i 24); [apply Hlow; lia|by eapply testbit_high].
Qed.

Lemma crc_step_zero s : fits 24 s → crc_step s 0 = 0 → s = 0.
Proof.
  intros Hs H0. destruct (crc_step_back s 0 24) as [Hf Hlow]; [done|by left|lia|..].
  { rewrite H0. intros i _. apply Z.bits_0. }
  apply low_clear_zero; [done|]. intros i Hi. destruct (decide (i = 23)) as [->|].
  - unfold feedback in Hf. cbn in Hf. by rewrite xorb_false_r in Hf.
  - apply Hlow. lia.
Qed.

Lemma zip_with_lxor_diag w : Forall is_bit w → zip_with Z.lxor w w = replicate (length w) 0.
Proof. induction 1; cbn; [done|]. rewrite Z.lxor_nilpotent. by f_equal. Qed.

(** Distinct registers stay distinct whatever common bits follow. *)
Lemma crc_run_inj w s1 s2 : Forall is_bit w → fits 24 s1 → fits 24 s2 →
  foldl crc_step s1 w = foldl crc_step s2 w → s1 = s2.
Proof.
  intros Hw H1 H2 Heq. apply Z.lxor_eq_0_iff.
  assert (H0 : foldl crc_step (Z.lxor s1 s2) (replicate (length w) 0) = 0).
  { by rewrite <- zip_with_lxor_diag, crc_run_lxor, Heq, Z.lxor_nilpotent. }
  assert (Hf : fits 24 (Z.lxor s1 s2)) by (by apply lxor_fits).
  revert H0 Hf. generalize (Z.lxor s1 s2). clear. induction (length w) as [|n IH]; cbn; [done|].
  intros d H0 Hd. apply crc_step_zero, IH; auto using crc_step_fits.
Qed.

(** From the zero register, at most 24 bits reach zero only if they are all zero. *)
Lemma crc_run_zero_window D j : Forall is_bit D → Z.of_nat (length D) ≤ j ≤ 24 →
  low_clear j (foldl crc_step 0 D) → Forall (eq 0) D.
Proof.
  revert j. induction D as [|b D IH] using rev_ind; intros j HD Hj Hlow; [done|].
  apply Forall_app in HD as [HD [Hb _]%Forall_cons_1]. rewrite length_app in Hj. cbn in Hj.
  rewrite foldl_app in Hlow. cbn [foldl] in Hlow.
  apply crc_step_back in Hlow as [Hf Hlow]; [|by apply crc_run_fits|done|lia].
  apply IH in Hlow; [|done|lia]. apply Forall_app; split; [done|].
  assert (H0 : foldl crc_step 0 D = 0) by (clear -Hlow; induction Hlow as [|? ? <-]; done).
  rewrite H0 in Hf. destruct Hb as [-> | ->]; [by constructor|done].
Qed.

Lemma crc_window_detect w1 w2 s : fits 24 s → Forall is_bit w1 → Forall is_bit w2 →
  length w1 = length w2 → (length w1 ≤ 24)%nat →
  foldl crc_step s w1 = foldl crc_step s w2 → w1 = w2.
Proof.
  intros Hs H1 H2 Hlen H24 Heq.
  assert (Forall (eq 0) (zip_with Z.lxor w1 w2)) as Hz.
  { apply (crc_run_zero_window _ 24).
    - clear -H1 H2. revert w2 H2. induction H1; intros ? []; cbn; auto using is_bit_lxor.
    - rewrite length_zip_with. lia.
    - rewrite <- (Z.lxor_nilpotent s), crc_run_lxor, Heq, Z.lxor_nilpotent by done.
      intros i _. apply Z.bits_0. }
  clear -Hlen Hz. revert w2 Hlen Hz. induction w1 as [|b1 w1 IH]; intros [|b2 w2] ? Hz;
    simplify_eq/=; [done|].
  apply Forall_cons_1 in Hz as [Hb Hz]. f_equal; [|by apply IH].
  by apply Z.lxor_eq_0_iff.
Qed.

(** *** Polynomial long division *)

(** [x^24 + x^10 + x^9 + x^6 + x^4 + x^3 + x + 1]. *)
Definition generator : Z := 0x100065b.

(** A bit string as a polynomial, first transmitted bit first. *)
Fixpoint bits_poly (bits : list Z) : Z :=
  match bits with
  | [] => 0
  | b :: bits => Z.lxor (Z.shiftl b (Z.of_nat (length bits))) (bits_poly bits)
  end.

(** Schoolbook remainder modulo [generator]: clear bit [24 + k] for [k] from
    [n - 1] down to 0. *)
Fixpoint poly_mod (n : nat) (a : Z) : Z :=
  match n with
  | O => a
  | S k => poly_mod k (if Z.testbit a (24 + Z.of_nat k)
                       then Z.lxor a (Z.shiftl generator (Z.of_nat k)) else a)
  end.

Lemma bits_poly_fits bits : Forall is_bit bits →
  fits (Z.of_nat (length bits)) (bits_poly bits).
Proof.
  induction 1 as [|b bits Hb _ IH]; [done|]. cbn [bits_poly length].
  apply lxor_fits; [lia|..].
  - rewrite Z.shiftl_mul_pow2, Nat2Z.inj_succ by lia. unfold fits.
    rewrite Z.pow_succ_r by lia. destruct Hb as [-> | ->]; lia.
  - unfold fits in *. rewrite Nat2Z.inj_succ, Z.pow_succ_r by lia. lia.
Qed.

Lemma crc_step_poly s b : fits 24 s → is_bit b →
  crc_step s b = Z.lxor (Z.lxor (Z.shiftl s 1) (Z.shiftl b 24))
                        (if feedback s b then generator else 0).
Proof.
  intros Hs Hb. apply Z.bits_inj'. intros i Hi.
  rewrite crc_step_testbit, !Z.lxor_spec, !Z.shiftl_spec by done.
  assert (Hg : Z.testbit generator i = xorb (Z.testbit 0x65b i) (Z.testbit (2 ^ 24) i)).
  { by rewrite <- Z.lxor_spec. }
  assert (Hbi : Z.testbit b (i - 24) = (i =? 24) && negb (b =? 0)).
  { destruct Hb as [-> | ->]; cbn [Z.eqb negb]; rewrite ?andb_false_r, ?andb_true_r;
      [apply Z.bits_0|]. destruct (Z.eqb_spec i 24) as [->|]; [done|].
    destruct (Z.lt_ge_cases i 24); [by rewrite Z.testbit_neg_r by lia|].
    apply (testbit_high 1); [done|lia]. }
  rewrite Hbi. clear Hbi.
  destruct (Z.lt_trichotomy i 24) as [Hi'|[-> |Hi']].
  - rewrite (proj2 (Z.ltb_lt i 24)), (proj2 (Z.eqb_neq i 24)) by lia. cbn [andb].
    rewrite xorb_false_r. f_equal.
    + destruct (Z.ltb_spec 0 i); [done|]. by rewrite Z.testbit_neg_r by lia.
    + destruct (feedback s b); cbn [andb]; [|by rewrite Z.bits_0].
      by rewrite Hg, Z.pow2_bits_false, xorb_false_r by lia.
  - change (24 - 1) with 23. unfold feedback.
    by destruct (Z.testbit s 23), Hb as [-> | ->].
  - rewrite (proj2 (Z.ltb_ge i 24)), (proj2 (Z.eqb_neq i 24)) by lia. cbn [andb].
    rewrite (testbit_high 24 s) by (done || lia).
    assert (Z.testbit 0x65b i = false) as -> by (by apply (testbit_high 24); [done|lia]).
    destruct (feedback s b); [|by rewrite Z.bits_0].
    rewrite (testbit_high 25 generator) by (done || lia). done.
Qed.

Lemma poly_mod_crc bits s : Forall is_bit bits → fits 24 s →
  poly_mod (length bits)
    (Z.lxor (Z.shiftl s (Z.of_nat (length bits))) (Z.shiftl (bits_poly bits) 24)) =
  foldl crc_step s bits.
Proof.
  intros Hbits. revert s. induction Hbits as [|b bits Hb Hbits IH]; intros s Hs.
  { cbn. by rewrite Z.lxor_0_r, Z.shiftl_0_r. }
  cbn [poly_mod length foldl bits_poly].
  rewrite <- IH by apply crc_step_fits. f_equal.
  set (m := Z.of_nat (length bits)).
  replace (Z.of_nat (S (length bits))) with (1 + m) by lia.
  rewrite crc_step_poly by done. rewrite <- (Z.shiftl_shiftl s), !Z.shiftl_lxor by lia.
  replace (Z.shiftl (Z.shiftl b m) 24) with (Z.shiftl (Z.shiftl b 24) m)
    by (rewrite !Z.shiftl_shiftl by lia; f_equal; lia).
  assert (Z.testbit (Z.lxor (Z.shiftl (Z.shiftl s 1) m)
    (Z.lxor (Z.shiftl (Z.shiftl b 24) m) (Z.shiftl (bits_poly bits) 24))) (24 + m)
    = feedback s b) as ->.
  { rewrite !Z.lxor_spec, !Z.shiftl_spec by lia.
    rewrite (testbit_high m (bits_poly bits)) by (try apply bits_poly_fits; auto; lia).
    rewrite xorb_false_r. unfold feedback. f_equal; [f_equal; lia|].
    replace (24 + m - m - 24) with 0 by lia. by destruct Hb as [-> | ->]. }
  destruct (feedback s b); rewrite ?Z.shiftl_0_l, ?Z.lxor_0_r, <- ?Z.lxor_assoc; [|done].
  rewrite !Z.lxor_assoc. do 2 f_equal. apply Z.lxor_comm.
Qed.

(** *** Properties *)

(** C39: [crc24] is polynomial division: its result is the remainder of
    [init * x^n + data * x^24] modulo the Core generator polynomial, where [n]
    is the number of transmitted bits, and it always fits 24 bits. *)
Theorem crc24_is_remainder data init :
  let bits := message_bits data in
  crc24 data init =
    poly_mod (length bits)
      (Z.lxor (Z.shiftl (Z.land init 0x00ffffff) (Z.of_nat (length bits)))
              (Z.shiftl (bits_poly bits) 24)) ∧
  fits 24 (crc24 data init).
Proof.
  cbn zeta. assert (fits 24 (Z.land init 0x00ffffff)) by (by apply land_fits_r).
  rewrite poly_mod_crc, crc24_bits by auto using message_bits_ok.
  split; [done|]. by apply crc_run_fits.
Qed.

(** [crc24] detects every error burst of at most 24 transmitted bits: two
    messages that agree outside such a window and differ inside it have
    different CRCs, for every initial value. *)
Theorem crc24_detects_bursts data1 data2 init p w1 w2 s :
  message_bits data1 = p ++ w1 ++ s → message_bits data2 = p ++ w2 ++ s →
  length w1 = length w2 → (length w1 ≤ 24)%nat → w1 ≠ w2 →
  crc24 data1 init ≠ crc24 data2 init.
Proof.
  intros H1 H2 Hlen H24 Hne. rewrite !crc24_bits, H1, H2, !foldl_app. intros Heq. apply Hne.
  pose proof (message_bits_ok data1) as Hb1. pose proof (message_bits_ok data2) as Hb2.
  rewrite H1 in Hb1. rewrite H2 in Hb2. rewrite !Forall_app in Hb1, Hb2.
  assert (fits 24 (foldl crc_step (Z.land init 0xffffff) p))
    by (by apply crc_run_fits, land_fits_r).
  eapply crc_window_detect; [|tauto..|].
  - done.
  - eapply crc_run_inj; [| | |exact Heq]; [tauto|by apply crc_run_fits..].
Qed.

Lemma crc24_detects_bursts_witness : crc24 [0x02; 0x55] 0x555555 ≠ crc24 [0x02; 0x57] 0x555555.
Proof.
  apply (crc24_detects_bursts [0x02; 0x55] [0x02; 0x57] 0x555555
    [0; 1; 0; 0; 0; 0; 0; 0; 1] [0] [1] [1; 0; 1; 0; 1; 0]);
    [reflexivity|reflexivity|reflexivity|cbn; lia|discriminate].
Defined.

End Crc.

(** ** Whitening *)

Module Whitening.

(** The body of [for bit in 0..8], on the register and the current byte. *)
(*! crates/ble-controller/src/whitening.rs 9-13 apply *)
Definition whiten_bit (acc : Z * Z) (bit : Z) : Z * Z :=
  let '(lfsr, value) := acc in
  let '(lfsr, value) :=
    if negb (Z.land lfsr 1 =? 0) then
      (Z.lxor lfsr 0x88, Z.lxor value (u8 (Z.shiftl 1 bit)))
    else (lfsr, value) in
  (Z.shiftr lfsr 1, value).

(*! crates/ble-controller/src/whitening.rs 7-15 apply *)
Definition whiten_byte (lfsr byte : Z) : Z * Z := foldl whiten_bit (lfsr, byte) (seqZ 0 8).

(*! crates/ble-controller/src/whitening.rs 6-16 apply *)
Fixpoint whiten_from (lfsr : Z) (bytes : list Z) : list Z :=
  match bytes with
  | [] => []
  | byte :: bytes =>
      let '(lfsr, value) := whiten_byte lfsr byte in
      value :: whiten_from lfsr bytes
  end.

(*! crates/ble-controller/src/whitening.rs 2-17 apply *)
Definition apply (channel : Z) (bytes : list Z) : list Z :=
  whiten_from (Z.lor (Z.land channel 0x3f) 0x40) bytes.

Example channel_23_matches_core : apply 23 [0; 0] = [0xaf; 0x42].
Proof. by vm_compute. Qed.

(** *** The Core shift register

    Seven one-bit positions, position 0 first (Core Vol 6 Part B 3.2); the
    output is position 6, fed back to position 0 and added to position 4. *)

Definition lfsr_step (p : list bool) : bool * list bool :=
  match p with
  | [p0; p1; p2; p3; p4; p5; p6] => (p6, [p6; p0; p1; p2; xorb p3 p6; p4; p5])
  | _ => (false, p)
  end.

Fixpoint lfsr_bits (n : nat) (p : list bool) : list bool * list bool :=
  match n with
  | O => ([], p)
  | S n => let '(b, p) := lfsr_step p in
           let '(bs, p) := lfsr_bits n p in (b :: bs, p)
  end.

(** Bits as a number, least significant first. *)
Fixpoint bools_le (bs : list bool) : Z :=
  match bs with [] => 0 | b :: bs => b2z b + 2 * bools_le bs end.

(** The keystream, one octet per eight register outputs. *)
Fixpoint keystream (n : nat) (p : list bool) : list Z :=
  match n with
  | O => []
  | S n => let '(bs, p) := lfsr_bits 8 p in bools_le bs :: keystream n p
  end.

(** Position 0 is one; positions 1 to 6 hold the channel index, high bit first. *)
Definition lfsr_init (channel : Z) : list bool :=
  true :: (Z.testbit channel <$> [5; 4; 3; 2; 1; 0]).

(** The source stores position [i] in bit [6 - i]. *)
Definition lfsr_of (p : list bool) : Z := bools_le (rev p).

Lemma whiten_bits_value bits lfsr value :
  foldl whiten_bit (lfsr, value) bits =
    let '(lfsr', k) := foldl whiten_bit (lfsr, 0) bits in (lfsr', Z.lxor value k).
Proof.
  assert (∀ bits lfsr v k, foldl whiten_bit (lfsr, Z.lxor v k) bits =
    let '(lfsr', k') := foldl whiten_bit (lfsr, k) bits in (lfsr', Z.lxor v k')) as H.
  { clear. induction bits as [|b bits IH]; intros lfsr v k; [done|].
    cbn [foldl whiten_bit]. destruct (negb _); [rewrite Z.lxor_assoc|]; apply IH. }
  rewrite <- (Z.lxor_0_r value) at 1. apply H.
Qed.

Definition all_registers : list (list bool) :=
  foldr (λ _ ps, ((λ p, false :: p) <$> ps) ++ ((λ p, true :: p) <$> ps)) [[]] (seq 0 7).

Lemma all_registers_complete p : length p = 7%nat → p ∈ all_registers.
Proof.
  assert (∀ n l p, length l = n → length p = n →
    p ∈ foldr (λ (_ : nat) ps, ((λ p, false :: p) <$> ps) ++ ((λ p, true :: p) <$> ps)) [[]] l)
    as H; [|by apply (H 7%nat)].
  clear. induction n as [|n IH]; intros [|x l] [|b p] Hl Hp; simplify_eq/=.
  { by left. }
  apply elem_of_app. destruct b; [right|left]; apply list_elem_of_fmap; eauto.
Qed.

(** One octet of the code against eight steps of the register. *)
Lemma whiten_byte_lfsr p byte : length p = 7%nat →
  let '(bs, p') := lfsr_bits 8 p in
  whiten_byte (lfsr_of p) byte = (lfsr_of p', Z.lxor byte (bools_le bs)) ∧
  length p' = 7%nat.
Proof.
  intros Hp. unfold whiten_byte. rewrite whiten_bits_value.
  assert (forallb (λ p, let '(bs, p') := lfsr_bits 8 p in
    bool_decide (foldl whiten_bit (lfsr_of p, 0) (seqZ 0 8) = (lfsr_of p', bools_le bs)
      ∧ length p' = 7%nat)) all_registers = true) as H by (by vm_compute).
  rewrite forallb_forall in H. specialize (H p).
  rewrite <- list_elem_of_In in H. specialize (H (all_registers_complete p Hp)).
  destruct (lfsr_bits 8 p) as [bs p']. apply bool_decide_eq_true in H as [-> ?]. done.
Qed.

Lemma whiten_from_lfsr bytes p : length p = 7%nat →
  whiten_from (lfsr_of p) bytes = zip_with Z.lxor bytes (keystream (length bytes) p).
Proof.
  revert p. induction bytes as [|b bytes IH]; intros p Hp; [done|].
  cbn [whiten_from keystream length]. pose proof (whiten_byte_lfsr p b Hp) as Hb.
  destruct (lfsr_bits 8 p) as [bs p']. destruct Hb as [-> Hp'].
  cbn [zip_with]. by rewrite IH.
Qed.

Lemma lfsr_init_of channel : is_u8 channel →
  Z.lor (Z.land channel 0x3f) 0x40 = lfsr_of (lfsr_init channel).
Proof.
  intros Hc. apply Z.eqb_eq. revert channel Hc.
  apply (forall_u8 (λ c, Z.lor (Z.land c 0x3f) 0x40 =? lfsr_of (lfsr_init c))).
  by vm_compute.
Qed.

Lemma length_keystream n p : length (keystream n p) = n.
Proof.
  revert p. induction n as [|n IH]; intros p; [done|].
  cbn [keystream]. destruct (lfsr_bits 8 p). cbn. by rewrite IH.
Qed.

Lemma whitening_spec_local channel bytes : is_u8 channel →
  apply channel bytes =
    zip_with Z.lxor bytes (keystream (length bytes) (lfsr_init channel)).
Proof. intros Hc. unfold apply. rewrite lfsr_init_of by done. by apply whiten_from_lfsr. Qed.

(** *** Properties *)

(** Whitening is the Core shift register: the output is the input xored,
    octet by octet and least significant bit first, with the first outputs of
    the [x^7 + x^4 + 1] register initialised from the channel index. *)
Theorem whitening_is_core_lfsr channel bytes :
  is_u8 channel →
  apply channel bytes =
    zip_with Z.lxor bytes (keystream (length bytes) (lfsr_init channel)).
Proof. apply whitening_spec_local. Qed.

Lemma whitening_is_core_lfsr_witness :
  apply 37 [0x40; 0x06] = zip_with Z.lxor [0x40; 0x06] (keystream 2 (lfsr_init 37)).
Proof. apply (whitening_is_core_lfsr 37 [0x40; 0x06]). unfold fits. lia. Defined.

(** Dewhitening is whitening: applying it twice on the same channel gives
    the packet back, and it never changes the length. *)
Theorem whitening_involutive channel bytes :
  is_u8 channel →
  apply channel (apply channel bytes) = bytes ∧
  length (apply channel bytes) = length bytes.
Proof.
  intros Hc.
  assert (Hlen : length (apply channel bytes) = length bytes).
  { rewrite whitening_spec_local by done. rewrite length_zip_with, length_keystream. lia. }
  split; [|done].
  rewrite !whitening_spec_local, length_zip_with, length_keystream, Nat.min_id by done.
  assert (∀ (l k : list Z), length k = length l →
    zip_with Z.lxor (zip_with Z.lxor l k) k = l) as H; [|by apply H, length_keystream].
  clear. induction l as [|x l IH]; intros [|y k] ?; simplify_eq/=; [done|].
  f_equal; [|by apply IH]. by rewrite Z.lxor_assoc, Z.lxor_nilpotent, Z.lxor_0_r.
Qed.

Lemma whitening_involutive_witness : apply 37 (apply 37 [0x40; 0x06]) = [0x40; 0x06].
Proof. apply (whitening_involutive 37 [0x40; 0x06]). unfold fits. lia. Defined.

End Whitening.
