(* ===== verification/Timing.v ===== *)
(** * Link Layer timing and address validation

    Models the parameter-validation functions of
    [crates/ble-controller/src/link_layer.rs]: connection timing ranges,
    modulo-65536 instants, sleep-clock window widening and the data Access
    Address rules. *)

From S2P Require Import Prelude.

(*! crates/ble-controller/src/link_layer.rs 5-5 ADV_ACCESS_ADDRESS *)
Definition ADV_ACCESS_ADDRESS : Z := 0x8e89bed6.
(*! crates/ble-controller/src/link_layer.rs 6-6 ADV_CRC_INIT *)
Definition ADV_CRC_INIT : Z := 0x555555.

(** ** Instants *)

(*! crates/ble-controller/src/link_layer.rs 773-778 InstantRelation *)
Inductive InstantRelation : Type :=
| Current
| Future (delta : Z)
| Passed.
#[export] Instance InstantRelation_eq_dec : EqDecision InstantRelation.
Proof. solve_decision. Defined.

(*! crates/ble-controller/src/link_layer.rs 780-787 classify_instant *)
Definition classify_instant (event_counter instant : Z) : InstantRelation :=
  let delta := u16 (instant - event_counter) in
  if delta =? 0 then Current
  else if (1 <=? delta) && (delta <=? 32766) then Future delta
  else Passed.

(** ** Connection timing *)

(** [u32] products wrap in the release profile. *)
(*! crates/ble-controller/src/link_layer.rs 872-891 connection_timing_is_valid *)
Definition connection_timing_is_valid
    (window_size window_offset interval latency supervision_timeout : Z) : bool :=
  let timeout_in_interval_units := u32 (supervision_timeout * 8) in
  let maximum_event_span := u32 (u32 (2 * u32 (latency + 1)) * interval) in
  (1 <=? window_size) && (window_size <=? 8) &&
  (6 <=? interval) && (interval <=? 3200) &&
  (window_offset <=? interval) && (window_size <? interval) &&
  (latency <=? 499) &&
  (10 <=? supervision_timeout) && (supervision_timeout <=? 3200) &&
  (maximum_event_span <? timeout_in_interval_units).

(** The same expression with overflow checks: [None] is the arithmetic-overflow
    panic of a build with [overflow-checks]. *)
Definition checked32 (x : Z) : option Z := if x <? 2 ^ 32 then Some x else None.

(*! crates/ble-controller/src/link_layer.rs 872-891 connection_timing_is_valid *)
Definition connection_timing_checked
    (window_size window_offset interval latency supervision_timeout : Z) : option bool :=
  timeout_in_interval_units ← checked32 (supervision_timeout * 8);
  events ← checked32 (latency + 1);
  twice ← checked32 (2 * events);
  maximum_event_span ← checked32 (twice * interval);
  Some ((1 <=? window_size) && (window_size <=? 8) &&
        (6 <=? interval) && (interval <=? 3200) &&
        (window_offset <=? interval) && (window_size <? interval) &&
        (latency <=? 499) &&
        (10 <=? supervision_timeout) && (supervision_timeout <=? 3200) &&
        (maximum_event_span <? timeout_in_interval_units)).

(*! crates/ble-controller/src/link_layer.rs 1007-1020 connection_parameter_range_is_valid *)
Definition connection_parameter_range_is_valid
    (interval_min interval_max latency supervision_timeout : Z) : bool :=
  (6 <=? interval_min) && (interval_min <=? interval_max) && (interval_max <=? 3200) &&
  (latency <=? 499) &&
  (10 <=? supervision_timeout) && (supervision_timeout <=? 3200) &&
  (u32 (u32 (2 * u32 (latency + 1)) * interval_max) <? u32 (supervision_timeout * 8)).

(** ** Sleep-clock accuracy *)

(*! crates/ble-controller/src/link_layer.rs 640-651 sleep_clock_accuracy_ppm *)
Definition sleep_clock_accuracy_ppm (sca : Z) : Z :=
  match Z.land sca 0x07 with
  | 0 => 500
  | 1 => 250
  | 2 => 150
  | 3 => 100
  | 4 => 75
  | 5 => 50
  | 6 => 30
  | _ => 20
  end.

(*! crates/ble-controller/src/link_layer.rs 658-665 window_widening_us *)
Definition window_widening_us (elapsed_us central_sca local_sca_ppm : Z) : Z :=
  let total_ppm := u64 (sleep_clock_accuracy_ppm central_sca + local_sca_ppm) in
  let whole := elapsed_us / 1000000 in
  let remainder := elapsed_us mod 1000000 in
  saturating_add64 (saturating_mul64 whole total_ppm)
    (div_ceil (saturating_mul64 remainder total_ppm) 1000000).

(** ** Access addresses *)

(*! crates/ble-controller/src/link_layer.rs 667-674 transition_count *)
Definition transition_count (value bits : Z) : Z :=
  let mask := if bits =? 32 then Z.shiftr U32_MAX 1
              else u32 (Z.shiftl 1 (bits - 1)) - 1 in
  count_ones (Z.land (Z.lxor value (Z.shiftr value 1)) mask).

(** The [while bit < 32] loop; [false] is its early return. *)
(*! crates/ble-controller/src/link_layer.rs 692-707 data_access_address_is_valid *)
Fixpoint runs_ok (access_address previous run : Z) (bits : list Z) : bool :=
  match bits with
  | [] => true
  | bit :: bits =>
      let current := Z.land (Z.shiftr access_address bit) 1 in
      if current =? previous then
        let run := u8 (run + 1) in
        if 6 <? run then false else runs_ok access_address previous run bits
      else runs_ok access_address current 1 bits
  end.

(*! crates/ble-controller/src/link_layer.rs 680-719 data_access_address_is_valid *)
Definition data_access_address_is_valid (access_address : Z) (coded_phy : bool) : bool :=
  if (access_address =? ADV_ACCESS_ADDRESS)
     || (count_ones (Z.lxor access_address ADV_ACCESS_ADDRESS) =? 1) then false
  else
    let octets := to_le 4 access_address in
    if (octets !!! 0%nat =? octets !!! 1%nat) && (octets !!! 1%nat =? octets !!! 2%nat)
       && (octets !!! 2%nat =? octets !!! 3%nat) then false
    else if negb (runs_ok access_address (Z.land access_address 1) 1 (seqZ 1 31)) then false
    else if (24 <? transition_count access_address 32)
            || (transition_count (Z.shiftr access_address 26) 6 <? 2) then false
    else if coded_phy &&
            ((count_ones (Z.land access_address 0xff) <? 3)
             || (11 <? transition_count (Z.land access_address 0xffff) 16)) then false
    else true.

(** ** Instant arithmetic *)

Lemma classify_instant_spec c i : is_u16 c → is_u16 i →
  let delta := (i - c) mod 65536 in
  classify_instant c i =
    if decide (delta = 0) then Current
    else if decide (delta ≤ 32766) then Future delta else Passed.
Proof.
  intros Hc Hi. unfold classify_instant. cbn zeta.
  change (u16 (i - c)) with ((i - c) mod 65536).
  pose proof (Z.mod_pos_bound (i - c) 65536).
  repeat case_decide; repeat case_match; bool_to_prop; try done; lia.
Qed.

Lemma instant_advance c i : is_u16 c → is_u16 i →
  match classify_instant c i with
  | Future d => classify_instant (u16 (c + 1)) i = if decide (d = 1) then Current else Future (d - 1)
  | _ => True
  end.
Proof.
  intros Hc Hi. rewrite classify_instant_spec by done. cbn zeta.
  repeat case_decide; try done.
  all: rewrite classify_instant_spec by (done || by apply wrap_fits).
  all: cbn zeta; unfold_ints.
  all: rewrite Zminus_mod_idemp_r.
  all: repeat case_decide; try done; try (exfalso; int_lia); f_equal; int_lia.
Qed.

(** ** Window widening *)

Lemma sleep_clock_accuracy_range sca : 20 ≤ sleep_clock_accuracy_ppm sca ≤ 500.
Proof.
  unfold sleep_clock_accuracy_ppm.
  repeat match goal with |- context [match ?x with _ => _ end] => destruct x end; lia.
Qed.

Lemma window_widening_exact e sca ppm : is_u64 e → is_u16 ppm →
  window_widening_us e sca ppm =
    div_ceil (e * (sleep_clock_accuracy_ppm sca + ppm)) 1000000.
Proof.
  intros He Hp. unfold window_widening_us.
  pose proof (sleep_clock_accuracy_range sca) as Hs.
  rewrite (wrap_small 64) by (unfold_ints; lia).
  set (p := sleep_clock_accuracy_ppm sca + ppm).
  assert (Hpr : 20 ≤ p ≤ 66035) by (unfold_ints; lia).
  pose proof (Z.div_mod e 1000000 ltac:(lia)) as Hdm.
  pose proof (Z.mod_pos_bound e 1000000 ltac:(lia)) as Hmod.
  set (q := e / 1000000) in *. set (r := e mod 1000000) in *.
  assert (Hq : 0 ≤ q ≤ 18446744073710) by (unfold_ints; lia).
  unfold_ints. rewrite (Z.min_l (q * p)), (Z.min_l (r * p)) by nia.
  replace (- (e * p)) with (- (r * p) + (- (q * p)) * 1000000) by nia.
  rewrite Z.div_add by lia. rewrite Z.min_l; [lia|].
  assert (- 66036 ≤ - (r * p) / 1000000) by (apply Z.div_le_lower_bound; nia). nia.
Qed.

(** ** Population of bit transitions *)

(** Positions [i < n] where bits [i] and [i + 1] differ. *)
Definition transitions (x n : Z) : list Z :=
  List.filter (λ i, xorb (Z.testbit x i) (Z.testbit x (i + 1))) (seqZ 0 n).

Lemma transition_count_spec x bits : is_u32 x → 2 ≤ bits ≤ 32 →
  transition_count x bits = Z.of_nat (length (transitions x (bits - 1))).
Proof.
  intros Hx Hb. unfold transition_count.
  assert ((if bits =? 32 then Z.shiftr U32_MAX 1 else u32 (Z.shiftl 1 (bits - 1)) - 1)
    = Z.ones (bits - 1)) as ->.
  { rewrite Z.ones_equiv. destruct (Z.eqb_spec bits 32) as [->|]; [done|].
    rewrite Z.shiftl_1_l, wrap_small; [lia|]. unfold fits.
    pose proof (Z.pow_lt_mono_r 2 (bits - 1) 32). lia. }
  rewrite (count_ones_spec (Z.to_nat (bits - 1))), Z2Nat.id by
    (rewrite ?Z2Nat.id by lia; try apply land_fits_r; [lia|..];
     unfold fits; rewrite ?Z.ones_equiv; lia).
  unfold transitions. do 2 f_equal. apply List.filter_ext_in.
  intros i Hi%list_elem_of_In%elem_of_seqZ.
  rewrite Z.land_spec, Z.ones_spec_low, andb_true_r by lia.
  by rewrite Z.lxor_spec, Z.shiftr_spec by lia.
Qed.

(** ** Runs of equal bits *)

(** Seven equal consecutive elements of a list. *)
Definition run_of_seven {A} (l : list A) : Prop :=
  ∃ i b, ∀ k, (k < 7)%nat → l !! (i + k)%nat = Some b.

Lemma run_of_seven_cons_ne {A} (p c : A) r (l : list A) : c ≠ p → (r ≤ 6)%nat →
  run_of_seven (replicate r p ++ c :: l) ↔ run_of_seven (c :: l).
Proof.
  intros Hne Hr. split; intros (i & b & Hi).
  - exists (i - r)%nat, b. intros k Hk. destruct (decide (i < r)%nat).
    + exfalso. apply Hne.
      pose proof (Hi 0%nat ltac:(lia)) as H0. pose proof (Hi (r - i)%nat ltac:(lia)) as H1.
      rewrite Nat.add_0_r, lookup_app_l, lookup_replicate_2 in H0
        by (rewrite ?length_replicate; lia).
      replace (i + (r - i))%nat with r in H1 by lia.
      rewrite lookup_app_r, length_replicate, Nat.sub_diag in H1
        by (rewrite length_replicate; lia). by simplify_eq/=.
    + specialize (Hi k Hk). rewrite lookup_app_r in Hi by (rewrite length_replicate; lia).
      rewrite length_replicate in Hi. by replace (i - r + k)%nat with (i + k - r)%nat by lia.
  - exists (i + r)%nat, b. intros k Hk.
    rewrite lookup_app_r by (rewrite length_replicate; lia). rewrite length_replicate.
    replace (i + r + k - r)%nat with (i + k)%nat by lia. by apply Hi.
Qed.

Lemma run_of_seven_short {A} (l : list A) : (length l ≤ 6)%nat → ¬ run_of_seven l.
Proof.
  intros Hl (i & b & Hi). specialize (Hi 6%nat ltac:(lia)).
  apply lookup_lt_Some in Hi. lia.
Qed.

Lemma runs_ok_spec aa prev r bits : (1 ≤ r ≤ 6)%nat →
  runs_ok aa prev (Z.of_nat r) bits = true ↔
  ¬ run_of_seven (replicate r prev ++ ((λ i, Z.land (Z.shiftr aa i) 1) <$> bits)).
Proof.
  revert prev r. induction bits as [|i bits IH]; intros prev r Hr; cbn [runs_ok fmap list_fmap].
  { split; [|done]. intros _. apply run_of_seven_short.
    rewrite app_nil_r, length_replicate. lia. }
  set (c := Z.land (Z.shiftr aa i) 1). destruct (Z.eqb_spec c prev) as [->|Hne].
  - rewrite (wrap_small 8) by (unfold_ints; lia).
    replace (Z.of_nat r + 1) with (Z.of_nat (S r)) by lia.
    destruct (Z.ltb_spec 6 (Z.of_nat (S r))).
    + split; [done|]. intros []. exists 0%nat, prev. intros k Hk. cbn.
      replace r with 6%nat by lia.
      do 7 (destruct k as [|k]; [done|]). lia.
    + rewrite IH by lia. rewrite replicate_S_end, <- app_assoc. done.
  - change 1 with (Z.of_nat 1). rewrite IH, run_of_seven_cons_ne by (done || lia). done.
Qed.

(** ** Specifications *)

(** The Core ranges of CONNECT_IND and LL_CONNECTION_UPDATE_IND, in physical
    units: window and interval in 1.25 ms, timeout in 10 ms; the supervision
    timeout must exceed twice the longest span without a listened event. *)
Definition timing_spec (window_size window_offset interval latency timeout : Z) : Prop :=
  1 ≤ window_size ≤ 8 ∧ 6 ≤ interval ≤ 3200 ∧ window_offset ≤ interval ∧
  window_size < interval ∧ latency ≤ 499 ∧ 10 ≤ timeout ≤ 3200 ∧
  2 * (1 + latency) * (interval * 1250) < timeout * 10000.

(** Remove the wrap-arounds of the guards' hypotheses, innermost first. *)
Ltac unwrap_in_guards :=
  unfold_ints;
  repeat match goal with
  | H : context [(?x mod 4294967296)] |- _ =>
      lazymatch x with
      | context [_ mod _] => fail
      | _ => rewrite (Z.mod_small x) in H by nia
      end
  | |- context [(?x mod 4294967296)] =>
      lazymatch x with
      | context [_ mod _] => fail
      | _ => rewrite (Z.mod_small x) by nia
      end
  end.

Lemma connection_timing_iff ws wo i l t :
  0 ≤ i → 0 ≤ l → connection_timing_is_valid ws wo i l t = true ↔ timing_spec ws wo i l t.
Proof.
  intros Hi Hl. unfold connection_timing_is_valid, timing_spec. split.
  - intros H. bool_to_prop. unwrap_in_guards. lia.
  - intros (?&?&?&?&?&?&?). unwrap_in_guards. rewrite !andb_true_iff. lia.
Qed.

Lemma connection_parameter_range_iff imin imax l t :
  0 ≤ imin → 0 ≤ l → connection_parameter_range_is_valid imin imax l t = true ↔
    6 ≤ imin ≤ imax ∧ imax ≤ 3200 ∧ l ≤ 499 ∧ 10 ≤ t ≤ 3200 ∧
    2 * (1 + l) * (imax * 1250) < t * 10000.
Proof.
  intros Hi Hl. unfold connection_parameter_range_is_valid. split.
  - intros H. bool_to_prop. unwrap_in_guards. lia.
  - intros (?&?&?&?&?). unwrap_in_guards. rewrite !andb_true_iff. lia.
Qed.

Definition bit_at (x i : Z) : Z := Z.land (Z.shiftr x i) 1.

(** Core Vol 6 Part B 2.1.2, with the LE Coded constraints when [coded]. *)
Record access_address_spec (aa : Z) (coded : bool) : Prop := {
  aa_not_adv : aa ≠ ADV_ACCESS_ADDRESS;
  aa_not_near_adv : length (List.filter (Z.testbit (Z.lxor aa ADV_ACCESS_ADDRESS))
                              (seqZ 0 32)) ≠ 1%nat;
  aa_octets_differ : ¬ ∃ b, to_le 4 aa = [b; b; b; b];
  aa_runs : ¬ run_of_seven (bit_at aa <$> seqZ 0 32);
  aa_transitions : (length (transitions aa 31) ≤ 24)%nat;
  aa_top_transitions : (2 ≤ length (transitions (Z.shiftr aa 26) 5))%nat;
  aa_coded : coded = true →
    (3 ≤ length (List.filter (Z.testbit (Z.land aa 0xff)) (seqZ 0 8)))%nat ∧
    (length (transitions (Z.land aa 0xffff) 15) ≤ 11)%nat;
}.

Lemma octets_equal_iff aa :
  let o := to_le 4 aa in
  ((o !!! 0%nat =? o !!! 1%nat) && (o !!! 1%nat =? o !!! 2%nat)
    && (o !!! 2%nat =? o !!! 3%nat)) = true ↔ ∃ b, to_le 4 aa = [b; b; b; b].
Proof.
  cbn [to_le]. generalize (aa mod 256), (aa / 256 mod 256), (aa / 256 / 256 mod 256),
    (aa / 256 / 256 / 256 mod 256). intros a b c d. cbn.
  rewrite !andb_true_iff, !Z.eqb_eq. split; [intros [[-> ->] ->]; eauto|].
  intros [? [= -> -> -> ->]]. done.
Qed.

Lemma shiftr_fits w k x : 0 ≤ k → fits w x → fits w (Z.shiftr x k).
Proof.
  intros Hk Hx. unfold fits in *. rewrite Z.shiftr_div_pow2 by done.
  split; [apply Z.div_pos; lia|].
  apply Z.le_lt_trans with x; [apply Z.div_le_upper_bound; nia|lia].
Qed.

Lemma data_access_address_iff aa coded : is_u32 aa →
  data_access_address_is_valid aa coded = true ↔ access_address_spec aa coded.
Proof.
  intros Ha. unfold data_access_address_is_valid.
  rewrite (count_ones_spec 32 (Z.lxor _ _)) by (by apply lxor_fits).
  rewrite !transition_count_spec by
    (try apply shiftr_fits; try apply land_fits_l; done || lia).
  rewrite (count_ones_spec 8 (Z.land _ _)) by (by apply land_fits_r).
  pose proof (runs_ok_spec aa (Z.land aa 1) 1 (seqZ 1 31) ltac:(lia)) as Hruns.
  change (replicate 1 (Z.land aa 1)) with [bit_at aa 0] in Hruns.
  fold (bit_at aa) in Hruns. change ([bit_at aa 0] ++ (bit_at aa <$> seqZ 1 31))
    with (bit_at aa <$> seqZ 0 32) in Hruns.
  pose proof (octets_equal_iff aa) as Hoct. cbn zeta in Hoct.
  cbn zeta. change (32 - 1) with 31. change (6 - 1) with 5. change (16 - 1) with 15.
  change (Z.of_nat 32) with 32. change (Z.of_nat 8) with 8. change (Z.of_nat 1) with 1 in Hruns.
  split.
  - intros H. repeat case_match; bool_to_prop; try done.
    split; try lia; try tauto; try (by rewrite <- Hoct; congruence); intros ->; cbn in *;
      bool_to_prop; lia.
  - intros [H1 H2 H3 H4 H5 H6 H7].
    rewrite (proj2 (Z.eqb_neq _ _)) by done. rewrite (proj2 (Z.eqb_neq _ 1)) by lia.
    cbn [orb]. rewrite <- Hoct, not_true_iff_false in H3. rewrite H3.
    rewrite (proj2 Hruns) by done. cbn [negb].
    rewrite (proj2 (Z.ltb_ge 24 _)), (proj2 (Z.ltb_ge _ 2)) by lia. cbn [orb].
    destruct coded; [|done]. destruct H7 as [H7 H8]; [done|]. cbn [andb].
    by rewrite (proj2 (Z.ltb_ge _ 3)), (proj2 (Z.ltb_ge 11 _)) by lia.
Qed.

(** ** Properties *)

(** An instant classified as [Future d] is reached: the event counter passes
    through [Future (d - 1)], ..., [Future 1], never [Passed], and the instant
    is [Current] exactly [d] events later, across the 16-bit wrap-around. *)
Theorem future_instant_reached c i d k :
  is_u16 c → is_u16 i → classify_instant c i = Future d → 0 ≤ k ≤ d →
  1 ≤ d ≤ 32766 ∧
  classify_instant (u16 (c + k)) i = if decide (k = d) then Current else Future (d - k).
Proof.
  intros Hc Hi Hd Hk. rewrite classify_instant_spec in Hd by done.
  rewrite classify_instant_spec by (done || by apply wrap_fits).
  cbn zeta in *. unfold_ints. rewrite Zminus_mod_idemp_r.
  repeat case_decide; simplify_eq; split; try int_lia; try done; try (exfalso; int_lia);
    f_equal; int_lia.
Qed.

Lemma future_instant_reached_witness : classify_instant (u16 (65530 + 10)) 4 = Current.
Proof.
  refine (proj2 (future_instant_reached 65530 4 10 10 _ _ eq_refl _));
    unfold fits; lia.
Defined.

(** Window widening is exact: for every 64-bit elapsed time and 16-bit local
    accuracy the saturating split computation never saturates and equals the
    drift [elapsed * ppm / 10^6] rounded up, so it never underestimates. *)
Theorem window_widening_is_ceiling e sca ppm :
  is_u64 e → is_u16 ppm →
  let total := sleep_clock_accuracy_ppm sca + ppm in
  window_widening_us e sca ppm = div_ceil (e * total) 1000000 ∧
  e * total ≤ 1000000 * window_widening_us e sca ppm < e * total + 1000000.
Proof.
  intros He Hp. cbn zeta. rewrite window_widening_exact by done. split; [done|].
  unfold div_ceil. Z.div_mod_to_equations. lia.
Qed.

Lemma window_widening_is_ceiling_witness :
  window_widening_us 30000 5 50 = 3 ∧ 30000 * 100 ≤ 1000000 * 3 < 30000 * 100 + 1000000.
Proof.
  refine (conj _ (proj2 (window_widening_is_ceiling 30000 5 50 _ _)));
    [vm_compute; reflexivity|unfold fits; lia|unfold fits; lia].
Defined.

(** [connection_timing_is_valid] accepts exactly the Core timing ranges,
    including the strict supervision bound in physical units: the wrapping
    [u32] product cannot let an out-of-range PDU through. *)
Theorem connection_timing_valid_iff ws wo i l t :
  is_u8 ws → is_u16 wo → is_u16 i → is_u16 l → is_u16 t →
  connection_timing_is_valid ws wo i l t = true ↔ timing_spec ws wo i l t.
Proof. intros _ _ [Hi _] [Hl _] _. by apply connection_timing_iff. Qed.

Lemma connection_timing_valid_iff_witness : timing_spec 2 5 24 0 72.
Proof. apply (connection_timing_valid_iff 2 5 24 0 72); unfold fits; (lia || reflexivity). Defined.

(** C40: With overflow checks enabled the same expression panics exactly when
    [2 * (latency + 1) * interval] does not fit 32 bits, because the product is
    computed before the range guards; otherwise it agrees with the wrapping
    version. *)
Theorem connection_timing_overflow ws wo i l t :
  is_u16 i → is_u16 l → is_u16 t →
  connection_timing_checked ws wo i l t =
    if decide (2 * (l + 1) * i < 2 ^ 32)
    then Some (connection_timing_is_valid ws wo i l t) else None.
Proof.
  intros Hi Hl Ht. unfold connection_timing_checked, connection_timing_is_valid, checked32.
  unfold fits in *. change (2 ^ 16) with 65536 in *.
  rewrite (proj2 (Z.ltb_lt (t * 8) _)) by lia. cbn [mbind option_bind].
  rewrite (proj2 (Z.ltb_lt (l + 1) _)) by lia. cbn [mbind option_bind].
  rewrite (proj2 (Z.ltb_lt (2 * (l + 1)) _)) by lia. cbn [mbind option_bind].
  destruct (Z.ltb_spec (2 * (l + 1) * i) (2 ^ 32)); case_decide; try lia; [|done].
  cbn [mbind option_bind]. unwrap_in_guards. done.
Qed.

Lemma connection_timing_overflow_witness :
  connection_timing_checked 2 5 0xffff 0xffff 72 = None.
Proof.
  rewrite (connection_timing_overflow 2 5 0xffff 0xffff 72) by (unfold fits; lia). reflexivity.
Defined.

(** [data_access_address_is_valid] decides the Core Access Address rules for
    every 32-bit address: not the advertising address nor one bit from it, four
    octets not all equal, no seven equal consecutive bits, at most 24
    transitions and at least two in the top six bits, and the LE Coded limits. *)
Theorem access_address_valid_iff aa coded :
  is_u32 aa →
  data_access_address_is_valid aa coded = true ↔ access_address_spec aa coded.
Proof. apply data_access_address_iff. Qed.

Lemma access_address_valid_iff_witness : access_address_spec 0xaf9a8ca4 false.
Proof.
  apply (access_address_valid_iff 0xaf9a8ca4 false); [unfold fits; lia|vm_compute; reflexivity].
Defined.
