(* ===== verification/Sequence.v ===== *)
(** * SN/NESN sequencing, event closure and trace records

    Models the [DataSequenceState] part of
    [crates/ble-controller/src/link_layer.rs] and the small policies around it.
    The main theorem runs two sequence states against each other over a lossy
    medium and shows exactly-once, in-order delivery in both directions. *)

From S2P Require Import Prelude.

(*! crates/ble-controller/src/link_layer.rs 12-12 DATA_HEADER_NESN *)
Definition DATA_HEADER_NESN : Z := Z.shiftl 1 2.
(*! crates/ble-controller/src/link_layer.rs 14-14 DATA_HEADER_SN *)
Definition DATA_HEADER_SN : Z := Z.shiftl 1 3.
(*! crates/ble-controller/src/link_layer.rs 16-16 DATA_HEADER_MD *)
Definition DATA_HEADER_MD : Z := Z.shiftl 1 4.
(*! crates/ble-controller/src/link_layer.rs 17-17 DATA_HEADER_SEQUENCE_MASK *)
Definition DATA_HEADER_SEQUENCE_MASK : Z := Z.lor DATA_HEADER_NESN DATA_HEADER_SN.

(** ** Acknowledgement predicates *)

(*! crates/ble-controller/src/link_layer.rs 25-31 acknowledges_outstanding_transmit *)
Definition acknowledges_outstanding_transmit
    (peer_header transmit_sn : Z) (outstanding_at_event_entry : bool) : bool :=
  outstanding_at_event_entry &&
  negb (Z.land (Z.shiftr peer_header 2) 1 =? transmit_sn).

(*! crates/ble-controller/src/link_layer.rs 39-47 acknowledges_transmit_owner *)
Definition acknowledges_transmit_owner (peer_header transmit_sn : Z)
    (outstanding_at_event_entry received_after_primary_transmit : bool) : bool :=
  (outstanding_at_event_entry || received_after_primary_transmit) &&
  negb (Z.land (Z.shiftr peer_header 2) 1 =? transmit_sn).

(** ** [DataSequenceState] *)

(*! crates/ble-controller/src/link_layer.rs 54-58 DataSequenceState *)
Record DataSequenceState : Type := mkDataSequenceState {
  transmit_sn : Z;
  expected_sn : Z;
}.
#[export] Instance DataSequenceState_eta : Eta DataSequenceState := λ s,
  mkDataSequenceState (transmit_sn s) (expected_sn s).
#[export] Instance DataSequenceState_eq_dec : EqDecision DataSequenceState.
Proof. solve_decision. Defined.

(*! crates/ble-controller/src/link_layer.rs 61-69 DataSequenceObservation *)
Record DataSequenceObservation : Type := mkDataSequenceObservation {
  acknowledged_transmit : bool;
  accepted_receive : bool;
  peer_more_data : bool;
}.

(*! crates/ble-controller/src/link_layer.rs 429-434 DataSequenceState::new *)
Definition sequence_new (transmit_sn expected_sn : Z) : DataSequenceState :=
  mkDataSequenceState (Z.land transmit_sn 1) (Z.land expected_sn 1).

(*! crates/ble-controller/src/link_layer.rs 442-458 DataSequenceState::observe *)
Definition observe (s : DataSequenceState) (peer_header : Z)
  : DataSequenceObservation * DataSequenceState :=
  let peer_nesn := Z.land (Z.shiftr peer_header 2) 1 in
  let peer_sn := Z.land (Z.shiftr peer_header 3) 1 in
  let acknowledged := negb (peer_nesn =? transmit_sn s) in
  let accepted := peer_sn =? expected_sn s in
  let s := if acknowledged
           then s <| transmit_sn := Z.lxor (transmit_sn s) 1 |> else s in
  let s := if accepted
           then s <| expected_sn := Z.lxor (expected_sn s) 1 |> else s in
  (mkDataSequenceObservation acknowledged accepted
     (negb (Z.land peer_header DATA_HEADER_MD =? 0)), s).

(** [!x] on [u8] is [x ^ 0xff]. *)
(*! crates/ble-controller/src/link_layer.rs 461-469 DataSequenceState::response_header *)
Definition response_header (s : DataSequenceState) (staged_header : Z) (more_data : bool) : Z :=
  let header :=
    Z.lor (Z.lor
      (Z.land staged_header (Z.lxor 0xff (Z.lor DATA_HEADER_SEQUENCE_MASK DATA_HEADER_MD)))
      (u8 (Z.shiftl (expected_sn s) 2))) (u8 (Z.shiftl (transmit_sn s) 3)) in
  if more_data then Z.lor header DATA_HEADER_MD else header.

(** ** Closing a connection event *)

(*! crates/ble-controller/src/link_layer.rs 478-480 connection_event_may_continue *)
Definition connection_event_may_continue (local_more_data peer_more_data : bool) : bool :=
  local_more_data || peer_more_data.

(*! crates/ble-controller/src/link_layer.rs 489-498 ConnectionEventCloseReason *)
Inductive ConnectionEventCloseReason : Type :=
| Continue
| BothMdClear
| Deadline
| RadioTimeout
| InvalidCrc
| InvalidMic
| ResourceLimit
| ProtocolError.
#[export] Instance ConnectionEventCloseReason_eq_dec : EqDecision ConnectionEventCloseReason.
Proof. solve_decision. Defined.

(** The [#[repr(u8)]] discriminants. *)
(*! crates/ble-controller/src/link_layer.rs 487-498 ConnectionEventCloseReason *)
Definition close_reason_code (r : ConnectionEventCloseReason) : Z :=
  match r with
  | Continue => 0 | BothMdClear => 1 | Deadline => 2 | RadioTimeout => 3
  | InvalidCrc => 4 | InvalidMic => 5 | ResourceLimit => 6 | ProtocolError => 7
  end.

(*! crates/ble-controller/src/link_layer.rs 584-592 ConnectionEventDecisionInput *)
Record ConnectionEventDecisionInput : Type := mkDecisionInput {
  crc_ok : bool;
  mic_ok : bool;
  local_md : bool;
  peer_md : bool;
  before_deadline : bool;
  resources_available : bool;
}.

(*! crates/ble-controller/src/link_layer.rs 617-636 connection_event_decision *)
Definition connection_event_decision (i : ConnectionEventDecisionInput)
  : ConnectionEventCloseReason :=
  if negb (crc_ok i) then InvalidCrc
  else if negb (mic_ok i) then InvalidMic
  else if negb (before_deadline i) then Deadline
  else if negb (connection_event_may_continue (local_md i) (peer_md i)) then BothMdClear
  else if negb (resources_available i) then ResourceLimit
  else Continue.

(*! crates/ble-controller/src/link_layer.rs 601-611 response_advertises_more_data *)
Definition response_advertises_more_data
    (more_payloads_after_response require_final_ack response_has_owner response_is_retry
     resources_available : bool) : bool :=
  resources_available &&
  (more_payloads_after_response ||
   (require_final_ack && response_has_owner && negb response_is_retry)).

(*! crates/ble-controller/src/link_layer.rs 571-581 committed_response_header *)
Definition committed_response_header
    (staged_header response_header : Z) (response_transmitted : bool) : Z :=
  if response_transmitted then response_header else staged_header.

(** ** Trace records *)

(*! crates/ble-controller/src/link_layer.rs 507-524 ConnectionEventTraceRecord *)
Record ConnectionEventTraceRecord : Type := mkTraceRecord {
  tr_event_counter : Z;
  tr_channel : Z;
  tr_leg_index : Z;
  tr_timestamp_us : Z;
  tr_lle_status : Z;
  tr_bb_status : Z;
  tr_peer_header : Z;
  tr_response_header : Z;
  tr_received_len : Z;
  tr_response_slot : Z;
  tr_crc_ok : bool;
  tr_acknowledged_transmit : bool;
  tr_accepted_receive : bool;
  tr_peer_more_data : bool;
  tr_response_transmitted : bool;
  tr_close_reason : ConnectionEventCloseReason;
}.

(*! crates/ble-controller/src/link_layer.rs 532-554 ConnectionEventTraceRecord::encode *)
Definition trace_encode (r : ConnectionEventTraceRecord) : list Z :=
  let flags :=
    Z.lor (Z.lor (Z.lor (Z.lor (Z.lor
      (b2z (tr_crc_ok r))
      (Z.shiftl (b2z (tr_acknowledged_transmit r)) 1))
      (Z.shiftl (b2z (tr_accepted_receive r)) 2))
      (Z.shiftl (b2z (tr_peer_more_data r)) 3))
      (Z.shiftl (b2z (tr_response_transmitted r)) 4))
      (Z.shiftl (close_reason_code (tr_close_reason r)) 8) in
  [ Z.lor (Z.lor (tr_event_counter r) (Z.shiftl (tr_channel r) 16))
          (u32 (Z.shiftl (tr_leg_index r) 24));
    u32 (tr_timestamp_us r);
    u32 (Z.shiftr (tr_timestamp_us r) 32);
    tr_lle_status r;
    tr_bb_status r;
    Z.lor (Z.lor (Z.lor (tr_peer_header r) (Z.shiftl (tr_response_header r) 8))
                 (Z.shiftl (tr_received_len r) 16))
          (u32 (Z.shiftl (tr_response_slot r) 24));
    flags ].

(** [None] is the [assert!]. *)
(*! crates/ble-controller/src/link_layer.rs 557-563 connection_event_trace_slot *)
Definition connection_event_trace_slot (sequence capacity : Z) : option Z :=
  if capacity =? 0 then None else Some (sequence mod capacity).

(** ** Header patching *)

Definition is_sn (x : Z) : Prop := x = 0 ∨ x = 1.
Definition sequence_ok (s : DataSequenceState) : Prop :=
  is_sn (transmit_sn s) ∧ is_sn (expected_sn s).

Lemma is_sn_range x : is_sn x ↔ 0 ≤ x < 2.
Proof. unfold is_sn. lia. Qed.

Lemma response_header_fields s staged md : sequence_ok s → is_u8 staged →
  let h := response_header s staged md in
  is_u8 h ∧
  Z.land (Z.shiftr h 2) 1 = expected_sn s ∧
  Z.land (Z.shiftr h 3) 1 = transmit_sn s ∧
  negb (Z.land h DATA_HEADER_MD =? 0) = md ∧
  Z.land h 0xe3 = Z.land staged 0xe3.
Proof.
  intros [Ht He] Hs. cbn zeta. unfold fits. change (2 ^ 8) with 256.
  assert (∀ t e, is_sn t → is_sn e → forall md,
    let h := response_header (mkDataSequenceState t e) staged md in
    ((0 <=? h) && (h <? 256) && (Z.land (Z.shiftr h 2) 1 =? e)
      && (Z.land (Z.shiftr h 3) 1 =? t)
      && Bool.eqb (negb (Z.land h DATA_HEADER_MD =? 0)) md
      && (Z.land h 0xe3 =? Z.land staged 0xe3)) = true) as H.
  { intros t e [-> | ->] [-> | ->] []; cbn zeta; revert staged Hs;
      apply (forall_u8 (λ staged, (0 <=? response_header _ staged _) && _ && _ && _ && _ && _));
      by vm_compute. }
  specialize (H _ _ Ht He md). destruct s. cbn zeta in H.
  rewrite !andb_true_iff, eqb_true_iff, !Z.eqb_eq, Z.leb_le, Z.ltb_lt in H. tauto.
Qed.

Lemma observe_ok s h : sequence_ok s → sequence_ok (observe s h).2.
Proof.
  intros [[Ht|Ht] [He|He]]; unfold observe, sequence_ok, is_sn; cbn;
    repeat case_match; cbn; rewrite ?Ht, ?He; cbn; auto.
Qed.

(** ** Two endpoints over a lossy medium

    Each endpoint has an unbounded stream of payloads to send; the PDU on air
    is the first one not yet acknowledged.  A leg transmits one PDU in one
    direction, with arbitrary other header bits and MD, and either arrives
    intact or is lost (no valid CRC, so no [observe]). *)

Section endpoints.
Context {P : Type}.

Record Endpoint : Type := mkEndpoint {
  ep_seq : DataSequenceState;
  ep_acked : nat;
  ep_delivered : list P;
}.

Definition ep_init : Endpoint := mkEndpoint (sequence_new 0 0) 0 [].

(** [observe] of a PDU by endpoint [e]: its effect on the Host side. *)
Definition ep_receive (e : Endpoint) (header : Z) (payload : P) : Endpoint :=
  let '(o, s) := observe (ep_seq e) header in
  mkEndpoint s
    (if acknowledged_transmit o then S (ep_acked e) else ep_acked e)
    (if accepted_receive o then ep_delivered e ++ [payload] else ep_delivered e).

Record Leg : Type := mkLeg {
  leg_from_left : bool;
  leg_arrives : bool;
  leg_staged_header : Z;
  leg_more_data : bool;
}.

Definition leg_step (left right : nat → P) (sys : Endpoint * Endpoint) (l : Leg)
  : Endpoint * Endpoint :=
  let '(a, b) := sys in
  if negb (leg_arrives l) then sys
  else if leg_from_left l then
    (a, ep_receive b (response_header (ep_seq a) (leg_staged_header l) (leg_more_data l))
          (left (ep_acked a)))
  else
    (ep_receive a (response_header (ep_seq b) (leg_staged_header l) (leg_more_data l))
       (right (ep_acked b)), b).

Definition run_legs (left right : nat → P) (sys : Endpoint * Endpoint) (ls : list Leg)
  : Endpoint * Endpoint := foldl (leg_step left right) sys ls.

(** What the sender knows against what the receiver has: the receiver is at
    most one payload ahead, and both sequence numbers are the parities. *)
Record half_ok (src : nat → P) (a b : Endpoint) : Prop := mk_half_ok {
  half_tx : transmit_sn (ep_seq a) = Z.of_nat (ep_acked a) mod 2;
  half_rx : expected_sn (ep_seq b) = Z.of_nat (length (ep_delivered b)) mod 2;
  half_gap : length (ep_delivered b) = ep_acked a ∨ length (ep_delivered b) = S (ep_acked a);
  half_prefix : ep_delivered b = src <$> seq 0 (length (ep_delivered b));
}.

Definition link_ok (left right : nat → P) (sys : Endpoint * Endpoint) : Prop :=
  half_ok left sys.1 sys.2 ∧ half_ok right sys.2 sys.1.

Lemma parity_sn n : is_sn (Z.of_nat n mod 2).
Proof. apply is_sn_range, Z.mod_pos_bound; lia. Qed.

Lemma parity_flip n : Z.lxor (Z.of_nat n mod 2) 1 = Z.of_nat (S n) mod 2.
Proof.
  rewrite Nat2Z.inj_succ. destruct (parity_sn n) as [H|H]; rewrite H;
    [change (Z.lxor 0 1) with 1|change (Z.lxor 1 1) with 0];
    Z.div_mod_to_equations; lia.
Qed.

Lemma parity_eqb n m : m = n ∨ m = S n →
  (Z.of_nat m mod 2 =? Z.of_nat n mod 2) = bool_decide (m = n).
Proof.
  intros [->| ->]; [by rewrite Z.eqb_refl, bool_decide_true|].
  rewrite bool_decide_false by lia. apply Z.eqb_neq. Z.div_mod_to_equations. lia.
Qed.

(** One arriving PDU from [a] to [b]: [b] delivers the payload iff it had not
    delivered it before, and its acknowledgement moves iff [a] is ahead. *)
Lemma receive_spec sa sb a b staged md : half_ok sa a b → half_ok sb b a → is_u8 staged →
  let b' := ep_receive b (response_header (ep_seq a) staged md) (sa (ep_acked a)) in
  half_ok sa a b' ∧ half_ok sb b' a ∧
  length (ep_delivered b') = S (ep_acked a) ∧
  ep_acked b' = length (ep_delivered a).
Proof.
  intros [Htx Hrx Hgap Hpre] [Htx' Hrx' Hgap' Hpre'] Hs. cbn zeta.
  assert (Hok : sequence_ok (ep_seq a)).
  { split; [rewrite Htx|rewrite Hrx']; apply parity_sn. }
  destruct (response_header_fields _ staged md Hok Hs) as (_ & Hn & Hsn & _ & _).
  destruct a as [[ta ea] aa da], b as [[tb eb] ab db]; cbn in *; subst.
  unfold ep_receive, observe. cbn. rewrite Hn, Hsn. cbn.
  rewrite (parity_eqb ab (length da)), (Z.eqb_sym (Z.of_nat aa mod 2)),
    (parity_eqb aa (length db)) by done.
  destruct (decide (length da = ab)) as [Ha|Ha];
    [rewrite (bool_decide_true (length da = ab)) by done
    |rewrite (bool_decide_false (length da = ab)) by done];
    (destruct (decide (length db = aa)) as [Hb|Hb];
      [rewrite (bool_decide_true (length db = aa)) by done
      |rewrite (bool_decide_false (length db = aa)) by done]); cbn;
    rewrite ?parity_flip.
  all: split_and!; [constructor|constructor|..]; cbn; rewrite ?length_app; cbn [length];
    rewrite ?Nat.add_1_r; try done; try (repeat f_equal; lia); try lia.
  all: rewrite seq_S, fmap_app, <- Hpre; cbn; by rewrite Hb.
Qed.

Lemma leg_step_ok left right sys l :
  link_ok left right sys → is_u8 (leg_staged_header l) →
  link_ok left right (leg_step left right sys l).
Proof.
  intros [Hl Hr] Hs. destruct sys as [a b], l as [[] [] h md]; cbn in *; try done.
  - by destruct (receive_spec left right a b h md Hl Hr Hs) as (?&?&_).
  - by destruct (receive_spec right left b a h md Hr Hl Hs) as (?&?&_).
Qed.

Definition legs_ok (ls : list Leg) : Prop := Forall (λ l, is_u8 (leg_staged_header l)) ls.

Lemma run_legs_ok left right sys ls :
  link_ok left right sys → legs_ok ls → link_ok left right (run_legs left right sys ls).
Proof.
  intros Hsys Hls. revert sys Hsys. induction Hls as [|l ls Hl _ IH]; [done|].
  intros sys Hsys. by apply IH, leg_step_ok.
Qed.

Lemma link_init_ok left right : link_ok left right (ep_init, ep_init).
Proof. split; constructor; cbn; auto. Qed.

End endpoints.
Arguments Endpoint : clear implicits.

(** *** Decoding a trace record *)

Definition close_reason_of (c : Z) : ConnectionEventCloseReason :=
  match c with
  | 0 => Continue | 1 => BothMdClear | 2 => Deadline | 3 => RadioTimeout
  | 4 => InvalidCrc | 5 => InvalidMic | 6 => ResourceLimit | _ => ProtocolError
  end.

(** What a reader of the trace ring recovers from the seven words. *)
Definition trace_decode (ws : list Z) : option ConnectionEventTraceRecord :=
  match ws with
  | [w0; w1; w2; w3; w4; w5; w6] =>
      Some (mkTraceRecord (w0 mod 2 ^ 16) (w0 / 2 ^ 16 mod 2 ^ 8) (w0 / 2 ^ 24)
        (w1 + 2 ^ 32 * w2) w3 w4
        (w5 mod 2 ^ 8) (w5 / 2 ^ 8 mod 2 ^ 8) (w5 / 2 ^ 16 mod 2 ^ 8) (w5 / 2 ^ 24)
        (Z.testbit w6 0) (Z.testbit w6 1) (Z.testbit w6 2) (Z.testbit w6 3)
        (Z.testbit w6 4) (close_reason_of (w6 / 2 ^ 8)))
  | _ => None
  end.

Record trace_ok (r : ConnectionEventTraceRecord) : Prop := {
  trace_event_counter : is_u16 (tr_event_counter r);
  trace_channel : is_u8 (tr_channel r);
  trace_leg : is_u8 (tr_leg_index r);
  trace_timestamp : is_u64 (tr_timestamp_us r);
  trace_lle : is_u32 (tr_lle_status r);
  trace_bb : is_u32 (tr_bb_status r);
  trace_peer : is_u8 (tr_peer_header r);
  trace_response : is_u8 (tr_response_header r);
  trace_received : is_u8 (tr_received_len r);
  trace_slot : is_u8 (tr_response_slot r);
}.


Lemma trace_words r : trace_ok r →
  trace_encode r =
    [ tr_event_counter r + 2 ^ 16 * tr_channel r + 2 ^ 24 * tr_leg_index r;
      tr_timestamp_us r mod 2 ^ 32; tr_timestamp_us r / 2 ^ 32;
      tr_lle_status r; tr_bb_status r;
      tr_peer_header r + 2 ^ 8 * tr_response_header r + 2 ^ 16 * tr_received_len r
        + 2 ^ 24 * tr_response_slot r;
      b2z (tr_crc_ok r) + 2 * b2z (tr_acknowledged_transmit r)
        + 4 * b2z (tr_accepted_receive r) + 8 * b2z (tr_peer_more_data r)
        + 16 * b2z (tr_response_transmitted r)
        + 256 * close_reason_code (tr_close_reason r) ].
Proof.
  intros [Hev Hch Hleg Hts _ _ Hp Hrh Hlen Hsl]. unfold trace_encode. cbn zeta.
  assert (Hb : ∀ b w, is_u8 b → w = 16 ∨ w = 24 → u32 (Z.shiftl b w) = Z.shiftl b w).
  { intros b w Hb [-> | ->]; apply wrap_small; rewrite Z.shiftl_mul_pow2 by lia; unfold_ints; lia. }
  rewrite !Hb, Z.shiftr_div_pow2 by (done || lia || auto).
  rewrite (wrap_small 32 (tr_timestamp_us r / 2 ^ 32)) by int_lia.
  repeat (apply (f_equal2 cons); [try done|]); [| | |done].
  - rewrite (lor_shift_add _ _ 16), (lor_shift_add _ _ 24) by (done || unfold_ints; lia). done.
  - rewrite (lor_shift_add _ _ 8), (lor_shift_add _ _ 16), (lor_shift_add _ _ 24)
      by (done || unfold_ints; lia). done.
  - by destruct (tr_crc_ok r), (tr_acknowledged_transmit r), (tr_accepted_receive r),
      (tr_peer_more_data r), (tr_response_transmitted r), (tr_close_reason r).
Qed.

(** ** Properties *)

(** C14: Exactly-once delivery: whatever legs are lost and whatever the other
    header bits are, after any run of two fresh sequence states each side has
    delivered exactly an initial segment of the other side's payload stream, in
    order and without duplicates, and the sender's count of acknowledged
    payloads is that segment's length or one less. *)
Theorem sequence_exactly_once {P} (left right : nat → P) ls :
  legs_ok ls →
  let '(a, b) := run_legs left right (ep_init, ep_init) ls in
  ep_delivered b = left <$> seq 0 (length (ep_delivered b)) ∧
  ep_delivered a = right <$> seq 0 (length (ep_delivered a)) ∧
  (ep_acked a ≤ length (ep_delivered b) ≤ S (ep_acked a))%nat ∧
  (ep_acked b ≤ length (ep_delivered a) ≤ S (ep_acked b))%nat.
Proof.
  intros Hls. pose proof (run_legs_ok left right _ _ (link_init_ok left right) Hls) as H.
  destruct (run_legs left right (ep_init, ep_init) ls) as [a b].
  destruct H as [[_ _ ? ?] [_ _ ? ?]]. cbn in *. split_and!; try done; lia.
Qed.

Lemma sequence_exactly_once_witness :
  (ep_delivered (run_legs (λ n, n) (λ n, n + 10)%nat (ep_init, ep_init)
    [mkLeg true true 2 false; mkLeg false false 1 true; mkLeg true true 2 false;
     mkLeg false true 1 false; mkLeg true true 2 false]).2 = [0; 1])%nat.
Proof.
  set (ls := [_; _; _; _; _]).
  assert (Hls : legs_ok ls) by (unfold legs_ok, fits; repeat constructor; cbn; lia).
  pose proof (sequence_exactly_once (λ n, n) (λ n, n + 10)%nat ls Hls) as H.
  destruct (run_legs _ _ _ ls) as [a b] eqn:Hr. vm_compute in Hr.
  injection Hr as <- <-. exact (proj1 H).
Defined.

(** Progress: from any reachable state, one arriving leg followed by one
    arriving leg in the other direction delivers and acknowledges the payload
    that was on air, so both sides agree on the count again. *)
Theorem sequence_round_trip_progress {P} (left right : nat → P) ls h1 h2 md1 md2 :
  legs_ok ls → is_u8 h1 → is_u8 h2 →
  let before := run_legs left right (ep_init, ep_init) ls in
  let after := run_legs left right before [mkLeg true true h1 md1; mkLeg false true h2 md2] in
  ep_acked after.1 = S (ep_acked before.1) ∧
  length (ep_delivered after.2) = ep_acked after.1.
Proof.
  intros Hls H1 H2. cbn zeta.
  pose proof (run_legs_ok left right _ _ (link_init_ok left right) Hls) as H.
  destruct (run_legs left right (ep_init, ep_init) ls) as [a b]. destruct H as [Hl Hr].
  cbn [run_legs foldl leg_step leg_arrives leg_from_left leg_staged_header leg_more_data negb].
  destruct (receive_spec left right a b h1 md1 Hl Hr H1) as (Hl' & Hr' & Hlen & _).
  set (b' := ep_receive b _ _) in *.
  destruct (receive_spec right left b' a h2 md2 Hr' Hl' H2) as (_ & _ & _ & Hack).
  cbn [fst snd]. lia.
Qed.

Lemma sequence_round_trip_progress_witness :
  ep_acked (run_legs (λ n, n) (λ n, n) (ep_init, ep_init)
    [mkLeg true false 2 false; mkLeg true true 2 true; mkLeg false true 1 false]).1 = 1%nat.
Proof.
  refine (proj1 (sequence_round_trip_progress (λ n, n) (λ n, n) [mkLeg true false 2 false]
    2 1 true false _ _ _)); unfold legs_ok, fits; repeat constructor; cbn; lia.
Defined.

(** The seven trace words lose nothing: every record whose fields have
    their Rust widths is recovered from its encoding, so the fields never
    overlap. *)
Theorem trace_encode_roundtrip r :
  trace_ok r → trace_decode (trace_encode r) = Some r.
Proof.
  intros Hr. rewrite trace_words by done. destruct Hr. destruct r; cbn in *.
  f_equal. f_equal; try int_lia.
  all: clear; repeat match goal with x : bool |- _ => destruct x end;
    by match goal with c : ConnectionEventCloseReason |- _ => destruct c end.
Qed.

Lemma trace_encode_roundtrip_witness :
  let r := mkTraceRecord 0x1234 36 2 0x123456789 7 9 0x0d 0x11 27 1
             true false true false true Deadline in
  trace_decode (trace_encode r) = Some r.
Proof. apply trace_encode_roundtrip. split; unfold fits; cbn; lia. Defined.

(** An event continues exactly when the packet passed CRC and MIC before the
    deadline, one participant announced more data and the backend has resources;
    a CRC failure is reported before a MIC failure, and both take precedence over
    every normal closing reason. *)
Theorem connection_event_decision_spec i :
  (connection_event_decision i = Continue ↔
     crc_ok i = true ∧ mic_ok i = true ∧ before_deadline i = true ∧
     (local_md i = true ∨ peer_md i = true) ∧ resources_available i = true) ∧
  (connection_event_decision i = InvalidCrc ↔ crc_ok i = false) ∧
  (connection_event_decision i = InvalidMic ↔ crc_ok i = true ∧ mic_ok i = false) ∧
  (connection_event_decision i = BothMdClear →
     local_md i = false ∧ peer_md i = false ∧ before_deadline i = true) ∧
  connection_event_decision i ≠ RadioTimeout ∧ connection_event_decision i ≠ ProtocolError.
Proof. destruct i as [[] [] [] [] [] []]; vm_compute; intuition congruence. Qed.
