(* ===== verification/EventTx.v ===== *)
(** * Transmit ownership during a connection event

    Models [ConnectionEventTxState] of
    [crates/ble-controller/src/link_layer.rs]: two DMA slots that carry up to
    eight Host payloads through retries and acknowledgements.  The component is
    specified by a stop-and-wait queue ([Queue] below) and proved to refine it. *)

From S2P Require Import Prelude.

(*! crates/ble-controller/src/link_layer.rs 73-77 ConnectionEventTxSlot *)
Inductive ConnectionEventTxSlot : Type := Slot0 | Slot1.
#[export] Instance ConnectionEventTxSlot_eq_dec : EqDecision ConnectionEventTxSlot.
Proof. solve_decision. Defined.

(*! crates/ble-controller/src/link_layer.rs 81-88 ConnectionEventTxToken *)
Record ConnectionEventTxToken : Type := mkTxToken {
  payload_id : Z;
  owner_token : Z;
  generation : Z;
}.
#[export] Instance ConnectionEventTxToken_eq_dec : EqDecision ConnectionEventTxToken.
Proof. solve_decision. Defined.

(*! crates/ble-controller/src/link_layer.rs 90-90 MAX_CONNECTION_EVENT_TX_PAYLOADS *)
Definition MAX_CONNECTION_EVENT_TX_PAYLOADS : nat := 8.

(*! crates/ble-controller/src/link_layer.rs 94-98 ConnectionEventTxRefill *)
Record ConnectionEventTxRefill : Type := mkTxRefill {
  refill_slot : ConnectionEventTxSlot;
  refill_token : ConnectionEventTxToken;
}.
#[export] Instance ConnectionEventTxRefill_eq_dec : EqDecision ConnectionEventTxRefill.
Proof. solve_decision. Defined.

(*! crates/ble-controller/src/link_layer.rs 101-120 ConnectionEventTxDecision *)
Record ConnectionEventTxDecision : Type := mkTxDecision {
  response_slot : ConnectionEventTxSlot;
  response_token : option ConnectionEventTxToken;
  response_is_retry : bool;
  acknowledged_response : bool;
  acknowledged_token : option ConnectionEventTxToken;
  refill_after_transmit : option ConnectionEventTxRefill;
  more_payloads_after_response : bool;
}.
#[export] Instance ConnectionEventTxDecision_eq_dec : EqDecision ConnectionEventTxDecision.
Proof. solve_decision. Defined.

(*! crates/ble-controller/src/link_layer.rs 122-128 ConnectionEventTxError *)
Inductive ConnectionEventTxError : Type :=
| TooManyPayloads
| AckWithoutOutstandingResponse
| ResponsePlanAlreadyPending
| CompletionDoesNotMatchDecision.
#[export] Instance ConnectionEventTxError_eq_dec : EqDecision ConnectionEventTxError.
Proof. solve_decision. Defined.

(*! crates/ble-controller/src/link_layer.rs 130-134 ConnectionEventOutstanding *)
Record ConnectionEventOutstanding : Type := mkTxOutstanding {
  out_slot : ConnectionEventTxSlot;
  out_token : option ConnectionEventTxToken;
}.
#[export] Instance ConnectionEventOutstanding_eq_dec : EqDecision ConnectionEventOutstanding.
Proof. solve_decision. Defined.

(** A Rust array [[T; 2]] indexed by [slot_index(slot)]. *)
Definition arr2 (A : Type) : Type := A * A.
(*! crates/ble-controller/src/link_layer.rs 230-235 ConnectionEventTxState::slot_index *)
Definition slot_index (slot : ConnectionEventTxSlot) : Z :=
  match slot with Slot0 => 0 | Slot1 => 1 end.
Definition at2 {A} (l : arr2 A) (slot : ConnectionEventTxSlot) : A :=
  match slot with Slot0 => l.1 | Slot1 => l.2 end.
Definition set2 {A} (l : arr2 A) (slot : ConnectionEventTxSlot) (x : A) : arr2 A :=
  match slot with Slot0 => (x, l.2) | Slot1 => (l.1, x) end.
Definition enumerate2 {A} (l : arr2 A) : list (Z * A) := [(0, l.1); (1, l.2)].

(*! crates/ble-controller/src/link_layer.rs 145-155 ConnectionEventTxState *)
Record ConnectionEventTxState : Type := mkTxState {
  tx_slots : arr2 (option ConnectionEventTxToken);
  tx_generations : arr2 Z;
  tx_outstanding : option ConnectionEventOutstanding;
  tx_planned : option ConnectionEventTxDecision;
  tx_payload_count : Z;
  tx_next_payload_id : Z;
  tx_owner_tokens : list Z;
  tx_last_released_slot : ConnectionEventTxSlot;
}.
#[export] Instance ConnectionEventTxState_eta : Eta ConnectionEventTxState := λ s,
  mkTxState (tx_slots s) (tx_generations s) (tx_outstanding s) (tx_planned s)
    (tx_payload_count s) (tx_next_payload_id s) (tx_owner_tokens s)
    (tx_last_released_slot s).

(** ** Constructors *)

(** The array has [MAX_CONNECTION_EVENT_TX_PAYLOADS] entries, so the constant
    indices 0 and 1 are in range. *)
(*! crates/ble-controller/src/link_layer.rs 191-228 ConnectionEventTxState::from_owner_tokens *)
Definition from_owner_tokens (owner_tokens : list Z) (payload_count : Z)
  : ConnectionEventTxState :=
  let slots :=
    if payload_count =? 0 then (None, None)
    else if payload_count =? 1 then (Some (mkTxToken 0 (owner_tokens !!! 0%nat) 0), None)
    else (Some (mkTxToken 0 (owner_tokens !!! 0%nat) 0),
          Some (mkTxToken 1 (owner_tokens !!! 1%nat) 0)) in
  mkTxState slots (0, 0) None None payload_count
    (if 1 <? payload_count then 2 else payload_count) owner_tokens Slot0.

(*! crates/ble-controller/src/link_layer.rs 158-165 ConnectionEventTxState::new *)
Definition tx_new (payload_count : Z) : ConnectionEventTxState :=
  let owner_tokens := replicate MAX_CONNECTION_EVENT_TX_PAYLOADS 0 in
  let bounded_count := Z.min payload_count (Z.of_nat MAX_CONNECTION_EVENT_TX_PAYLOADS) in
  let owner_tokens := foldl (λ tokens payload_id, <[Z.to_nat payload_id := payload_id]> tokens)
                        owner_tokens (seqZ 0 bounded_count) in
  from_owner_tokens owner_tokens bounded_count.

(*! crates/ble-controller/src/link_layer.rs 167-174 ConnectionEventTxState::new_with_owner_tokens *)
Definition new_with_owner_tokens (owner_tokens : list Z)
  : result ConnectionEventTxError ConnectionEventTxState :=
  if (MAX_CONNECTION_EVENT_TX_PAYLOADS <? length owner_tokens)%nat then Err TooManyPayloads
  else
    let copied := splice 0 owner_tokens (replicate MAX_CONNECTION_EVENT_TX_PAYLOADS 0) in
    Ok (from_owner_tokens copied (u8 (Z.of_nat (length owner_tokens)))).

(*! crates/ble-controller/src/link_layer.rs 180-189 ConnectionEventTxState::with_empty_retry *)
Definition with_empty_retry (owner_tokens : list Z)
  : result ConnectionEventTxError ConnectionEventTxState :=
  state ← new_with_owner_tokens owner_tokens;
  let state := state <| tx_slots := (None, (tx_slots state).1) |> in
  let state := state <| tx_next_payload_id :=
                 b2z (negb (length owner_tokens =? 0)%nat) |> in
  Ok (state <| tx_outstanding := Some (mkTxOutstanding Slot0 None) |>).

(*! crates/ble-controller/src/link_layer.rs 422-426 ConnectionEventTxState::default *)
Definition tx_default : ConnectionEventTxState := tx_new 0.

(** ** Selection *)

(*! crates/ble-controller/src/link_layer.rs 237-248 ConnectionEventTxState::staged_slot *)
Definition staged_slot (slots : arr2 (option ConnectionEventTxToken))
  : option ConnectionEventTxSlot :=
  match slots with
  | (Some l, Some r) =>
      if payload_id r <? payload_id l then Some Slot1 else Some Slot0
  | (Some _, _) => Some Slot0
  | (None, Some _) => Some Slot1
  | (None, None) => None
  end.

(** [slots.iter().enumerate().any(|(index, token)| index != slot && token.is_some())]. *)
(*! crates/ble-controller/src/link_layer.rs 298-302 ConnectionEventTxState::preview_select *)
Definition other_slot_staged (slots : arr2 (option ConnectionEventTxToken))
    (slot : ConnectionEventTxSlot) : bool :=
  existsb (λ '(index, token), negb (index =? slot_index slot) && bool_decide (is_Some token))
    (enumerate2 slots).

(** The refill of a released slot, [if let Some(slot) = released_slot && ...].
    [next_payload_id < payload_count <= 8] keeps the table index in range. *)
(*! crates/ble-controller/src/link_layer.rs 330-343 ConnectionEventTxState::preview_select *)
Definition plan_refill (s : ConnectionEventTxState)
    (released_slot : option ConnectionEventTxSlot) : option ConnectionEventTxRefill :=
  match released_slot with
  | Some slot =>
      if tx_next_payload_id s <? tx_payload_count s then
        let generation := u8 (at2 (tx_generations s) slot + 1) in
        Some (mkTxRefill slot
          (mkTxToken (tx_next_payload_id s)
             (tx_owner_tokens s !!! Z.to_nat (tx_next_payload_id s)) generation))
      else None
  | None => None
  end.

(** The tail of [preview_select], once a retry has been excluded. *)
(*! crates/ble-controller/src/link_layer.rs 315-362 ConnectionEventTxState::preview_select *)
Definition fresh_decision (s : ConnectionEventTxState)
    (slots : arr2 (option ConnectionEventTxToken))
    (last_released_slot : ConnectionEventTxSlot)
    (acknowledged_response : bool)
    (acknowledged_token : option ConnectionEventTxToken)
    (released_slot : option ConnectionEventTxSlot) : ConnectionEventTxDecision :=
  let response_slot :=
    match staged_slot slots with Some slot => slot | None => last_released_slot end in
  let response_token := at2 slots response_slot in
  let released_slot :=
    match released_slot with
    | Some slot => Some slot
    | None =>
        let candidate := match response_slot with Slot0 => Slot1 | Slot1 => Slot0 end in
        match at2 slots candidate with None => Some candidate | Some _ => None end
    end in
  let refill_after_transmit := plan_refill s released_slot in
  let more := other_slot_staged slots response_slot
              || bool_decide (is_Some refill_after_transmit)
              || (tx_next_payload_id s <? tx_payload_count s) in
  mkTxDecision response_slot response_token false acknowledged_response
    acknowledged_token refill_after_transmit more.

(*! crates/ble-controller/src/link_layer.rs 276-363 ConnectionEventTxState::preview_select *)
Definition preview_select (s : ConnectionEventTxState) (acknowledged_transmit : bool)
  : result ConnectionEventTxError ConnectionEventTxDecision :=
  match tx_planned s with
  | Some _ => Err ResponsePlanAlreadyPending
  | None =>
      match tx_outstanding s with
      | Some outstanding =>
          if negb acknowledged_transmit then
            Ok (mkTxDecision (out_slot outstanding) (out_token outstanding) true false None None
                  (other_slot_staged (tx_slots s) (out_slot outstanding)
                   || (tx_next_payload_id s <? tx_payload_count s)))
          else
            Ok (fresh_decision s (set2 (tx_slots s) (out_slot outstanding) None)
                  (out_slot outstanding) true (out_token outstanding)
                  (Some (out_slot outstanding)))
      | None =>
          if acknowledged_transmit then Err AckWithoutOutstandingResponse
          else Ok (fresh_decision s (tx_slots s) (tx_last_released_slot s) false None None)
      end
  end.

(*! crates/ble-controller/src/link_layer.rs 255-270 ConnectionEventTxState::select *)
Definition select (s : ConnectionEventTxState) (acknowledged_transmit : bool)
  : result ConnectionEventTxError (ConnectionEventTxDecision * ConnectionEventTxState) :=
  decision ← preview_select s acknowledged_transmit;
  s ← (if acknowledged_response decision then
         outstanding ← ok_or (tx_outstanding s) AckWithoutOutstandingResponse;
         let s := s <| tx_outstanding := None |> in
         let s := s <| tx_slots := set2 (tx_slots s) (out_slot outstanding) None |> in
         Ok (s <| tx_last_released_slot := out_slot outstanding |>)
       else Ok s);
  Ok (decision, s <| tx_planned := Some decision |>).

(** The [if self.planned != Some(decision)] test. *)
Definition plan_matches (s : ConnectionEventTxState) (d : ConnectionEventTxDecision) : bool :=
  bool_decide (tx_planned s = Some d).

(*! crates/ble-controller/src/link_layer.rs 379-392 ConnectionEventTxState::complete_transmit *)
Definition refill_matches (s : ConnectionEventTxState) (refill : ConnectionEventTxRefill) : bool :=
  let token := refill_token refill in
  bool_decide (at2 (tx_slots s) (refill_slot refill) = None)
  && (payload_id token =? tx_next_payload_id s)
  && (generation token =? u8 (at2 (tx_generations s) (refill_slot refill) + 1))
  && bool_decide (tx_owner_tokens s !! Z.to_nat (payload_id token) = Some (owner_token token)).

(*! crates/ble-controller/src/link_layer.rs 366-406 ConnectionEventTxState::complete_transmit *)
Definition complete_transmit (s : ConnectionEventTxState) (decision : ConnectionEventTxDecision)
  : result ConnectionEventTxError ConnectionEventTxState :=
  if negb (plan_matches s decision) then Err CompletionDoesNotMatchDecision
  else if match tx_outstanding s with
          | Some o => negb (bool_decide (out_slot o = response_slot decision))
                      || negb (bool_decide (out_token o = response_token decision))
          | None => false
          end then Err CompletionDoesNotMatchDecision
  else if match refill_after_transmit decision with
          | Some refill => negb (refill_matches s refill)
          | None => false
          end then Err CompletionDoesNotMatchDecision
  else
    let s := s <| tx_planned := None |> in
    let s := s <| tx_outstanding :=
               Some (mkTxOutstanding (response_slot decision) (response_token decision)) |> in
    match refill_after_transmit decision with
    | Some refill =>
        let s := s <| tx_generations :=
                   set2 (tx_generations s) (refill_slot refill) (generation (refill_token refill)) |> in
        let s := s <| tx_slots :=
                   set2 (tx_slots s) (refill_slot refill) (Some (refill_token refill)) |> in
        Ok (s <| tx_next_payload_id := u8 (tx_next_payload_id s + 1) |>)
    | None => Ok s
    end.

(*! crates/ble-controller/src/link_layer.rs 410-419 ConnectionEventTxState::abort_transmit *)
Definition abort_transmit (s : ConnectionEventTxState) (decision : ConnectionEventTxDecision)
  : result ConnectionEventTxError ConnectionEventTxState :=
  if negb (plan_matches s decision) then Err CompletionDoesNotMatchDecision
  else Ok (s <| tx_planned := None |>).

(** ** Specification: a stop-and-wait queue of owner tokens *)

(** [q_waiting]: the owners not yet acknowledged, oldest first; [q_out]: the
    response last completed ([Some None] is an Empty PDU); [q_pending]: the
    response selected and not yet completed. *)
Record Queue : Type := mkQueue {
  q_waiting : list Z;
  q_out : option (option Z);
  q_pending : option (option Z);
}.

(** What a decision means to the Host side. *)
Record TxView : Type := mkTxView {
  v_response : option Z;
  v_retry : bool;
  v_acknowledged : option Z;
  v_more : bool;
}.

Definition owner_of (t : option ConnectionEventTxToken) : option Z := owner_token <$> t.

Definition decision_view (d : ConnectionEventTxDecision) : TxView :=
  mkTxView (owner_of (response_token d)) (response_is_retry d)
    (owner_of (acknowledged_token d)) (more_payloads_after_response d).

Definition q_more (response : option Z) (waiting : list Z) : bool :=
  bool_decide ((if response is Some _ then 1 else 0) < length waiting)%nat.

Definition q_select (q : Queue) (ack : bool) : result ConnectionEventTxError (TxView * Queue) :=
  match q_pending q with
  | Some _ => Err ResponsePlanAlreadyPending
  | None =>
      match q_out q, ack with
      | Some r, false =>
          Ok (mkTxView r true None (q_more r (q_waiting q)),
              mkQueue (q_waiting q) (Some r) (Some r))
      | Some r, true =>
          let w := match r with Some _ => tail (q_waiting q) | None => q_waiting q end in
          Ok (mkTxView (head w) false r (q_more (head w) w), mkQueue w None (Some (head w)))
      | None, false =>
          let w := q_waiting q in
          Ok (mkTxView (head w) false None (q_more (head w) w), mkQueue w None (Some (head w)))
      | None, true => Err AckWithoutOutstandingResponse
      end
  end.

Definition q_complete (q : Queue) : Queue := mkQueue (q_waiting q) (q_pending q) None.
Definition q_abort (q : Queue) : Queue := mkQueue (q_waiting q) (q_out q) None.

(** ** Invariant *)

Definition flip_slot (x : ConnectionEventTxSlot) : ConnectionEventTxSlot :=
  match x with Slot0 => Slot1 | Slot1 => Slot0 end.

(** The token payload [i] has when it occupies slot [y]. *)
Definition token_in (s : ConnectionEventTxState) (i : Z) (y : ConnectionEventTxSlot)
  : ConnectionEventTxToken :=
  mkTxToken i (tx_owner_tokens s !!! Z.to_nat i) (at2 (tx_generations s) y).

(** [a] payloads are acknowledged; slot [x] stages payload [a], the other slot
    payload [a + 1], as far as they have been staged. *)
Record tx_core (s : ConnectionEventTxState) (a : Z) (x : ConnectionEventTxSlot) : Prop := {
  core_length : length (tx_owner_tokens s) = MAX_CONNECTION_EVENT_TX_PAYLOADS;
  core_range : 0 ≤ a ≤ tx_next_payload_id s ∧ tx_next_payload_id s ≤ tx_payload_count s ≤ 8;
  core_two : tx_next_payload_id s ≤ a + 2;
  core_busy : tx_next_payload_id s = a → tx_payload_count s = a;
  core_first : at2 (tx_slots s) x =
    if a <? tx_next_payload_id s then Some (token_in s a x) else None;
  core_second : at2 (tx_slots s) (flip_slot x) =
    if a + 1 <? tx_next_payload_id s then Some (token_in s (a + 1) (flip_slot x)) else None;
}.

Definition full_or_last (s : ConnectionEventTxState) (a : Z) : Prop :=
  tx_next_payload_id s = a + 2 ∨ tx_next_payload_id s = tx_payload_count s.

Definition outstanding_ok (s : ConnectionEventTxState) (a : Z) (x : ConnectionEventTxSlot) : Prop :=
  match tx_outstanding s with
  | None => True
  | Some (mkTxOutstanding y (Some t)) =>
      y = x ∧ at2 (tx_slots s) x = Some t ∧ full_or_last s a
  | Some (mkTxOutstanding y None) => at2 (tx_slots s) y = None
  end.

Definition planned_ok (s : ConnectionEventTxState) (a : Z) (x : ConnectionEventTxSlot) : Prop :=
  match tx_planned s with
  | None => True
  | Some d =>
      match tx_outstanding s with
      | Some o => response_slot d = out_slot o ∧ response_token d = out_token o ∧
                  refill_after_transmit d = None
      | None =>
          at2 (tx_slots s) (response_slot d) = response_token d ∧
          (a < tx_next_payload_id s → response_slot d = x) ∧
          match refill_after_transmit d with
          | None => full_or_last s a
          | Some r => refill_matches s r = true ∧ refill_slot r = flip_slot x ∧
                      tx_next_payload_id s = a + 1 ∧ tx_next_payload_id s < tx_payload_count s
          end
      end
  end.

Definition waiting (s : ConnectionEventTxState) (a : Z) : list Z :=
  slice (Z.to_nat a) (Z.to_nat (tx_payload_count s)) (tx_owner_tokens s).

(** The refinement relation. *)
Definition tx_rel (s : ConnectionEventTxState) (q : Queue) : Prop :=
  ∃ a x, tx_core s a x ∧ outstanding_ok s a x ∧ planned_ok s a x ∧
    q = mkQueue (waiting s a) (owner_of ∘ out_token <$> tx_outstanding s)
                (owner_of ∘ response_token <$> tx_planned s).

Lemma at2_set2_eq {A} (l : arr2 A) y v : at2 (set2 l y v) y = v.
Proof. by destruct y. Qed.
Lemma at2_set2_flip {A} (l : arr2 A) y v : at2 (set2 l y v) (flip_slot y) = at2 l (flip_slot y).
Proof. by destruct y. Qed.
Lemma at2_set2_flip' {A} (l : arr2 A) y v : at2 (set2 l (flip_slot y) v) y = at2 l y.
Proof. by destruct y. Qed.
Lemma flip_flip y : flip_slot (flip_slot y) = y.
Proof. by destruct y. Qed.
Lemma flip_ne y : flip_slot y ≠ y.
Proof. by destruct y. Qed.
Lemma slot_cases x y : y = x ∨ y = flip_slot x.
Proof. destruct x, y; auto. Qed.
Create Rewrite HintDb slots.
#[export] Hint Rewrite @at2_set2_eq @at2_set2_flip @at2_set2_flip' flip_flip : slots.

#[local] Arguments other_slot_staged : simpl never.
#[local] Arguments plan_refill : simpl never.
#[local] Arguments owner_of : simpl never.
#[local] Arguments staged_slot : simpl never.
#[local] Arguments fresh_decision : simpl never.
#[local] Arguments refill_matches : simpl never.

Lemma other_slot_staged_flip slots y :
  other_slot_staged slots y = bool_decide (is_Some (at2 slots (flip_slot y))).
Proof. destruct slots as [[] []], y; reflexivity. Qed.

Lemma length_waiting s a x : tx_core s a x →
  length (waiting s a) = Z.to_nat (tx_payload_count s - a).
Proof.
  intros []. unfold waiting. rewrite length_slice; [lia|].
  unfold MAX_CONNECTION_EVENT_TX_PAYLOADS in *. lia.
Qed.

Lemma waiting_end s a x : tx_core s a x → tx_payload_count s ≤ a → waiting s a = [].
Proof. intros Hc Ha. apply length_zero_iff_nil. rewrite (length_waiting _ _ x) by done. lia. Qed.

Lemma waiting_cons s a x : tx_core s a x → a < tx_payload_count s →
  waiting s a = (tx_owner_tokens s !!! Z.to_nat a) :: waiting s (a + 1).
Proof.
  intros [Hlen ? ? ? ? ?] Ha. unfold MAX_CONNECTION_EVENT_TX_PAYLOADS in *. unfold waiting, slice.
  rewrite (drop_S _ (tx_owner_tokens s !!! Z.to_nat a)) by
    (apply list_lookup_lookup_total_lt; lia).
  replace (Z.to_nat (tx_payload_count s) - Z.to_nat a)%nat with
    (S (Z.to_nat (tx_payload_count s) - Z.to_nat (a + 1))) by lia.
  cbn. by replace (Z.to_nat (a + 1)) with (S (Z.to_nat a)) by lia.
Qed.

Lemma head_waiting s a x : tx_core s a x →
  owner_of (at2 (tx_slots s) x) = head (waiting s a).
Proof.
  intros Hc. pose proof Hc as [_ ? _ Hbusy Hfirst _]. rewrite Hfirst.
  destruct (Z.ltb_spec a (tx_next_payload_id s)).
  - by rewrite (waiting_cons s a x) by (done || lia).
  - by rewrite (waiting_end s a x) by (done || lia).
Qed.

Lemma staged_slot_spec s a x : tx_core s a x →
  staged_slot (tx_slots s) = if a <? tx_next_payload_id s then Some x else None.
Proof.
  intros [_ _ _ _ Hfirst Hsecond]. unfold staged_slot.
  destruct (tx_slots s) as [l r], x; cbn in *; subst;
    destruct (Z.ltb_spec a (tx_next_payload_id s)), (Z.ltb_spec (a + 1) (tx_next_payload_id s));
    cbn; try done; try lia; case_match; try done; lia.
Qed.

(** *** Selection of a fresh response *)

(** A released slot is empty and is not the one of the next response. *)
Definition released_ok (s : ConnectionEventTxState) (a : Z) (x : ConnectionEventTxSlot)
    (released : option ConnectionEventTxSlot) : Prop :=
  match released with
  | Some z => at2 (tx_slots s) z = None ∧ (a < tx_next_payload_id s → z = flip_slot x)
  | None => True
  end.

Lemma plan_refill_spec s a x released : tx_core s a x → released_ok s a x released →
  (released = None → full_or_last s a) →
  match plan_refill s released with
  | None => full_or_last s a
  | Some r => refill_matches s r = true ∧ refill_slot r = flip_slot x ∧
              tx_next_payload_id s = a + 1 ∧ tx_next_payload_id s < tx_payload_count s
  end.
Proof.
  intros Hc Hr Hn. pose proof Hc as [Hlen ? ? ? _ Hsecond].
  unfold MAX_CONNECTION_EVENT_TX_PAYLOADS in *.
  unfold plan_refill. destruct released as [z|]; cbn; [|by apply Hn]. destruct Hr as [Hz Hx].
  destruct (Z.ltb_spec (tx_next_payload_id s) (tx_payload_count s)); [|right; lia].
  rewrite Hx in * by lia.
  assert (tx_next_payload_id s = a + 1).
  { rewrite Hsecond in Hz. destruct (Z.ltb_spec (a + 1) (tx_next_payload_id s)); [done|lia]. }
  split_and!; try done. unfold refill_matches. cbn.
  rewrite Hz, !Z.eqb_refl, !bool_decide_true; [done| |done].
  apply list_lookup_lookup_total_lt. lia.
Qed.

Lemma fresh_spec s a x y ackr ackt released :
  tx_core s a x → released_ok s a x released → tx_outstanding s = None →
  let d := fresh_decision s (tx_slots s) y ackr ackt released in
  decision_view d = mkTxView (head (waiting s a)) false (owner_of ackt)
                      (q_more (head (waiting s a)) (waiting s a)) ∧
  planned_ok (s <| tx_planned := Some d |>) a x.
Proof.
  intros Hc Hr Hout. cbn zeta. pose proof Hc as [? ? ? ? Hfirst Hsecond].
  unfold decision_view, fresh_decision, planned_ok. cbn.
  rewrite (staged_slot_spec s a x), other_slot_staged_flip, Hout by done.
  set (rel' := match released with Some _ => _ | None => _ end).
  set (rs := match (if a <? tx_next_payload_id s then Some x else None) with
             | Some slot => slot | None => y end) in *.
  assert (Hrs : a < tx_next_payload_id s → rs = x).
  { intros. subst rs. by rewrite (proj2 (Z.ltb_lt _ _)) by lia. }
  assert (Hempty : tx_next_payload_id s = a → ∀ z, at2 (tx_slots s) z = None).
  { intros Hn z. rewrite (proj2 (Z.ltb_ge _ _)) in Hfirst by lia.
    rewrite (proj2 (Z.ltb_ge _ _)) in Hsecond by lia.
    by destruct (slot_cases x z) as [-> | ->]. }
  assert (Htok : at2 (tx_slots s) rs = at2 (tx_slots s) x).
  { destruct (decide (a < tx_next_payload_id s)); [by rewrite Hrs|].
    by rewrite !Hempty by lia. }
  assert (Hrel : released_ok s a x rel' ∧ (rel' = None → full_or_last s a)).
  { subst rel'. destruct released as [z|]; [done|]. fold (flip_slot rs).
    destruct (at2 (tx_slots s) (flip_slot rs)) as [t|] eqn:Ht; cbn.
    - split; [done|]. intros _. destruct (decide (tx_next_payload_id s = a)).
      { by rewrite Hempty in Ht. }
      rewrite Hrs, Hsecond in Ht by lia. left.
      destruct (Z.ltb_spec (a + 1) (tx_next_payload_id s)); [lia|done].
    - split; [|done]. split; [done|]. intros. by rewrite Hrs. }
  destruct Hrel as [Hrel Hfull].
  pose proof (plan_refill_spec s a x rel' Hc Hrel Hfull) as Hplan.
  split; [|by split_and!].
  rewrite Htok, (head_waiting s a x) by done. f_equal.
  unfold q_more. rewrite (length_waiting s a x) by done.
  destruct (decide (tx_next_payload_id s = a)) as [Hn|Hn].
  - rewrite (waiting_end s a x), Hempty by (done || lia). cbn.
    destruct (plan_refill s rel') as [r|]; [lia|]. cbn.
    rewrite (proj2 (Z.ltb_ge _ _)) by lia. cbn.
    symmetry. apply bool_decide_eq_false. lia.
  - rewrite Hrs, Hsecond, (waiting_cons s a x) by (done || lia). cbn [head].
    apply eq_true_iff_eq. rewrite !orb_true_iff, Z.ltb_lt, !bool_decide_eq_true.
    destruct (Z.ltb_spec (a + 1) (tx_next_payload_id s)); destruct (plan_refill s rel');
      (split; [intros Hor|intros; eauto]); try lia.
    all: destruct Hor as [[[? ?]|[? ?]]|?]; try done; lia.
Qed.

(** ** The operations refine the queue *)

Lemma set2_same {A} (l : arr2 A) y v : at2 l y = v → ∀ z, at2 (set2 l y v) z = at2 l z.
Proof. intros <- z. by destruct y, z. Qed.

(** Acknowledging an outstanding payload or Empty PDU releases its slot. *)
Lemma release_payload s a x t :
  tx_core s a x → at2 (tx_slots s) x = Some t → full_or_last s a →
  let s' := s <| tx_outstanding := None |> <| tx_slots := set2 (tx_slots s) x None |>
              <| tx_last_released_slot := x |> in
  tx_core s' (a + 1) (flip_slot x) ∧ released_ok s' (a + 1) (flip_slot x) (Some x) ∧
  waiting s' (a + 1) = tail (waiting s a).
Proof.
  intros Hc Hx Hfull. cbn zeta. pose proof Hc as [? ? ? ? Hfirst Hsecond].
  rewrite Hx in Hfirst. destruct (Z.ltb_spec a (tx_next_payload_id s)); [|done].
  split_and!.
  - split; cbn; autorewrite with slots; try done; try lia.
    + unfold full_or_last in Hfull. lia.
    + by rewrite (proj2 (Z.ltb_ge _ _)) by lia.
  - cbn. autorewrite with slots. by split.
  - by rewrite (waiting_cons s a x) by (done || lia).
Qed.

Lemma release_empty s a x y :
  tx_core s a x → at2 (tx_slots s) y = None →
  let s' := s <| tx_outstanding := None |> <| tx_slots := set2 (tx_slots s) y None |>
              <| tx_last_released_slot := y |> in
  tx_core s' a x ∧ released_ok s' a x (Some y) ∧ waiting s' a = waiting s a.
Proof.
  intros [? ? ? ? Hfirst Hsecond] Hy. cbn zeta. split_and!; [|split|done].
  - split; cbn; try done; by rewrite (set2_same (tx_slots s)).
  - cbn. by autorewrite with slots.
  - cbn. intros Hlt. rewrite (proj2 (Z.ltb_lt _ _)) in Hfirst by done.
    destruct (slot_cases x y) as [-> | ->]; congruence.
Qed.

(** [fresh_decision] reads only fields that a release leaves alone. *)
Lemma fresh_decision_ext s s' slots y ackr ackt released :
  tx_generations s' = tx_generations s → tx_payload_count s' = tx_payload_count s →
  tx_next_payload_id s' = tx_next_payload_id s → tx_owner_tokens s' = tx_owner_tokens s →
  fresh_decision s slots y ackr ackt released = fresh_decision s' slots y ackr ackt released.
Proof. intros H1 H2 H3 H4. unfold fresh_decision, plan_refill. by rewrite H1, H2, H3, H4. Qed.

Lemma fresh_select_rel s a x y ackr ackt released :
  tx_core s a x → released_ok s a x released → tx_outstanding s = None →
  tx_planned s = None →
  let d := fresh_decision s (tx_slots s) y ackr ackt released in
  let w := waiting s a in
  decision_view d = mkTxView (head w) false (owner_of ackt) (q_more (head w) w) ∧
  tx_rel (s <| tx_planned := Some d |>) (mkQueue w None (Some (head w))).
Proof.
  intros Hc Hr Hout Hpl. cbn zeta.
  destruct (fresh_spec s a x y ackr ackt released Hc Hr Hout) as [Hview Hplan].
  split; [done|]. exists a, x. split_and!; [by destruct Hc| |done|].
  - unfold outstanding_ok. cbn. by rewrite Hout.
  - cbn. rewrite Hout. apply (f_equal v_response) in Hview. cbn in Hview.
    by rewrite <- Hview.
Qed.

(** The MD promise of a retry: some payload waits behind the outstanding one. *)
Lemma retry_more s a x y t : tx_core s a x →
  match t with
  | Some t => y = x ∧ at2 (tx_slots s) x = Some t ∧ full_or_last s a
  | None => at2 (tx_slots s) y = None
  end →
  q_more (owner_of t) (waiting s a) =
    other_slot_staged (tx_slots s) y || (tx_next_payload_id s <? tx_payload_count s).
Proof.
  intros Hc Hout. pose proof Hc as [? ? ? ? Hfirst Hsecond].
  unfold q_more. rewrite (length_waiting s a x), other_slot_staged_flip by done.
  apply eq_true_iff_eq. rewrite orb_true_iff, !bool_decide_eq_true, Z.ltb_lt.
  unfold owner_of. destruct t as [t|]; cbn.
  - destruct Hout as (-> & Hx & _). rewrite Hsecond. rewrite Hx in Hfirst.
    destruct (Z.ltb_spec a (tx_next_payload_id s)); [|done].
    destruct (Z.ltb_spec (a + 1) (tx_next_payload_id s)).
    + split; [eauto|intros _; lia].
    + split; [right; lia|intros [[? ?]|?]; [done|lia]].
  - assert (Hstaged : is_Some (at2 (tx_slots s) (flip_slot y)) ↔ a < tx_next_payload_id s).
    { destruct (slot_cases x y) as [-> | ->]; autorewrite with slots; [|rewrite Hfirst];
        [rewrite Hsecond; rewrite Hout in Hfirst|];
        repeat case_match; rewrite ?is_Some_alt; try done; lia. }
    rewrite Hstaged. lia.
Qed.

Lemma select_refines s q ack : tx_rel s q →
  match select s ack with
  | Ok (d, s') => ∃ q', q_select q ack = Ok (decision_view d, q') ∧ tx_rel s' q'
  | Err e => q_select q ack = Err e
  end.
Proof.
  intros (a & x & Hc & Hout & Hpl & ->). unfold select, preview_select, q_select. cbn.
  destruct (tx_planned s) as [d|] eqn:Hplan; cbn; [done|].
  destruct (tx_outstanding s) as [[y t]|] eqn:Ho; cbn.
  - unfold outstanding_ok in Hout. rewrite Ho in Hout.
    destruct ack; cbn.
    + unfold fresh_decision at 1. cbn.
      set (s' := s <| tx_outstanding := None |> <| tx_slots := set2 (tx_slots s) y None |>
                    <| tx_last_released_slot := y |>).
      rewrite (fresh_decision_ext s s') by done.
      destruct t as [t|].
      * destruct Hout as (-> & Hx & Hfull).
        destruct (release_payload s a x t Hc Hx Hfull) as (Hc' & Hr' & Hw).
        destruct (fresh_select_rel s' (a + 1) (flip_slot x) x true (Some t) (Some x))
          as [Hview Hrel]; try done.
        fold s' in Hw. rewrite Hw in Hview, Hrel.
        eexists. split; [|done]. do 2 f_equal. symmetry. exact Hview.
      * destruct (release_empty s a x y Hc Hout) as (Hc' & Hr' & Hw).
        destruct (fresh_select_rel s' a x y true None (Some y)) as [Hview Hrel]; try done.
        change (waiting s' a) with (waiting s a) in *.
        eexists. split; [|done]. do 2 f_equal. symmetry. exact Hview.
    + eexists. split.
      * do 2 f_equal. unfold decision_view. cbn. f_equal. by apply (retry_more s a x y t).
      * exists a, x. split_and!; [by destruct Hc| | |].
        -- unfold outstanding_ok. cbn. by rewrite Ho.
        -- unfold planned_ok. cbn. by rewrite Ho.
        -- cbn. by rewrite Ho.
  - destruct ack; cbn; [done|]. unfold fresh_decision at 1. cbn.
    destruct (fresh_select_rel s a x (tx_last_released_slot s) false None None)
      as [Hview Hrel]; try done.
    eexists. split; [|done]. do 2 f_equal. symmetry. exact Hview.
Qed.

Lemma complete_refines s q d : tx_rel s q →
  match complete_transmit s d with
  | Ok s' => tx_planned s = Some d ∧ tx_rel s' (q_complete q)
  | Err e => tx_planned s ≠ Some d ∧ e = CompletionDoesNotMatchDecision
  end.
Proof.
  intros (a & x & Hc & Hout & Hpl & ->). unfold complete_transmit, plan_matches, planned_ok in *.
  destruct (decide (tx_planned s = Some d)) as [Hd|Hd];
    [rewrite bool_decide_true by done|by rewrite bool_decide_false by done]. cbn [negb].
  rewrite Hd in Hpl. unfold q_complete. cbn [q_pending q_waiting]. rewrite Hd.
  pose proof Hc as [Hlen Hrange Htwo Hbusy Hfirst Hsecond].
  destruct (tx_outstanding s) as [[y t]|] eqn:Ho; cbn in Hpl |- *.
  - destruct Hpl as (-> & -> & ->). rewrite !bool_decide_true by done. cbn.
    split; [done|]. exists a, x. split_and!; try done. unfold outstanding_ok in *. by rewrite Ho in Hout.
  - destruct Hpl as (Hresp & Hx & Hrefill).
    destruct (refill_after_transmit d) as [r|]; cbn.
    + destruct Hrefill as (Hm & Hslot & Hn & Hlt). rewrite Hm. cbn. split; [done|].
      exists a, x. rewrite Hx in Hresp by lia. rewrite Hslot.
      unfold refill_matches in Hm. rewrite !andb_true_iff, !bool_decide_eq_true in Hm.
      destruct Hm as (((Hempty & Hid) & Hgen) & Howner). rewrite Z.eqb_eq in Hid, Hgen.
      rewrite Hslot in Hempty.
      assert (Hnext : u8 (tx_next_payload_id s + 1) = a + 2).
      { rewrite wrap_small; [lia|]. unfold_ints. lia. }
      split_and!; try done.
      * split; cbn; autorewrite with slots; rewrite ?Hnext; try done; try lia.
        -- rewrite Hfirst, !(proj2 (Z.ltb_lt _ _)) by lia. unfold token_in. cbn.
           by autorewrite with slots.
        -- rewrite (proj2 (Z.ltb_lt _ _)) by lia. f_equal. unfold token_in. cbn.
           autorewrite with slots. destruct r as [rs [ri ro rg]]. cbn in *.
           rewrite (list_lookup_total_correct _ _ ro); [f_equal; lia|]. by rewrite <- Hn, <- Hid.
      * unfold outstanding_ok, full_or_last. cbn. autorewrite with slots. rewrite Hnext.
        rewrite Hx by lia. destruct (response_token d) as [t|]; [split_and!; auto|].
        by autorewrite with slots.
    + split; [done|]. exists a, x. split_and!; try done.
      unfold outstanding_ok, full_or_last in *. cbn.
      destruct (response_token d) as [t|]; [|done].
      destruct (decide (a < tx_next_payload_id s)); [rewrite Hx in * by done; auto|].
      exfalso. rewrite (proj2 (Z.ltb_ge _ _)) in Hfirst by lia.
      rewrite (proj2 (Z.ltb_ge _ _)) in Hsecond by lia.
      destruct (slot_cases x (response_slot d)) as [Heq|Heq]; rewrite Heq in *; congruence.
Qed.

Lemma abort_refines s q d : tx_rel s q →
  match abort_transmit s d with
  | Ok s' => tx_planned s = Some d ∧ tx_rel s' (q_abort q)
  | Err e => tx_planned s ≠ Some d ∧ e = CompletionDoesNotMatchDecision
  end.
Proof.
  intros (a & x & Hc & Hout & Hpl & ->). unfold abort_transmit, plan_matches.
  destruct (decide (tx_planned s = Some d)) as [Hd|Hd];
    [rewrite bool_decide_true by done|by rewrite bool_decide_false by done].
  split; [done|]. exists a, x. split_and!; try done. by destruct Hc.
Qed.

(** ** Constructors *)

Lemma from_owner_tokens_core owners n :
  length owners = MAX_CONNECTION_EVENT_TX_PAYLOADS → 0 ≤ n ≤ 8 →
  tx_core (from_owner_tokens owners n) 0 Slot0.
Proof.
  intros Hlen Hn. unfold from_owner_tokens. split; cbn; try done; repeat case_match; cbn;
    bool_to_prop; try done; lia.
Qed.

Lemma splice_tokens l : (length l ≤ 8)%nat →
  let s := splice 0 l (replicate MAX_CONNECTION_EVENT_TX_PAYLOADS 0) in
  length s = MAX_CONNECTION_EVENT_TX_PAYLOADS ∧ slice 0 (length l) s = l.
Proof.
  intros Hl. cbn zeta. split; [by rewrite length_splice|].
  unfold splice, slice. rewrite Nat.sub_0_r, take_0. cbn [app]. rewrite drop_0. by rewrite take_app_length.
Qed.

Lemma new_with_owner_tokens_ok l :
  match new_with_owner_tokens l with
  | Ok s => tx_core s 0 Slot0 ∧ waiting s 0 = l ∧ tx_outstanding s = None ∧
            tx_planned s = None ∧ tx_payload_count s = Z.of_nat (length l) ∧
            tx_generations s = (0, 0)
  | Err e => e = TooManyPayloads ∧ (8 < length l)%nat
  end.
Proof.
  unfold new_with_owner_tokens.
  destruct (Nat.ltb_spec MAX_CONNECTION_EVENT_TX_PAYLOADS (length l)) as [Hl|Hl]; [done|].
  unfold MAX_CONNECTION_EVENT_TX_PAYLOADS in Hl. rewrite wrap_small by (unfold_ints; lia).
  destruct (splice_tokens l Hl) as [Hlen Hs].
  split_and!; try done; [apply from_owner_tokens_core; [done|lia]|].
  unfold waiting. cbn [tx_owner_tokens tx_payload_count from_owner_tokens].
  by rewrite Nat2Z.id.
Qed.

Lemma new_with_owner_tokens_rel l s :
  new_with_owner_tokens l = Ok s → tx_rel s (mkQueue l None None).
Proof.
  intros Hs. pose proof (new_with_owner_tokens_ok l) as H. rewrite Hs in H.
  destruct H as (Hc & Hw & Hout & Hpl & _). exists 0, Slot0.
  unfold outstanding_ok, planned_ok. rewrite Hout, Hpl, Hw. split_and!; done.
Qed.

Lemma with_empty_retry_rel l :
  match with_empty_retry l with
  | Ok s => tx_rel s (mkQueue l (Some None) None)
  | Err e => e = TooManyPayloads ∧ (8 < length l)%nat
  end.
Proof.
  unfold with_empty_retry. pose proof (new_with_owner_tokens_ok l) as H.
  destruct (new_with_owner_tokens l) as [s|e]; cbn; [|done].
  destruct H as (Hc & Hw & Hout & Hpl & Hcount & Hgen). pose proof Hc as [Hlen ? ? Hbusy Hfirst _].
  exists 0, Slot1. unfold planned_ok. cbn. rewrite Hpl. split_and!; try done.
  - split; cbn; try done; destruct l; cbn in *; try done; try lia.
    + by rewrite Hfirst, (proj2 (Z.ltb_ge _ _)) by lia.
    + rewrite Hfirst, (proj2 (Z.ltb_lt _ _)) by lia. unfold token_in. cbn. by rewrite Hgen.
  - f_equal. by rewrite <- Hw.
Qed.

(** ** Runs of operations *)

Inductive TxOp : Type :=
| OpSelect (acknowledged_transmit : bool)
| OpComplete (decision : ConnectionEventTxDecision)
| OpAbort (decision : ConnectionEventTxDecision).

(** One call; an error leaves the state unchanged. *)
Definition tx_apply (s : ConnectionEventTxState) (op : TxOp)
  : result ConnectionEventTxError (option TxView * ConnectionEventTxState) :=
  match op with
  | OpSelect ack => '(d, s) ← select s ack; Ok (Some (decision_view d), s)
  | OpComplete d => s ← complete_transmit s d; Ok (None, s)
  | OpAbort d => s ← abort_transmit s d; Ok (None, s)
  end.

(** The specified call; [fits_plan]: the decision passed is the pending one. *)
Definition q_apply (q : Queue) (op : TxOp) (fits_plan : bool)
  : result ConnectionEventTxError (option TxView * Queue) :=
  match op with
  | OpSelect ack => '(v, q) ← q_select q ack; Ok (Some v, q)
  | OpComplete _ => if fits_plan then Ok (None, q_complete q) else Err CompletionDoesNotMatchDecision
  | OpAbort _ => if fits_plan then Ok (None, q_abort q) else Err CompletionDoesNotMatchDecision
  end.

Definition op_fits_plan (s : ConnectionEventTxState) (op : TxOp) : bool :=
  match op with
  | OpSelect _ => true
  | OpComplete d | OpAbort d => plan_matches s d
  end.

Lemma apply_refines s q op : tx_rel s q →
  match tx_apply s op with
  | Ok (v, s') => ∃ q', q_apply q op (op_fits_plan s op) = Ok (v, q') ∧ tx_rel s' q'
  | Err e => q_apply q op (op_fits_plan s op) = Err e
  end.
Proof.
  intros Hr. destruct op as [ack|d|d]; cbn; unfold plan_matches.
  - pose proof (select_refines s q ack Hr) as H. destruct (select s ack) as [[d s']|e]; cbn.
    + destruct H as (q' & -> & ?). by exists q'.
    + by rewrite H.
  - pose proof (complete_refines s q d Hr) as H.
    destruct (complete_transmit s d) as [s'|e]; destruct H as [H1 H2]; cbn.
    + rewrite bool_decide_true by done. by eexists.
    + rewrite bool_decide_false by done. by rewrite H2.
  - pose proof (abort_refines s q d Hr) as H.
    destruct (abort_transmit s d) as [s'|e]; destruct H as [H1 H2]; cbn.
    + rewrite bool_decide_true by done. by eexists.
    + rewrite bool_decide_false by done. by rewrite H2.
Qed.

(** The views of the successful selections of a run, oldest first. *)
Definition tx_run_step (acc : list TxView * ConnectionEventTxState) (op : TxOp)
  : list TxView * ConnectionEventTxState :=
  let '(vs, s) := acc in
  match tx_apply s op with
  | Ok (Some v, s) => (vs ++ [v], s)
  | Ok (None, s) => (vs, s)
  | Err _ => (vs, s)
  end.

Definition tx_run (s : ConnectionEventTxState) (ops : list TxOp)
  : list TxView * ConnectionEventTxState := foldl tx_run_step ([], s) ops.

Definition acks_of (vs : list TxView) : list Z := omap v_acknowledged vs.

(** What the history of selections says about the payloads [l]. *)
Record history_ok (l : list Z) (vs : list TxView) (q : Queue) : Prop := {
  hist_acks : acks_of vs = take (length (acks_of vs)) l;
  hist_waiting : q_waiting q = drop (length (acks_of vs)) l;
  hist_out : ∀ r, q_out q = Some r → r = head (q_waiting q);
  hist_pending : ∀ r, q_pending q = Some r → r = head (q_waiting q);
  hist_views : ∀ i v, vs !! i = Some v →
    let k := length (acks_of (take (S i) vs)) in
    v_response v = l !! k ∧ v_more v = bool_decide (S k < length l)%nat;
}.

Lemma head_drop {A} (l : list A) k : head (drop k l) = l !! k.
Proof. rewrite head_lookup, lookup_drop. by rewrite Nat.add_0_r. Qed.

Lemma q_more_drop (l : list Z) k :
  q_more (head (drop k l)) (drop k l) = bool_decide (S k < length l)%nat.
Proof.
  unfold q_more. rewrite head_drop, length_drop. apply bool_decide_ext.
  destruct (l !! k) eqn:Hk; [lia|]. apply lookup_ge_None in Hk. lia.
Qed.

Lemma acks_of_snoc vs v : acks_of (vs ++ [v]) = acks_of vs ++ option_list (v_acknowledged v).
Proof. unfold acks_of. rewrite omap_app. cbn. by destruct (v_acknowledged v). Qed.

Lemma history_snoc l vs w v r :
  (∀ i v, vs !! i = Some v →
    let k := length (acks_of (take (S i) vs)) in
    v_response v = l !! k ∧ v_more v = bool_decide (S k < length l)%nat) →
  let k := length (acks_of (vs ++ [v])) in
  acks_of (vs ++ [v]) = take k l → w = drop k l →
  v_response v = head w → v_more v = q_more (head w) w →
  (∀ r', r = Some r' → r' = head w) →
  history_ok l (vs ++ [v]) (mkQueue w r (Some (head w))).
Proof.
  intros Hviews k Hacks -> Hresp Hmore Hr. split; cbn; try done.
  - by intros ? [= <-].
  - intros i v' Hi. destruct (decide (i < length vs)%nat).
    + rewrite lookup_app_l in Hi by done. rewrite take_app_le by lia. by apply Hviews.
    + assert (i = length vs) as ->.
      { apply lookup_lt_Some in Hi. rewrite length_app in Hi. cbn in Hi. lia. }
      rewrite list_lookup_middle in Hi by done. injection Hi as <-.
      rewrite firstn_all2 by (rewrite length_app; cbn; lia).
      by rewrite Hresp, Hmore, q_more_drop, head_drop.
Qed.

Lemma history_select l vs q ack v q' :
  history_ok l vs q → q_select q ack = Ok (v, q') → history_ok l (vs ++ [v]) q'.
Proof.
  intros [Hacks Hw Hout Hpend Hviews]. destruct q as [w o p]; cbn in *. unfold q_select. cbn.
  destruct p; [done|]. set (k := length (acks_of vs)) in *.
  destruct o as [r|], ack; intros [= <- <-].
  - assert (Hr : r = head w) by auto. destruct r as [r|]; cbn.
    + assert (Hk : l !! k = Some r) by (by rewrite <- head_drop, <- Hw).
      apply history_snoc; cbn; rewrite ?acks_of_snoc, ?length_app; cbn;
        rewrite ?Nat.add_1_r; fold k; try done.
      * rewrite Hacks at 1. by rewrite (take_S_r _ _ r).
      * rewrite Hw. by rewrite (drop_S _ r).
    + apply history_snoc; cbn; rewrite ?acks_of_snoc, ?app_nil_r; cbn; try done.
  - assert (Hr : r = head w) by auto. rewrite Hr.
    apply history_snoc; cbn; rewrite ?acks_of_snoc, ?app_nil_r; cbn; try done.
    intros ? [= <-]; done.
  - apply history_snoc; cbn; rewrite ?acks_of_snoc, ?app_nil_r; cbn; done.
Qed.

Lemma history_apply l vs q op b v q' :
  history_ok l vs q → q_apply q op b = Ok (v, q') →
  history_ok l (vs ++ option_list v) q'.
Proof.
  intros Hh. destruct op as [ack|d|d]; cbn.
  - destruct (q_select q ack) as [[v0 q0]|e] eqn:Hs; [|done]. intros [= <- <-].
    by eapply history_select.
  - destruct b; [|done]. intros [= <- <-]. cbn. rewrite app_nil_r. by destruct Hh.
  - destruct b; [|done]. intros [= <- <-]. cbn. rewrite app_nil_r. by destruct Hh.
Qed.

Lemma run_history l s ops vs s' :
  new_with_owner_tokens l = Ok s → tx_run s ops = (vs, s') →
  ∃ q, tx_rel s' q ∧ history_ok l vs q.
Proof.
  intros Hs%new_with_owner_tokens_rel. revert vs s'.
  induction ops as [|op ops IH] using rev_ind; intros vs s'; unfold tx_run.
  { intros [= <- <-]. exists (mkQueue l None None). split; [done|]. by split. }
  rewrite foldl_app. fold (tx_run s ops). cbn.
  destruct (tx_run s ops) as [vs0 s0]. destruct (IH _ _ eq_refl) as (q & Hr & Hh).
  unfold tx_run_step. pose proof (apply_refines s0 q op Hr) as H.
  destruct (tx_apply s0 op) as [[v s1]|e]; [|intros [= <- <-]; eauto].
  destruct H as (q' & Hq & Hr'). pose proof (history_apply _ _ _ _ _ _ _ Hh Hq) as Hh'.
  destruct v; cbn in Hh'; rewrite ?app_nil_r in Hh'; intros [= <- <-]; eauto.
Qed.

(** ** Properties *)

(** C15: The two-slot state machine refines a stop-and-wait queue of owner
    tokens: every [select], [complete_transmit] and [abort_transmit] call, in any
    order and with any decision passed, succeeds exactly when the queue's does,
    with the same response, retry flag, acknowledged owner and MD promise (or the
    same error), and re-establishes the relation. *)
Theorem event_tx_refines_queue s q op :
  tx_rel s q →
  match tx_apply s op with
  | Ok (v, s') => ∃ q', q_apply q op (op_fits_plan s op) = Ok (v, q') ∧ tx_rel s' q'
  | Err e => q_apply q op (op_fits_plan s op) = Err e
  end.
Proof. apply apply_refines. Qed.

Definition sample_tx : ConnectionEventTxState :=
  from_owner_tokens [70; 71; 72; 0; 0; 0; 0; 0] 3.

Lemma event_tx_refines_queue_witness :
  ∃ q', q_apply (mkQueue [70; 71; 72] None None) (OpSelect false) true =
          Ok (Some (mkTxView (Some 70) false None true), q').
Proof.
  assert (Hr : tx_rel sample_tx (mkQueue [70; 71; 72] None None))
    by (apply (new_with_owner_tokens_rel [70; 71; 72]); reflexivity).
  pose proof (event_tx_refines_queue sample_tx _ (OpSelect false) Hr) as H.
  destruct (tx_apply sample_tx (OpSelect false)) as [[v s']|e] eqn:Happ.
  - destruct H as (q' & Hq & _). exists q'. vm_compute in Happ. injection Happ as <- _. exact Hq.
  - vm_compute in Happ. discriminate Happ.
Defined.

(** Owners are acknowledged in order and exactly once, whatever acknowledgements,
    completions and aborts occur: the acknowledged owners of any run are an initial
    segment of the staged owners, every selected response is the first owner not yet
    acknowledged (an Empty PDU only when none is left), and the MD promise is set
    exactly when another owner follows it. *)
Theorem event_tx_exactly_once l s ops vs s' :
  new_with_owner_tokens l = Ok s → tx_run s ops = (vs, s') →
  acks_of vs = take (length (acks_of vs)) l ∧
  ∀ i v, vs !! i = Some v →
    let k := length (acks_of (take (S i) vs)) in
    v_response v = l !! k ∧ v_more v = bool_decide (S k < length l)%nat.
Proof.
  intros Hs Hrun. destruct (run_history _ _ _ _ _ Hs Hrun) as (q & _ & [? _ _ _ ?]). done.
Qed.

Lemma event_tx_exactly_once_witness :
  ∃ d s', select sample_tx false = Ok (d, s') ∧
    acks_of (fst (tx_run sample_tx [OpSelect false; OpComplete d; OpSelect true])) = [70].
Proof.
  destruct (select sample_tx false) as [[d s']|e] eqn:Hs; [|vm_compute in Hs; discriminate Hs].
  exists d, s'. split; [done|]. vm_compute in Hs. injection Hs as <- _.
  set (ops := [OpSelect false; OpComplete _; OpSelect true]).
  destruct (tx_run sample_tx ops) as [vs s''] eqn:Hrun.
  pose proof (event_tx_exactly_once [70; 71; 72] sample_tx ops vs s'' eq_refl Hrun) as [H _].
  cbn [fst]. rewrite H. vm_compute in Hrun. injection Hrun as <- _. reflexivity.
Defined.

(** Resuming an outstanding Empty PDU loses nothing: from [with_empty_retry]
    the relation to the queue that has transmitted an Empty PDU and still holds
    every given owner is established, and only more than eight owners are refused. *)
Theorem with_empty_retry_refines l :
  match with_empty_retry l with
  | Ok s => tx_rel s (mkQueue l (Some None) None)
  | Err e => e = TooManyPayloads ∧ (8 < length l)%nat
  end.
Proof. apply with_empty_retry_rel. Qed.
