(* ===== verification/ControlPdu.v ===== *)
(** * Link Layer control PDUs

    Models the parsing, validation and encoding of the instant-bearing control
    PDUs of [crates/ble-controller/src/link_layer.rs] and the same-IFS
    encryption-start headers. *)

From S2P Require Import Prelude Channel Timing Sequence.

(*! crates/ble-controller/src/link_layer.rs 790-795 ControlPduError *)
Inductive ControlPduError : Type :=
| Malformed
| InvalidParameters
| InstantPassed.
#[export] Instance ControlPduError_eq_dec : EqDecision ControlPduError.
Proof. solve_decision. Defined.

(*! crates/ble-controller/src/link_layer.rs 798-803 InstantProcedure *)
Inductive InstantProcedure : Type :=
| ConnectionUpdate
| ChannelMapUpdate
| ConnectionParametersRequest.
#[export] Instance InstantProcedure_eq_dec : EqDecision InstantProcedure.
Proof. solve_decision. Defined.

(*! crates/ble-controller/src/link_layer.rs 806-818 procedure_collision_error *)
Definition procedure_collision_error (local remote : InstantProcedure) : Z :=
  if (match local, remote with
      | ConnectionUpdate, ConnectionParametersRequest
      | ConnectionParametersRequest, ConnectionUpdate => true
      | _, _ => false
      end) || bool_decide (local = remote)
  then 0x23 else 0x2a.

(** The little-endian [u16] at byte [i] of a payload long enough to hold it. *)
Definition le16 (payload : list Z) (i : nat) : Z :=
  from_le [payload !!! i; payload !!! S i].

(** ** [LL_CONNECTION_UPDATE_IND] *)

(*! crates/ble-controller/src/link_layer.rs 821-829 ConnectionUpdateInd *)
Record ConnectionUpdateInd : Type := mkConnectionUpdateInd {
  cu_window_size : Z;
  cu_window_offset : Z;
  cu_interval : Z;
  cu_latency : Z;
  cu_supervision_timeout : Z;
  cu_instant : Z;
}.
#[export] Instance ConnectionUpdateInd_eq_dec : EqDecision ConnectionUpdateInd.
Proof. solve_decision. Defined.

(*! crates/ble-controller/src/link_layer.rs 832-832 ConnectionUpdateInd::OPCODE *)
Definition UPDATE_OPCODE : Z := 0x00.
(*! crates/ble-controller/src/link_layer.rs 833-833 ConnectionUpdateInd::PDU_LEN *)
Definition UPDATE_PDU_LEN : nat := 12.

(*! crates/ble-controller/src/link_layer.rs 856-864 ConnectionUpdateInd::parameters_are_valid *)
Definition update_parameters_are_valid (u : ConnectionUpdateInd) : bool :=
  connection_timing_is_valid (cu_window_size u) (cu_window_offset u) (cu_interval u)
    (cu_latency u) (cu_supervision_timeout u).

(*! crates/ble-controller/src/link_layer.rs 835-854 ConnectionUpdateInd::parse *)
Definition update_parse (payload : list Z) (event_counter : Z)
  : result ControlPduError ConnectionUpdateInd :=
  if negb (length payload =? UPDATE_PDU_LEN)%nat || negb (payload !!! 0%nat =? UPDATE_OPCODE)
  then Err Malformed
  else
    let update := mkConnectionUpdateInd (payload !!! 1%nat) (le16 payload 2) (le16 payload 4)
                    (le16 payload 6) (le16 payload 8) (le16 payload 10) in
    if negb (update_parameters_are_valid update) then Err InvalidParameters
    else if bool_decide (classify_instant event_counter (cu_instant update) = Passed)
    then Err InstantPassed
    else Ok update.

(** ** [LL_CONNECTION_PARAM_REQ] and [LL_CONNECTION_PARAM_RSP] *)

(*! crates/ble-controller/src/link_layer.rs 896-905 ConnectionParamPdu *)
Record ConnectionParamPdu : Type := mkConnectionParamPdu {
  cp_interval_min : Z;
  cp_interval_max : Z;
  cp_latency : Z;
  cp_supervision_timeout : Z;
  cp_preferred_periodicity : Z;
  cp_reference_event_count : Z;
  cp_offsets : list Z;
}.
#[export] Instance ConnectionParamPdu_eq_dec : EqDecision ConnectionParamPdu.
Proof. solve_decision. Defined.

(*! crates/ble-controller/src/link_layer.rs 908-908 ConnectionParamPdu::REQUEST_OPCODE *)
Definition REQUEST_OPCODE : Z := 0x0f.
(*! crates/ble-controller/src/link_layer.rs 909-909 ConnectionParamPdu::RESPONSE_OPCODE *)
Definition RESPONSE_OPCODE : Z := 0x10.
(*! crates/ble-controller/src/link_layer.rs 910-910 ConnectionParamPdu::PDU_LEN *)
Definition PARAM_PDU_LEN : nat := 24.

(** The [while index < self.offsets.len()] loop: [None] is an early
    [return false], [Some have_valid_offset] the value after the loop.  [seen]
    holds the offsets before [index]. *)
(*! crates/ble-controller/src/link_layer.rs 959-980 ConnectionParamPdu::parameters_are_valid *)
Fixpoint offsets_scan (interval_max : Z) (seen : list Z) (saw_invalid have_valid_offset : bool)
    (offsets : list Z) : option bool :=
  match offsets with
  | [] => Some have_valid_offset
  | offset :: rest =>
      if offset =? U16_MAX then
        offsets_scan interval_max (seen ++ [offset]) true have_valid_offset rest
      else if saw_invalid || (interval_max <=? offset) then None
      else if existsb (λ previous, previous =? offset) seen then None
      else offsets_scan interval_max (seen ++ [offset]) saw_invalid true rest
  end.

(*! crates/ble-controller/src/link_layer.rs 948-987 ConnectionParamPdu::parameters_are_valid *)
Definition param_parameters_are_valid (p : ConnectionParamPdu) (event_counter : Z) : bool :=
  if negb (connection_parameter_range_is_valid (cp_interval_min p) (cp_interval_max p)
             (cp_latency p) (cp_supervision_timeout p))
     || (cp_interval_max p <? cp_preferred_periodicity p)
  then false
  else
    match offsets_scan (cp_interval_max p) [] false false (cp_offsets p) with
    | None => false
    | Some have_valid_offset =>
        negb have_valid_offset ||
        match classify_instant event_counter (cp_reference_event_count p) with
        | Current | Future _ => true
        | Passed => false
        end
    end.

(** The six two-byte chunks of [payload[12..24]]. *)
(*! crates/ble-controller/src/link_layer.rs 920-946 ConnectionParamPdu::parse *)
Definition param_parse (payload : list Z) (expected_opcode event_counter : Z)
  : result ControlPduError ConnectionParamPdu :=
  if negb (length payload =? PARAM_PDU_LEN)%nat || negb (payload !!! 0%nat =? expected_opcode)
  then Err Malformed
  else
    let offsets := (λ i, le16 payload (12 + 2 * i)) <$> seq 0 6 in
    let parameters := mkConnectionParamPdu (le16 payload 1) (le16 payload 3) (le16 payload 5)
                        (le16 payload 7) (payload !!! 9%nat) (le16 payload 10) offsets in
    if param_parameters_are_valid parameters event_counter then Ok parameters
    else Err InvalidParameters.

(*! crates/ble-controller/src/link_layer.rs 912-914 ConnectionParamPdu::parse_request *)
Definition parse_request (payload : list Z) (event_counter : Z)
  : result ControlPduError ConnectionParamPdu :=
  param_parse payload REQUEST_OPCODE event_counter.

(*! crates/ble-controller/src/link_layer.rs 916-918 ConnectionParamPdu::parse_response *)
Definition parse_response (payload : list Z) (event_counter : Z)
  : result ControlPduError ConnectionParamPdu :=
  param_parse payload RESPONSE_OPCODE event_counter.

(** [output] is a [[u8; 24]]; its previous contents are returned overwritten.
    The [debug_assert!] restricts [opcode] to the two PDUs. *)
(*! crates/ble-controller/src/link_layer.rs 990-1002 ConnectionParamPdu::write *)
Definition param_write (p : ConnectionParamPdu) (opcode : Z) (output : list Z) : list Z :=
  let output := <[0%nat := opcode]> output in
  let output := splice 1 (to_le 2 (cp_interval_min p)) output in
  let output := splice 3 (to_le 2 (cp_interval_max p)) output in
  let output := splice 5 (to_le 2 (cp_latency p)) output in
  let output := splice 7 (to_le 2 (cp_supervision_timeout p)) output in
  let output := <[9%nat := cp_preferred_periodicity p]> output in
  let output := splice 10 (to_le 2 (cp_reference_event_count p)) output in
  foldl (λ output '(i, offset), splice (12 + 2 * i) (to_le 2 offset) output) output
    (zip (seq 0 6) (cp_offsets p)).

(*! crates/ble-controller/src/link_layer.rs 1024-1035 connection_update_matches_request *)
Definition connection_update_matches_request
    (interval_min interval_max latency supervision_timeout : Z)
    (update : ConnectionUpdateInd) : bool :=
  (interval_min <=? cu_interval update) && (cu_interval update <=? interval_max) &&
  (cu_latency update =? latency) && (cu_supervision_timeout update =? supervision_timeout).

(** ** [LL_CHANNEL_MAP_IND] *)

(*! crates/ble-controller/src/link_layer.rs 1038-1042 ChannelMapInd *)
Record ChannelMapInd : Type := mkChannelMapInd {
  cm_map : list Z;
  cm_instant : Z;
}.
#[export] Instance ChannelMapInd_eq_dec : EqDecision ChannelMapInd.
Proof. solve_decision. Defined.

(*! crates/ble-controller/src/link_layer.rs 1045-1045 ChannelMapInd::OPCODE *)
Definition MAP_OPCODE : Z := 0x01.
(*! crates/ble-controller/src/link_layer.rs 1046-1046 ChannelMapInd::PDU_LEN *)
Definition MAP_PDU_LEN : nat := 8.

(*! crates/ble-controller/src/link_layer.rs 1048-1063 ChannelMapInd::parse *)
Definition map_parse (payload : list Z) (event_counter : Z)
  : result ControlPduError ChannelMapInd :=
  if negb (length payload =? MAP_PDU_LEN)%nat || negb (payload !!! 0%nat =? MAP_OPCODE)
  then Err Malformed
  else
    let update := mkChannelMapInd (slice 1 6 payload) (le16 payload 6) in
    if negb (data_channel_map_is_valid (cm_map update)) then Err InvalidParameters
    else if bool_decide (classify_instant event_counter (cm_instant update) = Passed)
    then Err InstantPassed
    else Ok update.

(** ** Encryption start *)

(*! crates/ble-controller/src/link_layer.rs 1088-1098 encryption_start_headers *)
Definition encryption_start_headers (peripheral_transmit_sn peripheral_expected_sn : Z) : Z * Z :=
  let llid_control := 0x03 in
  let central :=
    Z.lor (Z.lor llid_control (u8 (Z.shiftl (Z.lxor peripheral_transmit_sn 1) 2)))
      (u8 (Z.shiftl peripheral_expected_sn 3)) in
  let peripheral :=
    Z.lor (Z.lor llid_control (u8 (Z.shiftl (Z.lxor peripheral_expected_sn 1) 2)))
      (u8 (Z.shiftl (Z.lxor peripheral_transmit_sn 1) 3)) in
  (central, peripheral).

(** ** Byte layouts *)

Definition update_bytes (u : ConnectionUpdateInd) : list Z :=
  [UPDATE_OPCODE; cu_window_size u] ++ to_le 2 (cu_window_offset u) ++ to_le 2 (cu_interval u)
  ++ to_le 2 (cu_latency u) ++ to_le 2 (cu_supervision_timeout u) ++ to_le 2 (cu_instant u).

Definition param_bytes (opcode : Z) (p : ConnectionParamPdu) : list Z :=
  [opcode] ++ to_le 2 (cp_interval_min p) ++ to_le 2 (cp_interval_max p)
  ++ to_le 2 (cp_latency p) ++ to_le 2 (cp_supervision_timeout p)
  ++ [cp_preferred_periodicity p] ++ to_le 2 (cp_reference_event_count p)
  ++ mjoin (to_le 2 <$> cp_offsets p).

Definition map_bytes (m : ChannelMapInd) : list Z :=
  [MAP_OPCODE] ++ cm_map m ++ to_le 2 (cm_instant m).

(** Field widths. *)
Record update_fits (u : ConnectionUpdateInd) : Prop := {
  fits_window_size : is_u8 (cu_window_size u);
  fits_window_offset : is_u16 (cu_window_offset u);
  fits_interval : is_u16 (cu_interval u);
  fits_latency : is_u16 (cu_latency u);
  fits_timeout : is_u16 (cu_supervision_timeout u);
  fits_instant : is_u16 (cu_instant u);
}.

Record param_fits (p : ConnectionParamPdu) : Prop := {
  fits_interval_min : is_u16 (cp_interval_min p);
  fits_interval_max : is_u16 (cp_interval_max p);
  fits_param_latency : is_u16 (cp_latency p);
  fits_param_timeout : is_u16 (cp_supervision_timeout p);
  fits_periodicity : is_u8 (cp_preferred_periodicity p);
  fits_reference : is_u16 (cp_reference_event_count p);
  fits_offsets : Forall is_u16 (cp_offsets p);
  fits_offsets_length : length (cp_offsets p) = 6%nat;
}.

Lemma from_le_two x : is_u16 x → from_le [x mod 256; x / 256 mod 256] = x.
Proof. exact (from_to_le 2 x). Qed.

Lemma from_le_two_sum x : is_u16 x → x mod 256 + 256 * (x / 256 mod 256 + 256 * 0) = x.
Proof. exact (from_to_le 2 x). Qed.

Lemma to_le_two a b : is_u8 a → is_u8 b → to_le 2 (from_le [a; b]) = [a; b].
Proof. intros. apply (to_from_le [a; b]). solve_forall. Qed.

Lemma from_le_two_fits a b : is_u8 a → is_u8 b → is_u16 (from_le [a; b]).
Proof. intros. apply (from_le_fits [a; b]). solve_forall. Qed.

Lemma le16_fits l i : bytes_ok l → (S i < length l)%nat → is_u16 (le16 l i).
Proof. intros. apply from_le_two_fits; apply bytes_ok_lookup; auto with lia. Qed.

Lemma update_layout payload :
  bytes_ok payload → length payload = UPDATE_PDU_LEN → payload !!! 0%nat = UPDATE_OPCODE →
  let u := mkConnectionUpdateInd (payload !!! 1%nat) (le16 payload 2) (le16 payload 4)
             (le16 payload 6) (le16 payload 8) (le16 payload 10) in
  update_fits u ∧ payload = update_bytes u.
Proof.
  unfold UPDATE_PDU_LEN. intros Hok Hlen Hop. split.
  { split; cbn [cu_window_size cu_window_offset cu_interval cu_latency cu_supervision_timeout
      cu_instant]; (apply bytes_ok_lookup || apply le16_fits); auto with lia. }
  do 13 (destruct payload as [|? payload]; try done). cbn in Hop. subst. split_bytes.
  unfold update_bytes, le16. cbn -[to_le from_le]. by rewrite !to_le_two.
Qed.

Lemma update_bytes_inv u : update_fits u →
  let payload := update_bytes u in
  length payload = UPDATE_PDU_LEN ∧ payload !!! 0%nat = UPDATE_OPCODE ∧
  mkConnectionUpdateInd (payload !!! 1%nat) (le16 payload 2) (le16 payload 4)
    (le16 payload 6) (le16 payload 8) (le16 payload 10) = u.
Proof.
  intros []. destruct u. split_and!; [done|done|]. unfold le16. cbn -[Z.div Z.modulo from_le] in *.
  by rewrite !from_le_two.
Qed.

Lemma param_layout payload op :
  bytes_ok payload → length payload = PARAM_PDU_LEN → payload !!! 0%nat = op →
  let p := mkConnectionParamPdu (le16 payload 1) (le16 payload 3) (le16 payload 5)
             (le16 payload 7) (payload !!! 9%nat) (le16 payload 10)
             ((λ i, le16 payload (12 + 2 * i)) <$> seq 0 6) in
  param_fits p ∧ payload = param_bytes op p.
Proof.
  unfold PARAM_PDU_LEN. intros Hok Hlen Hop. split.
  { split; cbn -[le16 lookup_total]; try done; try solve_forall;
      (apply bytes_ok_lookup || apply le16_fits); auto with lia. }
  do 25 (destruct payload as [|? payload]; try done). cbn in Hop. subst. split_bytes.
  unfold param_bytes, le16. cbn -[to_le from_le]. by rewrite !to_le_two.
Qed.

Lemma param_bytes_inv p op : param_fits p →
  let payload := param_bytes op p in
  length payload = PARAM_PDU_LEN ∧ payload !!! 0%nat = op ∧
  mkConnectionParamPdu (le16 payload 1) (le16 payload 3) (le16 payload 5)
    (le16 payload 7) (payload !!! 9%nat) (le16 payload 10)
    ((λ i, le16 payload (12 + 2 * i)) <$> seq 0 6) = p.
Proof.
  intros []. destruct p as [? ? ? ? ? ? offsets]. cbn in *.
  do 7 (destruct offsets as [|? offsets]; try done). unfold bytes_ok in *. split_bytes.
  split_and!; [done|done|]. unfold le16. cbn -[Z.div Z.modulo from_le].
  by rewrite !from_le_two_sum.
Qed.

Lemma param_write_bytes p op output :
  length output = PARAM_PDU_LEN → length (cp_offsets p) = 6%nat →
  param_write p op output = param_bytes op p.
Proof.
  unfold PARAM_PDU_LEN. intros Hlen Hoff. destruct p as [? ? ? ? ? ? offsets]. cbn in Hoff.
  do 7 (destruct offsets as [|? offsets]; try done).
  do 25 (destruct output as [|? output]; try done).
Qed.

Lemma map_layout payload :
  bytes_ok payload → length payload = MAP_PDU_LEN → payload !!! 0%nat = MAP_OPCODE →
  let m := mkChannelMapInd (slice 1 6 payload) (le16 payload 6) in
  wf_map (cm_map m) ∧ is_u16 (cm_instant m) ∧ payload = map_bytes m.
Proof.
  unfold MAP_PDU_LEN. intros Hok Hlen Hop. do 9 (destruct payload as [|? payload]; try done). cbn in Hop. subst.
  split_bytes. split_and!.
  - split; [done|]. cbn. solve_forall.
  - by apply from_le_two_fits.
  - unfold map_bytes. cbn [cm_map cm_instant]. unfold le16. rewrite to_le_two by done. done.
Qed.

Lemma map_bytes_inv m : wf_map (cm_map m) → is_u16 (cm_instant m) →
  let payload := map_bytes m in
  length payload = MAP_PDU_LEN ∧ payload !!! 0%nat = MAP_OPCODE ∧
  mkChannelMapInd (slice 1 6 payload) (le16 payload 6) = m.
Proof.
  destruct m as [map instant]. cbn. intros (?&?&?&?&?&->&_)%wf_map_octets Hi.
  split_and!; [done|done|]. unfold le16. cbn -[Z.div Z.modulo from_le]. by rewrite from_le_two_sum.
Qed.

(** ** The offsets of a parameter request *)

Definition fresh_offset (max : Z) (seen : list Z) (o : Z) : Prop :=
  o ≠ U16_MAX ∧ o < max ∧ o ∉ seen.

Lemma fresh_offset_snoc max seen o valid : fresh_offset max seen o →
  Forall (fresh_offset max (seen ++ [o])) valid ∧ NoDup valid ↔
  Forall (fresh_offset max seen) (o :: valid) ∧ NoDup (o :: valid).
Proof.
  intros Ho. rewrite list.Forall_cons, list.NoDup_cons, !list.Forall_forall. unfold fresh_offset in *.
  set_solver.
Qed.

Lemma head_offset {o rest valid n} : o ≠ U16_MAX →
  o :: rest = valid ++ replicate n U16_MAX →
  ∃ valid', valid = o :: valid' ∧ rest = valid' ++ replicate n U16_MAX.
Proof.
  intros Ho Heq. destruct valid as [|v valid]; [destruct n; cbn in *; congruence|].
  cbn in Heq. injection Heq as <- ->. eauto.
Qed.

Lemma offsets_scan_spec max offsets seen si hv r :
  offsets_scan max seen si hv offsets = Some r ↔
  ∃ valid n, offsets = valid ++ replicate n U16_MAX ∧
    (Forall (fresh_offset max seen) valid ∧ NoDup valid) ∧
    (si = true → valid = []) ∧ r = hv || bool_decide (valid ≠ []).
Proof.
  revert seen si hv. induction offsets as [|o offsets IH]; intros seen si hv; cbn [offsets_scan].
  { split.
    - intros [= <-]. exists [], 0%nat. split_and!; auto using NoDup_nil_2.
      by rewrite bool_decide_false, orb_false_r by auto.
    - intros (valid & n & Heq & _ & _ & ->). symmetry in Heq.
      apply app_eq_nil in Heq as [-> _]. by rewrite bool_decide_false, orb_false_r by auto. }
  destruct (Z.eqb_spec o U16_MAX) as [->|Ho].
  { rewrite IH. split.
    - intros (valid & n & -> & _ & Hv & ->). rewrite Hv by done.
      exists [], (S n). split_and!; auto using NoDup_nil_2.
    - intros (valid & n & Heq & [Hf _] & Hsi & ->).
      destruct valid as [|v valid]; [|cbn in Heq; injection Heq as <- _;
        by apply Forall_cons_1 in Hf as [[? _] _]].
      destruct n as [|n]; [done|]. cbn in Heq. injection Heq as ->.
      exists [], n. split_and!; auto using NoDup_nil_2. }
  destruct (decide (si = false ∧ fresh_offset max seen o)) as [[-> Hfresh]|Hbad].
  - destruct Hfresh as (H1 & H2 & H3). cbn. rewrite (proj2 (Z.leb_gt _ _)) by done.
    assert (existsb (λ previous, previous =? o) seen = false) as ->.
    { apply not_true_iff_false. rewrite existsb_exists. setoid_rewrite Z.eqb_eq.
      setoid_rewrite <- list_elem_of_In. naive_solver. }
    rewrite IH. split.
    + intros (valid & n & -> & Hv & _ & ->). exists (o :: valid), n.
      rewrite <- fresh_offset_snoc by done. split_and!; try done; try apply Hv.
      by rewrite (bool_decide_true (_ :: _ ≠ [])), orb_true_r by done.
    + intros (valid & n & Heq & Hv & _ & ->).
      destruct (head_offset Ho Heq) as (valid' & -> & ->). exists valid', n.
      rewrite fresh_offset_snoc by done. split_and!; try done; try apply Hv.
      by rewrite (bool_decide_true (_ :: _ ≠ [])), orb_true_r by done.
  - transitivity False.
    + split; [|done]. destruct si; cbn; [done|].
      destruct (Z.leb_spec max o); [done|]. destruct (existsb _ seen) eqn:Hex; [done|].
      intros _. apply Hbad. split; [done|]. split; [done|]. split; [lia|]. intros Hin.
      apply not_true_iff_false in Hex. apply Hex, existsb_exists.
      exists o. rewrite <- list_elem_of_In, Z.eqb_refl. done.
    + split; [done|]. intros (valid & n & Heq & [Hf _] & Hsi & _).
      destruct (head_offset Ho Heq) as (valid' & -> & _). apply Forall_cons_1 in Hf as [Hf _].
      apply Hbad. split; [|done]. destruct si; [|done]. by specialize (Hsi eq_refl).
Qed.

(** The rules of LL_CONNECTION_PARAM_REQ: valid ranges, a preferred periodicity
    within the interval, and offsets that are distinct values below the maximum
    interval followed by unused (0xffff) entries; a used offset needs a reference
    event that has not passed. *)
Definition param_spec (p : ConnectionParamPdu) (event_counter : Z) : Prop :=
  (6 ≤ cp_interval_min p ≤ cp_interval_max p ∧ cp_interval_max p ≤ 3200 ∧
   cp_latency p ≤ 499 ∧ 10 ≤ cp_supervision_timeout p ≤ 3200 ∧
   2 * (1 + cp_latency p) * (cp_interval_max p * 1250) < cp_supervision_timeout p * 10000) ∧
  cp_preferred_periodicity p ≤ cp_interval_max p ∧
  ∃ valid n, cp_offsets p = valid ++ replicate n U16_MAX ∧
    Forall (λ o, o ≠ U16_MAX ∧ o < cp_interval_max p) valid ∧ NoDup valid ∧
    (valid ≠ [] → classify_instant event_counter (cp_reference_event_count p) ≠ Passed).

Lemma param_valid_iff p ec : 0 ≤ cp_interval_min p → 0 ≤ cp_latency p →
  param_parameters_are_valid p ec = true ↔ param_spec p ec.
Proof.
  intros Hmin Hlat. unfold param_parameters_are_valid, param_spec.
  rewrite <- connection_parameter_range_iff by done.
  destruct (connection_parameter_range_is_valid _ _ _ _); cbn; [|naive_solver].
  destruct (Z.ltb_spec (cp_interval_max p) (cp_preferred_periodicity p));
    [split; [done|lia]|].
  assert (Hfresh : ∀ valid, Forall (fresh_offset (cp_interval_max p) []) valid ↔
    Forall (λ o, o ≠ U16_MAX ∧ o < cp_interval_max p) valid).
  { intros valid. rewrite !list.Forall_forall. unfold fresh_offset.
    split; intros Hv x Hx; destruct (Hv x Hx) as [? ?]; split_and!; try tauto;
      apply not_elem_of_nil. }
  destruct (offsets_scan _ _ _ _ _) as [hv|] eqn:Hscan.
  - apply offsets_scan_spec in Hscan as (valid & n & Hoff & [Hf Hnd] & _ & ->). cbn.
    rewrite Hfresh in Hf. split.
    + intros Hv. split_and!; try done. exists valid, n. split_and!; try done.
      intros Hne. rewrite bool_decide_true in Hv by done. by case_match.
    + intros (_ & _ & valid' & n' & Hoff' & Hf' & Hnd' & Hc).
      destruct valid as [|v valid]; [done|]. rewrite bool_decide_true by done. cbn.
      assert (valid' ≠ []).
      { intros ->. rewrite Hoff' in Hoff. apply Forall_cons_1 in Hf as [[? _] _].
        destruct n'; cbn in Hoff; congruence. }
      specialize (Hc ltac:(done)). by case_match.
  - split; [done|]. intros (_ & _ & valid & n & Hoff & Hf & Hnd & _). exfalso.
    assert (offsets_scan (cp_interval_max p) [] false false (cp_offsets p) =
      Some (bool_decide (valid ≠ []))) as Hs; [|by rewrite Hs in Hscan].
    apply offsets_scan_spec. exists valid, n. rewrite Hfresh. split_and!; done.
Qed.

Lemma opcode_guard (payload : list Z) n op :
  negb (length payload =? n)%nat || negb (payload !!! 0%nat =? op) = false ↔
  length payload = n ∧ payload !!! 0%nat = op.
Proof. rewrite orb_false_iff, !negb_false_iff, Nat.eqb_eq, Z.eqb_eq. done. Qed.

Lemma param_parse_iff payload op ec p : bytes_ok payload →
  param_parse payload op ec = Ok p ↔
  payload = param_bytes op p ∧ param_fits p ∧ param_spec p ec.
Proof.
  intros Hok. unfold param_parse. split.
  - destruct (_ || _) eqn:Hg; [done|]. apply opcode_guard in Hg as [Hlen Hop].
    destruct (param_layout payload op Hok Hlen Hop) as [Hfits Hbytes].
    destruct (param_parameters_are_valid _ ec) eqn:Hv; [|done]. intros [= <-].
    split_and!; [done|done|]. by apply param_valid_iff in Hv; [|apply Hfits..].
  - intros (-> & Hfits & Hspec).
    destruct (param_bytes_inv p op Hfits) as (Hlen & Hop & Heq).
    rewrite (proj2 (opcode_guard _ _ _)) by done. cbn zeta. rewrite Heq.
    apply param_valid_iff in Hspec; [|apply Hfits..]. by rewrite Hspec.
Qed.

Lemma update_parse_iff payload ec u : bytes_ok payload →
  update_parse payload ec = Ok u ↔
  payload = update_bytes u ∧ update_fits u ∧
  timing_spec (cu_window_size u) (cu_window_offset u) (cu_interval u) (cu_latency u)
    (cu_supervision_timeout u) ∧
  classify_instant ec (cu_instant u) ≠ Passed.
Proof.
  intros Hok. unfold update_parse, update_parameters_are_valid. split.
  - destruct (_ || _) eqn:Hg; [done|]. apply opcode_guard in Hg as [Hlen Hop].
    destruct (update_layout payload Hok Hlen Hop) as [Hfits Hbytes].
    destruct (connection_timing_is_valid _ _ _ _ _) eqn:Hv; [|done]. cbn [negb].
    case_bool_decide; [done|]. intros [= <-]. split_and!; try done.
    by apply connection_timing_iff in Hv; [|apply Hfits..].
  - intros (-> & Hfits & Hspec & Hinst).
    destruct (update_bytes_inv u Hfits) as (Hlen & Hop & Heq).
    rewrite (proj2 (opcode_guard _ _ _)) by done. cbn zeta. rewrite Heq.
    apply connection_timing_iff in Hspec; [|apply Hfits..]. rewrite Hspec. cbn [negb].
    by rewrite bool_decide_false by done.
Qed.

Lemma map_parse_iff payload ec m : bytes_ok payload →
  map_parse payload ec = Ok m ↔
  payload = map_bytes m ∧ wf_map (cm_map m) ∧ is_u16 (cm_instant m) ∧
  data_channel_map_is_valid (cm_map m) = true ∧ classify_instant ec (cm_instant m) ≠ Passed.
Proof.
  intros Hok. unfold map_parse. split.
  - destruct (_ || _) eqn:Hg; [done|]. apply opcode_guard in Hg as [Hlen Hop].
    destruct (map_layout payload Hok Hlen Hop) as (Hwf & Hi & Hbytes).
    destruct (data_channel_map_is_valid _) eqn:Hv; [|done]. cbn [negb].
    case_bool_decide; [done|]. intros [= <-]. by split_and!.
  - intros (-> & Hwf & Hi & Hv & Hinst).
    destruct (map_bytes_inv m Hwf Hi) as (Hlen & Hop & Heq).
    rewrite (proj2 (opcode_guard _ _ _)) by done. cbn zeta. rewrite Heq, Hv. cbn [negb].
    by rewrite bool_decide_false by done.
Qed.

(** ** Properties *)

(** LL_CONNECTION_PARAM_REQ round trip: a payload parses to [p] exactly when
    it is what [write] produces for [p] (into any 24-byte buffer) and [p]
    satisfies the Core rules for ranges, periodicity and anchor offsets, so the
    offset scan with its two nested loops decides those rules; parsing a request
    never reports a passed instant. *)
Theorem param_pdu_roundtrip payload output ec p :
  bytes_ok payload → length output = PARAM_PDU_LEN →
  (parse_request payload ec = Ok p ↔
     payload = param_write p REQUEST_OPCODE output ∧ param_fits p ∧ param_spec p ec) ∧
  parse_request payload ec ≠ Err InstantPassed.
Proof.
  intros Hok Hout. unfold parse_request. split.
  - rewrite param_parse_iff by done.
    split; intros (Hb & Hf & Hs); pose proof (fits_offsets_length _ Hf);
      rewrite param_write_bytes in * by done; done.
  - unfold param_parse. by repeat case_match.
Qed.

Definition sample_param : ConnectionParamPdu :=
  mkConnectionParamPdu 24 40 0 72 0 0 (replicate 6 U16_MAX).

Lemma param_pdu_roundtrip_witness :
  parse_request (param_write sample_param REQUEST_OPCODE (replicate 24 0)) 5 = Ok sample_param.
Proof.
  refine (proj2 (proj1 (param_pdu_roundtrip (param_write sample_param REQUEST_OPCODE
    (replicate 24 0)) (replicate 24 0) 5 sample_param _ _)) _).
  - vm_compute. repeat constructor; discriminate.
  - reflexivity.
  - split; [reflexivity|]. split.
    + split; cbn; try reflexivity; try (unfold fits; lia).
      solve_forall; unfold fits, U16_MAX; lia.
    + split; [cbn; lia|]. split; [cbn; lia|]. exists [], 6%nat.
      split; [reflexivity|]. split; [constructor|]. split; [constructor|done].
Defined.

(** LL_CONNECTION_UPDATE_IND: the outcome of [parse] on every branch, in its
    order of precedence. A payload is malformed exactly when its length or opcode
    is wrong; otherwise it is the encoding of one update with in-range fields, and
    the result says whether its timing violates the Core ranges, its instant has
    passed, or it is accepted. *)
Theorem update_parse_outcome payload ec :
  bytes_ok payload →
  match update_parse payload ec with
  | Err Malformed => length payload ≠ UPDATE_PDU_LEN ∨ payload !!! 0%nat ≠ UPDATE_OPCODE
  | r => ∃ u, payload = update_bytes u ∧ update_fits u ∧
      let timing := timing_spec (cu_window_size u) (cu_window_offset u) (cu_interval u)
                      (cu_latency u) (cu_supervision_timeout u) in
      match r with
      | Ok u' => u' = u ∧ timing ∧ classify_instant ec (cu_instant u) ≠ Passed
      | Err InvalidParameters => ¬ timing
      | Err InstantPassed => timing ∧ classify_instant ec (cu_instant u) = Passed
      | Err Malformed => False
      end
  end.
Proof.
  intros Hok. unfold update_parse, update_parameters_are_valid.
  destruct (_ || _) eqn:Hg.
  { apply orb_true_iff in Hg as [Hg|Hg]; apply negb_true_iff in Hg;
      [left; by apply Nat.eqb_neq|right; by apply Z.eqb_neq]. }
  apply opcode_guard in Hg as [Hlen Hop].
  destruct (update_layout payload Hok Hlen Hop) as [Hfits Hbytes]. cbn zeta.
  set (u := mkConnectionUpdateInd _ _ _ _ _ _) in *.
  destruct (connection_timing_is_valid _ _ _ _ _) eqn:Hv; cbn [negb].
  - apply connection_timing_iff in Hv; [|apply Hfits..].
    case_bool_decide; exists u; by split_and!.
  - exists u. split_and!; [done|done|]. intros Hs.
    apply connection_timing_iff in Hs; [congruence|apply Hfits..].
Qed.

Lemma update_parse_outcome_witness :
  ∃ u, update_bytes (mkConnectionUpdateInd 2 5 24 0 72 40) = update_bytes u ∧ update_fits u ∧
    timing_spec (cu_window_size u) (cu_window_offset u) (cu_interval u) (cu_latency u)
      (cu_supervision_timeout u) ∧ classify_instant 50 (cu_instant u) = Passed.
Proof.
  assert (Hok : bytes_ok (update_bytes (mkConnectionUpdateInd 2 5 24 0 72 40)))
    by (vm_compute; repeat constructor; discriminate).
  exact (update_parse_outcome _ 50 Hok).
Defined.

(** LL_CHANNEL_MAP_IND: every parsed map is a well-formed 37-channel map with at
    least two channels whose instant has not passed, and every such PDU is
    accepted; the parser is the inverse of the encoding. *)
Theorem map_parse_roundtrip payload ec m :
  bytes_ok payload →
  map_parse payload ec = Ok m ↔
    payload = map_bytes m ∧ wf_map (cm_map m) ∧ is_u16 (cm_instant m) ∧
    (∀ ch, 37 ≤ ch < 40 → channel_enabled (cm_map m) ch = false) ∧
    (2 ≤ length (enabled_channels (cm_map m)))%nat ∧
    classify_instant ec (cm_instant m) ≠ Passed.
Proof.
  intros Hok. rewrite map_parse_iff by done. split.
  - intros (? & ? & ? & Hv & ?). apply data_channel_map_valid_spec in Hv; naive_solver.
  - intros (? & ? & ? & ? & ? & ?). rewrite data_channel_map_valid_spec; naive_solver.
Qed.

Lemma map_parse_roundtrip_witness :
  map_parse [0x01; 0xff; 0xff; 0xff; 0xff; 0x1f; 0x34; 0x12] 0x1230 =
    Ok (mkChannelMapInd [0xff; 0xff; 0xff; 0xff; 0x1f] 0x1234).
Proof.
  refine (proj2 (map_parse_roundtrip _ 0x1230 _ _) _).
  - solve_forall; unfold fits; lia.
  - split; [reflexivity|]. split; [split; [reflexivity|solve_forall; unfold fits; cbn; lia]|].
    split; [unfold fits; cbn; lia|]. split; [|split; [vm_compute; lia|vm_compute; discriminate]].
    intros ch Hch. assert (ch = 37 ∨ ch = 38 ∨ ch = 39) as [->|[->| ->]] by lia; reflexivity.
Defined.

(** Encryption start: the precomputed Central header acknowledges the
    outstanding START_REQ and carries the expected sequence number with MD clear,
    and the precomputed Peripheral header is the response header of the sequence
    state after observing it. *)
Theorem encryption_start_headers_agree tx ex :
  is_sn tx → is_sn ex →
  let '(central, peripheral) := encryption_start_headers tx ex in
  let '(o, s) := observe (mkDataSequenceState tx ex) central in
  acknowledged_transmit o = true ∧ accepted_receive o = true ∧ peer_more_data o = false ∧
  peripheral = response_header s 0x03 false.
Proof. by intros [-> | ->] [-> | ->]. Qed.

Lemma encryption_start_headers_agree_witness :
  let '(central, peripheral) := encryption_start_headers 1 0 in
  central = 0x03 ∧ peripheral = response_header (mkDataSequenceState 0 1) 0x03 false.
Proof.
  pose proof (encryption_start_headers_agree 1 0 (or_intror eq_refl) (or_introl eq_refl)) as H.
  destruct H as (_ & _ & _ & H). split; [reflexivity|exact H].
Defined.
