(* ===== verification/Llcp.v ===== *)
(** * Ownership of Link Layer control procedures

    Models [crates/ble-controller/src/llcp.rs]: the local and remote procedure
    contexts and the manager that advances them from transmission,
    acknowledgement, response, timeout and instant events. *)

From S2P Require Import Prelude Timing ControlPdu.

(*! crates/ble-controller/src/llcp.rs 13-22 ProcedureKind *)
Inductive ProcedureKind : Type :=
| Termination
| FeatureExchange
| VersionExchange
| KindConnectionParameters
| KindConnectionUpdate
| KindChannelMapUpdate
| Ping.
#[export] Instance ProcedureKind_eq_dec : EqDecision ProcedureKind.
Proof. solve_decision. Defined.

(*! crates/ble-controller/src/llcp.rs 25-32 ProcedureKind::instant_procedure *)
Definition instant_procedure (k : ProcedureKind) : option InstantProcedure :=
  match k with
  | KindConnectionParameters => Some ConnectionParametersRequest
  | KindConnectionUpdate => Some ConnectionUpdate
  | KindChannelMapUpdate => Some ChannelMapUpdate
  | _ => None
  end.

(*! crates/ble-controller/src/llcp.rs 35-39 ProcedureInitiator *)
Inductive ProcedureInitiator : Type := Local | Remote.
#[export] Instance ProcedureInitiator_eq_dec : EqDecision ProcedureInitiator.
Proof. solve_decision. Defined.

(*! crates/ble-controller/src/llcp.rs 41-50 ProcedurePhase *)
Inductive ProcedurePhase : Type :=
| Queued
| AwaitingTxAck
| AwaitingResponse
| ResponseQueued
| AwaitingInstant
| Complete
| Failed.
#[export] Instance ProcedurePhase_eq_dec : EqDecision ProcedurePhase.
Proof. solve_decision. Defined.

(*! crates/ble-controller/src/llcp.rs 54-58 ProcedureToken *)
Record ProcedureToken : Type := mkProcedureToken {
  pt_owner_token : Z;
  pt_generation : Z;
}.
#[export] Instance ProcedureToken_eq_dec : EqDecision ProcedureToken.
Proof. solve_decision. Defined.

(*! crates/ble-controller/src/llcp.rs 60-73 ProcedureContext *)
Record ProcedureContext : Type := mkProcedureContext {
  pc_kind : ProcedureKind;
  pc_initiator : ProcedureInitiator;
  pc_phase : ProcedurePhase;
  pc_token : ProcedureToken;
  pc_tx_opcode : Z;
  pc_expected_response : option Z;
  pc_instant : option Z;
  pc_timeout_us : Z;
  pc_deadline_us : Z;
  pc_pending_response : bool;
  pc_error : option Z;
}.
#[export] Instance ProcedureContext_eta : Eta ProcedureContext := λ c,
  mkProcedureContext (pc_kind c) (pc_initiator c) (pc_phase c) (pc_token c)
    (pc_tx_opcode c) (pc_expected_response c) (pc_instant c) (pc_timeout_us c)
    (pc_deadline_us c) (pc_pending_response c) (pc_error c).
#[export] Instance ProcedureContext_eq_dec : EqDecision ProcedureContext.
Proof. solve_decision. Defined.

(*! crates/ble-controller/src/llcp.rs 76-101 ProcedureContext::new *)
Definition context_new (kind : ProcedureKind) (initiator : ProcedureInitiator)
    (token : ProcedureToken) (tx_opcode : Z) (expected_response_opcode instant : option Z)
    (response_timeout_us : option Z) : ProcedureContext :=
  mkProcedureContext kind initiator Queued token tx_opcode expected_response_opcode instant
    (default 0 response_timeout_us) 0 false None.

(*! crates/ble-controller/src/llcp.rs 103-108 ProcedureContext::active *)
Definition active (c : ProcedureContext) : bool :=
  match pc_phase c with Complete | Failed => false | _ => true end.

(*! crates/ble-controller/src/llcp.rs 110-116 ProcedureContext::response_deadline_us *)
Definition response_deadline_us (c : ProcedureContext) : option Z :=
  if pc_deadline_us c =? 0 then None else Some (pc_deadline_us c).

(*! crates/ble-controller/src/llcp.rs 119-127 ProcedureError *)
Inductive ProcedureError : Type :=
| Busy
| Collision (code : Z)
| MissingContext
| StaleToken
| InvalidPhase
| WrongOpcode.
#[export] Instance ProcedureError_eq_dec : EqDecision ProcedureError.
Proof. solve_decision. Defined.

(*! crates/ble-controller/src/llcp.rs 129-133 ProcedureManager *)
Record ProcedureManager : Type := mkProcedureManager {
  pm_local : option ProcedureContext;
  pm_remote : option ProcedureContext;
}.
#[export] Instance ProcedureManager_eta : Eta ProcedureManager := λ m,
  mkProcedureManager (pm_local m) (pm_remote m).
#[export] Instance ProcedureManager_eq_dec : EqDecision ProcedureManager.
Proof. solve_decision. Defined.

(*! crates/ble-controller/src/llcp.rs 141-146 ProcedureManager::new *)
Definition manager_new : ProcedureManager := mkProcedureManager None None.

(** ** Starting procedures *)

(*! crates/ble-controller/src/llcp.rs 156-165 ProcedureManager::start_local *)
Definition start_local (m : ProcedureManager) (context : ProcedureContext)
  : result ProcedureError ProcedureManager :=
  if negb (bool_decide (pc_initiator context = Local)) then Err InvalidPhase
  else if match pm_local m with Some local => active local | None => false end then Err Busy
  else Ok (m <| pm_local := Some context |>).

(*! crates/ble-controller/src/llcp.rs 189-196 ProcedureManager::collision *)
Definition collision (local remote : ProcedureKind) : ProcedureError :=
  match instant_procedure local, instant_procedure remote with
  | Some local, Some remote => Collision (procedure_collision_error local remote)
  | _, _ => Busy
  end.

(** [opt.filter(|c| c.active())]. *)
Definition active_context (c : option ProcedureContext) : option ProcedureContext :=
  match c with Some c => if active c then Some c else None | None => None end.

(*! crates/ble-controller/src/llcp.rs 167-187 ProcedureManager::start_remote *)
Definition start_remote (m : ProcedureManager) (context : ProcedureContext)
  : result ProcedureError ProcedureManager :=
  if negb (bool_decide (pc_initiator context = Remote)) then Err InvalidPhase
  else
    match active_context (pm_remote m) with
    | Some remote => Err (collision (pc_kind remote) (pc_kind context))
    | None =>
        let go :=
          let context := if bool_decide (is_Some (pc_instant context))
                         then context <| pc_phase := AwaitingInstant |> else context in
          Ok (m <| pm_remote := Some context |>) in
        match active_context (pm_local m) with
        | Some local =>
            if bool_decide (is_Some (instant_procedure (pc_kind local)))
               && bool_decide (is_Some (instant_procedure (pc_kind context)))
            then Err (collision (pc_kind local) (pc_kind context)) else go
        | None => go
        end
    end.

(** ** Operations on one context

    [context_mut] gives access to the context of an initiator; an operation is a
    function on it, and an error leaves the manager unchanged. *)

Definition get_context (m : ProcedureManager) (i : ProcedureInitiator) : option ProcedureContext :=
  match i with Local => pm_local m | Remote => pm_remote m end.

Definition put_context (m : ProcedureManager) (i : ProcedureInitiator) (c : ProcedureContext)
  : ProcedureManager :=
  match i with
  | Local => m <| pm_local := Some c |>
  | Remote => m <| pm_remote := Some c |>
  end.

(*! crates/ble-controller/src/llcp.rs 198-207 ProcedureManager::context_mut *)
Definition context_mut (m : ProcedureManager) (i : ProcedureInitiator)
    (f : ProcedureContext → result ProcedureError ProcedureContext)
  : result ProcedureError ProcedureManager :=
  c ← ok_or (get_context m i) MissingContext;
  c ← f c;
  Ok (put_context m i c).

Definition is_queued (p : ProcedurePhase) : bool :=
  match p with Queued | ResponseQueued => true | _ => false end.

(*! crates/ble-controller/src/llcp.rs 211-227 ProcedureManager::tx_planned *)
Definition tx_planned (m : ProcedureManager) (i : ProcedureInitiator) (token : ProcedureToken)
  : result ProcedureError ProcedureManager :=
  context_mut m i (λ c,
    if negb (bool_decide (pc_token c = token)) then Err StaleToken
    else if negb (is_queued (pc_phase c)) then Err InvalidPhase
    else Ok c).

(*! crates/ble-controller/src/llcp.rs 229-246 ProcedureManager::tx_done *)
Definition tx_done (m : ProcedureManager) (i : ProcedureInitiator) (token : ProcedureToken)
  : result ProcedureError ProcedureManager :=
  context_mut m i (λ c,
    if negb (bool_decide (pc_token c = token)) then Err StaleToken
    else if negb (is_queued (pc_phase c)) then Err InvalidPhase
    else Ok (c <| pc_phase := AwaitingTxAck |>)).

(*! crates/ble-controller/src/llcp.rs 265-269 ProcedureManager::nesn_ack *)
Definition armed_deadline (c : ProcedureContext) (now_us : Z) : Z :=
  if pc_timeout_us c =? 0 then 0 else saturating_add64 now_us (pc_timeout_us c).

(** The context update of [nesn_ack]. *)
(*! crates/ble-controller/src/llcp.rs 254-286 ProcedureManager::nesn_ack *)
Definition ack_context (token : ProcedureToken) (now_us : Z) (c : ProcedureContext)
  : result ProcedureError ProcedureContext :=
  if negb (bool_decide (pc_token c = token)) then Err StaleToken
  else if negb (bool_decide (pc_phase c = AwaitingTxAck)) then Err InvalidPhase
  else if pc_pending_response c then
    let c :=
      if bool_decide (is_Some (pc_instant c)) then c <| pc_phase := AwaitingInstant |>
      else if bool_decide (is_Some (pc_expected_response c)) then
        c <| pc_deadline_us := armed_deadline c now_us |> <| pc_phase := AwaitingResponse |>
      else c <| pc_phase := Complete |> in
    Ok (c <| pc_pending_response := false |>)
  else if bool_decide (is_Some (pc_expected_response c)) then
    Ok (c <| pc_phase := AwaitingResponse |> <| pc_deadline_us := armed_deadline c now_us |>)
  else if bool_decide (is_Some (pc_instant c)) then
    Ok (c <| pc_phase := AwaitingInstant |>)
  else Ok (c <| pc_phase := Complete |>).

(*! crates/ble-controller/src/llcp.rs 248-288 ProcedureManager::nesn_ack *)
Definition nesn_ack (m : ProcedureManager) (i : ProcedureInitiator) (token : ProcedureToken)
    (now_us : Z) : result ProcedureError ProcedureManager :=
  context_mut m i (ack_context token now_us).

(*! crates/ble-controller/src/llcp.rs 290-309 ProcedureManager::expected_response *)
Definition expected_response (m : ProcedureManager) (i : ProcedureInitiator) (opcode : Z)
  : result ProcedureError ProcedureManager :=
  context_mut m i (λ c,
    if negb (bool_decide (pc_phase c = AwaitingResponse)) then Err InvalidPhase
    else if negb (bool_decide (pc_expected_response c = Some opcode)) then Err WrongOpcode
    else
      let c := c <| pc_deadline_us := 0 |> in
      Ok (c <| pc_phase := if bool_decide (is_Some (pc_instant c)) then AwaitingInstant
                           else Complete |>)).

(*! crates/ble-controller/src/llcp.rs 315-331 ProcedureManager::expected_response_with_instant *)
Definition expected_response_with_instant (m : ProcedureManager) (i : ProcedureInitiator)
    (opcode instant : Z) : result ProcedureError ProcedureManager :=
  context_mut m i (λ c,
    if negb (bool_decide (pc_phase c = AwaitingResponse)) then Err InvalidPhase
    else if negb (bool_decide (pc_expected_response c = Some opcode)) then Err WrongOpcode
    else Ok (c <| pc_instant := Some instant |> <| pc_phase := AwaitingInstant |>)).

(*! crates/ble-controller/src/llcp.rs 335-352 ProcedureManager::response_queued *)
Definition response_queued (m : ProcedureManager) (token : ProcedureToken) (tx_opcode : Z)
  : result ProcedureError ProcedureManager :=
  context_mut m Remote (λ c,
    if negb (match pc_phase c with Queued | AwaitingResponse => true | _ => false end)
    then Err InvalidPhase
    else Ok (c <| pc_token := token |> <| pc_tx_opcode := tx_opcode |>
               <| pc_pending_response := true |> <| pc_phase := ResponseQueued |>)).

(*! crates/ble-controller/src/llcp.rs 372-379 ProcedureManager::fail *)
Definition fail (m : ProcedureManager) (i : ProcedureInitiator) (error : Z)
  : result ProcedureError ProcedureManager :=
  context_mut m i (λ c,
    Ok (c <| pc_phase := Failed |> <| pc_error := Some error |> <| pc_deadline_us := 0 |>
          <| pc_pending_response := false |>)).

(** ** Operations on both contexts *)

(*! crates/ble-controller/src/llcp.rs 357-362 ProcedureManager::check_timeouts *)
Definition timed_out (c : ProcedureContext) (now_us : Z) : bool :=
  match pc_phase c with AwaitingResponse | AwaitingInstant => true | _ => false end
  && negb (pc_deadline_us c =? 0) && (pc_deadline_us c <=? now_us).

(** The loop body, on one context: the context and whether it failed. *)
(*! crates/ble-controller/src/llcp.rs 356-368 ProcedureManager::check_timeouts *)
Definition check_timeout (now_us error : Z) (c : ProcedureContext) : ProcedureContext * bool :=
  if timed_out c now_us then
    (c <| pc_phase := Failed |> <| pc_error := Some error |> <| pc_deadline_us := 0 |>, true)
  else (c, false).

Definition check_timeout_opt (now_us error : Z) (c : option ProcedureContext)
  : option ProcedureContext * bool :=
  match c with
  | Some c => let '(c, failed) := check_timeout now_us error c in (Some c, failed)
  | None => (None, false)
  end.

(*! crates/ble-controller/src/llcp.rs 354-370 ProcedureManager::check_timeouts *)
Definition check_timeouts (m : ProcedureManager) (now_us error : Z) : ProcedureManager * bool :=
  let '(local, failed_local) := check_timeout_opt now_us error (pm_local m) in
  let '(remote, failed_remote) := check_timeout_opt now_us error (pm_remote m) in
  (mkProcedureManager local remote, failed_local || failed_remote).

(*! crates/ble-controller/src/llcp.rs 382-400 ProcedureManager::on_connection_event *)
Definition context_on_event (event_counter passed_error : Z) (c : ProcedureContext)
  : ProcedureContext :=
  if negb (bool_decide (pc_phase c = AwaitingInstant)) then c
  else
    match pc_instant c with
    | None => c
    | Some instant =>
        match classify_instant event_counter instant with
        | Current => c <| pc_phase := Complete |> <| pc_deadline_us := 0 |>
        | Future _ => c
        | Passed => c <| pc_phase := Failed |> <| pc_error := Some passed_error |>
                      <| pc_deadline_us := 0 |>
        end
    end.

(*! crates/ble-controller/src/llcp.rs 381-402 ProcedureManager::on_connection_event *)
Definition on_connection_event (m : ProcedureManager) (event_counter passed_error : Z)
  : ProcedureManager :=
  mkProcedureManager (context_on_event event_counter passed_error <$> pm_local m)
    (context_on_event event_counter passed_error <$> pm_remote m).

(** ** Sequences of operations *)

Inductive LlcpOp : Type :=
| OpStartLocal (c : ProcedureContext)
| OpStartRemote (c : ProcedureContext)
| OpTxPlanned (i : ProcedureInitiator) (t : ProcedureToken)
| OpTxDone (i : ProcedureInitiator) (t : ProcedureToken)
| OpNesnAck (i : ProcedureInitiator) (t : ProcedureToken) (now_us : Z)
| OpResponse (i : ProcedureInitiator) (opcode : Z)
| OpResponseInstant (i : ProcedureInitiator) (opcode instant : Z)
| OpResponseQueued (t : ProcedureToken) (tx_opcode : Z)
| OpCheckTimeouts (now_us error : Z)
| OpFail (i : ProcedureInitiator) (error : Z)
| OpConnectionEvent (event_counter passed_error : Z).

Definition llcp_apply (m : ProcedureManager) (op : LlcpOp)
  : result ProcedureError ProcedureManager :=
  match op with
  | OpStartLocal c => start_local m c
  | OpStartRemote c => start_remote m c
  | OpTxPlanned i t => tx_planned m i t
  | OpTxDone i t => tx_done m i t
  | OpNesnAck i t now => nesn_ack m i t now
  | OpResponse i opcode => expected_response m i opcode
  | OpResponseInstant i opcode instant => expected_response_with_instant m i opcode instant
  | OpResponseQueued t tx_opcode => response_queued m t tx_opcode
  | OpCheckTimeouts now e => Ok (check_timeouts m now e).1
  | OpFail i e => fail m i e
  | OpConnectionEvent ec e => Ok (on_connection_event m ec e)
  end.

(** A refused call leaves the manager as it was. *)
Definition llcp_step (m : ProcedureManager) (op : LlcpOp) : ProcedureManager :=
  match llcp_apply m op with Ok m => m | Err _ => m end.

Definition llcp_run (m : ProcedureManager) (ops : list LlcpOp) : ProcedureManager :=
  foldl llcp_step m ops.

(** ** The lifecycle of one context, as a step relation *)

Inductive context_step (i : ProcedureInitiator) : LlcpOp → ProcedureContext → ProcedureContext → Prop :=
| step_tx_done c :
    is_queued (pc_phase c) = true →
    context_step i (OpTxDone i (pc_token c)) c (c <| pc_phase := AwaitingTxAck |>)
| step_ack_response c now r :
    pc_phase c = AwaitingTxAck → pc_expected_response c = Some r →
    (pc_pending_response c = true → pc_instant c = None) →
    context_step i (OpNesnAck i (pc_token c) now) c
      (c <| pc_phase := AwaitingResponse |> <| pc_deadline_us := armed_deadline c now |>
         <| pc_pending_response := false |>)
| step_ack_instant c now instant :
    pc_phase c = AwaitingTxAck → pc_instant c = Some instant →
    pc_pending_response c = true ∨ pc_expected_response c = None →
    context_step i (OpNesnAck i (pc_token c) now) c
      (c <| pc_phase := AwaitingInstant |> <| pc_pending_response := false |>)
| step_ack_complete c now :
    pc_phase c = AwaitingTxAck → pc_instant c = None → pc_expected_response c = None →
    context_step i (OpNesnAck i (pc_token c) now) c
      (c <| pc_phase := Complete |> <| pc_pending_response := false |>)
| step_response c r :
    pc_phase c = AwaitingResponse → pc_expected_response c = Some r → pc_instant c = None →
    context_step i (OpResponse i r) c (c <| pc_deadline_us := 0 |> <| pc_phase := Complete |>)
| step_response_then_instant c r instant :
    pc_phase c = AwaitingResponse → pc_expected_response c = Some r →
    pc_instant c = Some instant →
    context_step i (OpResponse i r) c (c <| pc_deadline_us := 0 |> <| pc_phase := AwaitingInstant |>)
| step_response_instant c r instant :
    pc_phase c = AwaitingResponse → pc_expected_response c = Some r →
    context_step i (OpResponseInstant i r instant) c
      (c <| pc_instant := Some instant |> <| pc_phase := AwaitingInstant |>)
| step_response_queued c t tx_opcode :
    i = Remote → pc_phase c = Queued ∨ pc_phase c = AwaitingResponse →
    context_step i (OpResponseQueued t tx_opcode) c
      (c <| pc_token := t |> <| pc_tx_opcode := tx_opcode |>
         <| pc_pending_response := true |> <| pc_phase := ResponseQueued |>)
| step_timeout c now e :
    timed_out c now = true →
    context_step i (OpCheckTimeouts now e) c
      (c <| pc_phase := Failed |> <| pc_error := Some e |> <| pc_deadline_us := 0 |>)
| step_fail c e :
    context_step i (OpFail i e) c
      (c <| pc_phase := Failed |> <| pc_error := Some e |> <| pc_deadline_us := 0 |>
         <| pc_pending_response := false |>)
| step_instant c ec e instant :
    pc_phase c = AwaitingInstant → pc_instant c = Some instant →
    classify_instant ec instant = Current →
    context_step i (OpConnectionEvent ec e) c (c <| pc_phase := Complete |> <| pc_deadline_us := 0 |>)
| step_instant_passed c ec e instant :
    pc_phase c = AwaitingInstant → pc_instant c = Some instant →
    classify_instant ec instant = Passed →
    context_step i (OpConnectionEvent ec e) c
      (c <| pc_phase := Failed |> <| pc_error := Some e |> <| pc_deadline_us := 0 |>).

Definition starts (i : ProcedureInitiator) (op : LlcpOp) : Prop :=
  match i, op with
  | Local, OpStartLocal _ | Remote, OpStartRemote _ => True
  | _, _ => False
  end.

Lemma get_put m i j c :
  get_context (put_context m i c) j = if decide (i = j) then Some c else get_context m j.
Proof. by destruct i, j. Qed.

Lemma step_context_mut m j f i c :
  get_context m i = Some c →
  ∃ c', get_context (match context_mut m j f with Ok m' => m' | Err _ => m end) i = Some c' ∧
    (c' = c ∨ j = i ∧ f c = Ok c').
Proof.
  intros Hc. unfold context_mut. destruct (decide (j = i)) as [->|Hj].
  - rewrite Hc. cbn. destruct (f c) as [c'|e]; cbn; [|by eauto].
    exists c'. rewrite get_put, decide_True by done. auto.
  - exists c. split; [|by left].
    destruct (get_context m j) as [cj|]; cbn; [|done]. destruct (f cj); cbn; [|done].
    by rewrite get_put, decide_False.
Qed.

(** Decompose the guards of an operation that succeeded on a context. *)
Ltac inv_guards :=
  repeat match goal with
  | H : (if ?b then _ else _) = Ok _ |- _ => destruct b eqn:?; try discriminate H
  | H : Ok _ = Ok _ |- _ => injection H as <-
  end; bool_to_prop; subst.

Lemma not_is_Some {A} (o : option A) : ¬ is_Some o → o = None.
Proof. destruct o; [|done]. intros []. eauto. Qed.

Lemma ack_context_step i c t now c' : ack_context t now c = Ok c' →
  context_step i (OpNesnAck i t now) c c'.
Proof.
  unfold ack_context. intros H. inv_guards.
  all: destruct c as [k ii p tok op [r|] [inst|] to dl [] err]; cbn in *; simplify_eq.
  all: match goal with
    | H : is_Some None |- _ => by destruct H
    | H : ¬ is_Some (Some _) |- _ => by destruct H; eauto
    | |- context_step _ _ ?c _ => first
        [ by eapply (step_ack_instant i c); eauto
        | by eapply (step_ack_response i c); eauto
        | by eapply (step_ack_complete i c) ]
    end.
Qed.

Lemma context_on_event_step i ec e c :
  context_on_event ec e c = c ∨ context_step i (OpConnectionEvent ec e) c (context_on_event ec e c).
Proof.
  unfold context_on_event. destruct c as [? ? p ? ? ? inst ? ? ? ?]; cbn.
  destruct (bool_decide (p = AwaitingInstant)) eqn:Hp; cbn; [|by left].
  apply bool_decide_eq_true in Hp. subst. destruct inst as [inst|]; [|by left].
  destruct (classify_instant ec inst) eqn:Hcl; [right|by left|right];
    match goal with |- context_step _ _ ?c _ =>
      first [by eapply (step_instant i c)|by eapply (step_instant_passed i c)] end.
Qed.

Lemma get_check_timeouts m now e i :
  get_context (check_timeouts m now e).1 i =
    (λ c, (check_timeout now e c).1) <$> get_context m i.
Proof.
  unfold check_timeouts, check_timeout_opt.
  destruct m as [[cl|] [cr|]], i; cbn; repeat destruct (check_timeout _ _ _); done.
Qed.

Lemma context_step_or_same m op i c :
  get_context m i = Some c → ¬ starts i op →
  ∃ c', get_context (llcp_step m op) i = Some c' ∧ (c' = c ∨ context_step i op c c').
Proof.
  intros Hc Hs. unfold llcp_step.
  destruct op as [c0|c0|j t|j t|j t now|j opcode|j opcode inst|t opcode|now e|j e|ec e];
    cbn [llcp_apply].
  all: unfold tx_planned, tx_done, nesn_ack, expected_response,
    expected_response_with_instant, response_queued, fail;
    try match goal with |- context [context_mut ?m ?j ?f] =>
      destruct (step_context_mut m j f i c Hc) as (c' & Hget & [->|[<- Hf]]);
        [by exists c; auto|exists c'; split; [exact Hget|]]
    end.
  - exists c. split; [|by left]. destruct i; [done|].
    unfold start_local. by repeat case_match; simplify_eq/=.
  - exists c. split; [|by left]. destruct i; [|done].
    unfold start_remote. by repeat case_match; simplify_eq/=.
  - left. by inv_guards.
  - right. inv_guards. by constructor.
  - right. by apply ack_context_step.
  - right. clear Hget. inv_guards. destruct c as [? ? ? ? ? ? [inst|] ? ? ? ?]; cbn in *; subst;
      match goal with |- context_step _ _ ?c _ =>
        first [by eapply (step_response_then_instant _ c)|by eapply (step_response _ c)] end.
  - right. inv_guards. by eapply step_response_instant.
  - right. inv_guards. constructor; [done|]. destruct (pc_phase c); auto; done.
  - rewrite get_check_timeouts, Hc. cbn. eexists. split; [done|].
    unfold check_timeout. destruct (timed_out c now) eqn:Ht; [right; by constructor|by left].
  - right. inv_guards. constructor.
  - exists (context_on_event ec e c). split; [destruct m, i; cbn in *; by subst|].
    by apply context_on_event_step.
Qed.

(** ** Evidence for completion *)

(** The predicates [ps] hold of some operations of [l], in that order. *)
Inductive in_order {A} : list (A → Prop) → list A → Prop :=
| in_order_nil : in_order [] []
| in_order_snoc ps (p : A → Prop) l x : in_order ps l → p x → in_order (ps ++ [p]) (l ++ [x])
| in_order_skip ps l x : in_order ps l → in_order ps (l ++ [x]).

Lemma in_order_empty {A} (l : list A) : in_order [] l.
Proof. induction l using rev_ind; by constructor. Qed.

Definition is_tx_done (t : ProcedureToken) (op : LlcpOp) : Prop := op = OpTxDone Local t.
Definition is_ack (t : ProcedureToken) (op : LlcpOp) : Prop :=
  ∃ now, op = OpNesnAck Local t now.
Definition is_response (r : Z) (op : LlcpOp) : Prop :=
  op = OpResponse Local r ∨ ∃ instant, op = OpResponseInstant Local r instant.
Definition is_instant (instant : Z) (op : LlcpOp) : Prop :=
  ∃ ec e, op = OpConnectionEvent ec e ∧ classify_instant ec instant = Current.

Definition response_part (c : ProcedureContext) : list (LlcpOp → Prop) :=
  match pc_expected_response c with Some r => [is_response r] | None => [] end.
Definition instant_part (c : ProcedureContext) : list (LlcpOp → Prop) :=
  match pc_instant c with Some i => [is_instant i] | None => [] end.

(** What must have happened for a local context to be in its phase. *)
Definition phase_evidence (c : ProcedureContext) (ops : list LlcpOp) : Prop :=
  let t := pc_token c in
  match pc_phase c with
  | Queued | Failed => True
  | AwaitingTxAck => in_order [is_tx_done t] ops
  | AwaitingResponse => in_order [is_tx_done t; is_ack t] ops
  | ResponseQueued => False
  | AwaitingInstant => in_order ([is_tx_done t; is_ack t] ++ response_part c) ops
  | Complete => in_order ([is_tx_done t; is_ack t] ++ response_part c ++ instant_part c) ops
  end.

Definition local_evidence (c0 : ProcedureContext) (ops : list LlcpOp) (c : ProcedureContext) : Prop :=
  pc_token c = pc_token c0 ∧ pc_expected_response c = pc_expected_response c0 ∧
  pc_pending_response c = false ∧ phase_evidence c ops.

Lemma phase_evidence_skip c ops op : phase_evidence c ops → phase_evidence c (ops ++ [op]).
Proof.
  unfold phase_evidence. destruct (pc_phase c); auto using @in_order_skip.
Qed.

Lemma local_evidence_step c0 ops op c c' :
  local_evidence c0 ops c → context_step Local op c c' → local_evidence c0 (ops ++ [op]) c'.
Proof.
  intros (Ht & Hr & Hp & Hev) Hstep. unfold local_evidence, phase_evidence in *.
  inversion Hstep; subst; cbn; split_and!; try done; try congruence.
  - change [is_tx_done (pc_token c)] with ([] ++ [is_tx_done (pc_token c)]).
    apply in_order_snoc; [apply in_order_empty|done].
  - rewrite H in Hev. change [is_tx_done ?t; is_ack ?t] with ([is_tx_done t] ++ [is_ack t]).
    apply in_order_snoc; [done|]. by eexists.
  - rewrite H in Hev. destruct H1 as [?|H1]; [congruence|]. unfold response_part. cbn. rewrite H1.
    apply (in_order_snoc [_] (is_ack _)); [done|by eexists].
  - rewrite H in Hev. unfold response_part, instant_part. cbn. rewrite H0, H1.
    apply (in_order_snoc [_] (is_ack _)); [done|by eexists].
  - rewrite H in Hev. unfold response_part, instant_part. cbn. rewrite H0, H1.
    apply (in_order_snoc [_; _] (is_response r)); [done|by left].
  - rewrite H in Hev. unfold response_part. cbn. rewrite H0.
    apply (in_order_snoc [_; _] (is_response r)); [done|by left].
  - rewrite H in Hev. unfold response_part. cbn. rewrite H0.
    apply (in_order_snoc [_; _] (is_response r)); [done|right; by eexists].
  - rewrite H in Hev. unfold instant_part. cbn. rewrite H0.
    apply (in_order_snoc ([_; _] ++ _) (is_instant instant)); [done|by do 2 eexists].
Qed.

(** Runs that do not start another local procedure keep the evidence. *)
Lemma local_run_evidence m c0 m0 ops :
  start_local m c0 = Ok m0 → pc_phase c0 = Queued → pc_pending_response c0 = false →
  Forall (λ op, ¬ starts Local op) ops →
  ∃ c, pm_local (llcp_run m0 ops) = Some c ∧ local_evidence c0 ops c.
Proof.
  intros Hs Hq Hp. unfold start_local in Hs. inv_guards.
  induction ops as [|op ops IH] using rev_ind; intros Hops.
  { exists c0. split; [done|]. unfold local_evidence, phase_evidence. by rewrite Hq. }
  apply Forall_app in Hops as [Hops [Hop _]%Forall_cons_1].
  destruct (IH Hops) as (c & Hc & Hev). unfold llcp_run in *. rewrite foldl_app. cbn.
  destruct (context_step_or_same _ op Local c Hc Hop) as (c' & Hc' & [->|Hstep]).
  - exists c. split; [done|]. destruct Hev as (?&?&?&?). split_and!; auto using phase_evidence_skip.
  - exists c'. split; [done|]. by eapply local_evidence_step.
Qed.

(** ** Response timers *)

(** An armed context: it waits, and its deadline is set. *)
Definition armed (c : ProcedureContext) (deadline : Z) : Prop :=
  (pc_phase c = AwaitingResponse ∨ pc_phase c = AwaitingInstant) ∧
  pc_deadline_us c = deadline ∧ deadline ≠ 0.

Definition disarms (i : ProcedureInitiator) (op : LlcpOp) : Prop :=
  match op with
  | OpResponse j _ => j = i
  | OpResponseQueued _ _ => i = Remote
  | _ => starts i op
  end.

Lemma disarms_starts i op : starts i op → disarms i op.
Proof. by destruct i, op. Qed.

(** While armed, the deadline is fixed until the procedure ends. *)
Lemma armed_step i op c c' deadline :
  armed c deadline → ¬ disarms i op → context_step i op c c' →
  armed c' deadline ∨ active c' = false.
Proof.
  intros (Hph & Hd & Hne) Hop Hstep. unfold armed, active.
  inversion Hstep; subst; cbn in *; try (by right); try tauto.
  all: by destruct Hph as [Hph|Hph]; rewrite Hph in *.
Qed.

Lemma inactive_step i op c c' :
  active c = false → context_step i op c c' → active c' = false.
Proof.
  unfold active. intros Ha Hstep. inversion Hstep; subst; cbn in *; try done.
  all: try (by rewrite H in Ha). all: try (by destruct H0 as [H0|H0]; rewrite H0 in Ha).
  destruct (pc_phase c); done.
Qed.

Lemma armed_run i m ops c deadline :
  get_context m i = Some c → armed c deadline → Forall (λ op, ¬ disarms i op) ops →
  ∃ c', get_context (llcp_run m ops) i = Some c' ∧ (armed c' deadline ∨ active c' = false).
Proof.
  intros Hc Harm. induction ops as [|op ops IH] using rev_ind; intros Hops.
  { exists c. split; [done|by left]. }
  apply Forall_app in Hops as [Hops [Hop _]%Forall_cons_1].
  destruct (IH Hops) as (c1 & Hc1 & Hst). unfold llcp_run in *. rewrite foldl_app. cbn.
  assert (Hns : ¬ starts i op) by (intros ?; by apply Hop, disarms_starts).
  destruct (context_step_or_same _ op i c1 Hc1 Hns) as (c' & Hc' & [->|Hstep]);
    [by exists c1|]. exists c'. split; [done|].
  destruct Hst as [Harm'|Hina]; [by eapply armed_step|right; by eapply inactive_step].
Qed.

(** ** Instants *)

Definition events (c e : Z) (k : nat) : list LlcpOp :=
  (λ j, OpConnectionEvent (u16 (c + j)) e) <$> seqZ 1 (Z.of_nat k).

Lemma events_S c e k : events c e (S k) = events c e k ++ [OpConnectionEvent (u16 (c + Z.of_nat (S k))) e].
Proof.
  unfold events. rewrite Nat2Z.inj_succ, <- Z.add_1_r, seqZ_app, fmap_app by lia.
  f_equal. rewrite (Z.add_comm (Z.of_nat k) 1). done.
Qed.

Lemma future_distance c i d k : is_u16 c → is_u16 i → classify_instant c i = Future d →
  0 ≤ k ≤ d →
  classify_instant (u16 (c + k)) i = if decide (k = d) then Current else Future (d - k).
Proof.
  intros Hc Hi Hd Hk. rewrite classify_instant_spec in Hd by done.
  rewrite classify_instant_spec by (done || by apply wrap_fits).
  cbn zeta in *. unfold_ints. rewrite Zminus_mod_idemp_r.
  repeat case_decide; simplify_eq; try int_lia; try done; try (exfalso; int_lia);
    f_equal; int_lia.
Qed.

(** ** Properties *)


Definition sample_context : ProcedureContext :=
  context_new KindConnectionParameters Local (mkProcedureToken 7 0) 0x0f (Some 0x00) None
    (Some 40000000).

Definition sample_ops : list LlcpOp :=
  [OpTxDone Local (mkProcedureToken 7 0); OpNesnAck Local (mkProcedureToken 6 0) 5;
   OpNesnAck Local (mkProcedureToken 7 0) 10; OpResponseInstant Local 0x00 9;
   OpConnectionEvent 8 0x28; OpConnectionEvent 9 0x28].


(** A procedure cannot outlive its response timer: once armed with a deadline, and
    whatever calls follow, short of the expected plain response, a response being
    queued or a restart, the deadline never moves, and the first [check_timeouts] at or
    after it finds the procedure finished or fails it with the given error. *)
Theorem armed_deadline_fires i m c deadline ops now e :
  get_context m i = Some c → armed c deadline → Forall (λ op, ¬ disarms i op) ops →
  deadline ≤ now →
  ∃ c', get_context (check_timeouts (llcp_run m ops) now e).1 i = Some c' ∧
    active c' = false ∧
    (∀ c1, get_context (llcp_run m ops) i = Some c1 → active c1 = true →
       pc_phase c' = Failed ∧ pc_error c' = Some e).
Proof.
  intros Hc Harm Hops Hnow.
  destruct (armed_run i m ops c deadline Hc Harm Hops) as (c1 & Hc1 & Hst).
  rewrite get_check_timeouts, Hc1. cbn. eexists. split; [done|].
  unfold check_timeout. destruct Hst as [(Hph & Hd & Hne)|Hina].
  - assert (timed_out c1 now = true) as ->; [|by split].
    unfold timed_out. rewrite Hd, (proj2 (Z.eqb_neq _ _)), (proj2 (Z.leb_le _ _)) by done.
    by destruct Hph as [-> | ->].
  - assert (timed_out c1 now = false) as ->.
    { unfold timed_out, active in *. by destruct (pc_phase c1). }
    split; [done|]. intros ? [= <-]. congruence.
Qed.

Lemma armed_deadline_fires_witness :
  ∃ c', get_context (check_timeouts (llcp_run (llcp_run manager_new
          (OpStartLocal sample_context :: take 3 sample_ops)) [OpConnectionEvent 8 0x28])
          40000010 0x22).1 Local = Some c' ∧ active c' = false.
Proof.
  destruct (armed_deadline_fires Local
    (llcp_run manager_new (OpStartLocal sample_context :: take 3 sample_ops))
    (sample_context <| pc_phase := AwaitingResponse |> <| pc_deadline_us := 40000010 |>)
    40000010 [OpConnectionEvent 8 0x28] 40000010 0x22) as (c' & Hc' & Ha & _).
  - vm_compute. reflexivity.
  - split; [left; reflexivity|split; [reflexivity|discriminate]].
  - repeat constructor; intros [].
  - lia.
  - exists c'. split; assumption.
Defined.

(** An instant is applied exactly on time: a context waiting for an instant [d]
    events ahead is still waiting, unchanged, after each of the next [d - 1]
    connection events, and is complete with its timer stopped after the [d]-th,
    across the 16-bit wrap-around of the event counter. *)
Theorem instant_completes_on_time i m c counter instant d e k :
  get_context m i = Some c → pc_phase c = AwaitingInstant → pc_instant c = Some instant →
  is_u16 counter → is_u16 instant → classify_instant counter instant = Future d →
  Z.of_nat k ≤ d →
  get_context (llcp_run m (events counter e k)) i =
    Some (if decide (Z.of_nat k = d)
          then c <| pc_phase := Complete |> <| pc_deadline_us := 0 |> else c).
Proof.
  intros Hc Hph Hinst Hcnt Hi Hd. induction k as [|k IH]; intros Hk.
  { rewrite classify_instant_spec in Hd by done. cbn zeta in Hd.
    rewrite decide_False; [done|]. repeat case_decide; simplify_eq. cbn. lia. }
  rewrite events_S. unfold llcp_run in *. rewrite foldl_app. cbn [foldl].
  specialize (IH ltac:(lia)). rewrite decide_False in IH by lia.
  unfold llcp_step at 1. cbn [llcp_apply]. unfold on_connection_event.
  set (m' := foldl llcp_step m (events counter e k)) in *.
  assert (Hget : get_context (mkProcedureManager
      (context_on_event (u16 (counter + Z.of_nat (S k))) e <$> pm_local m')
      (context_on_event (u16 (counter + Z.of_nat (S k))) e <$> pm_remote m')) i =
    Some (context_on_event (u16 (counter + Z.of_nat (S k))) e c)).
  { by destruct i; cbn in *; rewrite IH. }
  rewrite Hget. f_equal. unfold context_on_event.
  rewrite Hph, bool_decide_true, Hinst by done. cbn [negb].
  rewrite (future_distance counter instant d) by (done || lia). by case_decide.
Qed.

Lemma instant_completes_on_time_witness :
  let c := sample_context <| pc_instant := Some 1 |> <| pc_phase := AwaitingInstant |> in
  get_context (llcp_run (mkProcedureManager (Some c) None) (events 65534 0x28 3)) Local =
    Some (c <| pc_phase := Complete |>).
Proof.
  cbn zeta. set (c := sample_context <| pc_instant := Some 1 |> <| pc_phase := AwaitingInstant |>).
  refine (instant_completes_on_time Local (mkProcedureManager (Some c) None) c 65534 1 3 0x28 3
    eq_refl eq_refl eq_refl _ _ eq_refl _); unfold fits; cbn; lia.
Defined.

(** Starting a remote procedure: the exact outcome. It is refused as busy or as a
    collision while a remote procedure is active; it collides with an active local
    procedure exactly when both bear instants, with error 0x23 for the same kind or a
    parameter-request/update pair and 0x2a otherwise; otherwise it is installed, and
    waits for its instant at once when it bears one. *)
Theorem start_remote_outcome m c :
  pc_initiator c = Remote →
  let collision_code (a b : ProcedureKind) :=
    if decide (a = b ∨ (a = KindConnectionParameters ∧ b = KindConnectionUpdate)
               ∨ (a = KindConnectionUpdate ∧ b = KindConnectionParameters))
    then 0x23 else 0x2a in
  let instant_kind (k : ProcedureKind) :=
    k = KindConnectionParameters ∨ k = KindConnectionUpdate ∨ k = KindChannelMapUpdate in
  match active_context (pm_remote m), active_context (pm_local m) with
  | Some r, _ =>
      start_remote m c = Err (if decide (instant_kind (pc_kind r) ∧ instant_kind (pc_kind c))
                              then Collision (collision_code (pc_kind r) (pc_kind c)) else Busy)
  | None, Some l =>
      if decide (instant_kind (pc_kind l) ∧ instant_kind (pc_kind c))
      then start_remote m c = Err (Collision (collision_code (pc_kind l) (pc_kind c)))
      else ∃ c', start_remote m c = Ok (m <| pm_remote := Some c' |>) ∧
             pc_token c' = pc_token c
  | None, None =>
      ∃ c', start_remote m c = Ok (m <| pm_remote := Some c' |>) ∧
        pc_phase c' = (if pc_instant c is Some _ then AwaitingInstant else pc_phase c)
  end.
Proof.
  intros Hi. cbn zeta. unfold start_remote. rewrite Hi, bool_decide_true by done. cbn [negb].
  destruct (active_context (pm_remote m)) as [r|].
  { f_equal. by destruct (pc_kind r), (pc_kind c). }
  destruct (active_context (pm_local m)) as [l|].
  - destruct (pc_kind l), (pc_kind c); cbn; try done; eexists; (split; [done|]);
      by case_bool_decide.
  - eexists. split; [done|]. by destruct (pc_instant c).
Qed.

Lemma start_remote_outcome_witness :
  start_remote (mkProcedureManager (Some sample_context) None)
    (context_new KindChannelMapUpdate Remote (mkProcedureToken 1 0) 1 None (Some 40) None) =
  Err (Collision 0x2a).
Proof.
  exact (start_remote_outcome (mkProcedureManager (Some sample_context) None)
    (context_new KindChannelMapUpdate Remote (mkProcedureToken 1 0) 1 None (Some 40) None)
    eq_refl).
Defined.
