(* ===== verification/Advertising.v ===== *)
(** * Legacy advertising PDUs

    Models [crates/ble-controller/src/advertising.rs]: advertising data fields,
    ADV_IND, SCAN_RSP and CONNECT_IND construction and parsing.  A builder
    returns the slice it hands out together with the caller's buffer. *)

From S2P Require Import Prelude Channel Timing ControlPdu.

(*! crates/ble-controller/src/advertising.rs 8-8 MAX_LEGACY_ADV_DATA_LEN *)
Definition MAX_LEGACY_ADV_DATA_LEN : nat := 31.
(*! crates/ble-controller/src/advertising.rs 9-9 MAX_LEGACY_ADV_PDU_LEN *)
Definition MAX_LEGACY_ADV_PDU_LEN : nat := 2 + 6 + MAX_LEGACY_ADV_DATA_LEN.
(*! crates/ble-controller/src/advertising.rs 10-10 CONNECT_IND_PAYLOAD_LEN *)
Definition CONNECT_IND_PAYLOAD_LEN : nat := 34.

(*! crates/ble-controller/src/advertising.rs 12-12 AD_TYPE_FLAGS *)
Definition AD_TYPE_FLAGS : Z := 0x01.
(*! crates/ble-controller/src/advertising.rs 13-13 AD_TYPE_COMPLETE_UUID16_LIST *)
Definition AD_TYPE_COMPLETE_UUID16_LIST : Z := 0x03.
(*! crates/ble-controller/src/advertising.rs 14-14 AD_TYPE_COMPLETE_LOCAL_NAME *)
Definition AD_TYPE_COMPLETE_LOCAL_NAME : Z := 0x09.
(*! crates/ble-controller/src/advertising.rs 15-15 AD_TYPE_APPEARANCE *)
Definition AD_TYPE_APPEARANCE : Z := 0x19.
(*! crates/ble-controller/src/advertising.rs 17-17 FLAG_LE_GENERAL_DISCOVERABLE *)
Definition FLAG_LE_GENERAL_DISCOVERABLE : Z := Z.shiftl 1 1.
(*! crates/ble-controller/src/advertising.rs 18-18 FLAG_BR_EDR_NOT_SUPPORTED *)
Definition FLAG_BR_EDR_NOT_SUPPORTED : Z := Z.shiftl 1 2.

(*! crates/ble-controller/src/advertising.rs 20-24 AddressKind *)
Inductive AddressKind : Type := Public | Random.
#[export] Instance AddressKind_eq_dec : EqDecision AddressKind.
Proof. solve_decision. Defined.

(*! crates/ble-controller/src/advertising.rs 26-32 DeviceAddress *)
Record DeviceAddress : Type := mkDeviceAddress {
  addr_bytes : list Z;
  addr_kind : AddressKind;
}.
#[export] Instance DeviceAddress_eq_dec : EqDecision DeviceAddress.
Proof. solve_decision. Defined.

Definition is_random (a : DeviceAddress) : bool :=
  match addr_kind a with Random => true | Public => false end.

(*! crates/ble-controller/src/advertising.rs 35-40 DeviceAddress::public *)
Definition address_public (bytes : list Z) : DeviceAddress := mkDeviceAddress bytes Public.

(*! crates/ble-controller/src/advertising.rs 42-62 DeviceAddress::random_static *)
Definition random_static (bytes : list Z) : result Error DeviceAddress :=
  let top := bytes !!! 5%nat in
  let random_part_all_zero :=
    (bytes !!! 0%nat =? 0) && (bytes !!! 1%nat =? 0) && (bytes !!! 2%nat =? 0) &&
    (bytes !!! 3%nat =? 0) && (bytes !!! 4%nat =? 0) && (Z.land top 0x3f =? 0) in
  let random_part_all_one :=
    (bytes !!! 0%nat =? 0xff) && (bytes !!! 1%nat =? 0xff) && (bytes !!! 2%nat =? 0xff) &&
    (bytes !!! 3%nat =? 0xff) && (bytes !!! 4%nat =? 0xff) && (Z.land top 0x3f =? 0x3f) in
  if negb (Z.land top 0xc0 =? 0xc0) || random_part_all_zero || random_part_all_one
  then Err ErrorInvalidPacket
  else Ok (mkDeviceAddress bytes Random).

(** ** Parsing advertisements *)

(*! crates/ble-controller/src/advertising.rs 67-74 LegacyAdvertisement *)
Record LegacyAdvertisement : Type := mkLegacyAdvertisement {
  la_event_type : Z;
  la_address : DeviceAddress;
  la_data : list Z;
}.

(*! crates/ble-controller/src/advertising.rs 80-110 parse_legacy_advertisement *)
Definition parse_legacy_advertisement (packet : list Z) : result Error LegacyAdvertisement :=
  if (length packet <? 8)%nat then Err ErrorInvalidPacket
  else
    let payload_len := Z.to_nat (Z.land (packet !!! 1%nat) 0x3f) in
    if negb ((6 <=? payload_len)%nat && (payload_len <=? 37)%nat)
       || negb (length packet =? payload_len + 2)%nat then Err ErrorInvalidPacket
    else
      let pdu_type := Z.land (packet !!! 0%nat) 0x0f in
      '(event_type, data_offset) ←
        (if pdu_type =? 0x00 then Ok (0, 8%nat)
         else if (pdu_type =? 0x01) && (payload_len =? 12)%nat then Ok (1, 14%nat)
         else if pdu_type =? 0x02 then Ok (3, 8%nat)
         else if pdu_type =? 0x04 then Ok (4, 8%nat)
         else if pdu_type =? 0x06 then Ok (2, 8%nat)
         else Err ErrorInvalidPacket);
      let address := mkDeviceAddress (slice 2 8 packet)
        (if bit_set (packet !!! 0%nat) 6 then Random else Public) in
      Ok (mkLegacyAdvertisement event_type address (slice data_offset (payload_len + 2) packet)).

(** ** Advertising data *)

(*! crates/ble-controller/src/advertising.rs 112-115 AdvertisingData *)
Record AdvertisingData : Type := mkAdvertisingData {
  ad_bytes : list Z;
  ad_len : nat;
}.

(*! crates/ble-controller/src/advertising.rs 118-123 AdvertisingData::new *)
Definition ad_new : AdvertisingData :=
  mkAdvertisingData (replicate MAX_LEGACY_ADV_DATA_LEN 0) 0.

(** [usize::checked_add] on the 32-bit target. *)
Definition checked_add_usize (a b : nat) : option nat :=
  if Z.of_nat (a + b) <? 2 ^ 32 then Some (a + b)%nat else None.

(*! crates/ble-controller/src/advertising.rs 125-140 AdvertisingData::push *)
Definition ad_push (d : AdvertisingData) (ad_type : Z) (value : list Z)
  : result Error AdvertisingData :=
  field_len ← ok_or (checked_add_usize (length value) 2) ErrorInvalidPacket;
  end_ ← ok_or (checked_add_usize (ad_len d) field_len) ErrorInvalidPacket;
  if (254 <? length value)%nat || (length (ad_bytes d) <? end_)%nat
  then Err ErrorInvalidPacket
  else
    let bytes := <[ad_len d := u8 (Z.of_nat (length value) + 1)]> (ad_bytes d) in
    let bytes := <[(ad_len d + 1)%nat := ad_type]> bytes in
    let bytes := splice (ad_len d + 2) value bytes in
    Ok (mkAdvertisingData bytes end_).

(*! crates/ble-controller/src/advertising.rs 142-144 AdvertisingData::as_bytes *)
Definition as_bytes (d : AdvertisingData) : list Z := slice 0 (ad_len d) (ad_bytes d).

(** ** Building advertising PDUs *)

(** The writes shared by the two builders, for a given first header octet. *)
(*! crates/ble-controller/src/advertising.rs 163-173 build_adv_ind *)
Definition build_adv_pdu (header : Z) (address : DeviceAddress) (data : AdvertisingData)
    (output : list Z) : result Error (list Z) * list Z :=
  let payload_len := (6 + ad_len data)%nat in
  let pdu_len := (2 + payload_len)%nat in
  let output := <[0%nat := header]> output in
  let output := <[1%nat := u8 (Z.of_nat payload_len)]> output in
  let output := splice 2 (addr_bytes address) output in
  let output := splice 8 (as_bytes data) output in
  (Ok (slice 0 pdu_len output), output).

(*! crates/ble-controller/src/advertising.rs 158-174 build_adv_ind *)
Definition build_adv_ind (address : DeviceAddress) (data : AdvertisingData) (output : list Z)
  : result Error (list Z) * list Z :=
  build_adv_pdu (match addr_kind address with Public => 0x00 | Random => Z.shiftl 1 6 end)
    address data output.

(*! crates/ble-controller/src/advertising.rs 177-193 build_scan_rsp *)
Definition build_scan_rsp (address : DeviceAddress) (data : AdvertisingData) (output : list Z)
  : result Error (list Z) * list Z :=
  build_adv_pdu
    (Z.lor 0x04 (match addr_kind address with Public => 0 | Random => Z.shiftl 1 6 end))
    address data output.

(*! crates/ble-controller/src/advertising.rs 197-202 is_scan_request *)
Definition is_scan_request (packet : list Z) (address : DeviceAddress) : bool :=
  (14 <=? length packet)%nat && (Z.land (packet !!! 0%nat) 0x0f =? 0x03) &&
  (Z.land (packet !!! 1%nat) 0x3f =? 12) &&
  bool_decide (slice 8 14 packet = addr_bytes address).

(** ** CONNECT_IND *)

(*! crates/ble-controller/src/advertising.rs 205-219 ConnectInd *)
Record ConnectInd : Type := mkConnectInd {
  ci_initiator_address : list Z;
  ci_initiator_address_random : bool;
  ci_access_address : Z;
  ci_crc_init : Z;
  ci_window_size : Z;
  ci_window_offset : Z;
  ci_interval : Z;
  ci_latency : Z;
  ci_supervision_timeout : Z;
  ci_channel_map : list Z;
  ci_hop_increment : Z;
  ci_sleep_clock_accuracy : Z;
}.
#[export] Instance ConnectInd_eta : Eta ConnectInd := λ c,
  mkConnectInd (ci_initiator_address c) (ci_initiator_address_random c)
    (ci_access_address c) (ci_crc_init c) (ci_window_size c) (ci_window_offset c)
    (ci_interval c) (ci_latency c) (ci_supervision_timeout c) (ci_channel_map c)
    (ci_hop_increment c) (ci_sleep_clock_accuracy c).
#[export] Instance ConnectInd_eq_dec : EqDecision ConnectInd.
Proof. solve_decision. Defined.

Definition ci_timing_is_valid (c : ConnectInd) : bool :=
  connection_timing_is_valid (ci_window_size c) (ci_window_offset c) (ci_interval c)
    (ci_latency c) (ci_supervision_timeout c).

(*! crates/ble-controller/src/advertising.rs 224-273 build_connect_ind *)
Definition build_connect_ind (initiator advertiser : DeviceAddress) (connection : ConnectInd)
    (output : list Z) : result Error (list Z) * list Z :=
  if negb (bool_decide (ci_initiator_address connection = addr_bytes initiator))
     || negb (Bool.eqb (ci_initiator_address_random connection) (is_random initiator))
     || negb (data_access_address_is_valid (ci_access_address connection) false)
     || negb ((5 <=? ci_hop_increment connection) && (ci_hop_increment connection <=? 16))
     || (7 <? ci_sleep_clock_accuracy connection)
     || negb (ci_timing_is_valid connection)
     || negb (data_channel_map_is_valid (ci_channel_map connection))
  then (Err ErrorInvalidPacket, output)
  else
    let output := replicate (length output) 0 in
    let output := <[0%nat := Z.lor (Z.lor 0x05 (if is_random initiator then Z.shiftl 1 6 else 0))
                               (if is_random advertiser then Z.shiftl 1 7 else 0)]> output in
    let output := <[1%nat := u8 (Z.of_nat CONNECT_IND_PAYLOAD_LEN)]> output in
    let output := splice 2 (addr_bytes initiator) output in
    let output := splice 8 (addr_bytes advertiser) output in
    let output := splice 14 (to_le 4 (ci_access_address connection)) output in
    let output := <[18%nat := u8 (ci_crc_init connection)]> output in
    let output := <[19%nat := u8 (Z.shiftr (ci_crc_init connection) 8)]> output in
    let output := <[20%nat := u8 (Z.shiftr (ci_crc_init connection) 16)]> output in
    let output := <[21%nat := ci_window_size connection]> output in
    let output := splice 22 (to_le 2 (ci_window_offset connection)) output in
    let output := splice 24 (to_le 2 (ci_interval connection)) output in
    let output := splice 26 (to_le 2 (ci_latency connection)) output in
    let output := splice 28 (to_le 2 (ci_supervision_timeout connection)) output in
    let output := splice 30 (ci_channel_map connection) output in
    let output := <[35%nat := Z.lor (ci_hop_increment connection)
                                (u8 (Z.shiftl (ci_sleep_clock_accuracy connection) 5))]> output in
    (Ok output, output).

(*! crates/ble-controller/src/advertising.rs 280-290 ConnectIndParseError *)
Inductive ConnectIndParseError : Type :=
| NotConnectInd
| InvalidLength
| DifferentAdvertiser
| InvalidAccessAddress
| InvalidHopIncrement
| InvalidTiming
| InvalidChannelMap.
#[export] Instance ConnectIndParseError_eq_dec : EqDecision ConnectIndParseError.
Proof. solve_decision. Defined.

(** The fields of the payload, as the parser reads them. *)
(*! crates/ble-controller/src/advertising.rs 317-330 parse_connect_ind_detailed *)
Definition connect_ind_fields (header : Z) (payload : list Z) : ConnectInd :=
  let hop_sca := payload !!! 33%nat in
  mkConnectInd (slice 0 6 payload) (bit_set header 6)
    (from_le (slice 12 16 payload))
    (Z.lor (Z.lor (payload !!! 16%nat) (Z.shiftl (payload !!! 17%nat) 8))
       (Z.shiftl (payload !!! 18%nat) 16))
    (payload !!! 19%nat) (le16 payload 20) (le16 payload 22) (le16 payload 24)
    (le16 payload 26) (slice 28 33 payload) (Z.land hop_sca 0x1f) (Z.shiftr hop_sca 5).

(*! crates/ble-controller/src/advertising.rs 293-344 parse_connect_ind_detailed *)
Definition parse_connect_ind_detailed (packet : list Z) (address : DeviceAddress)
  : result ConnectIndParseError ConnectInd :=
  if (length packet <? 2 + CONNECT_IND_PAYLOAD_LEN)%nat
     || negb (Z.land (packet !!! 0%nat) 0x0f =? 0x05) then Err NotConnectInd
  else if negb (Z.land (packet !!! 1%nat) 0x3f =? Z.of_nat CONNECT_IND_PAYLOAD_LEN)
  then Err InvalidLength
  else
    let payload := slice 2 (2 + CONNECT_IND_PAYLOAD_LEN) packet in
    if negb (bool_decide (slice 6 12 payload = addr_bytes address)) then Err DifferentAdvertiser
    else
      let connection := connect_ind_fields (packet !!! 0%nat) payload in
      if negb (data_access_address_is_valid (ci_access_address connection) false)
      then Err InvalidAccessAddress
      else if negb ((5 <=? ci_hop_increment connection) && (ci_hop_increment connection <=? 16))
      then Err InvalidHopIncrement
      else if negb (ci_timing_is_valid connection) then Err InvalidTiming
      else if negb (data_channel_map_is_valid (ci_channel_map connection))
      then Err InvalidChannelMap
      else Ok connection.

(*! crates/ble-controller/src/advertising.rs 347-358 parse_connect_ind *)
Definition parse_connect_ind (packet : list Z) (address : DeviceAddress)
  : result Error (option ConnectInd) :=
  match parse_connect_ind_detailed packet address with
  | Ok connection => Ok (Some connection)
  | Err NotConnectInd | Err DifferentAdvertiser => Ok None
  | Err _ => Err ErrorInvalidPacket
  end.

(** ** Well-formed values *)

Definition address_ok (a : DeviceAddress) : Prop :=
  length (addr_bytes a) = 6%nat ∧ bytes_ok (addr_bytes a).

Definition ad_ok (d : AdvertisingData) : Prop :=
  length (ad_bytes d) = MAX_LEGACY_ADV_DATA_LEN ∧ (ad_len d ≤ MAX_LEGACY_ADV_DATA_LEN)%nat.

(** Field widths of a connection request; the CRC initialiser has 24 bits. *)
Record connect_ind_fits (c : ConnectInd) : Prop := {
  ci_fits_initiator : length (ci_initiator_address c) = 6%nat ∧ bytes_ok (ci_initiator_address c);
  ci_fits_access_address : is_u32 (ci_access_address c);
  ci_fits_crc_init : fits 24 (ci_crc_init c);
  ci_fits_window_size : is_u8 (ci_window_size c);
  ci_fits_window_offset : is_u16 (ci_window_offset c);
  ci_fits_interval : is_u16 (ci_interval c);
  ci_fits_latency : is_u16 (ci_latency c);
  ci_fits_timeout : is_u16 (ci_supervision_timeout c);
  ci_fits_map : wf_map (ci_channel_map c);
  ci_fits_hop : 0 ≤ ci_hop_increment c < 32;
  ci_fits_sca : 0 ≤ ci_sleep_clock_accuracy c < 8;
}.

Lemma as_bytes_length d : ad_ok d → length (as_bytes d) = ad_len d.
Proof. intros [? ?]. unfold as_bytes. rewrite length_slice by lia. lia. Qed.

(** ** Advertising data *)

Lemma ad_new_ok : ad_ok ad_new ∧ as_bytes ad_new = [].
Proof. split; [split; [done|]|done]. cbn. unfold MAX_LEGACY_ADV_DATA_LEN. lia. Qed.

Lemma checked_add_small a b : (a + b ≤ 1000)%nat → checked_add_usize a b = Some (a + b)%nat.
Proof. intros. unfold checked_add_usize. by rewrite (proj2 (Z.ltb_lt _ _)) by lia. Qed.

(** The part of the buffer that a field of [n] value octets overwrites. *)
Lemma split_buffer d n : ad_ok d → (ad_len d + n + 2 ≤ MAX_LEGACY_ADV_DATA_LEN)%nat →
  ∃ x y mid rest, ad_bytes d = as_bytes d ++ x :: y :: mid ++ rest ∧ length mid = n.
Proof.
  intros [Hlen _] Hn. unfold as_bytes, slice. rewrite Nat.sub_0_r, drop_0.
  pose proof (take_drop (ad_len d) (ad_bytes d)) as Htd.
  assert (Hrest : length (drop (ad_len d) (ad_bytes d)) = (31 - ad_len d)%nat)
    by (rewrite length_drop, Hlen; done).
  unfold MAX_LEGACY_ADV_DATA_LEN in *.
  destruct (drop (ad_len d) (ad_bytes d)) as [|x [|y rest]]; cbn in Hrest; try lia.
  exists x, y, (take n rest), (drop n rest). rewrite take_drop, length_take. split; [done|lia].
Qed.

Lemma ad_push_spec d t v : ad_ok d →
  match ad_push d t v with
  | Ok d' => ad_ok d' ∧ as_bytes d' = as_bytes d ++ [Z.of_nat (length v) + 1; t] ++ v
  | Err e => e = ErrorInvalidPacket ∧ (31 < ad_len d + length v + 2)%nat
  end.
Proof.
  intros [Hlen Hmax]. unfold ad_push, MAX_LEGACY_ADV_DATA_LEN in *.
  destruct (checked_add_usize (length v) 2) as [n|] eqn:Hn; cbn [ok_or mbind result_bind].
  2: { unfold checked_add_usize in Hn. case_match eqn:Hb; [done|]. split; [done|].
       apply Z.ltb_ge in Hb. change (2 ^ 32) with 4294967296 in *. lia. }
  assert (n = length v + 2)%nat as ->.
  { unfold checked_add_usize in Hn. case_match; by simplify_eq. }
  destruct (checked_add_usize (ad_len d) (length v + 2)) as [e|] eqn:He;
    cbn [ok_or mbind result_bind].
  2: { unfold checked_add_usize in He. case_match eqn:Hb; [done|]. split; [done|].
       apply Z.ltb_ge in Hb. change (2 ^ 32) with 4294967296 in *. lia. }
  assert (e = ad_len d + (length v + 2))%nat as ->.
  { unfold checked_add_usize in He. case_match; by simplify_eq. }
  rewrite Hlen. destruct (Nat.ltb_spec 254 (length v)), (Nat.ltb_spec 31 (ad_len d + (length v + 2)));
    cbn [orb]; try (split; [done|lia]).
  destruct (split_buffer d (length v) ltac:(done) ltac:(unfold MAX_LEGACY_ADV_DATA_LEN; lia))
    as (x & y & mid & rest & Hb & Hmid).
  assert (Hp : length (as_bytes d) = ad_len d) by (by apply as_bytes_length).
  rewrite <- Hp in *. set (p := as_bytes d) in *.
  assert (Hw : splice (length p + 2) v
      (<[(length p + 1)%nat := t]> (<[length p := u8 (Z.of_nat (length v) + 1)]> (ad_bytes d)))
    = (p ++ [Z.of_nat (length v) + 1; t] ++ v) ++ rest).
  { rewrite Hb, insert_at_app, wrap_small by (unfold_ints; lia).
    change (p ++ ?a :: y :: mid ++ rest) with (p ++ [a] ++ y :: mid ++ rest). rewrite app_assoc.
    replace (length p + 1)%nat with (length (p ++ [Z.of_nat (length v) + 1]))
      by (rewrite length_app; done).
    rewrite insert_at_app.
    change (?q ++ t :: mid ++ rest) with (q ++ [t] ++ mid ++ rest). rewrite app_assoc.
    replace (length p + 2)%nat with (length ((p ++ [Z.of_nat (length v) + 1]) ++ [t]))
      by (rewrite !length_app; cbn; lia).
    rewrite splice_at_app by done. by rewrite <- !app_assoc. }
  rewrite Hw. split.
  - split; unfold MAX_LEGACY_ADV_DATA_LEN; cbn [ad_bytes ad_len]; [|lia].
    rewrite <- Hw, length_splice; rewrite !length_insert; lia.
  - unfold as_bytes. cbn [ad_len ad_bytes].
    replace (length p + (length v + 2))%nat with
      (length (p ++ [Z.of_nat (length v) + 1; t] ++ v)) by (rewrite !length_app; cbn; lia).
    apply take_app_slice.
Qed.

(** ** CONNECT_IND *)

Lemma hop_sca_fields hop sca : 0 ≤ hop < 32 → 0 ≤ sca < 8 →
  let b := Z.lor hop (u8 (Z.shiftl sca 5)) in
  Z.land b 0x1f = hop ∧ Z.shiftr b 5 = sca ∧ is_u8 b.
Proof.
  intros Hh Hs. cbn zeta. rewrite (wrap_small 8), lor_shift_add by
    (try (rewrite Z.shiftl_mul_pow2 by lia); unfold fits; lia).
  change 0x1f with (Z.ones 5). rewrite Z.land_ones, Z.shiftr_div_pow2 by lia.
  unfold_ints. change (2 ^ 5) with 32. split_and!; int_lia.
Qed.

Lemma crc_init_bytes x : fits 24 x →
  Z.lor (Z.lor (u8 x) (Z.shiftl (u8 (Z.shiftr x 8)) 8)) (Z.shiftl (u8 (Z.shiftr x 16)) 16) = x.
Proof.
  intros Hx. rewrite !Z.shiftr_div_pow2 by lia.
  rewrite (lor_shift_add _ _ 8) by (lia || by apply wrap_fits).
  rewrite (lor_shift_add _ _ 16) by (unfold_ints; Z.div_mod_to_equations; lia).
  unfold fits, wrap in *. change (2 ^ 24) with 16777216 in *. change (2 ^ 8) with 256 in *.
  change (2 ^ 16) with 65536 in *. Z.div_mod_to_equations; lia.
Qed.

Definition build_guards (initiator : DeviceAddress) (c : ConnectInd) : Prop :=
  ci_initiator_address c = addr_bytes initiator ∧
  ci_initiator_address_random c = is_random initiator ∧
  data_access_address_is_valid (ci_access_address c) false = true ∧
  5 ≤ ci_hop_increment c ≤ 16 ∧ ci_sleep_clock_accuracy c ≤ 7 ∧
  ci_timing_is_valid c = true ∧ data_channel_map_is_valid (ci_channel_map c) = true.

Lemma build_connect_ind_guards initiator advertiser c output :
  build_guards initiator c ↔ is_ok (build_connect_ind initiator advertiser c output).1 = true.
Proof.
  unfold build_guards, build_connect_ind. case_match eqn:Hg; cbn.
  - split; [|done]. intros (H1 & H2 & H3 & H4 & H5 & H6 & H7).
    rewrite H1, H2, H3, H6, H7, bool_decide_true, eqb_reflx in Hg by done. cbn in Hg.
    rewrite !orb_false_r in Hg. apply orb_true_iff in Hg as [Hg|Hg]; lia.
  - split; [done|]. intros _. bool_to_prop.
    match goal with H : Bool.eqb _ _ = true |- _ => apply eqb_prop in H end.
    split_and!; try done; lia.
Qed.

Definition connect_ind_header (initiator advertiser : DeviceAddress) : Z :=
  Z.lor (Z.lor 0x05 (if is_random initiator then Z.shiftl 1 6 else 0))
    (if is_random advertiser then Z.shiftl 1 7 else 0).

Lemma connect_ind_header_fields i a :
  Z.land (connect_ind_header i a) 0x0f = 0x05 ∧ bit_set (connect_ind_header i a) 6 = is_random i.
Proof. unfold connect_ind_header. by destruct (is_random i), (is_random a). Qed.

Definition connect_ind_bytes (initiator advertiser : DeviceAddress) (c : ConnectInd) : list Z :=
  [connect_ind_header initiator advertiser; 34] ++ ci_initiator_address c
  ++ addr_bytes advertiser ++ to_le 4 (ci_access_address c)
  ++ [u8 (ci_crc_init c); u8 (Z.shiftr (ci_crc_init c) 8); u8 (Z.shiftr (ci_crc_init c) 16);
      ci_window_size c] ++ to_le 2 (ci_window_offset c) ++ to_le 2 (ci_interval c)
  ++ to_le 2 (ci_latency c) ++ to_le 2 (ci_supervision_timeout c) ++ ci_channel_map c
  ++ [Z.lor (ci_hop_increment c) (u8 (Z.shiftl (ci_sleep_clock_accuracy c) 5))].

Lemma build_connect_ind_bytes initiator advertiser c output pdu output' :
  length output = (2 + CONNECT_IND_PAYLOAD_LEN)%nat → address_ok advertiser →
  connect_ind_fits c →
  build_connect_ind initiator advertiser c output = (Ok pdu, output') →
  pdu = connect_ind_bytes initiator advertiser c.
Proof.
  intros Hout [Hal _] [[Hil _] _ _ _ _ _ _ _ Hmap _ _] Hb.
  assert (Hi : ci_initiator_address c = addr_bytes initiator).
  { apply (build_connect_ind_guards _ advertiser _ output). by rewrite Hb. }
  unfold build_connect_ind in Hb. case_match; [done|]. clear H. injection Hb as <- _.
  rewrite Hout, <- Hi. unfold connect_ind_bytes.
  apply wf_map_octets in Hmap as (m0&m1&m2&m3&m4&->&_).
  destruct (ci_initiator_address c) as [|i0 [|i1 [|i2 [|i3 [|i4 [|i5 [|]]]]]]]; try done.
  destruct (addr_bytes advertiser) as [|a0 [|a1 [|a2 [|a3 [|a4 [|a5 [|]]]]]]]; try done.
Qed.

(** The parser's view of those bytes. *)
Lemma connect_ind_bytes_fields initiator advertiser c :
  address_ok advertiser → connect_ind_fits c →
  ci_initiator_address_random c = is_random initiator →
  let pdu := connect_ind_bytes initiator advertiser c in
  length pdu = 36%nat ∧ pdu !!! 0%nat = connect_ind_header initiator advertiser ∧
  pdu !!! 1%nat = 34 ∧ slice 8 14 pdu = addr_bytes advertiser ∧
  connect_ind_fields (pdu !!! 0%nat) (slice 2 36 pdu) = c.
Proof.
  intros [Hal _] [[Hil _] Haa Hcrc ? Hwo Hiv Hlt Hst Hmap Hhop Hsca] Hr.
  destruct (connect_ind_header_fields initiator advertiser) as [_ Hbit].
  destruct (hop_sca_fields _ _ Hhop Hsca) as (Hh & Hs & _).
  unfold connect_ind_bytes. generalize dependent (connect_ind_header initiator advertiser).
  intros header Hbit.
  destruct c as [cia cir aa crc ws wo iv lt st cmap hop sca]. cbn [ci_initiator_address
    ci_initiator_address_random ci_access_address ci_crc_init ci_window_size ci_window_offset
    ci_interval ci_latency ci_supervision_timeout ci_channel_map ci_hop_increment
    ci_sleep_clock_accuracy] in *.
  apply wf_map_octets in Hmap as (m0&m1&m2&m3&m4&->&_).
  destruct cia as [|i0 [|i1 [|i2 [|i3 [|i4 [|i5 [|]]]]]]]; try done.
  destruct (addr_bytes advertiser) as [|a0 [|a1 [|a2 [|a3 [|a4 [|a5 [|]]]]]]]; try done.
  set (b := Z.lor hop _) in *.
  split_and!; [done|done|done|done|]. unfold connect_ind_fields.
  change (mkConnectInd [i0; i1; i2; i3; i4; i5] (bit_set header 6) (from_le (to_le 4 aa))
    (Z.lor (Z.lor (u8 crc) (Z.shiftl (u8 (Z.shiftr crc 8)) 8)) (Z.shiftl (u8 (Z.shiftr crc 16)) 16))
    ws (from_le (to_le 2 wo)) (from_le (to_le 2 iv)) (from_le (to_le 2 lt)) (from_le (to_le 2 st))
    [m0; m1; m2; m3; m4] (Z.land b 0x1f) (Z.shiftr b 5) =
    mkConnectInd [i0; i1; i2; i3; i4; i5] cir aa crc ws wo iv lt st [m0; m1; m2; m3; m4] hop sca).
  rewrite !from_to_le by done. by rewrite crc_init_bytes, Hh, Hs, Hbit, Hr by done.
Qed.

(** The advertiser address, in the packet and in its payload. *)
Lemma slice_slice_payload {A} (packet : list A) :
  slice 6 12 (slice 2 36 packet) = slice 8 14 packet.
Proof.
  unfold slice. rewrite skipn_firstn_comm, drop_drop, take_take. done.
Qed.

Lemma land_ones_range x n : 0 ≤ n → fits n (Z.land x (Z.ones n)).
Proof. intros. rewrite Z.land_ones by done. by apply wrap_fits. Qed.

Lemma connect_ind_fields_fit h payload :
  bytes_ok payload → length payload = 34%nat → wf_map (slice 28 33 payload) ∧
  connect_ind_fits (connect_ind_fields h payload).
Proof.
  intros Hok Hlen.
  assert (Hb : ∀ i, (i < 34)%nat → is_u8 (payload !!! i)) by
    (intros; apply bytes_ok_lookup; [done|lia]).
  assert (Hmap : wf_map (slice 28 33 payload)).
  { split; [by rewrite length_slice by lia|by apply bytes_ok_slice]. }
  split; [done|]. split; cbn -[lookup_total le16 from_le slice].
  - split; [by rewrite length_slice by lia|by apply bytes_ok_slice].
  - pose proof (from_le_fits (slice 12 16 payload) (bytes_ok_slice _ _ _ Hok)) as H.
    by rewrite length_slice in H by lia.
  - apply lor_fits; [lia|apply lor_fits; [lia|..]|].
    + eapply (fits_mono 8); [lia|]. apply Hb. lia.
    + apply byte_shift_fits; [apply Hb; lia|lia|lia].
    + apply byte_shift_fits; [apply Hb; lia|lia|lia].
  - apply Hb. lia.
  - apply le16_fits; [done|lia].
  - apply le16_fits; [done|lia].
  - apply le16_fits; [done|lia].
  - apply le16_fits; [done|lia].
  - done.
  - apply (land_ones_range _ 5). lia.
  - specialize (Hb 33%nat ltac:(lia)). rewrite Z.shiftr_div_pow2 by lia. int_lia.
Qed.

(** ** Advertising PDUs as bytes *)

Lemma split_at {A} n (l : list A) : (n ≤ length l)%nat →
  ∃ a b, l = a ++ b ∧ length a = n.
Proof.
  intros. exists (take n l), (drop n l). rewrite take_drop, length_take. split; [done|lia].
Qed.

Lemma build_adv_pdu_bytes header address d output :
  address_ok address → ad_ok d → length output = MAX_LEGACY_ADV_PDU_LEN →
  (build_adv_pdu header address d output).1 =
    Ok ([header; Z.of_nat (6 + ad_len d)] ++ addr_bytes address ++ as_bytes d).
Proof.
  intros [Hal _] Hd Hout. pose proof (as_bytes_length d Hd) as Hlen. destruct Hd as [_ Hmax].
  unfold build_adv_pdu, MAX_LEGACY_ADV_PDU_LEN, MAX_LEGACY_ADV_DATA_LEN in *. cbn [fst]. f_equal.
  rewrite wrap_small by (unfold_ints; lia).
  destruct (split_at 2 output) as (h & o1 & -> & Hh); [lia|]. rewrite length_app in Hout.
  destruct (split_at 6 o1) as (a & o2 & -> & Hla); [lia|]. rewrite length_app in Hout.
  destruct (split_at (ad_len d) o2) as (m & r & -> & Hm); [lia|].
  do 3 (destruct h as [|? h]; try done). set (p := [header; Z.of_nat (6 + ad_len d)]).
  change (<[1%nat:=Z.of_nat (6 + ad_len d)]> (<[0%nat:=header]> ([z; z0] ++ a ++ m ++ r)))
    with (p ++ a ++ m ++ r).
  change (splice 2 (addr_bytes address)) with (splice (length p) (addr_bytes address)).
  rewrite splice_at_app by lia.
  rewrite app_assoc. replace 8%nat with (length (p ++ addr_bytes address)) by
    (rewrite length_app; subst p; cbn; lia).
  rewrite splice_at_app by lia. rewrite app_assoc, <- (app_assoc p).
  replace (2 + (6 + ad_len d))%nat with (length (p ++ addr_bytes address ++ as_bytes d)) by
    (rewrite !length_app; subst p; cbn; lia).
  by rewrite take_app_slice.
Qed.

Lemma parse_adv_pdu header ty address d :
  address_ok address → ad_ok d →
  (Z.land header 0x0f = 0 ∧ ty = 0 ∨ Z.land header 0x0f = 4 ∧ ty = 4) →
  bit_set header 6 = is_random address →
  parse_legacy_advertisement
    ([header; Z.of_nat (6 + ad_len d)] ++ addr_bytes address ++ as_bytes d) =
  Ok (mkLegacyAdvertisement ty address (as_bytes d)).
Proof.
  intros [Hal _] Hd Hty Hbit. pose proof (as_bytes_length d Hd) as Hlen.
  destruct Hd as [_ Hmax]. unfold MAX_LEGACY_ADV_DATA_LEN in *.
  unfold parse_legacy_advertisement. rewrite !length_app, Hlen, Hal.
  set (n := ad_len d) in *. set (ds := as_bytes d) in *.
  rewrite (proj2 (Nat.ltb_ge _ _)) by (cbn; lia).
  cbn [app lookup_total list_lookup_total].
  replace (Z.land (Z.of_nat (6 + n)) 0x3f) with (Z.of_nat (6 + n)) by
    (change 0x3f with (Z.ones 6); rewrite Z.land_ones, Z.mod_small by lia; done).
  rewrite Nat2Z.id, (proj2 (Nat.leb_le _ _)), (proj2 (Nat.leb_le (6 + n) 37)) by lia.
  rewrite (proj2 (Nat.eqb_eq _ _)) by (cbn; lia). cbn [negb andb orb].
  destruct address as [ab ak]. cbn [addr_bytes] in *.
  do 7 (destruct ab as [|? ab]; try done). rewrite Hbit.
  destruct Hty as [[-> ->]|[-> ->]]; cbn [Z.eqb Pos.eqb andb mbind result_bind]; f_equal; f_equal.
  all: try (cbn; by destruct ak).
  all: unfold slice; replace (6 + n + 2 - 8)%nat with (length ds) by lia; apply firstn_all.
Qed.

(** ** Properties *)

(** C27: CONNECT_IND round trip: every request the Central side builds is parsed back
    by the addressed Peripheral to exactly the same connection, for any buffer
    contents; the build succeeds exactly when the initiator matches and the access
    address, hop, accuracy, timing and channel map are valid. *)
Theorem connect_ind_roundtrip initiator advertiser c output :
  length output = (2 + CONNECT_IND_PAYLOAD_LEN)%nat → address_ok advertiser →
  connect_ind_fits c →
  match build_connect_ind initiator advertiser c output with
  | (Ok pdu, _) => build_guards initiator c ∧ parse_connect_ind_detailed pdu advertiser = Ok c
  | (Err e, output') => ¬ build_guards initiator c ∧ e = ErrorInvalidPacket ∧ output' = output
  end.
Proof.
  intros Hout Hadv Hfits.
  pose proof (build_connect_ind_guards initiator advertiser c output) as Hg.
  destruct (build_connect_ind initiator advertiser c output) as [[pdu|e] output'] eqn:Hb.
  - assert (build_guards initiator c) as Hok by (by apply Hg). split; [done|].
    rewrite (build_connect_ind_bytes _ _ _ _ _ _ Hout Hadv Hfits Hb).
    destruct Hok as (_ & Hr & Haa & Hhop & _ & Ht & Hm).
    destruct (connect_ind_bytes_fields initiator advertiser c Hadv Hfits Hr)
      as (Hl & H0 & H1 & Ha & Hf). set (p := connect_ind_bytes initiator advertiser c) in *.
    destruct (connect_ind_header_fields initiator advertiser) as [Hop _].
    unfold parse_connect_ind_detailed, CONNECT_IND_PAYLOAD_LEN. cbn zeta.
    change (2 + 34)%nat with 36%nat. rewrite Hf, Hl, H0, H1, Hop. cbn [orb negb Nat.ltb Nat.leb].
    rewrite bool_decide_true, Haa, Ht, Hm by (by rewrite slice_slice_payload).
    cbn. by rewrite !(proj2 (Z.leb_le _ _)) by lia.
  - split; [intros Hok; by apply Hg in Hok|].
    unfold build_connect_ind in Hb. by case_match; simplify_eq.
Qed.

Definition sample_advertiser : DeviceAddress := mkDeviceAddress [1; 2; 3; 4; 5; 0xc6] Random.
Definition sample_initiator : DeviceAddress := mkDeviceAddress [9; 8; 7; 6; 5; 4] Public.
Definition sample_connect_ind : ConnectInd :=
  mkConnectInd [9; 8; 7; 6; 5; 4] false 0xaf9a8ca4 0x123456 2 5 24 0 72
    [0xff; 0xff; 0xff; 0xff; 0x1f] 7 5.

Lemma sample_connect_ind_fits : connect_ind_fits sample_connect_ind.
Proof.
  split; cbn; try (unfold fits; lia); split; try done; solve_forall; unfold fits; lia.
Qed.

Lemma connect_ind_roundtrip_witness :
  parse_connect_ind_detailed
    (connect_ind_bytes sample_initiator sample_advertiser sample_connect_ind) sample_advertiser =
  Ok sample_connect_ind.
Proof.
  assert (Ha : address_ok sample_advertiser)
    by (split; [reflexivity|cbn; solve_forall; unfold fits; lia]).
  exact (proj2 (connect_ind_roundtrip sample_initiator sample_advertiser sample_connect_ind
    (replicate 36 0xaa) eq_refl Ha sample_connect_ind_fits)).
Defined.

(** What an accepted CONNECT_IND satisfies. *)
Lemma parse_connect_ind_inv packet address c :
  bytes_ok packet → parse_connect_ind_detailed packet address = Ok c →
  (36 ≤ length packet)%nat ∧ Z.land (packet !!! 0%nat) 0x0f = 0x05 ∧
  Z.land (packet !!! 1%nat) 0x3f = 34 ∧ slice 8 14 packet = addr_bytes address ∧
  connect_ind_fits c ∧ access_address_spec (ci_access_address c) false ∧
  5 ≤ ci_hop_increment c ≤ 16 ∧
  timing_spec (ci_window_size c) (ci_window_offset c) (ci_interval c) (ci_latency c)
    (ci_supervision_timeout c) ∧
  (∀ ch, 37 ≤ ch < 40 → channel_enabled (ci_channel_map c) ch = false) ∧
  (2 ≤ length (enabled_channels (ci_channel_map c)))%nat.
Proof.
  intros Hok. unfold parse_connect_ind_detailed, CONNECT_IND_PAYLOAD_LEN.
  change (2 + 34)%nat with 36%nat. change (Z.of_nat 34) with 34.
  destruct ((length packet <? 36)%nat || _) eqn:H0; [done|].
  apply orb_false_iff in H0 as [Hlen%Nat.ltb_ge Hop%negb_false_iff%Z.eqb_eq].
  destruct (negb (_ =? 34)) eqn:H1; [done|]. apply negb_false_iff, Z.eqb_eq in H1.
  rewrite slice_slice_payload. case_bool_decide as Ha; [|done]. cbn [negb].
  destruct (connect_ind_fields_fit (packet !!! 0%nat) (slice 2 36 packet)) as [Hwf Hfits];
    [by apply bytes_ok_slice|by rewrite length_slice by lia|].
  set (c0 := connect_ind_fields _ _) in *.
  destruct (data_access_address_is_valid _ _) eqn:Haa; [|done].
  destruct (_ && _) eqn:Hhop; [|done]. apply andb_true_iff in Hhop as [Hh1 Hh2].
  destruct (ci_timing_is_valid c0) eqn:Ht; [|done].
  destruct (data_channel_map_is_valid _) eqn:Hm; [|done]. intros [= <-].
  apply data_channel_map_valid_spec in Hm as [Hm1 Hm2]; [|apply Hfits].
  apply connection_timing_iff in Ht; [|apply Hfits..].
  apply data_access_address_iff in Haa; [|apply Hfits].
  apply Z.leb_le in Hh1, Hh2. split_and!; done.
Qed.

(** C26: Nothing invalid enters a connection: whatever bytes are received, an accepted
    CONNECT_IND has the right opcode and length, is addressed to this advertiser, and
    its access address, hop increment, timing and channel map satisfy the Core rules,
    with every field within its width. *)
Theorem connect_ind_parse_sound packet address c :
  bytes_ok packet → parse_connect_ind_detailed packet address = Ok c →
  (36 ≤ length packet)%nat ∧ Z.land (packet !!! 0%nat) 0x0f = 0x05 ∧
  Z.land (packet !!! 1%nat) 0x3f = 34 ∧ slice 8 14 packet = addr_bytes address ∧
  connect_ind_fits c ∧ access_address_spec (ci_access_address c) false ∧
  5 ≤ ci_hop_increment c ≤ 16 ∧
  timing_spec (ci_window_size c) (ci_window_offset c) (ci_interval c) (ci_latency c)
    (ci_supervision_timeout c) ∧
  (∀ ch, 37 ≤ ch < 40 → channel_enabled (ci_channel_map c) ch = false) ∧
  (2 ≤ length (enabled_channels (ci_channel_map c)))%nat.
Proof. apply parse_connect_ind_inv. Qed.

Lemma connect_ind_parse_sound_witness :
  timing_spec 2 5 24 0 72 ∧ access_address_spec 0xaf9a8ca4 false.
Proof.
  assert (Hok : bytes_ok (connect_ind_bytes sample_initiator sample_advertiser sample_connect_ind))
    by (vm_compute; repeat constructor; discriminate).
  pose proof (connect_ind_parse_sound _ sample_advertiser sample_connect_ind Hok eq_refl) as H.
  destruct H as (_ & _ & _ & _ & _ & Haa & _ & Ht & _). split; assumption.
Defined.

(** [AdvertisingData::push] appends exactly one length-type-value field and keeps
    the buffer well formed, or leaves the data alone when the field does not fit in
    the 31 octets: it never truncates and never overflows. *)
Theorem advertising_data_push d t v :
  ad_ok d →
  match ad_push d t v with
  | Ok d' => ad_ok d' ∧ as_bytes d' = as_bytes d ++ [Z.of_nat (length v) + 1; t] ++ v
  | Err e => e = ErrorInvalidPacket ∧ (31 < ad_len d + length v + 2)%nat
  end.
Proof. apply ad_push_spec. Qed.

Lemma advertising_data_push_witness :
  match ad_push ad_new 0x01 [0x06] with Ok d => as_bytes d = [2; 1; 6] | Err _ => False end.
Proof.
  pose proof (advertising_data_push ad_new 0x01 [0x06] (proj1 ad_new_ok)) as H.
  destruct (ad_push ad_new 0x01 [0x06]) as [d|e].
  - exact (proj2 H).
  - destruct H as [_ H]. vm_compute in H. exfalso. lia.
Defined.

(** Advertising PDUs round trip: what [build_adv_ind] and [build_scan_rsp] put on
    air for well-formed data is parsed as an ADV_IND respectively a SCAN_RSP from the
    same address, kind included, carrying exactly the same data octets. *)
Theorem advertising_pdu_roundtrip address d output :
  address_ok address → ad_ok d → length output = MAX_LEGACY_ADV_PDU_LEN →
  (pdu ← (build_adv_ind address d output).1; parse_legacy_advertisement pdu) =
    Ok (mkLegacyAdvertisement 0 address (as_bytes d)) ∧
  (pdu ← (build_scan_rsp address d output).1; parse_legacy_advertisement pdu) =
    Ok (mkLegacyAdvertisement 4 address (as_bytes d)).
Proof.
  intros Ha Hd Hout. unfold build_adv_ind, build_scan_rsp.
  split; rewrite build_adv_pdu_bytes by done; cbn [fst mbind result_bind];
    apply parse_adv_pdu; try done; destruct address as [? []]; ((by left) || (by right) || done).
Qed.

Lemma advertising_pdu_roundtrip_witness :
  (pdu ← (build_adv_ind sample_advertiser ad_new (replicate 39 0)).1;
   parse_legacy_advertisement pdu) = Ok (mkLegacyAdvertisement 0 sample_advertiser []).
Proof.
  refine (proj1 (advertising_pdu_roundtrip sample_advertiser ad_new (replicate 39 0) _ _ eq_refl)).
  - split; [reflexivity|cbn; solve_forall; unfold fits; lia].
  - exact (proj1 ad_new_ok).
Defined.
