(* ===== verification/Hci.v ===== *)
(** * HCI capability checks and RF calibration

    Models [crates/ble-controller/src/hci.rs] (advertising parameters, event
    masks) and [crates/ble-controller/src/rf_calibration.rs] (the packed
    interpolation table). *)

From S2P Require Import Prelude.

(** ** Host-facing constants *)

(*! crates/ble-controller/src/hci.rs 5-5 LE_FEATURES *)
Definition LE_FEATURES : list Z := [0x06; 0; 0; 0; 0; 0; 0; 0].
(*! crates/ble-controller/src/hci.rs 6-6 ACL_PAYLOAD_LEN *)
Definition ACL_PAYLOAD_LEN : nat := 27.
(*! crates/ble-controller/src/hci.rs 7-7 ACL_CREDITS *)
Definition ACL_CREDITS : Z := 5.

(** ** Advertising parameters *)

(*! crates/ble-controller/src/hci.rs 10-14 AdvertisingParameters *)
Record AdvertisingParameters : Type := mkAdvertisingParameters {
  ap_interval_us : Z;
  ap_channels : list bool;
}.

(*! crates/ble-controller/src/hci.rs 19-44 AdvertisingParameters::parse *)
Definition adv_parameters_parse (params : list Z) : option AdvertisingParameters :=
  if negb (length params =? 15)%nat then None
  else
    let min := from_le [params !!! 0%nat; params !!! 1%nat] in
    let max := from_le [params !!! 2%nat; params !!! 3%nat] in
    let map := params !!! 13%nat in
    if negb ((0x20 <=? min) && (min <=? 0x4000)) || negb ((min <=? max) && (max <=? 0x4000))
       || negb (params !!! 4%nat =? 0) || negb (params !!! 5%nat =? 1)
       || (1 <? params !!! 6%nat) || (map =? 0)
       || negb (Z.land map (Z.lxor 0xff 7) =? 0) || negb (params !!! 14%nat =? 0)
    then None
    else Some (mkAdvertisingParameters (min * 625)
      [negb (Z.land map 1 =? 0); negb (Z.land map 2 =? 0); negb (Z.land map 4 =? 0)]).

(** ** Event masks *)

(*! crates/ble-controller/src/hci.rs 49-62 event_enabled *)
Definition event_enabled (mask le_mask code : Z) (params : list Z) : bool :=
  if (code =? 0x0e) || (code =? 0x0f) || (code =? 0x13) then true
  else if (code =? 0) || (64 <? code)
          || (Z.land mask (u64 (Z.shiftl 1 (code - 1))) =? 0) then false
  else if code =? 0x3e then
    match params with
    | subevent :: _ =>
        negb (subevent =? 0) && (subevent <=? 64)
        && negb (Z.land le_mask (u64 (Z.shiftl 1 (subevent - 1))) =? 0)
    | [] => false
    end
  else true.

(** ** RF calibration *)

(*! crates/ble-controller/src/rf_calibration.rs 8-8 TABLE_WORDS *)
Definition TABLE_WORDS : nat := 13.

(*! crates/ble-controller/src/rf_calibration.rs 10-14 Measurement *)
Record Measurement : Type := mkMeasurement { ms_co : Z; ms_ga : Z }.

(*! crates/ble-controller/src/rf_calibration.rs 16-19 Error *)
Inductive CalibrationError : Type := DegenerateCoarseRange.

(** [slot] stays below [TABLE_WORDS * 8] ([debug_assert!]). *)
(*! crates/ble-controller/src/rf_calibration.rs 63-67 put_nibble *)
Definition put_nibble (table : list Z) (slot : nat) (value : Z) : list Z :=
  let shift := Z.of_nat ((slot mod 8) * 4) in
  <[(slot / 8)%nat :=
      Z.lor (table !!! (slot / 8)%nat) (u32 (Z.shiftl (Z.land (u32 value) 0x0f) shift))]> table.

(** The four loops, as the sequence of [put_nibble] calls; [i32] division
    truncates towards zero. *)
(*! crates/ble-controller/src/rf_calibration.rs 36-58 build_table *)
Definition table_writes (low_co_delta high_co_delta low_ga_delta high_ga_delta : Z)
  : list (nat * Z) :=
  ((λ slot, (slot, Z.quot (low_co_delta * (39 - Z.of_nat slot)) 39)) <$> seq 0 40) ++
  ((λ step, ((39 + step)%nat, Z.quot (high_co_delta * Z.of_nat step) 40)) <$> seq 1 42) ++
  ((λ step, ((82 + (10 - step))%nat,
             Z.lor (Z.quot (high_ga_delta * Z.of_nat step) high_co_delta) 0x08))
     <$> rev (seq 1 10)) ++
  ((λ step, ((92 + step)%nat, Z.quot (low_ga_delta * Z.of_nat step) low_co_delta))
     <$> seq 0 11).

Definition write_all (table : list Z) (writes : list (nat * Z)) : list Z :=
  foldl (λ table '(slot, value), put_nibble table slot value) table writes.

(*! crates/ble-controller/src/rf_calibration.rs 21-61 build_table *)
Definition build_table (mhz_2401 mhz_2440 mhz_2480 : Measurement)
  : result CalibrationError (list Z) :=
  let low_co_delta := ms_co mhz_2401 - ms_co mhz_2440 in
  let high_co_delta := ms_co mhz_2440 - ms_co mhz_2480 in
  if (low_co_delta =? 0) || (high_co_delta =? 0) then Err DegenerateCoarseRange
  else
    let low_ga_delta := ms_ga mhz_2401 - ms_ga mhz_2440 in
    let high_ga_delta := ms_ga mhz_2440 - ms_ga mhz_2480 in
    Ok (write_all (replicate TABLE_WORDS 0)
          (table_writes low_co_delta high_co_delta low_ga_delta high_ga_delta)).

(** ** Bit tests *)

Lemma land_bit mask n : 0 ≤ n < 64 →
  negb (Z.land mask (u64 (Z.shiftl 1 n)) =? 0) = Z.testbit mask n.
Proof.
  intros Hn. rewrite wrap_small.
  2: { rewrite Z.shiftl_1_l. unfold fits. pose proof (Z.pow_lt_mono_r 2 n 64). lia. }
  rewrite Z.shiftl_1_l. destruct (Z.testbit mask n) eqn:Hb.
  - apply negb_true_iff, Z.eqb_neq. intros Hz.
    assert (Z.testbit (Z.land mask (2 ^ n)) n = false) as Hf by (by rewrite Hz, Z.bits_0).
    rewrite Z.land_spec, Hb, Z.pow2_bits_true in Hf by lia. done.
  - apply negb_false_iff, Z.eqb_eq, Z.bits_inj'. intros i Hi.
    rewrite Z.land_spec, Z.bits_0. destruct (decide (i = n)) as [->|Hne]; [by rewrite Hb|].
    by rewrite Z.pow2_bits_false, andb_false_r by lia.
Qed.

(** ** The calibration table *)

(** The four-bit entry of a slot. *)
Definition nibble (table : list Z) (slot : nat) : Z :=
  Z.land (Z.shiftr (table !!! (slot / 8)%nat) (Z.of_nat ((slot mod 8) * 4))) 0x0f.

Definition table_ok (table : list Z) : Prop := length table = TABLE_WORDS ∧ Forall is_u32 table.

Lemma put_nibble_word value k : (k < 8)%nat →
  fits 32 (Z.shiftl (Z.land (u32 value) 0x0f) (Z.of_nat (k * 4))).
Proof.
  intros Hk. change 0x0f with (Z.ones 4). rewrite Z.land_ones by lia.
  eapply (fits_mono (4 + Z.of_nat (k * 4))); [lia|].
  apply shiftl_fits; [lia|]. by apply wrap_fits.
Qed.

Lemma put_nibble_ok table slot value :
  (slot < 104)%nat → table_ok table → table_ok (put_nibble table slot value).
Proof.
  intros Hs [Hlen Hok]. unfold put_nibble. split; [by rewrite length_insert|].
  apply Forall_insert; [done|]. pose proof (Nat.mod_upper_bound slot 8 ltac:(lia)).
  assert (slot / 8 < 13)%nat by (apply Nat.Div0.div_lt_upper_bound; lia).
  apply lor_fits; [lia| |by apply wrap_fits].
  eapply Forall_lookup_1; [exact Hok|]. apply list_lookup_lookup_total_lt.
  by rewrite Hlen.
Qed.

Lemma nibble_put_eq table slot value :
  (slot < 104)%nat → table_ok table → nibble table slot = 0 →
  nibble (put_nibble table slot value) slot = value mod 16.
Proof.
  intros Hs [Hlen Hok] Hz. unfold nibble, put_nibble in *.
  pose proof (Nat.mod_upper_bound slot 8 ltac:(lia)) as Hk.
  assert (slot / 8 < 13)%nat by (apply Nat.Div0.div_lt_upper_bound; lia).
  rewrite list_lookup_total_insert_eq by (by rewrite Hlen).
  set (k := (slot mod 8)%nat) in *. rewrite wrap_small by (by apply put_nibble_word).
  rewrite Z.shiftr_lor, Z.shiftr_shiftl_l, Z.sub_diag, Z.shiftl_0_r, Z.land_lor_distr_l, Hz by lia.
  rewrite Z.lor_0_l, <- Z.land_assoc, Z.land_diag. change 0x0f with (Z.ones 4).
  rewrite Z.land_ones by lia. unfold wrap. change (2 ^ 4) with 16.
  apply Z.mod_mod_divide. by exists (2 ^ 28).
Qed.

Lemma nibble_put_ne table slot slot' value :
  (slot < 104)%nat → (slot' < 104)%nat → slot ≠ slot' → table_ok table →
  nibble (put_nibble table slot value) slot' = nibble table slot'.
Proof.
  intros Hs Hs' Hne [Hlen Hok]. unfold nibble, put_nibble.
  pose proof (Nat.mod_upper_bound slot 8 ltac:(lia)) as Hk.
  pose proof (Nat.mod_upper_bound slot' 8 ltac:(lia)) as Hk'.
  assert (slot / 8 < 13)%nat by (apply Nat.Div0.div_lt_upper_bound; lia).
  destruct (decide (slot / 8 = slot' / 8)%nat) as [Heq|Hdiff].
  - rewrite <- Heq, list_lookup_total_insert_eq by (by rewrite Hlen).
    pose proof (Nat.div_mod_eq slot 8). pose proof (Nat.div_mod_eq slot' 8).
    rewrite wrap_small by (by apply put_nibble_word).
    apply Z.bits_inj'. intros i Hi. rewrite !Z.land_spec.
    destruct (Z.lt_ge_cases i 4).
    2: { rewrite (testbit_high 4 0x0f i) by (unfold fits; lia). by rewrite !andb_false_r. }
    f_equal. rewrite !Z.shiftr_spec, Z.lor_spec by lia.
    rewrite Z.shiftl_spec by lia.
    assert (Z.testbit (Z.land (u32 value) 15)
      (i + Z.of_nat (slot' mod 8 * 4) - Z.of_nat (slot mod 8 * 4)) = false) as ->;
      [|by rewrite orb_false_r].
    destruct (Z.lt_ge_cases (i + Z.of_nat (slot' mod 8 * 4) - Z.of_nat (slot mod 8 * 4)) 0).
    { by apply Z.testbit_neg_r. }
    apply (testbit_high 4); [|nia].
    change 15 with (Z.ones 4). rewrite Z.land_ones by lia. by apply wrap_fits.
  - by rewrite list_lookup_total_insert_ne.
Qed.

Lemma write_all_spec writes table :
  table_ok table → NoDup writes.*1 → Forall (λ w, (w.1 < 104)%nat ∧ nibble table w.1 = 0) writes →
  table_ok (write_all table writes) ∧
  (∀ slot value, (slot, value) ∈ writes → nibble (write_all table writes) slot = value mod 16) ∧
  (∀ slot, (slot < 104)%nat → slot ∉ writes.*1 →
     nibble (write_all table writes) slot = nibble table slot).
Proof.
  revert table. induction writes as [|[s v] writes IH]; intros table Hok Hnd Hz;
    cbn [write_all foldl fmap list_fmap fst] in *.
  { split_and!; [done|by intros ? ? ?%elem_of_nil|done]. }
  apply list.NoDup_cons in Hnd as [Hnin Hnd]. apply Forall_cons_1 in Hz as [[Hs Hv] Hz].
  assert (Hok' : table_ok (put_nibble table s v)) by (by apply put_nibble_ok).
  destruct (IH (put_nibble table s v) Hok' Hnd) as (H1 & H2 & H3).
  { rewrite list.Forall_forall in *. intros [s' v'] Hin. destruct (Hz _ Hin) as [Hs' Hz'].
    split; [done|]. cbn [fst] in *. rewrite nibble_put_ne; [done|done|done| |done].
    intros <-. apply Hnin, list_elem_of_fmap. by exists (s, v'). }
  split_and!; [done| |].
  - intros s' v' [[= -> ->]|Hin]%elem_of_cons; [|by apply H2].
    rewrite H3 by done. by apply nibble_put_eq.
  - intros s' Hs' Hnin'. apply not_elem_of_cons in Hnin' as [Hne Hnin'].
    rewrite H3 by done. by apply nibble_put_ne.
Qed.

Lemma table_slots a b c d : (table_writes a b c d).*1 = seq 0 103.
Proof. reflexivity. Qed.

(** ** Properties *)

(** The calibration table is exactly the interpolation: it is refused only for a
    zero coarse range; otherwise it has thirteen 32-bit words, every one of the 103
    corrections sits in its own four-bit entry (no write disturbs another), and the
    last entry stays zero. *)
Theorem calibration_table_entries m1 m2 m3 :
  match build_table m1 m2 m3 with
  | Err _ => ms_co m1 = ms_co m2 ∨ ms_co m2 = ms_co m3
  | Ok table =>
      let lo := ms_co m1 - ms_co m2 in let hi := ms_co m2 - ms_co m3 in
      let lg := ms_ga m1 - ms_ga m2 in let hg := ms_ga m2 - ms_ga m3 in
      table_ok table ∧ nibble table 103 = 0 ∧
      (∀ k, (k < 40)%nat → nibble table k = Z.quot (lo * (39 - Z.of_nat k)) 39 mod 16) ∧
      (∀ k, (1 ≤ k ≤ 42)%nat → nibble table (39 + k) = Z.quot (hi * Z.of_nat k) 40 mod 16) ∧
      (∀ k, (1 ≤ k ≤ 10)%nat →
         nibble table (92 - k) = Z.lor (Z.quot (hg * Z.of_nat k) hi) 0x08 mod 16) ∧
      (∀ k, (k ≤ 10)%nat → nibble table (92 + k) = Z.quot (lg * Z.of_nat k) lo mod 16)
  end.
Proof.
  unfold build_table. cbn zeta.
  destruct (Z.eqb_spec (ms_co m1 - ms_co m2) 0), (Z.eqb_spec (ms_co m2 - ms_co m3) 0);
    cbn [orb]; try lia.
  set (ws := table_writes _ _ _ _).
  assert (Hslots : ws.*1 = seq 0 103) by apply table_slots.
  assert (H0 : table_ok (replicate TABLE_WORDS 0)) by
    (split; [done|unfold fits; repeat constructor; lia]).
  destruct (write_all_spec ws (replicate TABLE_WORDS 0) H0) as (H1 & H2 & H3).
  { rewrite Hslots. apply NoDup_seq. }
  { apply list.Forall_forall. intros [s v] Hin.
    assert (Hs : s ∈ seq 0 103) by (rewrite <- Hslots; apply list_elem_of_fmap; by exists (s, v)).
    apply elem_of_seq in Hs. cbn [fst]. split; [lia|]. unfold nibble.
    rewrite lookup_total_replicate_2; [by rewrite Z.shiftr_0_l|].
    apply Nat.Div0.div_lt_upper_bound. cbn. lia. }
  split_and!; [done| | | | |].
  - rewrite H3; [done|lia|]. rewrite Hslots, elem_of_seq. lia.
  - intros k Hk. apply H2. unfold ws, table_writes. apply elem_of_app. left.
    apply list_elem_of_fmap. exists k. rewrite elem_of_seq. split; [done|lia].
  - intros k Hk. apply H2. unfold ws, table_writes. rewrite !elem_of_app. right. left.
    apply list_elem_of_fmap. exists k. rewrite elem_of_seq. split; [done|lia].
  - intros k Hk. apply H2. unfold ws, table_writes. rewrite !elem_of_app. right. right. left.
    apply list_elem_of_fmap. exists k. split; [f_equal; lia|].
    apply list_elem_of_In, in_rev. rewrite rev_involutive.
    apply list_elem_of_In, elem_of_seq. lia.
  - intros k Hk. apply H2. unfold ws, table_writes. rewrite !elem_of_app. right. right. right.
    apply list_elem_of_fmap. exists k. rewrite elem_of_seq. split; [done|lia].
Qed.

(** Event masking: credit, command-complete and command-status events bypass both
    masks (a Host cannot deadlock its own pipeline); every other event is delivered
    exactly when its bit in the event mask is set and, for an LE Meta event, the bit
    of its subevent in the LE mask is set as well. *)
Theorem event_enabled_spec mask le_mask code params :
  is_u8 code → bytes_ok params →
  event_enabled mask le_mask code params = true ↔
    (code = 0x0e ∨ code = 0x0f ∨ code = 0x13) ∨
    (1 ≤ code ≤ 64 ∧ Z.testbit mask (code - 1) = true ∧
     (code = 0x3e → ∃ s rest, params = s :: rest ∧ 1 ≤ s ≤ 64 ∧
        Z.testbit le_mask (s - 1) = true)).
Proof.
  intros Hc Hp. unfold event_enabled.
  destruct (Z.eqb_spec code 0x0e); [naive_solver|].
  destruct (Z.eqb_spec code 0x0f); [naive_solver|].
  destruct (Z.eqb_spec code 0x13); [naive_solver|]. cbn [orb].
  destruct (Z.eqb_spec code 0); [split; [done|lia]|].
  destruct (Z.ltb_spec 64 code); [split; [done|lia]|]. cbn [orb].
  rewrite <- (negb_involutive (Z.land mask _ =? 0)), land_bit by (unfold_ints; lia).
  destruct (Z.testbit mask (code - 1)) eqn:Hb; cbn [negb]; [|naive_solver].
  destruct (Z.eqb_spec code 0x3e) as [->|].
  2: { split; [intros _; right; split_and!; [unfold_ints; lia|unfold_ints; lia|done|done]|done]. }
  destruct params as [|s rest]; [split; [done|naive_solver]|].
  apply Forall_cons_1 in Hp as [Hs _].
  destruct (Z.eqb_spec s 0), (Z.leb_spec s 64); cbn [negb andb];
    try (split; [done|intros [?|(_&_&H')]; [lia|]; destruct (H' eq_refl) as (?&?&[= -> ->]&?&_); lia]).
  rewrite land_bit by (unfold_ints; lia). split.
  - intros Ht. right. split_and!; [lia|lia|done|]. intros _. exists s, rest.
    split_and!; [done|unfold_ints; lia|lia|done].
  - intros [?|(_&_&H')]; [lia|]. by destruct (H' eq_refl) as (?&?&[= <- <-]&_&?).
Qed.

Lemma event_enabled_spec_witness : event_enabled 0x2000000000000000 0x1f 0x3e [0x03; 0] = true.
Proof.
  apply (event_enabled_spec 0x2000000000000000 0x1f 0x3e [0x03; 0]).
  - unfold fits; lia.
  - solve_forall; unfold fits; lia.
  - right. split; [lia|]. split; [reflexivity|]. intros _. exists 3, [0].
    split; [reflexivity|]. split; [lia|reflexivity].
Defined.

(** Only legal advertising parameters are accepted: intervals in 20 ms .. 10.24 s
    with minimum not above maximum, connectable undirected advertising from a random
    address without filter list, and a channel map that enables exactly the primary
    channels named, at least one of them. *)
Theorem adv_parameters_parse_spec params p :
  bytes_ok params → adv_parameters_parse params = Some p →
  length params = 15%nat ∧ 20000 ≤ ap_interval_us p ≤ 10240000 ∧
  ap_interval_us p ≤ 625 * from_le [params !!! 2%nat; params !!! 3%nat] ∧
  params !!! 4%nat = 0 ∧ params !!! 5%nat = 1 ∧ params !!! 6%nat ≤ 1 ∧ params !!! 14%nat = 0 ∧
  ap_channels p = Z.testbit (params !!! 13%nat) <$> [0; 1; 2] ∧ true ∈ ap_channels p ∧
  1 ≤ params !!! 13%nat ≤ 7.
Proof.
  intros Hok. unfold adv_parameters_parse.
  destruct (Nat.eqb_spec (length params) 15) as [Hlen|]; [|done]. cbn [negb].
  set (min := from_le _). set (max := from_le _). cbn zeta.
  case_match eqn:Hg; [done|]. intros [= <-]. cbn [ap_interval_us ap_channels]. bool_to_prop.
  assert (Hm : is_u8 (params !!! 13%nat)) by (apply bytes_ok_lookup; [done|lia]).
  assert (Hall : ∀ m, is_u8 m → (m =? 0) = false → (Z.land m (Z.lxor 0xff 7) =? 0) = true →
    [negb (Z.land m 1 =? 0); negb (Z.land m 2 =? 0); negb (Z.land m 4 =? 0)] =
      (Z.testbit m <$> [0; 1; 2]) ∧ true ∈ (Z.testbit m <$> [0; 1; 2]) ∧ 1 ≤ m ≤ 7).
  { intros m Hm8 Hz Htop.
    assert (Hlt : m < 8).
    { change (Z.lxor 0xff 7) with 0xf8 in Htop. apply Z.eqb_eq in Htop.
      apply Z.nle_gt. intros Hge.
      pose proof (forall_u8 (λ m, if m <? 8 then true else negb (Z.land m 0xf8 =? 0))
        eq_refl m Hm8) as Hbit. cbn beta in Hbit.
      rewrite (proj2 (Z.ltb_ge m 8)), Htop in Hbit by done. done. }
    apply Z.eqb_neq in Hz. unfold fits in Hm8.
    assert (m = 1 ∨ m = 2 ∨ m = 3 ∨ m = 4 ∨ m = 5 ∨ m = 6 ∨ m = 7) as Hc by lia.
    repeat destruct Hc as [->|Hc]; try subst m; (split; [done|]); (split; [cbn; set_solver|lia]). }
  destruct (Hall _ Hm) as (Hmap & Hany & Hrange); [done|done|].
  rewrite Hmap. split_and!; try done; try lia.
Qed.

Lemma adv_parameters_parse_spec_witness :
  20000 ≤ ap_interval_us (mkAdvertisingParameters 20000 [true; false; true]) ≤ 10240000.
Proof.
  refine (proj1 (proj2 (adv_parameters_parse_spec
    [0x20; 0; 0x40; 0; 0; 1; 0; 0; 0; 0; 0; 0; 0; 5; 0] _ _ eq_refl))).
  solve_forall; unfold fits; lia.
Defined.
