(* ===== verification/Controller.v ===== *)
(** * The in-process HCI boundary

    Models [crates/ch58x-ble/src/controller.rs]: the packet buffer, the event
    masks and the framing of every packet sent to the Host.  What a body sends
    towards the Host is a log, in order; [Firmware] moves it through the bounded
    channel of [Channels].  The [bt_hci] serializers are arguments of
    [transport_read] and [transport_write]. *)

From S2P Require Import Prelude Hci.

(** The packet kinds of [bt_hci] that the source names, and any other. *)
Inductive PacketKind : Type := Cmd | AclData | Event | OtherKind.
#[export] Instance PacketKind_eq_dec : EqDecision PacketKind.
Proof. solve_decision. Defined.

(*! crates/ch58x-ble/src/controller.rs 28-28 HCI_PACKET_CAPACITY *)
Definition HCI_PACKET_CAPACITY : nat := 64.

(*! crates/ch58x-ble/src/controller.rs 30-35 Packet *)
Record Packet : Type := mkPacket {
  pk_kind : PacketKind;
  pk_len : nat;
  pk_bytes : list Z;
}.
#[export] Instance Packet_eta : Eta Packet := λ p,
  mkPacket (pk_kind p) (pk_len p) (pk_bytes p).
#[export] Instance Packet_eq_dec : EqDecision Packet.
Proof. solve_decision. Defined.

(*! crates/ch58x-ble/src/controller.rs 67-71 Error *)
Inductive TransportError : Type := PacketTooLarge | MalformedPacket.

(** [ErrorKind] of [embedded_io], the kinds the source uses. *)
Inductive ErrorKind : Type := OutOfMemory | InvalidData.

(*! crates/ch58x-ble/src/controller.rs 85-90 Error::kind *)
Definition error_kind (e : TransportError) : ErrorKind :=
  match e with PacketTooLarge => OutOfMemory | MalformedPacket => InvalidData end.
#[export] Instance TransportError_eq_dec : EqDecision TransportError.
Proof. solve_decision. Defined.

(*! crates/ch58x-ble/src/controller.rs 38-44 Packet::empty *)
Definition packet_empty (kind : PacketKind) : Packet :=
  mkPacket kind 0 (replicate HCI_PACKET_CAPACITY 0).

(*! crates/ch58x-ble/src/controller.rs 46-54 Packet::from_bytes *)
Definition packet_from_bytes (kind : PacketKind) (data : list Z)
  : result TransportError Packet :=
  if (HCI_PACKET_CAPACITY <? length data)%nat then Err PacketTooLarge
  else
    let packet := packet_empty kind in
    Ok (packet <| pk_bytes := splice 0 data (pk_bytes packet) |> <| pk_len := length data |>).

(** [&packet.bytes[..packet.len]], what a receiver of the packet sees. *)
Definition contents (p : Packet) : list Z := take (pk_len p) (pk_bytes p).

(** The statics of the module: the two event masks and the Host queue. *)
Record Transport : Type := mkTransport {
  tr_event_mask : Z;
  tr_le_event_mask : Z;
  tr_to_host : list Packet;
}.
#[export] Instance Transport_eta : Eta Transport := λ t,
  mkTransport (tr_event_mask t) (tr_le_event_mask t) (tr_to_host t).

(*! crates/ch58x-ble/src/controller.rs 10-11 EVENT_MASK, LE_EVENT_MASK *)
Definition transport_init : Transport := mkTransport U64_MAX 0x1f [].

(*! crates/ch58x-ble/src/controller.rs 12-14 set_event_mask *)
Definition set_event_mask (mask : Z) (t : Transport) : Transport := t <| tr_event_mask := mask |>.

(*! crates/ch58x-ble/src/controller.rs 15-17 set_le_event_mask *)
Definition set_le_event_mask (mask : Z) (t : Transport) : Transport :=
  t <| tr_le_event_mask := mask |>.

(*! crates/ch58x-ble/src/controller.rs 177-179 send_controller_packet *)
Definition send_controller_packet (packet : Packet) (t : Transport) : Transport :=
  t <| tr_to_host := tr_to_host t ++ [packet] |>.

(*! crates/ch58x-ble/src/controller.rs 181-200 event *)
Definition event (event_code : Z) (parameters : list Z) (t : Transport)
  : result TransportError Transport :=
  if (HCI_PACKET_CAPACITY - 2 <? length parameters)%nat then Err PacketTooLarge
  else if negb (event_enabled (tr_event_mask t) (tr_le_event_mask t) event_code parameters)
  then Ok t
  else
    let packet := packet_empty Event in
    let bytes := <[0%nat := event_code]> (pk_bytes packet) in
    let bytes := <[1%nat := u8 (Z.of_nat (length parameters))]> bytes in
    let bytes := splice 2 parameters bytes in
    Ok (send_controller_packet
          (packet <| pk_bytes := bytes |> <| pk_len := (2 + length parameters)%nat |>) t).

(** [None] is a panic: the copy of [return_data] into the buffer, or the
    [unwrap] of [Packet::from_bytes]. *)
(*! crates/ch58x-ble/src/controller.rs 202-215 command_complete *)
Definition command_complete (opcode status : Z) (return_data : list Z) (t : Transport)
  : option Transport :=
  let parameter_len := (4 + length return_data)%nat in
  if (HCI_PACKET_CAPACITY <? 6 + length return_data)%nat then None
  else
    let bytes := replicate HCI_PACKET_CAPACITY 0 in
    let bytes := <[0%nat := 0x0e]> bytes in
    let bytes := <[1%nat := u8 (Z.of_nat parameter_len)]> bytes in
    let bytes := <[2%nat := 1]> bytes in
    let bytes := splice 3 (to_le 2 opcode) bytes in
    let bytes := <[5%nat := status]> bytes in
    let bytes := splice 6 return_data bytes in
    match packet_from_bytes Event (take (6 + length return_data) bytes) with
    | Ok packet => Some (send_controller_packet packet t)
    | Err _ => None
    end.

(*! crates/ch58x-ble/src/controller.rs 217-226 command_status *)
Definition command_status (opcode status : Z) (t : Transport) : option Transport :=
  match packet_from_bytes Event
          [0x0f; 0x04; status; 0x01; u8 opcode; u8 (Z.shiftr opcode 8)] with
  | Ok packet => Some (send_controller_packet packet t)
  | Err _ => None
  end.

(*! crates/ch58x-ble/src/controller.rs 228-241 send_acl *)
Definition send_acl (handle_and_flags : Z) (payload : list Z) (t : Transport)
  : result TransportError Transport :=
  let packet := packet_empty AclData in
  let len := length payload in
  if (length (pk_bytes packet) <? len + 4)%nat then Err PacketTooLarge
  else
    let bytes := splice 0 (to_le 2 handle_and_flags) (pk_bytes packet) in
    let bytes := splice 2 (to_le 2 (u16 (Z.of_nat len))) bytes in
    let bytes := splice 4 payload bytes in
    Ok (send_controller_packet
          (packet <| pk_bytes := bytes |> <| pk_len := (len + 4)%nat |>) t).

(** [let _ = ...]: an error leaves the queue as it is. *)
Definition ignore_error (t : Transport) (r : result TransportError Transport) : Transport :=
  match r with Ok t => t | Err _ => t end.

(*! crates/ch58x-ble/src/controller.rs 243-249 completed_acl *)
Definition completed_acl (handle count : Z) (t : Transport) : Transport :=
  let params := replicate 5 0 in
  let params := <[0%nat := 1]> params in
  let params := splice 1 (to_le 2 handle) params in
  let params := splice 3 (to_le 2 count) params in
  ignore_error t (event 0x13 params t).

(** ** The Host side of the transport

    [read_hci kind bytes] decodes one packet and returns the bytes it leaves,
    [write_hci] the bytes a value serializes to, within its [size]. *)
Section transport.
  Context {P : Type}.
  Context (read_hci : PacketKind → list Z → option (P * list Z)).

  (*! crates/ch58x-ble/src/controller.rs 122-134 HciTransport::read *)
Definition transport_read (packet : Packet) (output_len : nat) : result TransportError P :=
    if (output_len <? pk_len packet)%nat then Err PacketTooLarge
    else
      match read_hci (pk_kind packet) (contents packet) with
      | None => Err MalformedPacket
      | Some (value, input) =>
          if bool_decide (input = []) then Ok value else Err MalformedPacket
      end.

  (*! crates/ch58x-ble/src/controller.rs 136-150 HciTransport::write *)
Definition transport_write (kind : PacketKind) (size : nat) (write_hci : option (list Z))
    : result TransportError Packet :=
    if (HCI_PACKET_CAPACITY <? size)%nat then Err PacketTooLarge
    else
      let packet := packet_empty kind in
      match write_hci with
      | None => Err PacketTooLarge
      | Some written =>
          Ok (packet <| pk_bytes := splice 0 written (pk_bytes packet) |> <| pk_len := size |>)
      end.
End transport.
