(* ===== verification/Connection.v ===== *)
(** * One active connection

    Models the [ActiveConnection] of [crates/ch58x-ble/src/link_layer.rs]: the
    anchors and receive windows of connection events, the procedures with an
    instant, and the ACL and control transmit queues. *)

From S2P Require Import Prelude Effects Time Channel Timing Sequence ControlPdu Llcp Advertising.
From S2P Require Import Hci Controller.

(** ** Constants *)

(*! crates/ch58x-ble/src/link_layer.rs 37-37 HCI_SUCCESS *)
Definition HCI_SUCCESS : Z := 0x00.
(*! crates/ch58x-ble/src/link_layer.rs 38-38 HCI_UNKNOWN_COMMAND *)
Definition HCI_UNKNOWN_COMMAND : Z := 0x01.
(*! crates/ch58x-ble/src/link_layer.rs 39-39 HCI_COMMAND_DISALLOWED *)
Definition HCI_COMMAND_DISALLOWED : Z := 0x0c.
(*! crates/ch58x-ble/src/link_layer.rs 40-40 HCI_INVALID_PARAMETERS *)
Definition HCI_INVALID_PARAMETERS : Z := 0x12.
(*! crates/ch58x-ble/src/link_layer.rs 41-41 HCI_CONTROLLER_BUSY *)
Definition HCI_CONTROLLER_BUSY : Z := 0x3a.
(*! crates/ch58x-ble/src/link_layer.rs 43-43 CONNECTION_HANDLE *)
Definition CONNECTION_HANDLE : Z := 1.
(*! crates/ch58x-ble/src/link_layer.rs 49-49 MAX_DATA_PDU_PAYLOAD *)
Definition MAX_DATA_PDU_PAYLOAD : nat := ACL_PAYLOAD_LEN.
(*! crates/ch58x-ble/src/link_layer.rs 50-50 MAX_DATA_PDU_WIRE_LEN *)
Definition MAX_DATA_PDU_WIRE_LEN : nat := 2 + MAX_DATA_PDU_PAYLOAD.
(*! crates/ch58x-ble/src/link_layer.rs 52-52 ACL_QUEUE_CAPACITY *)
Definition ACL_QUEUE_CAPACITY : nat := 4.
(*! crates/ch58x-ble/src/link_layer.rs 54-54 LLID_CONTINUATION *)
Definition LLID_CONTINUATION : Z := 0x01.
(*! crates/ch58x-ble/src/link_layer.rs 55-55 LLID_START *)
Definition LLID_START : Z := 0x02.
(*! crates/ch58x-ble/src/link_layer.rs 62-62 LLID_CONTROL *)
Definition LLID_CONTROL : Z := 0x03.
(*! crates/ch58x-ble/src/link_layer.rs 63-66 HCI_PB_CONTINUING *)
Definition HCI_PB_CONTINUING : Z := Z.shiftl 1 12.
(*! crates/ch58x-ble/src/link_layer.rs 67-67 HCI_PB_FIRST_FLUSHABLE *)
Definition HCI_PB_FIRST_FLUSHABLE : Z := Z.shiftl 2 12.
(*! crates/ch58x-ble/src/link_layer.rs 75-80 RX_SETUP_LEAD_US *)
Definition RX_SETUP_LEAD_US : Z := 1000.
(*! crates/ch58x-ble/src/link_layer.rs 82-84 LOCAL_SLEEP_CLOCK_PPM *)
Definition LOCAL_SLEEP_CLOCK_PPM : Z := 50.
(*! crates/ch58x-ble/src/link_layer.rs 85-86 MAX_DATA_PACKET_AIRTIME_US *)
Definition MAX_DATA_PACKET_AIRTIME_US : Z := (1 + 4 + 2 + Z.of_nat MAX_DATA_PDU_PAYLOAD + 3) * 8.
(*! crates/ch58x-ble/src/link_layer.rs 87-87 PROCEDURE_RESPONSE_TIMEOUT_US *)
Definition PROCEDURE_RESPONSE_TIMEOUT_US : Z := 40000000.

(*! crates/ch58x-ble/src/link_layer.rs 57-61 refresh_transmit_sequence_header *)
Definition refresh_transmit_sequence_header (header transmit_sn expected_sn : Z) : Z :=
  Z.lor (Z.lor (Z.land header (Z.lxor 0xff DATA_HEADER_SEQUENCE_MASK))
               (Z.land expected_sn 1 * DATA_HEADER_NESN))
        (Z.land transmit_sn 1 * DATA_HEADER_SN).

(** ** Data *)

(*! crates/ch58x-ble/src/link_layer.rs 107-113 PendingData *)
Record PendingData : Type := mkPendingData {
  pd_bytes : list Z;
  pd_len : nat;
  pd_llid : Z;
  pd_owner_token : Z;
}.
#[export] Instance PendingData_eq_dec : EqDecision PendingData.
Proof. solve_decision. Defined.

(** [&data.bytes[..data.len]]. *)
Definition pd_payload (d : PendingData) : list Z := take (pd_len d) (pd_bytes d).

(*! crates/ch58x-ble/src/link_layer.rs 115-121 TransmittedPdu *)
Inductive TransmittedPdu : Type := TxNone | TxControl | TxAcl | TxEmpty.
#[export] Instance TransmittedPdu_eq_dec : EqDecision TransmittedPdu.
Proof. solve_decision. Defined.

(*! crates/ch58x-ble/src/link_layer.rs 123-129 LocalConnectionParamRequest *)
Record LocalConnectionParamRequest : Type := mkLocalConnectionParamRequest {
  lr_interval_min : Z;
  lr_interval_max : Z;
  lr_latency : Z;
  lr_supervision_timeout : Z;
}.
#[export] Instance LocalConnectionParamRequest_eq_dec : EqDecision LocalConnectionParamRequest.
Proof. solve_decision. Defined.

(*! crates/ch58x-ble/src/link_layer.rs 132-140 LocalConnectionParamRequest::accepts *)
Definition accepts (r : LocalConnectionParamRequest) (update : ConnectionUpdateInd) : bool :=
  connection_update_matches_request (lr_interval_min r) (lr_interval_max r) (lr_latency r)
    (lr_supervision_timeout r) update.

Section connection.
Context `{!EmbassyTime}.

(*! crates/ch58x-ble/src/link_layer.rs 143-173 ActiveConnection *)
Record ActiveConnection : Type := mkActiveConnection {
  ac_handle : Z;
  ac_request : ConnectInd;
  ac_channels : ChannelSelection1;
  ac_next_anchor : Instant;
  ac_last_sync_anchor : Instant;
  ac_receive_window_size_us : Z;
  ac_event_counter : Z;
  ac_supervision_deadline : Instant;
  ac_transmit_sn : Z;
  ac_expected_sn : Z;
  ac_next_acl_owner_token : Z;
  ac_next_control_owner_token : Z;
  ac_pending : option PendingData;
  ac_queued_acl : list (option PendingData);
  ac_pending_control : option PendingData;
  ac_priority_control : option PendingData;
  ac_queued_control : option PendingData;
  ac_transmitted : TransmittedPdu;
  ac_tx_frame : list Z;
  ac_tx_frame_len : nat;
  ac_tx_frame_fresh : bool;
  ac_pending_connection_update : option ConnectionUpdateInd;
  ac_pending_channel_map : option ChannelMapInd;
  ac_local_param_request : option LocalConnectionParamRequest;
  ac_procedures : ProcedureManager;
  ac_last_rssi : Z;
}.

#[global] Instance ActiveConnection_eta : Eta ActiveConnection := λ c,
  mkActiveConnection (ac_handle c) (ac_request c) (ac_channels c) (ac_next_anchor c)
    (ac_last_sync_anchor c) (ac_receive_window_size_us c) (ac_event_counter c)
    (ac_supervision_deadline c) (ac_transmit_sn c) (ac_expected_sn c)
    (ac_next_acl_owner_token c) (ac_next_control_owner_token c) (ac_pending c)
    (ac_queued_acl c) (ac_pending_control c) (ac_priority_control c) (ac_queued_control c)
    (ac_transmitted c) (ac_tx_frame c) (ac_tx_frame_len c) (ac_tx_frame_fresh c)
    (ac_pending_connection_update c) (ac_pending_channel_map c) (ac_local_param_request c)
    (ac_procedures c) (ac_last_rssi c).

(** [now] is the reading of [Instant::now()]. *)
(*! crates/ch58x-ble/src/link_layer.rs 180-222 ActiveConnection::new_for *)
Definition connection_new_for (handle : Z) (request : ConnectInd) (connect_ind_end_us : Z)
    (now : Instant) : result Error ActiveConnection :=
  channels ← cs_new (ci_channel_map request) (ci_hop_increment request);
  let first_anchor := instant_add (instant_from_micros connect_ind_end_us)
        (duration_from_micros ((ci_window_offset request + 1) * 1250)) in
  let receive_window_size_us := ci_window_size request * 1250 in
  Ok {|
    ac_handle := handle;
    ac_request := request;
    ac_channels := channels;
    ac_next_anchor := first_anchor;
    ac_last_sync_anchor := instant_from_micros connect_ind_end_us;
    ac_receive_window_size_us := receive_window_size_us;
    ac_event_counter := 0;
    ac_supervision_deadline :=
      instant_add now (duration_from_micros (ci_supervision_timeout request * 10000));
    ac_transmit_sn := 0;
    ac_expected_sn := 0;
    ac_next_acl_owner_token := 1;
    ac_next_control_owner_token := 0x80000001;
    ac_pending := None;
    ac_queued_acl := replicate ACL_QUEUE_CAPACITY None;
    ac_pending_control := None;
    ac_priority_control := None;
    ac_queued_control := None;
    ac_transmitted := TxNone;
    ac_tx_frame := replicate MAX_DATA_PDU_WIRE_LEN 0;
    ac_tx_frame_len := 0;
    ac_tx_frame_fresh := false;
    ac_pending_connection_update := None;
    ac_pending_channel_map := None;
    ac_local_param_request := None;
    ac_procedures := manager_new;
    ac_last_rssi := -127;
  |}.

(*! crates/ch58x-ble/src/link_layer.rs 176-178 ActiveConnection::new *)
Definition connection_new (request : ConnectInd) (connect_ind_end_us : Z) (now : Instant)
  : result Error ActiveConnection :=
  connection_new_for CONNECTION_HANDLE request connect_ind_end_us now.

(** ** Anchors and receive windows *)

(*! crates/ch58x-ble/src/link_layer.rs 224-226 ActiveConnection::interval *)
Definition interval (c : ActiveConnection) : Duration :=
  duration_from_micros (ci_interval (ac_request c) * 1250).

(*! crates/ch58x-ble/src/link_layer.rs 228-230 ActiveConnection::next_channel *)
Definition next_channel (c : ActiveConnection) : option (Channel * ActiveConnection) :=
  match cs_next_channel (ac_channels c) with
  | Some (channel, channels) => Some (channel, c <| ac_channels := channels |>)
  | None => None
  end.

(*! crates/ch58x-ble/src/link_layer.rs 232-240 ActiveConnection::window_widening_us *)
Definition connection_widening_us (c : ActiveConnection) : Z :=
  window_widening_us
    (duration_as_micros (saturating_duration_since (ac_next_anchor c) (ac_last_sync_anchor c)))
    (ci_sleep_clock_accuracy (ac_request c)) LOCAL_SLEEP_CLOCK_PPM.

(*! crates/ch58x-ble/src/link_layer.rs 264-266 ActiveConnection::receive_setup_lead_us *)
Definition receive_setup_lead_us (c : ActiveConnection) : Z := RX_SETUP_LEAD_US.

(** The subtraction panics before the origin of time. *)
(*! crates/ch58x-ble/src/link_layer.rs 242-245 ActiveConnection::receive_open *)
Definition receive_open (c : ActiveConnection) : option Instant :=
  instant_sub (ac_next_anchor c)
    (duration_from_micros (receive_setup_lead_us c + connection_widening_us c)).

(*! crates/ch58x-ble/src/link_layer.rs 247-249 ActiveConnection::scheduler_open *)
Definition scheduler_open (c : ActiveConnection) : option Instant := receive_open c.

(*! crates/ch58x-ble/src/link_layer.rs 251-262 ActiveConnection::take_receive_timeout *)
Definition take_receive_timeout (c : ActiveConnection) : Duration * ActiveConnection :=
  let widening_us := connection_widening_us c in
  let timeout_us :=
    saturating_add64
      (saturating_add64
        (saturating_add64 (receive_setup_lead_us c) (saturating_mul64 widening_us 2))
        (ac_receive_window_size_us c))
      MAX_DATA_PACKET_AIRTIME_US in
  let c := c <| ac_receive_window_size_us := 0 |> in
  (duration_from_micros timeout_us, c).

(** [self.pending_x.filter(|update| update.instant == self.event_counter)]. *)
Definition due_update (c : ActiveConnection) : option ConnectionUpdateInd :=
  match ac_pending_connection_update c with
  | Some update => if cu_instant update =? ac_event_counter c then Some update else None
  | None => None
  end.
Definition due_channel_map (c : ActiveConnection) : option ChannelMapInd :=
  match ac_pending_channel_map c with
  | Some update => if cm_instant update =? ac_event_counter c then Some update else None
  | None => None
  end.

(*! crates/ch58x-ble/src/link_layer.rs 268-281 ActiveConnection::receive_close *)
Definition receive_close (c : ActiveConnection) : Instant :=
  let instant_window_us :=
    match due_update c with
    | Some update => cu_window_size update * 1250
    | None => ac_receive_window_size_us c
    end in
  instant_add (ac_next_anchor c)
    (duration_from_micros
      (saturating_add64 (saturating_add64 (connection_widening_us c) instant_window_us)
        MAX_DATA_PACKET_AIRTIME_US)).

(*! crates/ch58x-ble/src/link_layer.rs 304-309 ActiveConnection::synchronize *)
Definition synchronize (anchor_us : Z) (c : ActiveConnection) : ActiveConnection :=
  let anchor := instant_from_micros anchor_us in
  c <| ac_next_anchor := anchor |> <| ac_last_sync_anchor := anchor |>
    <| ac_receive_window_size_us := 0 |>.

(*! crates/ch58x-ble/src/link_layer.rs 311-323 ActiveConnection::schedule_following_event *)
Definition schedule_following_event (c : ActiveConnection) : ActiveConnection :=
  let old_interval := interval c in
  let c := c <| ac_event_counter := u16 (ac_event_counter c + 1) |> in
  let c := c <| ac_next_anchor := instant_add (ac_next_anchor c) old_interval |> in
  match due_update c with
  | Some update =>
      c <| ac_next_anchor := instant_add (ac_next_anchor c)
             (duration_from_micros (cu_window_offset update * 1250)) |>
  | None => c
  end.

(** ** Instants *)

(** The channel-map part of [apply_instants]. *)
(*! crates/ch58x-ble/src/link_layer.rs 327-333 ActiveConnection::apply_instants *)
Definition apply_channel_map (c : ActiveConnection) : result Z ActiveConnection :=
  match due_channel_map c with
  | Some update =>
      channels ← map_err (λ _, 0x1e) (cs_update_map (ac_channels c) (cm_map update));
      Ok (c <| ac_channels := channels |>
            <| ac_request := (ac_request c) <| ci_channel_map := cm_map update |> |>
            <| ac_pending_channel_map := None |>)
  | None => Ok c
  end.

(** The connection-update part, which returns the two flags. *)
(*! crates/ch58x-ble/src/link_layer.rs 335-353 ActiveConnection::apply_instants *)
Definition apply_update (now : Instant) (c : ActiveConnection) : (bool * bool) * ActiveConnection :=
  match due_update c with
  | Some update =>
      let request := ac_request c in
      let parameters_changed :=
        negb (ci_interval request =? cu_interval update)
        || negb (ci_latency request =? cu_latency update)
        || negb (ci_supervision_timeout request =? cu_supervision_timeout update) in
      ((true, parameters_changed),
       c <| ac_request := request <| ci_window_size := cu_window_size update |>
                                  <| ci_window_offset := cu_window_offset update |>
                                  <| ci_interval := cu_interval update |>
                                  <| ci_latency := cu_latency update |>
                                  <| ci_supervision_timeout := cu_supervision_timeout update |> |>
         <| ac_receive_window_size_us := cu_window_size update * 1250 |>
         <| ac_supervision_deadline :=
              instant_add now (duration_from_micros (cu_supervision_timeout update * 10000)) |>
         <| ac_pending_connection_update := None |>)
  | None => ((false, false), c)
  end.

(** The error arises before anything has changed.  [now] is the reading of the
    clock taken when an update is applied. *)
(*! crates/ch58x-ble/src/link_layer.rs 325-357 ActiveConnection::apply_instants *)
Definition apply_instants (now : Instant) (c : ActiveConnection)
  : result Z (bool * bool) * ActiveConnection :=
  match apply_channel_map c with
  | Err e => (Err e, c)
  | Ok c =>
      let '(flags, c) := apply_update now c in
      let c := c <| ac_procedures :=
                      on_connection_event (ac_procedures c) (ac_event_counter c) 0x28 |> in
      (Ok flags, c)
  end.

(** One iteration of the catch-up loop: instants, one channel, one anchor.
    [Ok] carries the contribution to [notify_host]; [None] is a panic of
    [next_channel]. *)
(*! crates/ch58x-ble/src/link_layer.rs 292-298 ActiveConnection::skip_expired_events *)
Definition skip_event (now : Instant) (c : ActiveConnection)
  : option (result Z bool * ActiveConnection) :=
  match apply_instants now c with
  | (Err e, c) => Some (Err e, c)
  | (Ok (applied, changed), c) =>
      let notify := changed || (applied && bool_decide (is_Some (ac_local_param_request c))) in
      let c := if applied then c <| ac_local_param_request := None |> else c in
      match next_channel c with
      | None => None
      | Some (_, c) => Some (Ok notify, schedule_following_event c)
      end
  end.

(** The loop, by recursion on what [count : u16] has left: [checked_add] fails
    exactly when [budget = 65535 - count] is used up.  [clock count] is the
    reading of the clock inside the iteration. *)
(*! crates/ch58x-ble/src/link_layer.rs 288-302 ActiveConnection::skip_expired_events *)
Fixpoint skip_loop (now : Instant) (clock : Z → Instant) (budget : nat) (count : Z)
    (notify_host : bool) (c : ActiveConnection)
  : option (result Z (Z * bool) * ActiveConnection) :=
  if instant_ltb (receive_close c) now then
    match skip_event (clock count) c with
    | None => None
    | Some (Err e, c) => Some (Err e, c)
    | Some (Ok notify, c) =>
        match budget with
        | O => Some (Err 0x08, c)
        | S budget => skip_loop now clock budget (count + 1) (notify_host || notify) c
        end
    end
  else Some (Ok (count, notify_host), c).

(*! crates/ch58x-ble/src/link_layer.rs 283-302 ActiveConnection::skip_expired_events *)
Definition skip_expired_events (now : Instant) (clock : Z → Instant) (c : ActiveConnection)
  : option (result Z (Z * bool) * ActiveConnection) :=
  skip_loop now clock (Z.to_nat U16_MAX) 0 false c.

(** ** The ACL queue *)

(** [iter_mut().find(|slot| slot.is_none())] and the assignment to the slot. *)
(*! crates/ch58x-ble/src/link_layer.rs 387-392 ActiveConnection::queue_acl *)
Fixpoint fill_first_empty (data : PendingData) (slots : list (option PendingData))
  : option (list (option PendingData)) :=
  match slots with
  | [] => None
  | None :: slots => Some (Some data :: slots)
  | slot :: slots => cons slot <$> fill_first_empty data slots
  end.

(*! crates/ch58x-ble/src/link_layer.rs 359-399 ActiveConnection::queue_acl *)
Definition queue_acl (packet : Packet) (c : ActiveConnection) : result Z ActiveConnection :=
  if (pk_len packet <? 4)%nat then Err HCI_COMMAND_DISALLOWED
  else
    let raw_handle := le16 (pk_bytes packet) 0 in
    let handle := Z.land raw_handle 0x0fff in
    let length := Z.to_nat (le16 (pk_bytes packet) 2) in
    if negb (handle =? ac_handle c) || negb (length + 4 =? pk_len packet)%nat
       || (MAX_DATA_PDU_PAYLOAD <? length)%nat
    then Err HCI_INVALID_PARAMETERS
    else
      let boundary := Z.land (Z.shiftr raw_handle 12) 0x03 in
      let llid := if boundary =? 1 then LLID_CONTINUATION else LLID_START in
      let data := mkPendingData
        (splice 0 (slice 4 (4 + length) (pk_bytes packet)) (replicate MAX_DATA_PDU_PAYLOAD 0))
        length llid (ac_next_acl_owner_token c) in
      let queued :=
        match ac_pending c with
        | None => Some (c <| ac_pending := Some data |>)
        | Some _ =>
            match fill_first_empty data (ac_queued_acl c) with
            | Some slots => Some (c <| ac_queued_acl := slots |>)
            | None => None
            end
        end in
      match queued with
      | None => Err HCI_COMMAND_DISALLOWED
      | Some c =>
          Ok (c <| ac_next_acl_owner_token := Z.max (u32 (ac_next_acl_owner_token c + 1)) 1 |>)
      end.

(** ** The control queue *)

(*! crates/ch58x-ble/src/link_layer.rs 401-408 ActiveConnection::allocate_control_token *)
Definition allocate_control_token (c : ActiveConnection) : ProcedureToken * ActiveConnection :=
  let owner_token := ac_next_control_owner_token c in
  let c := c <| ac_next_control_owner_token :=
                  Z.lor (u32 (ac_next_control_owner_token c + 1)) 0x80000000 |> in
  (mkProcedureToken owner_token (u8 owner_token), c).

(*! crates/ch58x-ble/src/link_layer.rs 410-430 ActiveConnection::queue_control_with_token *)
Definition queue_control_with_token (bytes : list Z) (token : ProcedureToken)
    (c : ActiveConnection) : bool * ActiveConnection :=
  if (MAX_DATA_PDU_PAYLOAD <? length bytes)%nat then (false, c)
  else
    let data := mkPendingData (splice 0 bytes (replicate MAX_DATA_PDU_PAYLOAD 0))
      (length bytes) LLID_CONTROL (pt_owner_token token) in
    if bool_decide (ac_pending_control c = None) then
      (true, c <| ac_pending_control := Some data |>)
    else if bool_decide (ac_queued_control c = None) then
      (true, c <| ac_queued_control := Some data |>)
    else (false, c).

(*! crates/ch58x-ble/src/link_layer.rs 432-435 ActiveConnection::queue_control_owned *)
Definition queue_control_owned (bytes : list Z) (c : ActiveConnection)
  : option ProcedureToken * ActiveConnection :=
  let '(token, c) := allocate_control_token c in
  let '(queued, c) := queue_control_with_token bytes token c in
  (if queued then Some token else None, c).

(*! crates/ch58x-ble/src/link_layer.rs 437-439 ActiveConnection::queue_control *)
Definition queue_control (bytes : list Z) (c : ActiveConnection) : bool * ActiveConnection :=
  let '(token, c) := queue_control_owned bytes c in
  (bool_decide (is_Some token), c).

(** A call of [ProcedureManager] whose error leaves it unchanged. *)
Definition with_procedures (c : ActiveConnection) (r : result ProcedureError ProcedureManager)
  : result ProcedureError ActiveConnection :=
  (λ m, c <| ac_procedures := m |>) <$> r.

(** [let _ = self.procedures.fail(initiator, error)]. *)
Definition fail_procedure (initiator : ProcedureInitiator) (error : Z) (c : ActiveConnection)
  : ActiveConnection :=
  match with_procedures c (fail (ac_procedures c) initiator error) with
  | Ok c => c
  | Err _ => c
  end.

(*! crates/ch58x-ble/src/link_layer.rs 456-494 ActiveConnection::queue_remote_procedure_response_with_followup *)
Definition queue_remote_procedure_response_with_followup (kind : ProcedureKind)
    (request_opcode : Z) (response : list Z) (expected_response_opcode : option Z)
    (response_timeout_us : option Z) (c : ActiveConnection) : bool * ActiveConnection :=
  match response with
  | [] => (false, c)
  | response_opcode :: _ =>
      let '(token, c) := allocate_control_token c in
      let context := context_new kind Remote token response_opcode expected_response_opcode
                       None response_timeout_us in
      match with_procedures c (start_remote (ac_procedures c) context) with
      | Err (Collision error) => queue_control [0x11; request_opcode; error] c
      | Err _ => queue_control [0x11; request_opcode; 0x23] c
      | Ok c =>
          match with_procedures c (response_queued (ac_procedures c) token response_opcode) with
          | Err _ => (false, fail_procedure Remote 0x3a c)
          | Ok c =>
              let '(queued, c) := queue_control_with_token response token c in
              if queued then (true, c) else (false, fail_procedure Remote 0x3a c)
          end
      end
  end.

(*! crates/ch58x-ble/src/link_layer.rs 441-454 ActiveConnection::queue_remote_procedure_response *)
Definition queue_remote_procedure_response (kind : ProcedureKind) (request_opcode : Z)
    (response : list Z) (c : ActiveConnection) : bool * ActiveConnection :=
  queue_remote_procedure_response_with_followup kind request_opcode response None None c.

(*! crates/ch58x-ble/src/link_layer.rs 496-504 ActiveConnection::remote_connection_parameters_active *)
Definition remote_connection_parameters_active (c : ActiveConnection) : bool :=
  match pm_remote (ac_procedures c) with
  | Some context =>
      bool_decide (pc_kind context = KindConnectionParameters) &&
      match pc_phase context with Complete | Failed => false | _ => true end
  | None => false
  end.

(*! crates/ch58x-ble/src/link_layer.rs 506-527 ActiveConnection::start_remote_instant_procedure *)
Definition start_remote_instant_procedure (kind : ProcedureKind) (opcode instant : Z)
    (c : ActiveConnection) : result Z () * ActiveConnection :=
  let '(token, c) := allocate_control_token c in
  let context := context_new kind Remote token opcode None (Some instant) None in
  match with_procedures c (start_remote (ac_procedures c) context) with
  | Ok c => (Ok (), c)
  | Err (Collision error) => (Err error, c)
  | Err _ => (Err 0x23, c)
  end.

(*! crates/ch58x-ble/src/link_layer.rs 543-571 ActiveConnection::queue_local_procedure *)
Definition queue_local_procedure (kind : ProcedureKind) (request : list Z)
    (expected_response_opcode response_timeout_us : option Z) (c : ActiveConnection)
  : bool * ActiveConnection :=
  match request with
  | [] => (false, c)
  | request_opcode :: _ =>
      let '(token, c) := allocate_control_token c in
      let context := context_new kind Local token request_opcode expected_response_opcode
                       None response_timeout_us in
      match with_procedures c (start_local (ac_procedures c) context) with
      | Err _ => (false, c)
      | Ok c =>
          let '(queued, c) := queue_control_with_token request token c in
          if queued then (true, c) else (false, fail_procedure Local 0x3a c)
      end
  end.

(*! crates/ch58x-ble/src/link_layer.rs 529-541 ActiveConnection::queue_local_procedure_request *)
Definition queue_local_procedure_request (kind : ProcedureKind) (request : list Z)
    (expected_response_opcode : Z) (c : ActiveConnection) : bool * ActiveConnection :=
  queue_local_procedure kind request (Some expected_response_opcode)
    (Some PROCEDURE_RESPONSE_TIMEOUT_US) c.

(*! crates/ch58x-ble/src/link_layer.rs 573-581 ActiveConnection::local_procedure_active *)
Definition local_procedure_active (kind : ProcedureKind) (c : ActiveConnection) : bool :=
  match pm_local (ac_procedures c) with
  | Some context =>
      bool_decide (pc_kind context = kind) &&
      match pc_phase context with Complete | Failed => false | _ => true end
  | None => false
  end.

(*! crates/ch58x-ble/src/link_layer.rs 583-598 ActiveConnection::procedure_for_control_owner *)
Definition procedure_for_control_owner (owner_token : Z) (c : ActiveConnection)
  : option (ProcedureInitiator * ProcedureToken) :=
  let owned (initiator : ProcedureInitiator) (context : option ProcedureContext) :=
    match context with
    | Some context =>
        if pt_owner_token (pc_token context) =? owner_token
        then Some (initiator, pc_token context) else None
    | None => None
    end in
  match owned Local (pm_local (ac_procedures c)) with
  | Some owner => Some owner
  | None => owned Remote (pm_remote (ac_procedures c))
  end.

(** The three operations on the procedure that owns [pending_control]: an
    unowned PDU is [Ok(())]. *)
Definition on_pending_control
    (f : ProcedureInitiator → ProcedureToken → result ProcedureError ProcedureManager)
    (c : ActiveConnection) : result () ActiveConnection :=
  match ac_pending_control c with
  | None => Ok c
  | Some pending =>
      match procedure_for_control_owner (pd_owner_token pending) c with
      | None => Ok c
      | Some (initiator, token) => map_err (λ _, ()) (with_procedures c (f initiator token))
      end
  end.

(*! crates/ch58x-ble/src/link_layer.rs 600-608 ActiveConnection::plan_pending_control_procedure *)
Definition plan_pending_control_procedure (c : ActiveConnection) : result () ActiveConnection :=
  on_pending_control (tx_planned (ac_procedures c)) c.

(*! crates/ch58x-ble/src/link_layer.rs 610-618 ActiveConnection::complete_pending_control_transmit *)
Definition complete_pending_control_transmit (c : ActiveConnection)
  : result () ActiveConnection :=
  on_pending_control (tx_done (ac_procedures c)) c.

(*! crates/ch58x-ble/src/link_layer.rs 620-630 ActiveConnection::acknowledge_pending_control *)
Definition acknowledge_pending_control (now_us : Z) (c : ActiveConnection)
  : result () ActiveConnection :=
  on_pending_control (λ i t, nesn_ack (ac_procedures c) i t now_us) c.

(*! crates/ch58x-ble/src/link_layer.rs 632-642 ActiveConnection::promote_priority_control_if_idle *)
Definition promote_priority_control_if_idle (c : ActiveConnection) : ActiveConnection :=
  if bool_decide (ac_transmitted c = TxNone) && (ac_tx_frame_len c =? 0)%nat
     && bool_decide (is_Some (ac_priority_control c))
  then
    let pending := ac_pending_control c in
    c <| ac_pending_control := ac_priority_control c |> <| ac_priority_control := pending |>
  else c.

End connection.
