(* ===== verification/Commands.v ===== *)
(** * The runner's state and the HCI command handler

    Models [crates/ch58x-ble/src/link_layer/hci.rs] and the [Advertiser] and
    [Runner] records of [crates/ch58x-ble/src/link_layer.rs].  The random
    generator of the [rand_chacha] crate is an interface. *)

From S2P Require Import Prelude Effects Time Channel Timing ControlPdu Llcp Advertising Hci.
From S2P Require Import Controller Connection.

(** [RngCore::fill_bytes], as the bytes produced and the new generator. *)
Class RngCore : Type := {
  Rng : Type;
  fill_bytes : nat → Rng → list Z * Rng;
}.
Class RngCoreLaws `{!RngCore} : Prop := {
  fill_bytes_length n r : length (fill_bytes n r).1 = n;
}.

(** A counter, as an example of a generator. *)
#[export] Instance counter_rng : RngCore := {|
  Rng := Z;
  fill_bytes n r := ((λ i, u8 (r + Z.of_nat i)) <$> seq 0 n, r + Z.of_nat n);
|}.
#[export] Instance counter_rng_laws : RngCoreLaws.
Proof. split. intros n r. cbn. by rewrite length_fmap, length_seq. Qed.

Section commands.
Context `{!EmbassyTime} `{!RngCore}.

(*! crates/ch58x-ble/src/link_layer.rs 97-105 Advertiser *)
Record Advertiser : Type := mkAdvertiser {
  av_address : DeviceAddress;
  av_interval : Duration;
  av_channels : list bool;
  av_data : AdvertisingData;
  av_scan_response : AdvertisingData;
  av_enabled : bool;
}.
#[global] Instance Advertiser_eta : Eta Advertiser := λ a,
  mkAdvertiser (av_address a) (av_interval a) (av_channels a) (av_data a)
    (av_scan_response a) (av_enabled a).

(** [Duration::from_millis(200)] is 200,000 ticks; [None] is the [unwrap]. *)
(*! crates/ch58x-ble/src/link_layer.rs 645-656 Advertiser::default *)
Definition advertiser_default : option Advertiser :=
  match random_static [0x82; 0x58; 0x2a; 0x01; 0x00; 0xc0] with
  | Ok address =>
      Some (mkAdvertiser address (duration_from_micros 200000) (replicate 3 true)
              ad_new ad_new false)
  | Err _ => None
  end.

(** The runner, with the statics it owns: the [LINK_CONNECTED] flag and the
    transport.  Of the radio it keeps the two settings that are plain values. *)
(*! crates/ch58x-ble/src/link_layer.rs 658-664 Runner *)
Record Runner : Type := mkRunner {
  rn_access_address : Z;
  rn_crc_init : Z;
  rn_random : Rng;
  rn_advertiser : Advertiser;
  rn_connected : bool;
  rn_transport : Transport;
}.
#[global] Instance Runner_eta : Eta Runner := λ r,
  mkRunner (rn_access_address r) (rn_crc_init r) (rn_random r) (rn_advertiser r)
    (rn_connected r) (rn_transport r).

(*! crates/ch58x-ble/src/radio.rs 1033-1036 Radio::set_access_address *)
Definition set_access_address (access_address : Z) (r : Runner) : Runner :=
  r <| rn_access_address := access_address |>.

(*! crates/ch58x-ble/src/radio.rs 1038-1041 Radio::set_crc_init *)
Definition set_crc_init (crc_init : Z) (r : Runner) : Runner :=
  r <| rn_crc_init := Z.land crc_init 0x00ffffff |>.

(** Updates of the transport from the runner. *)
Definition on_transport (f : Transport → Transport) (r : Runner) : Runner :=
  r <| rn_transport := f (rn_transport r) |>.
Definition on_advertiser (f : Advertiser → Advertiser) (r : Runner) : Runner :=
  r <| rn_advertiser := f (rn_advertiser r) |>.

(** [let _ = controller::event(...)]. *)
Definition emit_event (code : Z) (params : list Z) (r : Runner) : Runner :=
  on_transport (λ t, ignore_error t (event code params t)) r.

(** [controller::command_complete] and [command_status], with their panics. *)
Definition send_complete {R} (opcode status : Z) (data : list Z) : M Runner R () :=
  zoom rn_transport (λ t r, r <| rn_transport := t |>)
    (λ t, pair () <$> command_complete opcode status data t).
Definition send_status {R} (opcode status : Z) : M Runner R () :=
  zoom rn_transport (λ t r, r <| rn_transport := t |>)
    (λ t, pair () <$> command_status opcode status t).

(** ** Setters *)

(** [params.try_into()] fails unless there are six bytes. *)
(*! crates/ch58x-ble/src/link_layer/hci.rs 81-89 Runner::set_random_address *)
Definition set_random_address (params : list Z) (r : Runner) : result Z (list Z) * Runner :=
  if av_enabled (rn_advertiser r) then (Err HCI_COMMAND_DISALLOWED, r)
  else if negb (length params =? 6)%nat then (Err HCI_INVALID_PARAMETERS, r)
  else
    match random_static params with
    | Err _ => (Err HCI_INVALID_PARAMETERS, r)
    | Ok address => (Ok [], on_advertiser (λ a, a <| av_address := address |>) r)
    end.

(*! crates/ch58x-ble/src/link_layer/hci.rs 91-100 Runner::set_advertising_parameters *)
Definition set_advertising_parameters (params : list Z) (r : Runner)
  : result Z (list Z) * Runner :=
  if av_enabled (rn_advertiser r) then (Err HCI_COMMAND_DISALLOWED, r)
  else
    match adv_parameters_parse params with
    | None => (Err HCI_INVALID_PARAMETERS, r)
    | Some parsed =>
        (Ok [], on_advertiser (λ a,
           a <| av_interval := duration_from_micros (ap_interval_us parsed) |>
             <| av_channels := ap_channels parsed |>) r)
    end.

(** The [while cursor < bytes.len()] loop on what is left of the bytes.  Each
    iteration consumes at least two bytes, so as many iterations as there are
    bytes are enough. *)
(*! crates/ch58x-ble/src/link_layer/hci.rs 113-125 Runner::set_advertising_data *)
Fixpoint copy_structures (fuel : nat) (bytes : list Z) (replacement : AdvertisingData)
  : result Z AdvertisingData :=
  match fuel, bytes with
  | _, [] | O, _ => Ok replacement
  | S fuel, head :: rest =>
      let len := Z.to_nat head in
      if (len =? 0)%nat then Ok replacement
      else if (length bytes <=? len)%nat then Err HCI_INVALID_PARAMETERS
      else
        replacement ← map_err (λ _, HCI_INVALID_PARAMETERS)
          (ad_push replacement (rest !!! 0%nat) (slice 1 len rest));
        copy_structures fuel (drop len rest) replacement
  end.

(*! crates/ch58x-ble/src/link_layer/hci.rs 102-128 Runner::set_advertising_data *)
Definition set_advertising_data (params : list Z) : result Z AdvertisingData :=
  if negb (length params =? 32)%nat || (31 <? params !!! 0%nat) then Err HCI_INVALID_PARAMETERS
  else
    let bytes := slice 1 (1 + Z.to_nat (params !!! 0%nat)) params in
    copy_structures (length bytes) bytes ad_new.

(** [Self::set_advertising_data(&mut self.advertiser.data, params)] and the
    same for the scan response. *)
Definition store_advertising_data (put : AdvertisingData → Advertiser → Advertiser)
    (params : list Z) (r : Runner) : result Z (list Z) * Runner :=
  match set_advertising_data params with
  | Ok replacement => (Ok [], on_advertiser (put replacement) r)
  | Err e => (Err e, r)
  end.

(*! crates/ch58x-ble/src/link_layer/hci.rs 130-140 Runner::set_advertising_enable *)
Definition set_advertising_enable (params : list Z) (r : Runner) : result Z (list Z) * Runner :=
  if negb (length params =? 1)%nat || (1 <? params !!! 0%nat) then (Err HCI_INVALID_PARAMETERS, r)
  else if negb (params !!! 0%nat =? 0) && rn_connected r then (Err HCI_COMMAND_DISALLOWED, r)
  else (Ok [], on_advertiser (λ a, a <| av_enabled := negb (params !!! 0%nat =? 0) |>) r).

(** ** Events about a connection *)

(*! crates/ch58x-ble/src/link_layer/hci.rs 142-155 Runner::emit_connection_complete *)
Definition emit_connection_complete (c : ActiveConnection) (r : Runner) : Runner :=
  let request := ac_request c in
  let params := replicate 19 0 in
  let params := <[0%nat := 0x01]> params in
  let params := <[1%nat := HCI_SUCCESS]> params in
  let params := splice 2 (to_le 2 (ac_handle c)) params in
  let params := <[4%nat := 0x01]> params in
  let params := <[5%nat := b2z (ci_initiator_address_random request)]> params in
  let params := splice 6 (ci_initiator_address request) params in
  let params := splice 12 (to_le 2 (ci_interval request)) params in
  let params := splice 14 (to_le 2 (ci_latency request)) params in
  let params := splice 16 (to_le 2 (ci_supervision_timeout request)) params in
  let params := <[18%nat := ci_sleep_clock_accuracy request]> params in
  emit_event 0x3e params r.

(*! crates/ch58x-ble/src/link_layer/hci.rs 157-163 Runner::emit_disconnection *)
Definition emit_disconnection (c : ActiveConnection) (reason : Z) (r : Runner) : Runner :=
  let params := replicate 4 0 in
  let params := <[0%nat := HCI_SUCCESS]> params in
  let params := splice 1 (to_le 2 (ac_handle c)) params in
  let params := <[3%nat := reason]> params in
  emit_event 0x05 params r.

(*! crates/ch58x-ble/src/link_layer/hci.rs 170-183 Runner::emit_connection_update_result *)
Definition emit_connection_update_result (c : ActiveConnection) (status : Z) (r : Runner)
  : Runner :=
  let request := ac_request c in
  let params := replicate 10 0 in
  let params := <[0%nat := 0x03]> params in
  let params := <[1%nat := status]> params in
  let params := splice 2 (to_le 2 (ac_handle c)) params in
  let params := splice 4 (to_le 2 (ci_interval request)) params in
  let params := splice 6 (to_le 2 (ci_latency request)) params in
  let params := splice 8 (to_le 2 (ci_supervision_timeout request)) params in
  emit_event 0x3e params r.

(*! crates/ch58x-ble/src/link_layer/hci.rs 165-168 Runner::emit_connection_update_complete *)
Definition emit_connection_update_complete (c : ActiveConnection) (r : Runner) : Runner :=
  emit_connection_update_result c HCI_SUCCESS r.

(** ** Command dispatch *)

(** [params.len()] and slice comparisons of the match guards. *)
Definition is_empty (params : list Z) : bool := (length params =? 0)%nat.
Definition has_length (n : nat) (params : list Z) : bool := (length params =? n)%nat.

(** A setter as a statement. *)
Definition setter {R} (f : Runner → result Z (list Z) * Runner)
  : M Runner R (result Z (list Z)) := call (λ r, Some (f r)).

(** The [match opcode], arm by arm in the order of the source. *)
(*! crates/ch58x-ble/src/link_layer/hci.rs 11-73 Runner::handle_command *)
Definition command_result (opcode : Z) (params : list Z) : M Runner () (result Z (list Z)) :=
  if (opcode =? 0x0c03) && is_empty params then
    modify (on_transport (set_event_mask U64_MAX));;
    modify (on_transport (set_le_event_mask 0x1f));;
    modify (on_advertiser (λ a, a <| av_enabled := false |>));;
    modify (set_access_address ADV_ACCESS_ADDRESS);;
    modify (set_crc_init ADV_CRC_INIT);;
    mret (Ok [])
  else if ((opcode =? 0x0c01) || (opcode =? 0x2001)) && has_length 8 params then
    let mask := from_le params in
    (if opcode =? 0x0c01 then modify (on_transport (set_event_mask mask))
     else modify (on_transport (set_le_event_mask mask)));;
    mret (Ok [])
  else if (opcode =? 0x0c31) && bool_decide (params = [0]) then mret (Ok [])
  else if (opcode =? 0x1009) && is_empty params then mret (Ok [0; 0; 0; 0; 0; 0])
  else if (opcode =? 0x2002) && is_empty params then mret (Ok [0x1b; 0x00; ACL_CREDITS])
  else if (opcode =? 0x2003) && is_empty params then mret (Ok LE_FEATURES)
  else if opcode =? 0x2005 then setter (set_random_address params)
  else if opcode =? 0x2006 then setter (set_advertising_parameters params)
  else if opcode =? 0x2008 then
    setter (store_advertising_data (λ d a, a <| av_data := d |>) params)
  else if opcode =? 0x2009 then
    setter (store_advertising_data (λ d a, a <| av_scan_response := d |>) params)
  else if opcode =? 0x200a then setter (set_advertising_enable params)
  else if (opcode =? 0x200f) && is_empty params then mret (Ok [0])
  else if (opcode =? 0x2010) && is_empty params then mret (Ok [])
  else if (opcode =? 0x2018) && is_empty params then
    random ← call (λ r, let '(bytes, rng) := fill_bytes 8 (rn_random r) in
                        Some (bytes, r <| rn_random := rng |>));
    send_complete opcode HCI_SUCCESS random;;
    return_ ()
  else if opcode =? 0x2039 then mret (Err HCI_COMMAND_DISALLOWED)
  else if opcode =? 0x200d then
    send_status opcode HCI_COMMAND_DISALLOWED;;
    return_ ()
  else if (opcode =? 0x2013) || (opcode =? 0x2019) || (opcode =? 0x2032) then
    send_status opcode HCI_COMMAND_DISALLOWED;;
    return_ ()
  else mret (Err HCI_UNKNOWN_COMMAND).

(** [bytes.len() < 3 || bytes.len() != 3 + usize::from(bytes[2])]. *)
Definition malformed_command (bytes : list Z) : bool :=
  (length bytes <? 3)%nat || negb (length bytes =? 3 + Z.to_nat (bytes !!! 2%nat))%nat.
Definition command_opcode (bytes : list Z) : Z := from_le [bytes !!! 0%nat; bytes !!! 1%nat].
Definition command_params (bytes : list Z) : list Z := drop 3 bytes.

(*! crates/ch58x-ble/src/link_layer/hci.rs 5-79 Runner::handle_command *)
Definition handle_command (bytes : list Z) : Runner → option (() * Runner) := run (
  if malformed_command bytes then return_ ()
  else
    let opcode := command_opcode bytes in
    result ← command_result opcode (command_params bytes);
    match result with
    | Ok return_data => send_complete opcode HCI_SUCCESS return_data
    | Err status => send_complete opcode status []
    end).

End commands.
