(* ===== verification/Runner.v ===== *)
(** * The runner: advertising, connection events and LL control

    Models the [Runner] of [crates/ch58x-ble/src/link_layer.rs] and
    [handle_connected_command] of [crates/ch58x-ble/src/link_layer/hci.rs].
    The radio exchanges, which are hardware, are functions of their arguments;
    clock readings and the packets the Host has queued are inputs of each
    iteration. *)

From S2P Require Import Prelude Effects Time Channel Timing Sequence ControlPdu Llcp Advertising.
From S2P Require Import Hci Controller Connection Commands.

(*! crates/ble-controller/src/phy.rs 9-15 ReceivedPacket *)
Record ReceivedPacket : Type := mkReceivedPacket {
  rp_payload : list Z;
  rp_rssi_dbm : Z;
  rp_crc_ok : bool;
  rp_timestamp_us : Z;
}.

(*! crates/ch58x-ble/src/radio.rs 190-194 ExchangeResult *)
Record ExchangeResult : Type := mkExchangeResult {
  ex_received : ReceivedPacket;
  ex_transmitted : bool;
}.

Section runner.
Context `{!EmbassyTime} `{!RngCore}.

(** The state of the methods that borrow a connection. *)
Record World : Type := mkWorld {
  w_runner : Runner;
  w_conn : ActiveConnection;
}.
#[global] Instance World_eta : Eta World := λ w, mkWorld (w_runner w) (w_conn w).

Definition on_runner {R} (f : Runner → Runner) : M World R () :=
  modify (λ w, w <| w_runner := f (w_runner w) |>).
Definition on_conn {R} (f : ActiveConnection → ActiveConnection) : M World R () :=
  modify (λ w, w <| w_conn := f (w_conn w) |>).
Definition conn {R A} (f : ActiveConnection → A) : M World R A := gets (λ w, f (w_conn w)).

(** Statements that also read: an emission about the connection, a method of
    the connection, a method of the runner. *)
Definition emit {R} (f : ActiveConnection → Runner → Runner) : M World R () :=
  modify (λ w, w <| w_runner := f (w_conn w) (w_runner w) |>).
Definition call_conn {R A} (f : ActiveConnection → A * ActiveConnection) : M World R A :=
  zoom w_conn (λ c w, w <| w_conn := c |>) (λ c, Some (f c)).
Definition call_conn_opt {R A} (f : ActiveConnection → option (A * ActiveConnection))
  : M World R A := zoom w_conn (λ c w, w <| w_conn := c |>) f.
Definition call_runner {R A} (f : Runner → option (A * Runner)) : M World R A :=
  zoom w_runner (λ r w, w <| w_runner := r |>) f.

(** A fallible method of the connection that changes nothing on error. *)
Definition try_conn {R E} (on_err : E → R) (f : ActiveConnection → result E ActiveConnection)
  : M World R () := λ w,
  match f (w_conn w) with
  | Ok c => Next () (w <| w_conn := c |>)
  | Err e => Return (on_err e) w
  end.

(** [controller::command_status] and [command_complete] from a connection. *)
Definition status {R} (opcode code : Z) : M World R () :=
  call_runner (run (send_status opcode code)).
Definition complete {R} (opcode code : Z) (data : list Z) : M World R () :=
  call_runner (run (send_complete opcode code data)).

(** ** LL control *)

(** [LL_CONNECTION_UPDATE_IND]: the procedure that the update belongs to. *)
(*! crates/ch58x-ble/src/link_layer.rs 1080-1105 Runner::handle_ll_control *)
Definition update_owner (instant : Z) (c : ActiveConnection) : result Z () * ActiveConnection :=
  let respond (initiator : ProcedureInitiator) :=
    match with_procedures c
            (expected_response_with_instant (ac_procedures c) initiator 0x00 instant) with
    | Ok c => (Ok (), c)
    | Err _ => (Err 0x3d, c)
    end in
  if bool_decide (is_Some (ac_local_param_request c)) then respond Local
  else if remote_connection_parameters_active c then respond Remote
  else start_remote_instant_procedure KindConnectionUpdate 0x00 instant c.

(*! crates/ch58x-ble/src/link_layer.rs 1073-1115 Runner::handle_ll_control *)
Definition handle_update_ind (payload : list Z) : M World (option Z) () :=
  event_counter ← conn ac_event_counter;
  pending ← conn ac_pending_connection_update;
  match update_parse payload event_counter, pending with
  | Ok update, None =>
      request ← conn ac_local_param_request;
      (if match request with Some request => negb (accepts request update) | None => false end
       then return_ (Some 0x20) else mret ());;
      owner_result ← call_conn (update_owner (cu_instant update));
      _ ← try (λ e, Some e) owner_result;
      on_conn (λ c, c <| ac_pending_connection_update := Some update |>)
  | Ok _, Some _ | Err Malformed, _ | Err InvalidParameters, _ => return_ (Some 0x1e)
  | Err InstantPassed, _ => return_ (Some 0x28)
  end.

(** Giving up the Host's own parameter request: the request is dropped, its
    procedure fails and the Host is told. *)
(*! crates/ch58x-ble/src/link_layer.rs 1119-1128 Runner::handle_ll_control *)
Definition abandon_local_request {R} (error : Z) : M World R () :=
  on_conn (λ c, c <| ac_local_param_request := None |>);;
  on_conn (fail_procedure Local error);;
  emit (λ c, emit_connection_update_result c error).

(*! crates/ch58x-ble/src/link_layer.rs 1116-1143 Runner::handle_ll_control *)
Definition handle_channel_map_ind (payload : list Z) : M World (option Z) () :=
  event_counter ← conn ac_event_counter;
  pending ← conn ac_pending_channel_map;
  match map_parse payload event_counter, pending with
  | Ok update, None =>
      request ← conn ac_local_param_request;
      when_ (bool_decide (is_Some request))
        (abandon_local_request
           (procedure_collision_error ConnectionParametersRequest ChannelMapUpdate));;
      started ← call_conn (start_remote_instant_procedure KindChannelMapUpdate 0x01
                             (cm_instant update));
      _ ← try (λ e, Some e) started;
      on_conn (λ c, c <| ac_pending_channel_map := Some update |>)
  | Ok _, Some _ | Err Malformed, _ | Err InvalidParameters, _ => return_ (Some 0x1e)
  | Err InstantPassed, _ => return_ (Some 0x28)
  end.

(** [LL_REJECT_EXT_IND] (three bytes). *)
(*! crates/ch58x-ble/src/link_layer.rs 1155-1170 Runner::handle_ll_control *)
Definition handle_reject_ext {R} (rejected error : Z) : M World R () :=
  request ← conn ac_local_param_request;
  remote_active ← conn remote_connection_parameters_active;
  if (rejected =? 0x0f) && bool_decide (is_Some request) then abandon_local_request error
  else if (rejected =? 0x10) && remote_active then
    on_conn (fail_procedure Remote error);;
    emit (λ c, emit_connection_update_result c error)
  else mret ().

(** [LL_CONNECTION_PARAM_REQ]; [InstantPassed] is [unreachable!()]. *)
(*! crates/ch58x-ble/src/link_layer.rs 1189-1238 Runner::handle_ll_control *)
Definition handle_param_req {R} (payload : list Z) : M World R () :=
  event_counter ← conn ac_event_counter;
  match parse_request payload event_counter with
  | Ok request =>
      channel_map ← conn ac_pending_channel_map;
      update ← conn ac_pending_connection_update;
      let collision :=
        if bool_decide (is_Some channel_map) then
          Some (procedure_collision_error ChannelMapUpdate ConnectionParametersRequest)
        else if bool_decide (is_Some update) then
          Some (procedure_collision_error ConnectionUpdate ConnectionParametersRequest)
        else None in
      match collision with
      | Some error => _ ← call_conn (queue_control [0x11; 0x0f; error]); mret ()
      | None =>
          local_request ← conn ac_local_param_request;
          when_ (bool_decide (is_Some local_request))
            (abandon_local_request
              (procedure_collision_error ConnectionParametersRequest
                 ConnectionParametersRequest));;
          let response := param_write request RESPONSE_OPCODE (replicate PARAM_PDU_LEN 0) in
          _ ← call_conn (queue_remote_procedure_response_with_followup KindConnectionParameters
                 0x0f response (Some 0x00) (Some PROCEDURE_RESPONSE_TIMEOUT_US));
          mret ()
      end
  | Err InstantPassed => unwrap None
  | Err _ => _ ← call_conn (queue_control [0x11; 0x0f; 0x1e]); mret ()
  end.

(** The [match opcode], arm by arm in the order of the source. *)
(*! crates/ch58x-ble/src/link_layer.rs 1066-1252 Runner::handle_ll_control *)
Definition handle_ll_control (payload : list Z) : World → option (option Z * World) := run (
  match payload with
  | [] => return_ None
  | opcode :: _ =>
      let len n := (length payload =? n)%nat in
      (if opcode =? 0x00 then handle_update_ind payload
       else if opcode =? 0x01 then handle_channel_map_ind payload
       else if (opcode =? 0x02) && len 2%nat then return_ (Some (payload !!! 1%nat))
       else if opcode =? 0x02 then return_ (Some 0x1e)
       else if (opcode =? 0x07) && len 2%nat then
         request ← conn ac_local_param_request;
         when_ ((payload !!! 1%nat =? 0x0f) && bool_decide (is_Some request))
           (abandon_local_request 0x1a)
       else if (opcode =? 0x11) && len 3%nat then
         handle_reject_ext (payload !!! 1%nat) (payload !!! 2%nat)
       else if (opcode =? 0x08) && len 9%nat then
         _ ← call_conn (queue_remote_procedure_response FeatureExchange 0x08
                (0x09 :: Z.land (payload !!! 1%nat) 0x06 :: replicate 7 0));
         mret ()
       else if (opcode =? 0x0c) && len 6%nat then
         _ ← call_conn (queue_remote_procedure_response VersionExchange 0x0c
                [0x0c; 0x09; 0xff; 0xff; 0x00; 0x00]);
         mret ()
       else if opcode =? 0x0f then handle_param_req payload
       else if opcode =? 0x10 then
         _ ← call_conn (queue_control [0x11; 0x10; 0x1e]); mret ()
       else if (opcode =? 0x12) && len 1%nat then
         _ ← call_conn (queue_remote_procedure_response Ping 0x12 [0x13]); mret ()
       else _ ← call_conn (queue_control [0x07; opcode]); mret ());;
      mret None
  end).

(** ** The transmit frame *)

(** [data.llid] and [&data.bytes[..data.len]] of the PDU that was selected. *)
(*! crates/ch58x-ble/src/link_layer.rs 1048-1056 Runner::build_transmit_frame *)
Definition selected_pdu (c : ActiveConnection) : Z * list Z :=
  match match ac_transmitted c with
        | TxControl => ac_pending_control c
        | TxAcl => ac_pending c
        | TxEmpty | TxNone => None
        end with
  | Some data => (pd_llid data, pd_payload data)
  | None => (LLID_CONTINUATION, [])
  end.

(*! crates/ch58x-ble/src/link_layer.rs 1044-1064 Runner::build_transmit_frame *)
Definition build_transmit_frame (c : ActiveConnection) : result () ActiveConnection :=
  c ← (if bool_decide (ac_transmitted c = TxControl) then plan_pending_control_procedure c
       else Ok c);
  let '(llid, payload) := selected_pdu c in
  let frame := <[0%nat := Z.lor (Z.lor llid (Z.shiftl (ac_expected_sn c) 2))
                            (Z.shiftl (ac_transmit_sn c) 3)]> (ac_tx_frame c) in
  let frame := <[1%nat := u8 (Z.of_nat (length payload))]> frame in
  let frame := splice 2 payload frame in
  Ok (c <| ac_tx_frame := frame |> <| ac_tx_frame_len := (length payload + 2)%nat |>
        <| ac_tx_frame_fresh := true |>).

(** What [transmitted] becomes when nothing is selected yet. *)
(*! crates/ch58x-ble/src/link_layer.rs 917-925 Runner::connection_event *)
Definition choose_transmit (c : ActiveConnection) : ActiveConnection :=
  if bool_decide (ac_transmitted c = TxNone) then
    c <| ac_transmitted :=
           if bool_decide (is_Some (ac_pending_control c)) then TxControl
           else if bool_decide (is_Some (ac_pending c)) then TxAcl
           else TxEmpty |>
  else c.

(*! crates/ch58x-ble/src/link_layer.rs 929-933 Runner::connection_event *)
Definition refresh_frame (c : ActiveConnection) : ActiveConnection :=
  c <| ac_tx_frame := <[0%nat :=
         refresh_transmit_sequence_header (ac_tx_frame c !!! 0%nat) (ac_transmit_sn c)
           (ac_expected_sn c)]> (ac_tx_frame c) |>.

(** The frame on its way to the radio: promote, choose, build, refresh. *)
(*! crates/ch58x-ble/src/link_layer.rs 916-933 Runner::connection_event *)
Definition stage_frame : M World (option Z) () :=
  on_conn promote_priority_control_if_idle;;
  on_conn choose_transmit;;
  frame_len ← conn ac_tx_frame_len;
  when_ (frame_len =? 0)%nat (try_conn (λ _, Some 0x1f) build_transmit_frame);;
  on_conn refresh_frame.

(** ** One connection event *)

(** [apply_instants] and the notification of the Host, at both ends of the
    event. *)
(*! crates/ch58x-ble/src/link_layer.rs 899-911 Runner::connection_event *)
Definition apply_and_notify (now : Instant) : M World (option Z) () :=
  applied ← call_conn (apply_instants now);
  flags ← try (λ e, Some e) applied;
  let '(applied, changed) := flags in
  request ← conn ac_local_param_request;
  let notify := changed || (applied && bool_decide (is_Some request)) in
  when_ applied (on_conn (λ c, c <| ac_local_param_request := None |>));;
  when_ notify (emit emit_connection_update_complete).

(** [controller::completed_acl] and [send_acl] on the runner's transport. *)
Definition report_completed (c : ActiveConnection) : Runner → Runner :=
  on_transport (completed_acl (ac_handle c) 1).
Definition deliver_acl (handle_and_flags : Z) (payload : list Z) : Runner → Runner :=
  on_transport (λ t, ignore_error t (send_acl handle_and_flags payload t)).

(** The loop that moves every queued ACL payload one slot forward. *)
(*! crates/ch58x-ble/src/link_layer.rs 995-998 Runner::connection_event *)
Definition advance_acl (c : ActiveConnection) : ActiveConnection :=
  c <| ac_pending := (ac_queued_acl c !!! 0%nat : option PendingData) |>
    <| ac_queued_acl := drop 1 (ac_queued_acl c) ++ [None] |>.

(** The control PDU after an acknowledged one: the paused one first. *)
(*! crates/ch58x-ble/src/link_layer.rs 989-992 Runner::connection_event *)
Definition advance_control (c : ActiveConnection) : ActiveConnection :=
  match ac_priority_control c with
  | Some data => c <| ac_pending_control := Some data |> <| ac_priority_control := None |>
  | None => c <| ac_pending_control := ac_queued_control c |> <| ac_queued_control := None |>
  end.

(*! crates/ch58x-ble/src/link_layer.rs 1003-1006 Runner::connection_event *)
Definition release_frame (c : ActiveConnection) : ActiveConnection :=
  c <| ac_transmitted := TxNone |> <| ac_tx_frame_len := 0%nat |>
    <| ac_tx_frame_fresh := false |> <| ac_transmit_sn := Z.lxor (ac_transmit_sn c) 1 |>.

(** The acknowledgement of the frame on air. *)
(*! crates/ch58x-ble/src/link_layer.rs 979-1007 Runner::connection_event *)
Definition acknowledge (now_ack : Instant) : M World (option Z) () :=
  transmitted ← conn ac_transmitted;
  when_ (bool_decide (transmitted = TxControl))
    (try_conn (λ _, Some 0x1f) (acknowledge_pending_control (instant_as_micros now_ack)));;
  match transmitted with
  | TxControl => on_conn advance_control
  | TxAcl => on_conn advance_acl;; emit report_completed
  | TxEmpty | TxNone => mret ()
  end;;
  on_conn release_frame.

(** Delivery of a new payload. *)
(*! crates/ch58x-ble/src/link_layer.rs 1009-1023 Runner::connection_event *)
Definition accept_payload (header : Z) (payload : list Z) : M World (option Z) (option Z) :=
  on_conn (λ c, c <| ac_expected_sn := Z.lxor (ac_expected_sn c) 1 |>);;
  let llid := Z.land header 0x03 in
  if ((llid =? LLID_CONTINUATION) || (llid =? LLID_START)) && negb (is_empty payload) then
    let flags := if llid =? LLID_CONTINUATION then HCI_PB_CONTINUING
                 else HCI_PB_FIRST_FLUSHABLE in
    emit (λ c, deliver_acl (Z.lor (ac_handle c) flags) payload);;
    mret None
  else if llid =? LLID_CONTROL then
    λ w, match handle_ll_control payload w with
         | Some (terminated, w) => Next terminated w
         | None => Panic
         end
  else mret None.

(** The clock readings of one event: at the two [apply_instants], on reception
    and on acknowledgement. *)
Record EventClock : Type := mkEventClock {
  ck_entry : Instant;
  ck_received : Instant;
  ck_ack : Instant;
  ck_exit : Instant;
}.

(** [received.payload] split into header, length and body, with the checks of
    the length and the LLID. *)
(*! crates/ch58x-ble/src/link_layer.rs 964-972 Runner::connection_event *)
Definition received_pdu (received : ReceivedPacket) : option (Z * Z * list Z) :=
  if negb (rp_crc_ok received) then None
  else
    match rp_payload received with
    | header :: length_ :: body =>
        if (Z.of_nat MAX_DATA_PDU_PAYLOAD <? length_) || (Z.land header 0x03 =? 0) then None
        else if (length body <? Z.to_nat length_)%nat then None
        else Some (header, length_, take (Z.to_nat length_) body)
    | _ => None
    end.

(** The part before the exchange: what the radio is called with. *)
(*! crates/ch58x-ble/src/link_layer.rs 899-936 Runner::connection_event *)
Definition event_setup (clock : EventClock)
  : M World (option Z) (Channel * Instant * Duration * list Z * bool) :=
  apply_and_notify (ck_entry clock);;
  channel ← call_conn_opt next_channel;
  receive_deadline ← conn receive_close;
  timeout ← call_conn take_receive_timeout;
  stage_frame;;
  frame ← conn (λ c, take (ac_tx_frame_len c) (ac_tx_frame c));
  fresh ← conn ac_tx_frame_fresh;
  mret (channel, receive_deadline, timeout, frame, negb fresh).

(** The end of transmission: the procedure that owns the frame moves on. *)
(*! crates/ch58x-ble/src/link_layer.rs 948-955 Runner::connection_event *)
Definition note_transmitted (transmitted : bool) : M World (option Z) () :=
  fresh ← conn ac_tx_frame_fresh;
  kind ← conn ac_transmitted;
  when_ (fresh && transmitted)
    (when_ (bool_decide (kind = TxControl))
       (try_conn (λ _, Some 0x1f) complete_pending_control_transmit);;
     on_conn (λ c, c <| ac_tx_frame_fresh := false |>)).

(*! crates/ch58x-ble/src/link_layer.rs 956-962 Runner::connection_event *)
Definition sent_terminate (transmitted : bool) (c : ActiveConnection) : bool :=
  transmitted && bool_decide (ac_transmitted c = TxControl)
  && local_procedure_active Termination c
  && match ac_pending_control c with
     | Some pdu => pd_bytes pdu !!! 0%nat =? 0x02
     | None => false
     end.

(** The processing of a received PDU; [outstanding] says that the frame was on
    air before this event. *)
(*! crates/ch58x-ble/src/link_layer.rs 973-1042 Runner::connection_event *)
Definition event_received (clock : EventClock) (outstanding terminate : bool)
    (received : ReceivedPacket) (header length_ : Z) (payload : list Z)
  : M World (option Z) (option Z) :=
  on_conn (λ c, c <| ac_last_rssi := rp_rssi_dbm received |>
                  <| ac_supervision_deadline := instant_add (ck_received clock)
                       (duration_from_micros
                          (ci_supervision_timeout (ac_request c) * 10000)) |>);;
  let anchor := saturating_sub64 (rp_timestamp_us received) ((1 + 4 + 2 + length_ + 3) * 8) in
  transmit_sn ← conn ac_transmit_sn;
  when_ (acknowledges_transmit_owner header transmit_sn outstanding false)
    (acknowledge (ck_ack clock));;
  expected_sn ← conn ac_expected_sn;
  terminated ← (if Z.land (Z.shiftr header 3) 1 =? expected_sn
                then accept_payload header payload else mret None);
  apply_and_notify (ck_exit clock);;
  on_conn (synchronize anchor);;
  if terminate then return_ (Some 0x16) else mret terminated.

(** [exchange] is the radio's connection exchange: channel, deadline, timeout
    and frame to what was received and whether the frame went on air. *)
(*! crates/ch58x-ble/src/link_layer.rs 897-1042 Runner::connection_event *)
Definition connection_event (clock : EventClock)
    (exchange : Channel → Instant → Duration → list Z → result Error ExchangeResult)
  : World → option (option Z * World) := run (
  setup ← event_setup clock;
  let '(channel, receive_deadline, timeout, frame, outstanding) := setup in
  result ← try (λ _, None) (exchange channel receive_deadline timeout frame);
  note_transmitted (ex_transmitted result);;
  terminate ← conn (sent_terminate (ex_transmitted result));
  match received_pdu (ex_received result) with
  | None => return_ None
  | Some (header, length_, payload) =>
      event_received clock outstanding terminate (ex_received result) header length_ payload
  end).

End runner.
