(* ===== verification/Loops.v ===== *)
(** * Connected commands, the connection loop and advertising

    Models [handle_connected_command] of
    [crates/ch58x-ble/src/link_layer/hci.rs] and the loops of the [Runner] in
    [crates/ch58x-ble/src/link_layer.rs].  A loop that waits is one function per
    iteration; what it waits for is the input of the iteration. *)

From S2P Require Import Prelude Effects Time Channel Timing ControlPdu Llcp Advertising Hci.
From S2P Require Import Controller Connection Commands Runner.

Section loops.
Context `{!EmbassyTime} `{!RngCore}.

(** ** Commands during a connection *)

(** HCI_Disconnect. *)
(*! crates/ch58x-ble/src/link_layer/hci.rs 201-220 Runner::handle_connected_command *)
Definition command_disconnect (opcode : Z) (params : list Z) : M World bool bool :=
  let handle_ := from_le [params !!! 0%nat; params !!! 1%nat] in
  handle ← conn ac_handle;
  terminating ← conn (local_procedure_active Termination);
  if negb (handle_ =? handle) || terminating then
    status opcode HCI_COMMAND_DISALLOWED;;
    mret false
  else
    queued ← call_conn (queue_local_procedure Termination [0x02; params !!! 2%nat] None None);
    status opcode (if queued : bool then HCI_SUCCESS else HCI_CONTROLLER_BUSY);;
    mret false.

(** HCI_Read_RSSI. *)
(*! crates/ch58x-ble/src/link_layer/hci.rs 221-231 Runner::handle_connected_command *)
Definition command_read_rssi (opcode : Z) (params : list Z) : M World bool bool :=
  handle ← conn ac_handle;
  rssi ← conn ac_last_rssi;
  if negb (from_le [params !!! 0%nat; params !!! 1%nat] =? handle) then
    complete opcode 0x02 params;;
    mret false
  else
    let ret := replicate 3 0 in
    let ret := splice 0 (to_le 2 handle) ret in
    let ret := <[2%nat := u8 rssi]> ret in
    complete opcode HCI_SUCCESS ret;;
    mret false.

(** The [LL_CONNECTION_PARAM_REQ] built from the parameters of the command. *)
(*! crates/ch58x-ble/src/link_layer/hci.rs 259-269 Runner::handle_connected_command *)
Definition param_request_pdu (interval_min interval_max latency timeout event_counter : Z)
  : list Z :=
  let request := mkConnectionParamPdu interval_min interval_max latency timeout 0 event_counter
                   (replicate 6 U16_MAX) in
  param_write request REQUEST_OPCODE (replicate PARAM_PDU_LEN 0).

(** HCI_LE_Connection_Update. *)
(*! crates/ch58x-ble/src/link_layer/hci.rs 232-288 Runner::handle_connected_command *)
Definition command_connection_update (opcode : Z) (params : list Z) : M World bool bool :=
  let handle_ := from_le [params !!! 0%nat; params !!! 1%nat] in
  let interval_min := from_le [params !!! 2%nat; params !!! 3%nat] in
  let interval_max := from_le [params !!! 4%nat; params !!! 5%nat] in
  let latency := from_le [params !!! 6%nat; params !!! 7%nat] in
  let timeout := from_le [params !!! 8%nat; params !!! 9%nat] in
  handle ← conn ac_handle;
  (if negb (handle_ =? handle)
      || negb (connection_parameter_range_is_valid interval_min interval_max latency timeout)
   then status opcode HCI_INVALID_PARAMETERS;; return_ false else mret ());;
  local_request ← conn ac_local_param_request;
  remote_active ← conn remote_connection_parameters_active;
  update ← conn ac_pending_connection_update;
  channel_map ← conn ac_pending_channel_map;
  (if bool_decide (is_Some local_request) || remote_active || bool_decide (is_Some update)
      || bool_decide (is_Some channel_map)
   then status opcode HCI_CONTROLLER_BUSY;; return_ false else mret ());;
  event_counter ← conn ac_event_counter;
  let pdu := param_request_pdu interval_min interval_max latency timeout event_counter in
  queued ← call_conn (queue_local_procedure_request KindConnectionParameters pdu 0x00);
  (if negb queued then status opcode HCI_CONTROLLER_BUSY;; return_ false else mret ());;
  on_conn (λ c, c <| ac_local_param_request :=
     Some (mkLocalConnectionParamRequest interval_min interval_max latency timeout) |>);;
  status opcode HCI_SUCCESS;;
  mret false.

(** True only when the connection must stop at once. *)
(*! crates/ch58x-ble/src/link_layer/hci.rs 185-294 Runner::handle_connected_command *)
Definition handle_connected_command (bytes : list Z) : World → option (bool * World) := run (
  if malformed_command bytes then return_ false
  else
    let opcode := command_opcode bytes in
    let params := command_params bytes in
    if (opcode =? 0x0c03) && is_empty params then
      call_runner (handle_command bytes);;
      mret true
    else if (opcode =? 0x0406) && has_length 3 params then command_disconnect opcode params
    else if (opcode =? 0x1405) && has_length 2 params then command_read_rssi opcode params
    else if (opcode =? 0x2013) && has_length 14 params then
      command_connection_update opcode params
    else
      call_runner (handle_command bytes);;
      mret false).

(** [&packet.bytes[..packet.len]] is [contents packet]. *)
(*! crates/ch58x-ble/src/link_layer.rs 797-817 Runner::process_connected_host_packet *)
Definition process_connected_host_packet (packet : Packet) (w : World)
  : option (bool * World) :=
  match pk_kind packet with
  | AclData =>
      match queue_acl packet (w_conn w) with
      | Ok c => Some (false, w <| w_conn := c |>)
      | Err _ => Some (false, w)
      end
  | Cmd => handle_connected_command (contents packet) w
  | _ => Some (false, w)
  end.

(** ** The connection loop *)

(** [self.emit_disconnection(connection, reason).await; return]: the iteration
    ends the connection. *)
Definition disconnect {A} (reason : Z) : M World bool A :=
  emit (λ c, emit_disconnection c reason);; return_ true.

(** The packets that [try_receive_host_packet] yields, one after another. *)
(*! crates/ch58x-ble/src/link_layer.rs 822-827 Runner::run_connection *)
Fixpoint drain_host_packets (packets : list Packet) : M World bool () :=
  match packets with
  | [] => mret ()
  | packet :: packets =>
      stop ← (λ w, match process_connected_host_packet packet w with
                   | Some (stop, w) => Next stop w
                   | None => Panic
                   end);
      if (stop : bool) then disconnect 0x16 else drain_host_packets packets
  end.

(** Catching up, and the number of events skipped. *)
(*! crates/ch58x-ble/src/link_layer.rs 839-845 Runner::run_connection *)
Definition catch_up (now : Instant) (clock : Z → Instant) : M World bool Z :=
  skipped ← call_conn_opt (skip_expired_events now clock);
  match skipped with
  | Err _ => disconnect 0x08
  | Ok (skipped, notify_update) =>
      when_ notify_update (emit emit_connection_update_complete);;
      mret skipped
  end.

(** What ends the wait of an iteration: a Host packet, or the receive window
    opening, with the clock and the radio of the event. *)
Inductive Wake : Type :=
| WakePacket (packet : Packet)
| WakeOpen (now : Instant) (skip_clock : Z → Instant) (clock : EventClock)
    (exchange : Channel → Instant → Duration → list Z → result Error ExchangeResult).

(** The [select] of the loop. *)
(*! crates/ch58x-ble/src/link_layer.rs 850-893 Runner::run_connection *)
Definition run_wake (wake : Wake) : M World bool bool :=
  match wake with
  | WakePacket packet =>
      drain_host_packets [packet];;
      mret false
  | WakeOpen now skip_clock clock exchange =>
      skipped ← catch_up now skip_clock;
      if negb (skipped =? 0) then mret false
      else
        reason ← (λ w, match connection_event clock exchange w with
                       | Some (reason, w) => Next reason w
                       | None => Panic
                       end);
        match reason with
        | Some reason => disconnect reason
        | None => on_conn schedule_following_event;; mret false
        end
  end.

Record Iteration : Type := mkIteration {
  it_packets : list Packet;
  it_now : Instant;
  it_skip_clock : Z → Instant;
  it_wake : Wake;
}.

(** Between the Host packets and the wait: the deadlines and catching up. True
    when the wait is reached, false when the loop starts over. *)
(*! crates/ch58x-ble/src/link_layer.rs 829-853 Runner::run_connection *)
Definition run_checks (now : Instant) (skip_clock : Z → Instant) : M World bool bool :=
  timed_out ← call_conn (λ c,
    let '(procedures, timed_out) := check_timeouts (ac_procedures c) (instant_as_micros now) 0x22 in
    (timed_out, c <| ac_procedures := procedures |>));
  (if (timed_out : bool) then disconnect 0x22 else mret ());;
  supervision_deadline ← conn ac_supervision_deadline;
  (if negb (instant_ltb now supervision_deadline) then disconnect 0x08 else mret ());;
  skipped ← catch_up now skip_clock;
  if negb (skipped =? 0) then mret false
  else
    open ← conn scheduler_open;
    _ ← unwrap open;
    mret true.

(** One turn of the loop; true when it returned. *)
(*! crates/ch58x-ble/src/link_layer.rs 819-895 Runner::run_connection *)
Definition run_iteration (it : Iteration) : World → option (bool * World) := run (
  drain_host_packets (it_packets it);;
  waiting ← run_checks (it_now it) (it_skip_clock it);
  if (waiting : bool) then run_wake (it_wake it) else mret false).

(** The loop over a sequence of iterations, up to its [return]. *)
(*! crates/ch58x-ble/src/link_layer.rs 819-895 Runner::run_connection *)
Fixpoint run_connection (its : list Iteration) (w : World) : option (bool * World) :=
  match its with
  | [] => Some (false, w)
  | it :: its =>
      match run_iteration it w with
      | Some (false, w) => run_connection its w
      | r => r
      end
  end.

(** ** Advertising *)

(*! crates/ch58x-ble/src/link_layer.rs 700-709 Runner::handle_host_packet *)
Definition handle_host_packet (packet : Packet) (r : Runner) : option (() * Runner) :=
  match pk_kind packet with
  | Cmd => handle_command (contents packet) r
  | _ => Some ((), r)
  end.

(** What a channel of an advertising event is given: nothing, the end of the
    event, or the two PDUs of the exchange.  The buffers are shared by the slots,
    but a builder returns only what it has written. *)
Inductive SlotPlan : Type :=
| SlotSkipped
| SlotAborted
| SlotAdvertised (pdu scan_response : list Z).

(*! crates/ch58x-ble/src/link_layer.rs 715-732 Runner::advertising_event *)
Definition slot_plan (slot : nat) (a : Advertiser) : SlotPlan :=
  if negb (av_channels a !!! slot) || negb (av_enabled a) then SlotSkipped
  else
    match (build_adv_ind (av_address a) (av_data a) (replicate MAX_LEGACY_ADV_PDU_LEN 0)).1 with
    | Err _ => SlotAborted
    | Ok pdu =>
        match (build_scan_rsp (av_address a) (av_scan_response a)
                 (replicate MAX_LEGACY_ADV_PDU_LEN 0)).1 with
        | Err _ => SlotAborted
        | Ok scan_response => SlotAdvertised pdu scan_response
        end
    end.

(** The CONNECT_IND in what was received, with the time of its reception. *)
(*! crates/ch58x-ble/src/link_layer.rs 744-767 Runner::advertising_event *)
Definition slot_received (received : result Error ReceivedPacket) (a : Advertiser)
  : option (ConnectInd * Z) :=
  match received with
  | Err _ => None
  | Ok received =>
      if is_scan_request (rp_payload received) (av_address a) then None
      else
        match rp_payload received with
        | header :: _ =>
            if negb (Z.land header 0x0f =? 0x05) then None
            else if negb (rp_crc_ok received) then None
            else
              match parse_connect_ind_detailed (rp_payload received) (av_address a) with
              | Ok connection => Some (connection, rp_timestamp_us received)
              | Err _ => None
              end
        | [] => None
        end
  end.

(** What one channel of an advertising event leads to: the next channel, the
    end of the event, or a connection. *)
Inductive SlotOutcome : Type :=
| NextSlot
| EndEvent
| Connect (request : ConnectInd) (timestamp_us : Z).

(** The body of the channel loop up to a valid CONNECT_IND. [exchange] is the
    radio's advertising exchange: channel, timeout, PDU, scan response and own
    address to what was received. *)
(*! crates/ch58x-ble/src/link_layer.rs 714-767 Runner::advertising_event *)
Definition advertising_slot (slot : nat) (channel : Channel)
    (exchange : Channel → Duration → list Z → list Z → list Z → result Error ReceivedPacket)
    (a : Advertiser) : SlotOutcome :=
  match slot_plan slot a with
  | SlotSkipped => NextSlot
  | SlotAborted => EndEvent
  | SlotAdvertised pdu scan_response =>
      match slot_received (exchange channel (duration_from_micros 500) pdu scan_response
                             (addr_bytes (av_address a))) a with
      | Some (request, timestamp_us) => Connect request timestamp_us
      | None => NextSlot
      end
  end.

(** A CONNECT_IND takes effect: advertising ends, the radio is tuned to the
    connection, and the Host is told.  [None] when the connection is refused. *)
(*! crates/ch58x-ble/src/link_layer.rs 768-775 Runner::advertising_event *)
Definition open_connection (request : ConnectInd) (timestamp_us : Z) (now : Instant) (r : Runner)
  : option World :=
  match connection_new request timestamp_us now with
  | Err _ => None
  | Ok connection =>
      let r := on_advertiser (λ a, a <| av_enabled := false |>) r in
      let r := set_access_address (ci_access_address (ac_request connection)) r in
      let r := set_crc_init (ci_crc_init (ac_request connection)) r in
      let r := r <| rn_connected := true |> in
      Some (mkWorld (emit_connection_complete connection r) connection)
  end.

(** The radio goes back to the advertising channels. *)
(*! crates/ch58x-ble/src/link_layer.rs 788-790 Runner::advertising_event *)
Definition close_connection (w : World) : Runner :=
  let r := (w_runner w) <| rn_connected := false |> in
  let r := set_access_address ADV_ACCESS_ADDRESS r in
  set_crc_init ADV_CRC_INIT r.

(** The life of the connection that a CONNECT_IND opens.  Iterations that do not
    end the connection are a prefix of its life. *)
(*! crates/ch58x-ble/src/link_layer.rs 768-791 Runner::advertising_event *)
Definition serve_connection (request : ConnectInd) (timestamp_us : Z) (now : Instant)
    (its : list Iteration) (r : Runner) : option (() * Runner) :=
  match open_connection request timestamp_us now r with
  | None => Some ((), r)
  | Some w =>
      match run_connection its w with
      | None => None
      | Some (ended, w) => Some ((), if ended then close_connection w else w_runner w)
      end
  end.

(*! crates/ch58x-ble/src/link_layer.rs 713-794 Runner::advertising_event *)
Fixpoint advertising_slots (slots : list (nat * Channel))
    (exchange : Channel → Duration → list Z → list Z → list Z → result Error ReceivedPacket)
    (now : Instant) (its : list Iteration) (r : Runner) : option (() * Runner) :=
  match slots with
  | [] => Some ((), r)
  | (slot, channel) :: slots =>
      match advertising_slot slot channel exchange (rn_advertiser r) with
      | NextSlot => advertising_slots slots exchange now its r
      | EndEvent => Some ((), r)
      | Connect request timestamp_us => serve_connection request timestamp_us now its r
      end
  end.

(*! crates/ch58x-ble/src/link_layer.rs 711-795 Runner::advertising_event *)
Definition advertising_event
    (exchange : Channel → Duration → list Z → list Z → list Z → result Error ReceivedPacket)
    (now : Instant) (its : list Iteration) (r : Runner) : option (() * Runner) :=
  advertising_slots [(0%nat, ADV_37); (1%nat, ADV_38); (2%nat, ADV_39)] exchange now its r.

(** What wakes the outer loop: a Host packet, or, while advertising is
    enabled, the advertising interval. *)
Inductive IdleWake : Type :=
| IdlePacket (packet : Packet)
| IdleTimer (exchange : Channel → Duration → list Z → list Z → list Z → result Error ReceivedPacket)
    (now : Instant) (its : list Iteration).

(** One turn of the outer loop. A timer cannot fire while advertising is
    disabled, since only the Host queue is awaited then: [None] there stands
    for no turn at all. *)
(*! crates/ch58x-ble/src/link_layer.rs 680-698 Runner::run *)
Definition run_turn (wake : IdleWake) (r : Runner) : option (() * Runner) :=
  match wake with
  | IdlePacket packet => handle_host_packet packet r
  | IdleTimer exchange now its =>
      if av_enabled (rn_advertiser r) then advertising_event exchange now its r else None
  end.

End loops.
