(* ===== verification/Channels.v ===== *)
(** * The bounded queues between Host and controller

    The two [embassy_sync] channels of [crates/ch58x-ble/src/controller.rs], as an
    interface with its laws: a channel of capacity [n] takes a packet exactly
    when it holds fewer than [n], and gives them back in order.  A [send] that
    waits completes when the channel takes its packet. *)

From S2P Require Import Prelude Effects Hci Controller.

(** ** The interface *)

Class BoundedChannel : Type := {
  channel : nat → Type → Type;
  channel_new : ∀ n A, channel n A;
  try_send : ∀ {n A}, A → channel n A → option (channel n A);
  try_receive : ∀ {n A}, channel n A → option (A * channel n A);
  queued : ∀ {n A}, channel n A → list A;
}.

Class BoundedChannelLaws `{!BoundedChannel} : Prop := {
  queued_new : ∀ n A, queued (channel_new n A) = [];
  try_send_queued : ∀ n A (x : A) (c : channel n A),
    match try_send x c with
    | Some c' => (length (queued c) < n)%nat ∧ queued c' = queued c ++ [x]
    | None => (n ≤ length (queued c))%nat
    end;
  try_receive_queued : ∀ n A (c : channel n A),
    match try_receive c with
    | Some (x, c') => queued c = x :: queued c'
    | None => queued c = []
    end;
}.

(** A list no longer than the capacity. *)
Definition fifo_send {A} (n : nat) (x : A) (c : list A) : option (list A) :=
  if (length c <? n)%nat then Some (c ++ [x]) else None.
Definition fifo_receive {A} (c : list A) : option (A * list A) :=
  match c with [] => None | x :: c => Some (x, c) end.

Definition fifo : BoundedChannel := {|
  channel := λ _ A, list A;
  channel_new := λ _ _, [];
  try_send := λ n A, fifo_send n;
  try_receive := λ _ A, fifo_receive;
  queued := λ _ A c, c;
|}.

#[export] Instance fifo_laws : @BoundedChannelLaws fifo.
Proof.
  split; [done| |].
  - intros n A x c. cbn in *. unfold fifo_send. destruct (Nat.ltb_spec (length c) n); auto.
  - intros n A c. by destruct c.
Qed.

(** ** The queues of the transport *)

(*! crates/ch58x-ble/src/controller.rs 58-58 HOST_TO_CONTROLLER_CAPACITY *)
Definition HOST_TO_CONTROLLER_CAPACITY : nat := 1.

(*! crates/ch58x-ble/src/controller.rs 63-63 CONTROLLER_TO_HOST_CAPACITY *)
Definition CONTROLLER_TO_HOST_CAPACITY : nat := 2.

Section queues.
Context `{!BoundedChannel}.

(*! crates/ch58x-ble/src/controller.rs 60-65 HOST_TO_CONTROLLER, CONTROLLER_TO_HOST *)
Record Queues : Type := mkQueues {
  q_host_to_controller : channel HOST_TO_CONTROLLER_CAPACITY Packet;
  q_controller_to_host : channel CONTROLLER_TO_HOST_CAPACITY Packet;
}.
#[global] Instance Queues_eta : Eta Queues := λ q,
  mkQueues (q_host_to_controller q) (q_controller_to_host q).

(*! crates/ch58x-ble/src/controller.rs 60-65 HOST_TO_CONTROLLER, CONTROLLER_TO_HOST *)
Definition queues_new : Queues := mkQueues (channel_new _ _) (channel_new _ _).

(** [HOST_TO_CONTROLLER.receive()], when it completes, and [try_receive]. *)
(*! crates/ch58x-ble/src/controller.rs 161-168 receive_host_packet, try_receive_host_packet *)
Definition try_receive_host_packet (q : Queues) : option (Packet * Queues) :=
  match try_receive (q_host_to_controller q) with
  | Some (packet, inbox) => Some (packet, q <| q_host_to_controller := inbox |>)
  | None => None
  end.

(** [HOST_TO_CONTROLLER.send(packet)], the end of [HciTransport::write]. *)
(*! crates/ch58x-ble/src/controller.rs 148-149 HciTransport::write *)
Definition try_send_host_packet (packet : Packet) (q : Queues) : option Queues :=
  match try_send packet (q_host_to_controller q) with
  | Some inbox => Some (q <| q_host_to_controller := inbox |>)
  | None => None
  end.

(** [CONTROLLER_TO_HOST.receive()], the start of [HciTransport::read]. *)
(*! crates/ch58x-ble/src/controller.rs 122-123 HciTransport::read *)
Definition try_receive_controller_packet (q : Queues) : option (Packet * Queues) :=
  match try_receive (q_controller_to_host q) with
  | Some (packet, outbox) => Some (packet, q <| q_controller_to_host := outbox |>)
  | None => None
  end.

(** The future of [send_controller_packet], polled. *)
(*! crates/ch58x-ble/src/controller.rs 177-179 send_controller_packet *)
Definition try_send_controller_packet (packet : Packet) (q : Queues) : option Queues :=
  match try_send packet (q_controller_to_host q) with
  | Some outbox => Some (q <| q_controller_to_host := outbox |>)
  | None => None
  end.

(** ** What the operations do to the contents *)

Definition inbox (q : Queues) : list Packet := queued (q_host_to_controller q).
Definition outbox (q : Queues) : list Packet := queued (q_controller_to_host q).

Definition bounded (q : Queues) : Prop :=
  (length (inbox q) ≤ HOST_TO_CONTROLLER_CAPACITY)%nat ∧
  (length (outbox q) ≤ CONTROLLER_TO_HOST_CAPACITY)%nat.

Context `{!BoundedChannelLaws}.

Lemma queues_new_empty : inbox queues_new = [] ∧ outbox queues_new = [].
Proof. unfold inbox, outbox. cbn. by rewrite !queued_new. Qed.

Lemma host_packet_sent p q q' : try_send_host_packet p q = Some q' →
  inbox q' = inbox q ++ [p] ∧ outbox q' = outbox q ∧
  (length (inbox q) < HOST_TO_CONTROLLER_CAPACITY)%nat.
Proof.
  unfold try_send_host_packet. pose proof (try_send_queued _ _ p (q_host_to_controller q)) as Hq.
  destruct (try_send _ _); [|done]. intros [= <-]. unfold inbox, outbox. cbn. tauto.
Qed.

Lemma host_packet_received p q q' : try_receive_host_packet q = Some (p, q') →
  inbox q = p :: inbox q' ∧ outbox q' = outbox q.
Proof.
  unfold try_receive_host_packet. pose proof (try_receive_queued _ _ (q_host_to_controller q)) as Hq.
  destruct (try_receive _) as [[x c]|]; [|done]. intros [= <- <-]. unfold inbox, outbox. cbn. tauto.
Qed.

Lemma controller_packet_sent p q q' : try_send_controller_packet p q = Some q' →
  outbox q' = outbox q ++ [p] ∧ inbox q' = inbox q ∧
  (length (outbox q) < CONTROLLER_TO_HOST_CAPACITY)%nat.
Proof.
  unfold try_send_controller_packet.
  pose proof (try_send_queued _ _ p (q_controller_to_host q)) as Hq.
  destruct (try_send _ _); [|done]. intros [= <-]. unfold inbox, outbox. cbn. tauto.
Qed.

Lemma controller_packet_received p q q' : try_receive_controller_packet q = Some (p, q') →
  outbox q = p :: outbox q' ∧ inbox q' = inbox q.
Proof.
  unfold try_receive_controller_packet.
  pose proof (try_receive_queued _ _ (q_controller_to_host q)) as Hq.
  destruct (try_receive _) as [[x c]|]; [|done]. intros [= <- <-]. unfold inbox, outbox. cbn. tauto.
Qed.

(** When the operations complete. *)
Lemma host_packet_sends p q : (length (inbox q) < HOST_TO_CONTROLLER_CAPACITY)%nat →
  is_Some (try_send_host_packet p q).
Proof.
  unfold try_send_host_packet. pose proof (try_send_queued _ _ p (q_host_to_controller q)) as Hq.
  unfold inbox. destruct (try_send _ _); [by eexists|lia].
Qed.

Lemma controller_packet_sends p q : (length (outbox q) < CONTROLLER_TO_HOST_CAPACITY)%nat →
  is_Some (try_send_controller_packet p q).
Proof.
  unfold try_send_controller_packet.
  pose proof (try_send_queued _ _ p (q_controller_to_host q)) as Hq.
  unfold outbox. destruct (try_send _ _); [by eexists|lia].
Qed.

Lemma host_packet_waits q : try_receive_host_packet q = None ↔ inbox q = [].
Proof.
  unfold try_receive_host_packet. pose proof (try_receive_queued _ _ (q_host_to_controller q)) as Hq.
  unfold inbox. destruct (try_receive _) as [[x c]|]; [rewrite Hq|]; done.
Qed.

Lemma controller_packet_waits q : try_receive_controller_packet q = None ↔ outbox q = [].
Proof.
  unfold try_receive_controller_packet.
  pose proof (try_receive_queued _ _ (q_controller_to_host q)) as Hq.
  unfold outbox. destruct (try_receive _) as [[x c]|]; [rewrite Hq|]; done.
Qed.

End queues.
