(* ===== verification/ConnectionInv.v ===== *)
(** * The invariant of an active connection

    A well-formedness invariant of [ActiveConnection], and its preservation by
    every operation on the connection. *)

From S2P Require Import Prelude Effects Time Channel Timing Sequence ControlPdu Llcp Advertising.
From S2P Require Import Hci Controller Connection Commands Runner.

Definition opt_ok {A} (P : A → Prop) (o : option A) : Prop :=
  match o with Some a => P a | None => True end.

(** A queued PDU: its buffer, its length and its LLID. *)
Record pd_ok (d : PendingData) : Prop := mk_pd_ok {
  pd_ok_buffer : length (pd_bytes d) = MAX_DATA_PDU_PAYLOAD;
  pd_ok_bytes : bytes_ok (pd_bytes d);
  pd_ok_len : (pd_len d ≤ MAX_DATA_PDU_PAYLOAD)%nat;
  pd_ok_llid : 1 ≤ pd_llid d ≤ 3;
}.

(** A queued control PDU. *)
Definition ctl_ok (d : PendingData) : Prop := pd_ok d ∧ pd_llid d = LLID_CONTROL.

(** A pending procedure with an instant that has not passed. *)
Definition update_ok (event_counter : Z) (u : ConnectionUpdateInd) : Prop :=
  update_fits u ∧
  timing_spec (cu_window_size u) (cu_window_offset u) (cu_interval u) (cu_latency u)
    (cu_supervision_timeout u) ∧
  classify_instant event_counter (cu_instant u) ≠ Passed.
Definition map_ok (event_counter : Z) (m : ChannelMapInd) : Prop :=
  wf_map (cm_map m) ∧ is_u16 (cm_instant m) ∧ data_channel_map_is_valid (cm_map m) = true ∧
  classify_instant event_counter (cm_instant m) ≠ Passed.

(** The timing parameters in force. *)
Definition request_ok (r : ConnectInd) : Prop :=
  timing_spec (ci_window_size r) (ci_window_offset r) (ci_interval r) (ci_latency r)
    (ci_supervision_timeout r).

(** The waiting ACL payloads fill the slots from the front. *)
Definition slots_of (l : list PendingData) : list (option PendingData) :=
  (Some <$> l) ++ replicate (ACL_QUEUE_CAPACITY - length l) None.

(** The Data Channel header built for a frame. *)
Definition data_header (llid nesn sn : Z) : Z :=
  Z.lor (Z.lor llid (Z.shiftl nesn 2)) (Z.shiftl sn 3).

Section invariant.
Context `{!EmbassyTime} `{!RngCore}.

Definition acl_ok (pending : option PendingData) (slots : list (option PendingData)) : Prop :=
  ∃ l, slots = slots_of l ∧ (length l ≤ ACL_QUEUE_CAPACITY)%nat ∧ (pending = None → l = []) ∧
       opt_ok pd_ok pending ∧ Forall pd_ok l.

(** What is selected for transmission exists. *)
Definition owner_ok (c : ActiveConnection) : Prop :=
  match ac_transmitted c with
  | TxControl => is_Some (ac_pending_control c)
  | TxAcl => is_Some (ac_pending c)
  | TxEmpty => True
  | TxNone => ac_tx_frame_len c = 0%nat
  end.

(** A staged frame is the image of the selected PDU: a header with its LLID,
    some NESN and the connection's SN, its length and its payload. *)
Definition frame_image (c : ActiveConnection) : Prop :=
  ac_tx_frame_len c = 0%nat ∨
  ∃ nesn, is_sn nesn ∧ ac_tx_frame_len c = (length (selected_pdu c).2 + 2)%nat ∧
    take (ac_tx_frame_len c) (ac_tx_frame c) =
      data_header (selected_pdu c).1 nesn (ac_transmit_sn c)
      :: Z.of_nat (length (selected_pdu c).2) :: (selected_pdu c).2.

Record conn_ok (c : ActiveConnection) : Prop := mk_conn_ok {
  ok_handle : 0 ≤ ac_handle c < 0x1000;
  ok_request : request_ok (ac_request c);
  ok_channels : cs_ok (ac_channels c);
  ok_counter : is_u16 (ac_event_counter c);
  ok_transmit_sn : is_sn (ac_transmit_sn c);
  ok_expected_sn : is_sn (ac_expected_sn c);
  ok_acl : acl_ok (ac_pending c) (ac_queued_acl c);
  ok_control : opt_ok ctl_ok (ac_pending_control c);
  ok_priority : ac_priority_control c = None;
  ok_queued : opt_ok ctl_ok (ac_queued_control c);
  ok_frame : length (ac_tx_frame c) = MAX_DATA_PDU_WIRE_LEN;
  ok_owner : owner_ok c;
  ok_image : frame_image c;
  ok_update : opt_ok (update_ok (ac_event_counter c)) (ac_pending_connection_update c);
  ok_map : opt_ok (map_ok (ac_event_counter c)) (ac_pending_channel_map c);
}.

(** No instant is due: both pending instants are in the future. *)
Definition settled (c : ActiveConnection) : Prop :=
  due_update c = None ∧ due_channel_map c = None.

(** ** Headers *)

Lemma data_header_byte llid nesn sn : 1 ≤ llid ≤ 3 → is_sn nesn → is_sn sn →
  is_u8 (data_header llid nesn sn).
Proof.
  intros Hl [-> | ->] [-> | ->]; assert (llid = 1 ∨ llid = 2 ∨ llid = 3) as [-> | [-> | ->]] by lia;
    done.
Qed.

Lemma refresh_data_header llid nesn sn expected : 1 ≤ llid ≤ 3 → is_sn nesn → is_sn sn →
  is_sn expected →
  refresh_transmit_sequence_header (data_header llid nesn sn) sn expected =
    data_header llid expected sn.
Proof.
  intros Hl [-> | ->] [-> | ->] [-> | ->];
    assert (llid = 1 ∨ llid = 2 ∨ llid = 3) as [-> | [-> | ->]] by lia; done.
Qed.

Lemma flip_sn x : is_sn x → is_sn (Z.lxor x 1).
Proof. intros [-> | ->]; [by right|by left]. Qed.

(** ** Queues *)

Lemma length_slots_of l : (length l ≤ ACL_QUEUE_CAPACITY)%nat →
  length (slots_of l) = ACL_QUEUE_CAPACITY.
Proof. intros. unfold slots_of. rewrite length_app, length_fmap, length_replicate. lia. Qed.

(** The first empty slot is the one behind the last payload. *)
Lemma fill_slots_of d l : (length l ≤ ACL_QUEUE_CAPACITY)%nat →
  fill_first_empty d (slots_of l) =
    if (length l <? ACL_QUEUE_CAPACITY)%nat then Some (slots_of (l ++ [d])) else None.
Proof.
  unfold slots_of. generalize ACL_QUEUE_CAPACITY as n. intros n. revert n.
  induction l as [|x l IH]; intros n Hn.
  - destruct n as [|n]; [done|]. cbn. by rewrite Nat.sub_0_r.
  - destruct n as [|n]; [cbn in Hn; lia|]. cbn [fmap list_fmap length app fill_first_empty].
    rewrite Nat.sub_succ, IH by (cbn in Hn; lia).
    change (S (length l) <? S n)%nat with (length l <? n)%nat.
    by destruct (length l <? n)%nat.
Qed.

Lemma advance_slots_of l : (length l ≤ ACL_QUEUE_CAPACITY)%nat →
  slots_of l !!! 0%nat = head l ∧ drop 1 (slots_of l) ++ [None] = slots_of (tail l).
Proof.
  intros Hl. unfold slots_of. destruct l as [|x l]; [done|]. split; [done|].
  cbn [fmap list_fmap app drop tail length]. rewrite drop_0, <- app_assoc. f_equal.
  cbn [length] in Hl. rewrite <- replicate_S_end. f_equal. lia.
Qed.

Lemma pd_ok_make bytes llid token : bytes_ok bytes →
  (length bytes ≤ MAX_DATA_PDU_PAYLOAD)%nat → 1 ≤ llid ≤ 3 →
  let d := mkPendingData (splice 0 bytes (replicate MAX_DATA_PDU_PAYLOAD 0)) (length bytes)
             llid token in
  pd_ok d ∧ pd_payload d = bytes.
Proof.
  intros Hok Hlen Hl. cbn zeta. unfold pd_payload. cbn [pd_len pd_bytes].
  assert (bytes_ok (replicate MAX_DATA_PDU_PAYLOAD 0)) by (apply Forall_replicate; done).
  split.
  - split; cbn [pd_len pd_bytes pd_llid]; [|by apply bytes_ok_splice|done|done].
    rewrite length_splice; [by rewrite length_replicate|].
    rewrite length_replicate. lia.
  - unfold splice. rewrite take_0. cbn [app]. by rewrite take_app_length.
Qed.

Lemma pd_payload_length d : pd_ok d → length (pd_payload d) = pd_len d.
Proof. intros [Hb _ Hl _]. unfold pd_payload. rewrite length_take. lia. Qed.

Lemma pd_payload_ok d : pd_ok d → bytes_ok (pd_payload d).
Proof. intros [_ Hb _ _]. by apply Forall_take. Qed.

(** ** Operations outside the invariant

    Updates of fields that the invariant does not mention. *)

Ltac conn_frame := intros []; split; done.

Lemma ok_procedures c m : conn_ok c → conn_ok (c <| ac_procedures := m |>).
Proof. conn_frame. Qed.
Lemma ok_local_request c r : conn_ok c → conn_ok (c <| ac_local_param_request := r |>).
Proof. conn_frame. Qed.
Lemma ok_control_token c n : conn_ok c → conn_ok (c <| ac_next_control_owner_token := n |>).
Proof. conn_frame. Qed.
Lemma ok_window c n : conn_ok c → conn_ok (c <| ac_receive_window_size_us := n |>).
Proof. conn_frame. Qed.
Lemma ok_synchronize c us : conn_ok c → conn_ok (synchronize us c).
Proof. conn_frame. Qed.
Lemma ok_fresh c b : conn_ok c → conn_ok (c <| ac_tx_frame_fresh := b |>).
Proof. conn_frame. Qed.
Lemma ok_received c rssi d :
  conn_ok c → conn_ok (c <| ac_last_rssi := rssi |> <| ac_supervision_deadline := d |>).
Proof. conn_frame. Qed.
Lemma ok_flip_expected c :
  conn_ok c → conn_ok (c <| ac_expected_sn := Z.lxor (ac_expected_sn c) 1 |>).
Proof. intros []; split; try done. by apply flip_sn. Qed.

(** ** Control queue *)

Lemma ok_control_free c d : conn_ok c → ac_pending_control c = None → opt_ok ctl_ok d →
  conn_ok (c <| ac_pending_control := d |>).
Proof.
  intros [] Hnone Hd. split; try done.
  - unfold owner_ok in *. cbn. destruct (ac_transmitted c); try done.
    rewrite Hnone in *. by destruct ok_owner0.
  - unfold frame_image, selected_pdu, owner_ok in *. cbn.
    destruct (ac_transmitted c); try done. rewrite Hnone in *. by destruct ok_owner0.
Qed.

Lemma ok_queued_control c d : conn_ok c → opt_ok ctl_ok d →
  conn_ok (c <| ac_queued_control := d |>).
Proof. intros [] Hd. by split. Qed.

Lemma ok_queue_control_with_token c bytes token :
  conn_ok c → bytes_ok bytes → conn_ok (queue_control_with_token bytes token c).2.
Proof.
  intros Hc Hb. unfold queue_control_with_token.
  destruct (Nat.ltb_spec MAX_DATA_PDU_PAYLOAD (length bytes)); [done|].
  destruct (pd_ok_make bytes LLID_CONTROL (pt_owner_token token) Hb) as [Hd _]; [lia|done|].
  set (d := mkPendingData _ _ _ _) in *.
  assert (ctl_ok d) by by split.
  repeat case_bool_decide; cbn [snd]; auto using ok_control_free, ok_queued_control.
Qed.

Lemma ok_queue_control c bytes : conn_ok c → bytes_ok bytes → conn_ok (queue_control bytes c).2.
Proof.
  intros Hc Hb. unfold queue_control, queue_control_owned, allocate_control_token.
  apply (ok_control_token c (Z.lor (u32 (ac_next_control_owner_token c + 1)) 0x80000000)) in Hc.
  destruct (queue_control_with_token bytes _ _) as [q c'] eqn:E.
  cbn [fst snd]. change c' with (q, c').2. rewrite <- E.
  by apply ok_queue_control_with_token.
Qed.

Lemma with_procedures_inv c r c' : with_procedures c r = Ok c' →
  ∃ m, r = Ok m ∧ c' = c <| ac_procedures := m |>.
Proof. unfold with_procedures. destruct r; [|done]. intros [= <-]. eauto. Qed.

Lemma ok_with_procedures c r c' : conn_ok c → with_procedures c r = Ok c' → conn_ok c'.
Proof. intros Hc (m & _ & ->)%with_procedures_inv. by apply ok_procedures. Qed.

Lemma ok_fail_procedure c i e : conn_ok c → conn_ok (fail_procedure i e c).
Proof.
  intros Hc. unfold fail_procedure. destruct (with_procedures _ _) eqn:E; [|done].
  by eapply ok_with_procedures.
Qed.

Lemma ok_allocate c : conn_ok c → conn_ok (allocate_control_token c).2.
Proof. apply ok_control_token. Qed.

Lemma on_pending_control_inv c f c' : on_pending_control f c = Ok c' →
  ∃ m, c' = c <| ac_procedures := m |>.
Proof.
  assert (∃ m, c = c <| ac_procedures := m |>) as Hsame.
  { exists (ac_procedures c). by destruct c. }
  unfold on_pending_control.
  destruct (ac_pending_control c); [|by intros [= <-]].
  destruct (procedure_for_control_owner _ _) as [[i t]|]; [|by intros [= <-]].
  destruct (with_procedures c (f i t)) as [c1|] eqn:E; cbn; [|done].
  intros [= <-]. apply with_procedures_inv in E as (m & _ & ->). eauto.
Qed.

Lemma collision_byte m context e : start_remote m context = Err (Collision e) → is_u8 e.
Proof.
  assert (∀ a b, is_u8 (procedure_collision_error a b)) as Hbyte by (by intros [] []).
  assert (∀ k1 k2, collision k1 k2 = Collision e → is_u8 e) as Hcol.
  { intros k1 k2. unfold collision. repeat case_match; try done. intros [= <-]. apply Hbyte. }
  unfold start_remote. repeat case_match; try done; intros [= Hc]; by eapply Hcol.
Qed.

Lemma with_procedures_err c r e : with_procedures c r = Err e → r = Err e.
Proof. unfold with_procedures. destruct r; [done|]. by intros [= ->]. Qed.

Lemma ok_reject c a b e : conn_ok c → is_u8 a → is_u8 b → is_u8 e →
  conn_ok (queue_control [a; b; e] c).2.
Proof. intros. apply ok_queue_control; [done|]. by solve_forall. Qed.

Lemma ok_queue_remote_response c kind op response expected timeout :
  conn_ok c → bytes_ok response → is_u8 op →
  conn_ok (queue_remote_procedure_response_with_followup kind op response expected timeout c).2.
Proof.
  intros Hc Hb Hop. unfold queue_remote_procedure_response_with_followup.
  destruct response as [|response_opcode response]; [done|].
  unfold allocate_control_token. apply ok_allocate in Hc. unfold allocate_control_token in Hc.
  cbn [snd] in Hc. revert Hc. set (c1 := c <| ac_next_control_owner_token := _ |>). intros Hc.
  destruct (with_procedures c1 _) as [c2|e] eqn:E.
  - apply ok_with_procedures in E; [|done].
    destruct (with_procedures c2 _) as [c3|] eqn:E3; [|by apply ok_fail_procedure].
    apply ok_with_procedures in E3; [|done].
    destruct (queue_control_with_token _ _ c3) as [q c4] eqn:E4.
    assert (conn_ok c4). { change c4 with (q, c4).2. rewrite <- E4.
      by apply ok_queue_control_with_token. }
    destruct q; [done|by apply ok_fail_procedure].
  - apply with_procedures_err in E. destruct e; try by apply ok_reject.
    apply collision_byte in E. by apply ok_reject.
Qed.

Lemma ok_queue_local_procedure c kind request expected timeout :
  conn_ok c → bytes_ok request →
  conn_ok (queue_local_procedure kind request expected timeout c).2.
Proof.
  intros Hc Hb. unfold queue_local_procedure. destruct request as [|op request]; [done|].
  apply ok_allocate in Hc. destruct (allocate_control_token c) as [token c1]. cbn [snd] in Hc.
  destruct (with_procedures c1 _) as [c2|] eqn:E; [|done].
  apply ok_with_procedures in E; [|done].
  destruct (queue_control_with_token _ _ c2) as [q c3] eqn:E3.
  assert (conn_ok c3). { change c3 with (q, c3).2. rewrite <- E3.
    by apply ok_queue_control_with_token. }
  destruct q; [done|by apply ok_fail_procedure].
Qed.

Lemma ok_start_remote_instant c kind op instant : conn_ok c →
  conn_ok (start_remote_instant_procedure kind op instant c).2.
Proof.
  intros Hc. unfold start_remote_instant_procedure.
  apply ok_allocate in Hc. destruct (allocate_control_token c) as [token c1]. cbn [snd] in Hc.
  destruct (with_procedures c1 _) as [c2|[]] eqn:E; try done. by eapply ok_with_procedures.
Qed.

(** The error of a refused instant procedure is one octet. *)
Lemma start_remote_instant_error c kind op instant e :
  (start_remote_instant_procedure kind op instant c).1 = Err e → is_u8 e.
Proof.
  unfold start_remote_instant_procedure. destruct (allocate_control_token c) as [token c1].
  destruct (with_procedures c1 _) as [c2|[]] eqn:E; try done; try by intros [= <-].
  intros [= <-]. apply with_procedures_err in E. by eapply collision_byte.
Qed.

(** ** ACL queue *)

Lemma le16_of_bytes l i : bytes_ok l → (S i < length l)%nat → is_u16 (le16 l i).
Proof. apply le16_fits. Qed.

(** An accepted packet becomes the last of the waiting payloads. *)
Lemma queue_acl_ok packet c c' : conn_ok c → bytes_ok (pk_bytes packet) →
  length (pk_bytes packet) = HCI_PACKET_CAPACITY → queue_acl packet c = Ok c' → conn_ok c'.
Proof.
  intros Hc Hb Hlen. unfold queue_acl.
  destruct (pk_len packet <? 4)%nat; [done|].
  set (len := Z.to_nat (le16 (pk_bytes packet) 2)).
  destruct (_ || _) eqn:Hg; [done|]. bool_to_prop.
  match goal with H : (_ <? _)%nat = false |- _ => apply Nat.ltb_ge in H end.
  set (llid := if _ =? 1 then _ else _).
  assert (1 ≤ llid ≤ 3) as Hllid by (subst llid; case_match; done).
  assert (length (slice 4 (4 + len) (pk_bytes packet)) = len) as Hs.
  { rewrite length_slice by (rewrite Hlen; unfold MAX_DATA_PDU_PAYLOAD, ACL_PAYLOAD_LEN,
      HCI_PACKET_CAPACITY in *; lia). lia. }
  destruct (pd_ok_make (slice 4 (4 + len) (pk_bytes packet)) llid (ac_next_acl_owner_token c))
    as [Hd _]; [by apply bytes_ok_slice|by rewrite Hs|done|]. rewrite Hs in Hd.
  set (d := mkPendingData _ len _ _) in *. clearbody d llid len.
  destruct Hc. destruct ok_acl0 as (l & Hl & Hcap & Hempty & Hp & Hall).
  destruct (ac_pending c) as [p|] eqn:Hpend.
  - rewrite Hl, fill_slots_of by done. destruct (Nat.ltb_spec (length l) ACL_QUEUE_CAPACITY); [|done].
    intros [= <-]. split; try done.
    cbn. exists (l ++ [d]). rewrite length_app, Hpend. cbn [length]. split_and!; try done; [lia|].
    apply Forall_app. split; [done|]. by apply Forall_singleton.
  - intros [= <-]. rewrite Hempty in * by done. split; try done.
    + exists []. by split_and!.
    + unfold owner_ok in *. cbn. destruct (ac_transmitted c); try done.
    + unfold frame_image, selected_pdu, owner_ok in *. cbn in *.
      destruct (ac_transmitted c); try done. rewrite Hpend in ok_owner0. by destruct ok_owner0.
Qed.

(** ** Instants and anchors *)

Lemma due_update_spec c u : due_update c = Some u ↔
  ac_pending_connection_update c = Some u ∧ cu_instant u = ac_event_counter c.
Proof.
  unfold due_update. destruct (ac_pending_connection_update c) as [v|]; [|naive_solver].
  destruct (Z.eqb_spec (cu_instant v) (ac_event_counter c)); naive_solver.
Qed.

Lemma due_channel_map_spec c m : due_channel_map c = Some m ↔
  ac_pending_channel_map c = Some m ∧ cm_instant m = ac_event_counter c.
Proof.
  unfold due_channel_map. destruct (ac_pending_channel_map c) as [v|]; [|naive_solver].
  destruct (Z.eqb_spec (cm_instant v) (ac_event_counter c)); naive_solver.
Qed.

(** The identity of the current event: its number and the phase of the channel
    hopping; and that of the following event. *)
Definition event_id (c : ActiveConnection) : Z * Z * Z :=
  (ac_event_counter c, cs_last_unmapped (ac_channels c), cs_hop (ac_channels c)).
Definition next_phase (id : Z * Z * Z) : Z * Z * Z :=
  let '(n, u, hop) := id in (n, (u + hop) mod 37, hop).
Definition next_number (id : Z * Z * Z) : Z * Z * Z :=
  let '(n, u, hop) := id in (u16 (n + 1), u, hop).

(** [update_map] accepts a pending map, so [apply_instants] has no error. *)
Lemma apply_channel_map_ok c : conn_ok c → ∃ c',
  apply_channel_map c = Ok c' ∧ conn_ok c' ∧ due_channel_map c' = None ∧
  due_update c' = due_update c ∧ event_id c' = event_id c.
Proof.
  intros Hc. unfold apply_channel_map. destruct (due_channel_map c) as [m|] eqn:Hdue; [|by exists c].
  apply due_channel_map_spec in Hdue as [Hm Hinst]. pose proof (ok_map _ Hc) as Hmap.
  rewrite Hm in Hmap. destruct Hmap as (Hwf & _ & Hv & _).
  assert (∃ s, cs_update_map (ac_channels c) (cm_map m) = Ok s) as [s Hs].
  { unfold cs_update_map. rewrite Hv. cbn [negb]. case_match. eauto. }
  destruct (cs_update_map_ok _ _ s (ok_channels _ Hc) Hwf Hs) as (Hok & _ & Hhop & Hlast).
  rewrite Hs. cbn [mbind result_bind map_err]. eexists. split; [done|].
  split; [destruct Hc; by split|]. split; [done|]. split; [done|].
  unfold event_id. cbn. by rewrite Hhop, Hlast.
Qed.

(** What is queued, staged and numbered for transmission. *)
Definition tx_view (c : ActiveConnection) :=
  ((ac_handle c, ac_transmit_sn c, ac_expected_sn c), (ac_pending c, ac_queued_acl c),
   (ac_pending_control c, ac_priority_control c, ac_queued_control c),
   (ac_transmitted c, ac_tx_frame c, ac_tx_frame_len c, ac_tx_frame_fresh c)).

Lemma apply_channel_map_view c c' : apply_channel_map c = Ok c' → tx_view c' = tx_view c.
Proof.
  unfold apply_channel_map. destruct (due_channel_map c); [|by intros [= <-]].
  destruct (map_err _ _); [|done]. by intros [= <-].
Qed.

Lemma apply_update_ok now c : conn_ok c →
  let '(_, c') := apply_update now c in
  conn_ok c' ∧ due_update c' = None ∧ due_channel_map c' = due_channel_map c ∧
  event_id c' = event_id c ∧ tx_view c' = tx_view c.
Proof.
  intros Hc. unfold apply_update. destruct (due_update c) as [u|] eqn:Hdue; [|done].
  apply due_update_spec in Hdue as [Hu Hinst]. pose proof (ok_update _ Hc) as Hup.
  rewrite Hu in Hup. destruct Hup as (_ & Htime & _).
  split_and!; try done. destruct Hc. by split.
Qed.

(** The timing parameters in force, and those of an update. *)
Definition timing_in_force (c : ActiveConnection) :=
  let r := ac_request c in
  (ci_window_size r, ci_window_offset r, ci_interval r, ci_latency r, ci_supervision_timeout r).
Definition update_timing (u : ConnectionUpdateInd) :=
  (cu_window_size u, cu_window_offset u, cu_interval u, cu_latency u, cu_supervision_timeout u).

(** [waits c c']: on the same event, a procedure whose instant is not due keeps
    waiting, and what it will replace stays in force. *)
Definition waits (c c' : ActiveConnection) : Prop :=
  ac_event_counter c' = ac_event_counter c ∧
  (∀ u, ac_pending_connection_update c = Some u → cu_instant u ≠ ac_event_counter c →
     ac_pending_connection_update c' = Some u ∧ timing_in_force c' = timing_in_force c) ∧
  (∀ m, ac_pending_channel_map c = Some m → cm_instant m ≠ ac_event_counter c →
     ac_pending_channel_map c' = Some m ∧ cs_map (ac_channels c') = cs_map (ac_channels c)).

#[global] Instance waits_preorder : PreOrder waits.
Proof.
  split; [done|]. intros c1 c2 c3 (N12 & U12 & M12) (N23 & U23 & M23).
  split; [congruence|]. split.
  - intros u Hu Hne. destruct (U12 u Hu Hne) as [Hu2 <-]. apply U23; congruence.
  - intros m Hm Hne. destruct (M12 m Hm Hne) as [Hm2 <-]. apply M23; congruence.
Qed.

Lemma waits_same c c' : ac_event_counter c' = ac_event_counter c →
  ac_pending_connection_update c' = ac_pending_connection_update c →
  ac_pending_channel_map c' = ac_pending_channel_map c →
  timing_in_force c' = timing_in_force c → cs_map (ac_channels c') = cs_map (ac_channels c) →
  waits c c'.
Proof. intros Hn Hu Hm Ht Hs. split; [done|]. rewrite Hu, Hm, Ht, Hs. done. Qed.

(** What applying the instants achieves. *)
Definition apply_post (c c' : ActiveConnection) : Prop :=
  waits c c' ∧
  (∀ u, due_update c = Some u →
     timing_in_force c' = update_timing u ∧ ac_pending_connection_update c' = None ∧
     ac_receive_window_size_us c' = cu_window_size u * 1250) ∧
  (∀ m, due_channel_map c = Some m →
     cs_map (ac_channels c') = cm_map m ∧ ac_pending_channel_map c' = None).

(** What applying the instants does to them: a due one takes effect, another
    one keeps waiting. *)
Lemma apply_instants_effect now c flags c' : apply_instants now c = (Ok flags, c') →
  apply_post c c'.
Proof.
  unfold apply_instants. destruct (apply_channel_map c) as [c1|] eqn:E1; [|done].
  destruct (apply_update now c1) as [flags' c2] eqn:E2. intros [= -> <-].
  assert (waits c c1 ∧ due_update c1 = due_update c ∧
    (∀ m, due_channel_map c = Some m →
       cs_map (ac_channels c1) = cm_map m ∧ ac_pending_channel_map c1 = None)) as (Hw1 & Hdue & Hmap).
  { revert E1. unfold apply_channel_map. destruct (due_channel_map c) as [m|] eqn:Hm.
    - apply due_channel_map_spec in Hm as [Hm Hi]. unfold cs_update_map.
      destruct (negb _); [done|]. destruct (collect_used _) as [used n]. cbn.
      intros [= <-]. split; [|split; [done|by intros ? [= <-]]].
      split; [done|]. split; [done|]. intros m' Hm' Hne. cbn in *. congruence.
    - intros [= <-]. done. }
  assert (waits c1 c2 ∧ (∀ u, due_update c1 = Some u →
     timing_in_force c2 = update_timing u ∧ ac_pending_connection_update c2 = None ∧
     ac_receive_window_size_us c2 = cu_window_size u * 1250) ∧
     ac_pending_channel_map c2 = ac_pending_channel_map c1 ∧ ac_channels c2 = ac_channels c1)
    as (Hw2 & Hup & Hm2 & Hch2).
  { revert E2. unfold apply_update. destruct (due_update c1) as [u|] eqn:Hu; intros [= _ <-]; [|done].
    apply due_update_spec in Hu as [Hu Hi].
    split; [|split; [by intros ? [= <-]|done]].
    split; [done|]. split; [|done]. intros u' Hu' Hne. cbn in *. congruence. }
  split; [etrans; [exact Hw1|]; etrans; [exact Hw2|by apply waits_same]|]. split.
  - intros u Hu. apply Hup. by rewrite Hdue.
  - intros m Hm. destruct (Hmap m Hm) as [H1 H2]. cbn. by rewrite Hch2, Hm2.
Qed.

(** Applying the instants never fails, and leaves none due. *)
Lemma apply_instants_ok now c : conn_ok c → ∃ flags c',
  apply_instants now c = (Ok flags, c') ∧ conn_ok c' ∧ settled c' ∧
  event_id c' = event_id c ∧ tx_view c' = tx_view c.
Proof.
  intros Hc. destruct (apply_channel_map_ok c Hc) as (c1 & E1 & Hc1 & Hmap & Hdue & Hcnt).
  unfold apply_instants. rewrite E1. pose proof (apply_update_ok now c1 Hc1) as Hup.
  destruct (apply_update now c1) as [flags c2]. destruct Hup as (Hc2 & Hu & Hm & Hcnt2 & Hv).
  exists flags. eexists. split; [done|]. split; [by apply ok_procedures|].
  split; [split; [exact Hu|etrans; [exact Hm|done]]|]. split.
  - etrans; [exact Hcnt2|done].
  - etrans; [exact Hv|]. by apply apply_channel_map_view.
Qed.

Lemma not_passed_next counter i : is_u16 counter → is_u16 i →
  classify_instant counter i ≠ Passed → i ≠ counter →
  classify_instant (u16 (counter + 1)) i ≠ Passed.
Proof.
  intros Hc Hi Hp Hne. pose proof (instant_advance counter i Hc Hi) as Hadv.
  destruct (classify_instant counter i) eqn:E; [|rewrite Hadv; by case_decide|done].
  rewrite classify_instant_spec in E by done. cbn zeta in E.
  repeat case_decide; try done. exfalso. int_lia.
Qed.

Lemma schedule_view c : tx_view (schedule_following_event c) = tx_view c.
Proof. unfold schedule_following_event. by case_match. Qed.

Lemma schedule_event_id c : event_id (schedule_following_event c) = next_number (event_id c).
Proof. unfold schedule_following_event. by case_match. Qed.

Lemma schedule_ok c : conn_ok c → settled c → conn_ok (schedule_following_event c).
Proof.
  intros Hc [Hu Hm].
  assert (conn_ok (c <| ac_event_counter := u16 (ac_event_counter c + 1) |>)) as Hok.
  { destruct Hc. split; try done; cbn.
    - by apply wrap_fits.
    - destruct (ac_pending_connection_update c) as [u|] eqn:E; [|done].
      destruct ok_update0 as (Hf & Ht & Hp). split_and!; try done.
      apply not_passed_next; try done; [apply Hf|]. intros Heq.
      by rewrite (proj2 (due_update_spec c u)) in Hu.
    - destruct (ac_pending_channel_map c) as [m|] eqn:E; [|done].
      destruct ok_map0 as (Hw & Hi & Hv & Hp). split_and!; try done.
      apply not_passed_next; try done. intros Heq.
      by rewrite (proj2 (due_channel_map_spec c m)) in Hm. }
  unfold schedule_following_event. case_match; destruct Hok; by split.
Qed.

Lemma next_channel_ok c : conn_ok c → ∃ channel c',
  next_channel c = Some (channel, c') ∧ conn_ok c' ∧ tx_view c' = tx_view c ∧
  due_update c' = due_update c ∧ due_channel_map c' = due_channel_map c ∧
  event_id c' = next_phase (event_id c) ∧ waits c c' ∧
  index channel = csa1_remap (cs_map (ac_channels c')) (cs_last_unmapped (ac_channels c')) ∧
  ac_request c' = ac_request c ∧ cs_map (ac_channels c') = cs_map (ac_channels c).
Proof.
  intros Hc. unfold next_channel. rewrite cs_next_channel_spec by apply Hc.
  eexists _, _. split; [done|]. split.
  - destruct Hc. split; try done.
    apply cs_last_unmapped_ok; [done|]. apply Z.mod_pos_bound. lia.
  - do 4 (split; [done|]). split; [by apply waits_same|done].
Qed.

(** One event passes: the instants are applied, and after steps that keep what
    waits the following event is scheduled. *)
Definition passes (c c' : ActiveConnection) : Prop :=
  ∃ c1 c2, apply_post c c1 ∧ waits c1 c2 ∧ c' = schedule_following_event c2.

(** One skipped event keeps the invariant. *)
Lemma skip_event_ok now c : conn_ok c → ∃ notify c',
  skip_event now c = Some (Ok notify, c') ∧ conn_ok c' ∧ tx_view c' = tx_view c ∧
  event_id c' = next_number (next_phase (event_id c)) ∧ passes c c'.
Proof.
  intros Hc. unfold skip_event.
  destruct (apply_instants_ok now c Hc) as ([applied changed] & c1 & E & Hc1 & Hs1 & Hcnt1 & Hv1).
  pose proof (apply_instants_effect now _ _ _ E) as Hpost. rewrite E.
  set (c2 := if applied then _ else _).
  assert (conn_ok c2 ∧ settled c2 ∧ event_id c2 = event_id c1 ∧
    tx_view c2 = tx_view c1 ∧ waits c1 c2) as (Hc2 & Hs2 & Hcnt2 & Hv2 & Hw2).
  { subst c2. destruct applied; [|done]. split; [by apply ok_local_request|].
    do 3 (split; [done|]). by apply waits_same. }
  clearbody c2.
  destruct (next_channel_ok c2 Hc2) as (ch & c3 & -> & Hc3 & Hv3 & Hu3 & Hm3 & Hcnt3 & Hw3 & _).
  eexists _, _. split; [done|]. split; [|split; [|split]].
  - apply schedule_ok; [done|]. unfold settled. rewrite Hu3, Hm3. apply Hs2.
  - rewrite schedule_view. congruence.
  - rewrite schedule_event_id. by rewrite Hcnt3, Hcnt2, Hcnt1.
  - exists c1, c3. split; [done|]. split; [by etrans|done].
Qed.

End invariant.
