(* ===== verification/EventInv.v ===== *)
(** * The invariant across connection events

    Every step of a connection event keeps the invariant of the connection and
    does not panic: staging the transmit frame, acknowledgements, LL control
    PDUs, and the event as a whole. *)

From S2P Require Import Prelude Effects Time Channel Timing Sequence ControlPdu Llcp Advertising.
From S2P Require Import Hci Controller Connection Commands Runner ConnectionInv.

Section event.
Context `{!EmbassyTime} `{!RngCore}.

(** ** Staging *)

Lemma promote_idle c : conn_ok c → promote_priority_control_if_idle c = c.
Proof.
  intros Hc. unfold promote_priority_control_if_idle. rewrite (ok_priority _ Hc).
  rewrite (bool_decide_false (is_Some None)) by (by intros [? ?]). by rewrite andb_false_r.
Qed.

Lemma choose_ok c : conn_ok c →
  conn_ok (choose_transmit c) ∧ ac_transmitted (choose_transmit c) ≠ TxNone.
Proof.
  intros Hc. unfold choose_transmit. case_bool_decide as Hnone; [|done].
  pose proof (ok_owner _ Hc) as Hlen. unfold owner_ok in Hlen. rewrite Hnone in Hlen.
  split; [|cbn; by repeat case_bool_decide].
  destruct Hc. split; try done.
  - unfold owner_ok. cbn. by repeat case_bool_decide.
  - by left.
Qed.

Lemma selected_pdu_ok c : conn_ok c →
  1 ≤ (selected_pdu c).1 ≤ 3 ∧ bytes_ok (selected_pdu c).2 ∧
  (length (selected_pdu c).2 ≤ MAX_DATA_PDU_PAYLOAD)%nat.
Proof.
  intros Hc.
  assert (∀ d, opt_ok pd_ok d →
    let p := match d with Some d => (pd_llid d, pd_payload d) | None => (LLID_CONTINUATION, []) end in
    1 ≤ p.1 ≤ 3 ∧ bytes_ok p.2 ∧ (length p.2 ≤ MAX_DATA_PDU_PAYLOAD)%nat) as Hall.
  { intros [d|] Hd; cbn in *.
    - split; [apply Hd|]. split; [by apply pd_payload_ok|].
      rewrite pd_payload_length by done. apply Hd.
    - split_and!; try done; [by apply Forall_nil_2|lia]. }
  unfold selected_pdu. pose proof (ok_acl _ Hc) as (l & _ & _ & _ & Hp & _).
  apply Hall. destruct (ac_transmitted c); try done.
  pose proof (ok_control _ Hc) as Hctl. destruct (ac_pending_control c); [apply Hctl|done].
Qed.

Lemma byte_length (l : list Z) : (length l ≤ MAX_DATA_PDU_PAYLOAD)%nat →
  u8 (Z.of_nat (length l)) = Z.of_nat (length l).
Proof. intros Hl. apply wrap_small. unfold MAX_DATA_PDU_PAYLOAD, ACL_PAYLOAD_LEN in Hl. int_lia. Qed.

(** The bytes written by [build_transmit_frame] on a 29-byte buffer. *)
Lemma frame_bytes (frame payload : list Z) h n :
  length frame = MAX_DATA_PDU_WIRE_LEN → (length payload ≤ MAX_DATA_PDU_PAYLOAD)%nat →
  let frame' := splice 2 payload (<[1%nat := n]> (<[0%nat := h]> frame)) in
  length frame' = MAX_DATA_PDU_WIRE_LEN ∧
  take (length payload + 2) frame' = h :: n :: payload.
Proof.
  intros Hlen Hp. cbn zeta. unfold MAX_DATA_PDU_WIRE_LEN in *. split.
  { rewrite length_splice; rewrite !length_insert; lia. }
  destruct frame as [|b0 [|b1 frame]]; [cbn in Hlen; lia..|].
  cbn [insert list_insert]. unfold splice. cbn [take drop app Nat.add].
  rewrite (Nat.add_comm (length payload) 2). cbn [Nat.add take].
  rewrite take_0. cbn [app]. by rewrite take_app_length.
Qed.

Lemma build_ok c c' : conn_ok c → ac_transmitted c ≠ TxNone →
  build_transmit_frame c = Ok c' →
  conn_ok c' ∧ ac_tx_frame_len c' = (length (selected_pdu c).2 + 2)%nat ∧
  ac_transmitted c' = ac_transmitted c ∧ ac_tx_frame_fresh c' = true ∧
  due_update c' = due_update c ∧ due_channel_map c' = due_channel_map c ∧
  event_id c' = event_id c ∧ waits c c' ∧
  ac_request c' = ac_request c ∧ ac_channels c' = ac_channels c.
Proof.
  intros Hc Hne. unfold build_transmit_frame.
  intros (c1 & E1 & E)%ok_bind_inv.
  assert (∃ m, c1 = c <| ac_procedures := m |>) as [m ->].
  { case_bool_decide; [by eapply on_pending_control_inv|]. injection E1 as <-.
    exists (ac_procedures c). by destruct c. }
  clear E1. pose proof (ok_procedures c m Hc) as Hc1.
  set (c1 := c <| ac_procedures := m |>) in *.
  change (selected_pdu c) with (selected_pdu c1).
  change (ac_transmitted c) with (ac_transmitted c1) in Hne |- *.
  change (due_update c) with (due_update c1).
  change (due_channel_map c) with (due_channel_map c1).
  change (event_id c) with (event_id c1). change (waits c c') with (waits c1 c').
  change (ac_request c) with (ac_request c1). change (ac_channels c) with (ac_channels c1). clearbody c1. clear Hc c m.
  destruct (selected_pdu_ok c1 Hc1) as (Hllid & Hbytes & Hlen).
  revert E. destruct (selected_pdu c1) as [llid payload] eqn:Hsel. cbn [fst snd] in *.
  intros [= <-]. split; [|do 6 (split; [done|]); split; [by apply waits_same|done]]. cbn.
  rewrite byte_length by done.
  set (h := Z.lor _ _).
  destruct (frame_bytes (ac_tx_frame c1) payload h (Z.of_nat (length payload)) (ok_frame _ Hc1) Hlen)
    as [Hl Ht].
  pose proof Hc1 as Hc2. destruct Hc2. split; try done.
  - unfold owner_ok in *. cbn. by destruct (ac_transmitted c1).
  - right. exists (ac_expected_sn c1). split; [done|].
    change (selected_pdu _) with (selected_pdu c1). rewrite Hsel. by split.
Qed.

Lemma refresh_ok c : conn_ok c → conn_ok (refresh_frame c).
Proof.
  intros Hc. pose proof Hc as Hc'. destruct Hc'. split; try done.
  - cbn. by rewrite length_insert.
  - unfold frame_image. change (selected_pdu (refresh_frame c)) with (selected_pdu c).
    destruct ok_image as [Hz|(nesn & Hn & Hlen & Ht)]; [by left|]. right.
    exists (ac_expected_sn c). split; [done|]. split; [done|]. cbn.
    destruct (selected_pdu_ok c Hc) as (Hllid & _ & _). rewrite Hlen in *.
    rewrite Nat.add_comm in *. destruct (ac_tx_frame c) as [|b0 frame]; [done|].
    cbn in Ht |- *. injection Ht as -> Ht. rewrite Ht. f_equal.
    by apply refresh_data_header.
Qed.

Lemma stage_frame_ok w : conn_ok (w_conn w) → holds stage_frame w
  (λ _ w', conn_ok (w_conn w') ∧ w_runner w' = w_runner w ∧
     ac_transmitted (w_conn w') ≠ TxNone ∧
     due_update (w_conn w') = due_update (w_conn w) ∧
     due_channel_map (w_conn w') = due_channel_map (w_conn w) ∧
     event_id (w_conn w') = event_id (w_conn w) ∧
     waits (w_conn w) (w_conn w') ∧
     ac_request (w_conn w') = ac_request (w_conn w) ∧
     ac_channels (w_conn w') = ac_channels (w_conn w))
  (λ r w', r = Some 0x1f ∧ w_runner w' = w_runner w).
Proof.
  intros Hc. unfold stage_frame, on_conn, conn.
  apply holds_modify_bind. rewrite promote_idle by done. apply holds_modify_bind.
  apply holds_gets_bind. cbn [w_conn w_runner set_field].
  destruct (choose_ok (w_conn w) Hc) as [Hc1 Hne].
  assert (due_update (choose_transmit (w_conn w)) = due_update (w_conn w) ∧
    due_channel_map (choose_transmit (w_conn w)) = due_channel_map (w_conn w) ∧
    event_id (choose_transmit (w_conn w)) = event_id (w_conn w)) as (Hu & Hm & Hid).
  { unfold choose_transmit. by case_bool_decide. }
  assert (waits (w_conn w) (choose_transmit (w_conn w)) ∧
    ac_request (choose_transmit (w_conn w)) = ac_request (w_conn w) ∧
    ac_channels (choose_transmit (w_conn w)) = ac_channels (w_conn w)) as (Hw & Hreq & Hch).
  { unfold choose_transmit. case_bool_decide; (split; [by apply waits_same|done]). }
  set (c1 := choose_transmit (w_conn w)) in *. clearbody c1. rewrite <- Hu, <- Hm, <- Hid, <- Hreq, <- Hch.
  clear Hu Hm Hid Hreq Hch Hc.
  unfold when_. destruct (ac_tx_frame_len c1 =? 0)%nat.
  - unfold holds, mbind, M_bind, try_conn. cbn [w_conn].
    destruct (build_transmit_frame c1) as [c2|] eqn:E; [|done].
    destruct (build_ok c1 c2 Hc1 Hne E) as (Hc2 & _ & Htx & _ & <- & <- & <- & Hw2 & <- & <-). cbn.
    split; [by apply refresh_ok|]. rewrite Htx. do 5 (split; [done|]).
    split; [|done]. etrans; [exact Hw|]. etrans; [exact Hw2|by apply waits_same].
  - apply holds_ret_bind. unfold holds, modify. cbn. split; [by apply refresh_ok|].
    do 5 (split; [done|]). split; [|done].
    etrans; [exact Hw|by apply waits_same].
Qed.

(** ** Steps that leave the air interface alone

    [quiet c c']: the invariant is kept, and nothing on air, in the ACL queue, in
    the parameters in force or among the pending instants changes.  [heard c c']
    lets a pending instant appear where there was none.  LL control handling is
    made of such steps. *)

Definition core_view (c : ActiveConnection) :=
  (ac_handle c, (ac_transmit_sn c, ac_expected_sn c), (ac_pending c, ac_queued_acl c),
   (ac_transmitted c, ac_tx_frame c, ac_tx_frame_len c, ac_tx_frame_fresh c),
   (ac_event_counter c, ac_channels c, ac_next_anchor c), ac_request c).

Definition air_view (c : ActiveConnection) :=
  (core_view c, (ac_pending_connection_update c, ac_pending_channel_map c)).

Definition quiet (c c' : ActiveConnection) : Prop :=
  (conn_ok c → conn_ok c') ∧ air_view c' = air_view c.

Definition keeps {A} (o o' : option A) : Prop := ∀ a, o = Some a → o' = Some a.

Definition heard (c c' : ActiveConnection) : Prop :=
  (conn_ok c → conn_ok c') ∧ core_view c' = core_view c ∧
  keeps (ac_pending_connection_update c) (ac_pending_connection_update c') ∧
  keeps (ac_pending_channel_map c) (ac_pending_channel_map c').

Lemma quiet_heard c c' : quiet c c' → heard c c'.
Proof.
  intros [Hok Hv]. unfold air_view in Hv. split; [done|]. split; [congruence|].
  split; intros x Hx; congruence.
Qed.

#[global] Instance heard_preorder : PreOrder heard.
Proof.
  split.
  { intros c. split; [done|]. split; [done|]. by split; intros ?. }
  intros c1 c2 c3 (H12 & V12 & U12 & M12) (H23 & V23 & U23 & M23).
  split; [tauto|]. split; [congruence|]. split; intros x Hx; eauto.
Qed.

#[global] Instance quiet_preorder : PreOrder quiet.
Proof.
  split; [done|]. intros c1 c2 c3 [H12 V12] [H23 V23]. split; [tauto|congruence].
Qed.

Lemma quiet_local_request c r : quiet c (c <| ac_local_param_request := r |>).
Proof. split; [apply ok_local_request|done]. Qed.

Lemma quiet_procedures c m : quiet c (c <| ac_procedures := m |>).
Proof. split; [apply ok_procedures|done]. Qed.

Lemma quiet_with_procedures c r c' : with_procedures c r = Ok c' → quiet c c'.
Proof. intros (m & _ & ->)%with_procedures_inv. apply quiet_procedures. Qed.

Lemma quiet_fail c i e : quiet c (fail_procedure i e c).
Proof.
  unfold fail_procedure. destruct (with_procedures _ _) eqn:E; [|done].
  by eapply quiet_with_procedures.
Qed.

Lemma quiet_allocate c : quiet c (allocate_control_token c).2.
Proof. split; [apply ok_allocate|done]. Qed.

Lemma quiet_queue_with_token c bytes token : bytes_ok bytes →
  quiet c (queue_control_with_token bytes token c).2.
Proof.
  split; [intros; by apply ok_queue_control_with_token|].
  unfold queue_control_with_token. by repeat case_match.
Qed.

Lemma quiet_queue_control c bytes : bytes_ok bytes → quiet c (queue_control bytes c).2.
Proof.
  intros Hb. split; [intros; by apply ok_queue_control|].
  unfold queue_control, queue_control_owned, allocate_control_token, queue_control_with_token.
  by repeat case_match; simplify_eq/=.
Qed.

Lemma quiet_queue_remote_response c kind op response expected timeout :
  bytes_ok response → is_u8 op →
  quiet c (queue_remote_procedure_response_with_followup kind op response expected timeout c).2.
Proof.
  intros Hb Hop. split; [intros; by apply ok_queue_remote_response|].
  unfold queue_remote_procedure_response_with_followup.
  destruct response as [|rop response]; [done|].
  destruct (allocate_control_token c) as [token c1] eqn:E0.
  assert (air_view c1 = air_view c) as <- by (by injection E0 as _ <-).
  destruct (with_procedures c1 _) as [c2|e] eqn:E.
  - apply quiet_with_procedures in E as [_ <-].
    destruct (with_procedures c2 _) as [c3|] eqn:E3; [|apply quiet_fail].
    apply quiet_with_procedures in E3 as [_ <-].
    destruct (queue_control_with_token _ _ c3) as [q c4] eqn:E4.
    assert (air_view c4 = air_view c3) as <-.
    { change c4 with (q, c4).2. rewrite <- E4. by apply quiet_queue_with_token. }
    destruct q; [done|apply quiet_fail].
  - unfold queue_control, queue_control_owned, allocate_control_token, queue_control_with_token.
    by repeat case_match; simplify_eq/=.
Qed.

Lemma quiet_queue_local_procedure c kind request expected timeout : bytes_ok request →
  quiet c (queue_local_procedure kind request expected timeout c).2.
Proof.
  intros Hb. split; [intros; by apply ok_queue_local_procedure|].
  unfold queue_local_procedure. destruct request as [|op request]; [done|].
  destruct (allocate_control_token c) as [token c1] eqn:E0.
  assert (air_view c1 = air_view c) as <- by (by injection E0 as _ <-).
  destruct (with_procedures c1 _) as [c2|e] eqn:E; [|done].
  apply quiet_with_procedures in E as [_ <-].
  destruct (queue_control_with_token _ _ c2) as [q c4] eqn:E4.
  assert (air_view c4 = air_view c2) as <-.
  { change c4 with (q, c4).2. rewrite <- E4. by apply quiet_queue_with_token. }
  destruct q; [done|apply quiet_fail].
Qed.

Lemma quiet_start_remote_instant c kind op instant :
  quiet c (start_remote_instant_procedure kind op instant c).2.
Proof.
  split; [apply ok_start_remote_instant|]. unfold start_remote_instant_procedure.
  destruct (allocate_control_token c) as [token c1] eqn:E0.
  assert (air_view c1 = air_view c) as <- by (by injection E0 as _ <-).
  destruct (with_procedures c1 _) as [c2|[]] eqn:E; try done.
  by apply quiet_with_procedures in E as [_ <-].
Qed.

Lemma quiet_update_owner c instant : quiet c (update_owner instant c).2.
Proof.
  unfold update_owner.
  case_bool_decide; [|destruct (remote_connection_parameters_active c)];
    try (apply quiet_start_remote_instant);
    (destruct (with_procedures c _) eqn:E; [by eapply quiet_with_procedures|done]).
Qed.

(** The reasons that a connection can end with are one octet. *)
Lemma update_owner_error c instant e : (update_owner instant c).1 = Err e → is_u8 e.
Proof.
  unfold update_owner.
  case_bool_decide; [|destruct (remote_connection_parameters_active c)];
    try (apply start_remote_instant_error);
    (destruct (with_procedures c _); [done|by intros [= <-]]).
Qed.

(** ** LL control PDUs *)

(** The runner apart from its transport. *)
Definition runner_view (r : Runner) :=
  (rn_access_address r, rn_crc_init r, rn_random r, rn_advertiser r, rn_connected r).

(** The ACL packets on their way to the Host, and the view that ignores only
    the events sent to it. *)
Definition host_acl (t : Transport) : list Packet :=
  filter (λ p, pk_kind p = AclData) (tr_to_host t).
Definition still_view (r : Runner) := (runner_view r, host_acl (rn_transport r)).

Lemma event_host_acl code params t : host_acl (ignore_error t (event code params t)) = host_acl t.
Proof.
  unfold event. case_match; [done|]. case_match; [done|].
  unfold host_acl. cbn. by rewrite filter_app, app_nil_r.
Qed.

Lemma emit_event_view code params r : still_view (emit_event code params r) = still_view r.
Proof. unfold still_view. cbn. by rewrite event_host_acl. Qed.

Definition ll_quiet (w w' : World) : Prop :=
  heard (w_conn w) (w_conn w') ∧ still_view (w_runner w') = still_view (w_runner w).

#[global] Instance ll_quiet_preorder : PreOrder ll_quiet.
Proof.
  split; [done|]. intros w1 w2 w3 [Q12 V12] [Q23 V23]. split; [by etrans|congruence].
Qed.

Lemma ll_quiet_conn w c : quiet (w_conn w) c → ll_quiet w (w <| w_conn := c |>).
Proof. intros Hq. split; [by apply quiet_heard|done]. Qed.

(** [quietly m w Q]: [m] runs to the end or returns a value in [Q], through
    quiet steps only. *)
Definition quietly {R A} (m : M World R A) (w : World) (Q : R → Prop) : Prop :=
  holds m w (λ _ w', ll_quiet w w') (λ r w', ll_quiet w w' ∧ Q r).

Lemma quietly_bind {R A B} (m : M World R A) (k : A → M World R B) w (Q : R → Prop) :
  quietly m w Q → (∀ a w', ll_quiet w w' → quietly (k a) w' Q) → quietly (m ≫= k) w Q.
Proof.
  intros Hm Hk. eapply holds_bind; [exact Hm|]. intros a w' Hw. cbn beta in Hw.
  eapply holds_weaken; [by apply Hk| |]; cbn beta.
  - intros ? ? ?. by etrans.
  - intros ? ? [? ?]. split; [by etrans|done].
Qed.

Lemma quietly_ret {R A} (a : A) w (Q : R → Prop) : quietly (mret a) w Q.
Proof. unfold quietly. by apply holds_ret. Qed.

Lemma quietly_return {R A} (r : R) w (Q : R → Prop) : Q r → quietly (return_ r : M World R A) w Q.
Proof. intros. by split. Qed.

Lemma quietly_conn {R A} (f : ActiveConnection → A) w (Q : R → Prop) : quietly (conn f) w Q.
Proof. done. Qed.

Lemma quietly_conn_bind {R A B} (f : ActiveConnection → A) (k : A → M World R B) w (Q : R → Prop) :
  quietly (k (f (w_conn w))) w Q → quietly (conn f ≫= k) w Q.
Proof. done. Qed.

Lemma quietly_on_conn {R} (f : ActiveConnection → ActiveConnection) w (Q : R → Prop) :
  quiet (w_conn w) (f (w_conn w)) → quietly (on_conn f) w Q.
Proof. intros. by apply ll_quiet_conn. Qed.

Lemma quietly_call_conn {R A} (f : ActiveConnection → A * ActiveConnection) w (Q : R → Prop) :
  quiet (w_conn w) (f (w_conn w)).2 → quietly (call_conn f) w Q.
Proof.
  intros Hq. unfold quietly, holds, call_conn, zoom. destruct (f (w_conn w)) as [a c].
  by apply ll_quiet_conn.
Qed.

(** The value of a call is also known. *)
Lemma quietly_call_conn_bind {R A B} (f : ActiveConnection → A * ActiveConnection)
    (k : A → M World R B) w (Q : R → Prop) :
  quiet (w_conn w) (f (w_conn w)).2 →
  (∀ w', ll_quiet w w' → quietly (k (f (w_conn w)).1) w' Q) →
  quietly (call_conn f ≫= k) w Q.
Proof.
  intros Hq Hk. unfold quietly, holds, call_conn, zoom, mbind, M_bind in *.
  destruct (f (w_conn w)) as [a c]. cbn [fst snd] in *.
  pose proof (ll_quiet_conn w c Hq) as Hw. specialize (Hk _ Hw).
  destruct (k a (w <| w_conn := c |>)) as [b w'|r w'|]; [by etrans|destruct Hk; split; [by etrans|done]|done].
Qed.

Lemma quietly_emit {R} (f : ActiveConnection → Runner → Runner) w (Q : R → Prop) :
  (∀ c r, still_view (f c r) = still_view r) → quietly (emit f) w Q.
Proof. intros Hf. unfold quietly, emit. apply holds_modify. split; [done|apply Hf]. Qed.

Lemma quietly_when {R} (b : bool) (m : M World R ()) w (Q : R → Prop) :
  quietly m w Q → quietly (when_ b m) w Q.
Proof. destruct b; [done|]. intros _. apply quietly_ret. Qed.

Lemma quietly_try {R E A} (f : E → R) (r : result E A) w (Q : R → Prop) :
  (∀ e, r = Err e → Q (f e)) → quietly (try f r) w Q.
Proof. intros He. unfold quietly. apply holds_try; [done|]. intros. split; [done|eauto]. Qed.

Lemma update_result_view c e r : still_view (emit_connection_update_result c e r) = still_view r.
Proof. apply emit_event_view. Qed.

Lemma quietly_abandon {R} e w (Q : R → Prop) : quietly (abandon_local_request e) w Q.
Proof.
  unfold abandon_local_request. apply quietly_bind.
  { apply quietly_on_conn, quiet_local_request. }
  intros _ w1 _. apply quietly_bind; [apply quietly_on_conn, quiet_fail|].
  intros _ w2 _. apply quietly_emit. intros. apply update_result_view.
Qed.

Lemma heard_counter c c' : heard c c' → ac_event_counter c' = ac_event_counter c.
Proof. intros (_ & Hv & _). unfold core_view in Hv. congruence. Qed.

Lemma heard_event_id c c' : heard c c' → event_id c' = event_id c.
Proof. intros (_ & Hv & _). unfold core_view in Hv. unfold event_id. congruence. Qed.

(** The two procedures with an instant keep what they parsed. *)
Lemma heard_waits c c' : heard c c' → waits c c'.
Proof.
  intros (_ & Hv & Hu & Hm). unfold core_view in Hv.
  assert (ac_request c' = ac_request c ∧ ac_channels c' = ac_channels c) as [Hr Hs] by (split; congruence).
  split; [congruence|]. unfold timing_in_force. rewrite Hr, Hs. auto.
Qed.

Lemma heard_update c u : ac_pending_connection_update c = None →
  (conn_ok c → update_ok (ac_event_counter c) u) →
  heard c (c <| ac_pending_connection_update := Some u |>).
Proof.
  intros Hn Hu. split; [|split; [done|]; split; [by rewrite Hn|by intros ?]].
  intros Hc. pose proof (Hu Hc). destruct Hc. by split.
Qed.

Lemma heard_map c m : ac_pending_channel_map c = None →
  (conn_ok c → map_ok (ac_event_counter c) m) →
  heard c (c <| ac_pending_channel_map := Some m |>).
Proof.
  intros Hn Hm. split; [|split; [done|]; split; [by intros ?|by rewrite Hn]].
  intros Hc. pose proof (Hm Hc). destruct Hc. by split.
Qed.

Lemma quietly_update_ind payload w : conn_ok (w_conn w) → bytes_ok payload →
  quietly (handle_update_ind payload) w (opt_ok is_u8).
Proof.
  intros Hc Hb. unfold handle_update_ind. do 2 apply quietly_conn_bind.
  destruct (update_parse payload _) as [u|[]] eqn:Hp; try by apply quietly_return.
  destruct (ac_pending_connection_update _) eqn:Hpend; [by apply quietly_return|].
  apply quietly_conn_bind. unfold quietly.
  case_match; [by apply (quietly_return (A := ()))|]. apply holds_ret_bind.
  pose proof (quiet_update_owner (w_conn w) (cu_instant u)) as Hq.
  pose proof (update_owner_error (w_conn w) (cu_instant u)) as Herr.
  destruct (update_owner (cu_instant u) (w_conn w)) as [res c1] eqn:E. cbn [fst snd] in Hq, Herr.
  eapply holds_zoom_bind; [by rewrite E|]. pose proof (ll_quiet_conn w c1 Hq) as Hw1.
  destruct res as [[]|e]; [eapply holds_try_bind; [done|]|split; [done|by apply Herr]].
  apply holds_modify. etrans; [exact Hw1|]. split; [|done].
  apply heard_update; cbn.
  - destruct Hq as [_ Hv]. unfold air_view in Hv. congruence.
  - intros _. apply update_parse_iff in Hp as (_ & Hf & Ht & Hnp); [|done].
    split_and!; try done. by rewrite (heard_counter _ _ (quiet_heard _ _ Hq)).
Qed.

Lemma quiet_abandon c e :
  quiet c (fail_procedure Local e (c <| ac_local_param_request := None |>)).
Proof. etrans; [apply quiet_local_request|apply quiet_fail]. Qed.

Lemma quietly_channel_map_ind payload w : conn_ok (w_conn w) → bytes_ok payload →
  quietly (handle_channel_map_ind payload) w (opt_ok is_u8).
Proof.
  intros Hc Hb. unfold handle_channel_map_ind. do 2 apply quietly_conn_bind.
  destruct (map_parse payload _) as [m|[]] eqn:Hp; try by apply quietly_return.
  destruct (ac_pending_channel_map _) eqn:Hpend; [by apply quietly_return|].
  apply quietly_conn_bind.
  eapply (holds_bind_next _ _ _ _ (λ _ w1, quiet (w_conn w) (w_conn w1) ∧
    still_view (w_runner w1) = still_view (w_runner w))).
  { case_bool_decide; [|done]. unfold when_, abandon_local_request.
    do 2 apply holds_modify_bind. apply holds_modify.
    split; [apply quiet_abandon|apply update_result_view]. }
  cbn beta. intros _ w1 [Hq1 Hv1].
  pose proof (quiet_start_remote_instant (w_conn w1) KindChannelMapUpdate 0x01 (cm_instant m)) as Hq.
  pose proof (start_remote_instant_error (w_conn w1) KindChannelMapUpdate 0x01 (cm_instant m)) as Herr.
  destruct (start_remote_instant_procedure _ _ _ (w_conn w1)) as [res c2] eqn:E.
  cbn [fst snd] in Hq, Herr. eapply holds_zoom_bind; [by rewrite E|].
  assert (quiet (w_conn w) c2) as Hq2 by by etrans.
  assert (ll_quiet w (w1 <| w_conn := c2 |>)) as Hw2 by (split; [by apply quiet_heard|done]).
  destruct res as [[]|e]; [eapply holds_try_bind; [done|]|split; [done|by apply Herr]].
  apply holds_modify. etrans; [exact Hw2|]. split; [|done].
  apply heard_map; cbn.
  - destruct Hq2 as [_ Hv]. unfold air_view in Hv. congruence.
  - intros _. apply map_parse_iff in Hp as (_ & Hwf & Hi & Hv & Hnp); [|done].
    split_and!; try done. by rewrite (heard_counter _ _ (quiet_heard _ _ Hq2)).
Qed.

Lemma quietly_discard {R} (f : ActiveConnection → bool * ActiveConnection) w (Q : R → Prop) :
  quiet (w_conn w) (f (w_conn w)).2 → quietly (call_conn f;; mret ()) w Q.
Proof. intros Hq. apply quietly_call_conn_bind; [done|]. intros. apply quietly_ret. Qed.

Lemma quietly_reject_ext {R} rejected e w (Q : R → Prop) : quietly (handle_reject_ext rejected e) w Q.
Proof.
  unfold handle_reject_ext. do 2 apply quietly_conn_bind.
  case_match; [apply quietly_abandon|]. case_match; [|apply quietly_ret].
  apply quietly_bind; [apply quietly_on_conn, quiet_fail|].
  intros _ w1 _. apply quietly_emit. intros. apply update_result_view.
Qed.

Lemma param_bytes_ok op p : is_u8 op → param_fits p → bytes_ok (param_bytes op p).
Proof.
  intros Hop Hp. unfold param_bytes, bytes_ok.
  repeat (apply Forall_app; split); try apply to_le_ok.
  - by apply Forall_singleton.
  - apply Forall_singleton. apply Hp.
  - induction (cp_offsets p) as [|o os IH]; [by apply Forall_nil_2|].
    apply Forall_app. split; [apply to_le_ok|done].
Qed.

(** The response to a valid LL_CONNECTION_PARAM_REQ. *)
Lemma param_response_ok payload counter p : bytes_ok payload →
  parse_request payload counter = Ok p →
  bytes_ok (param_write p RESPONSE_OPCODE (replicate PARAM_PDU_LEN 0)).
Proof.
  intros Hb Hp. apply param_parse_iff in Hp as (_ & Hf & _); [|done].
  rewrite param_write_bytes by (done || apply Hf). by apply param_bytes_ok.
Qed.

Lemma parse_request_error payload counter : parse_request payload counter ≠ Err InstantPassed.
Proof. unfold parse_request, param_parse. by repeat case_match. Qed.

Lemma quietly_param_req {R} payload w (Q : R → Prop) : bytes_ok payload →
  quietly (handle_param_req payload) w Q.
Proof.
  intros Hb. unfold handle_param_req. apply quietly_conn_bind.
  destruct (parse_request payload _) as [p|e] eqn:Hp.
  - do 2 apply quietly_conn_bind. set (col := if bool_decide _ then _ else _).
    assert (opt_ok is_u8 col) as Hcol by (subst col; by repeat case_bool_decide).
    clearbody col. destruct col as [e|].
    + apply quietly_discard, quiet_queue_control. by solve_forall.
    + apply quietly_conn_bind, quietly_bind; [apply quietly_when, quietly_abandon|].
      intros _ w1 _. apply quietly_discard, quiet_queue_remote_response; [|done].
      by eapply param_response_ok.
  - destruct e; try (apply quietly_discard, quiet_queue_control; by solve_forall).
    by apply parse_request_error in Hp.
Qed.

(** An LL control PDU is handled without a panic, through quiet steps; if it
    ends the connection, the reason is an octet. *)
Lemma handle_ll_control_quiet payload w : conn_ok (w_conn w) → bytes_ok payload →
  ∃ r w', handle_ll_control payload w = Some (r, w') ∧ ll_quiet w w' ∧ opt_ok is_u8 r.
Proof.
  intros Hc Hb. unfold handle_ll_control.
  apply (run_holds _ _ (λ r w', ll_quiet w w' ∧ opt_ok is_u8 r)).
  destruct payload as [|op payload]; [done|].
  pose proof Hb as [Hop Hrest]%Forall_cons_1.
  assert (∀ m : M World (option Z) (), quietly m w (opt_ok is_u8) →
    holds (m;; mret None) w (λ r w', ll_quiet w w' ∧ opt_ok is_u8 r)
      (λ r w', ll_quiet w w' ∧ opt_ok is_u8 r)) as Hfin.
  { intros m Hm. eapply holds_bind; [exact Hm|]. intros ? w' ?. apply holds_ret. by split. }
  apply Hfin. clear Hfin.
  assert (∀ n, length (op :: payload) = n → (1 < n)%nat → is_u8 ((op :: payload) !!! 1%nat)) as Hat.
  { intros n Hl Hn. apply bytes_ok_lookup; [done|lia]. }
  repeat match goal with
  | |- quietly (if ?b then _ else _) _ _ => destruct b eqn:?
  end; bool_to_prop;
    repeat match goal with H : (_ =? _)%nat = true |- _ => apply Nat.eqb_eq in H end.
  - by apply quietly_update_ind.
  - by apply quietly_channel_map_ind.
  - apply quietly_return. eapply Hat; [done|lia].
  - by apply quietly_return.
  - apply quietly_conn_bind, quietly_when, quietly_abandon.
  - apply quietly_reject_ext.
  - apply quietly_discard, quiet_queue_remote_response; [|done].
    unfold bytes_ok. repeat apply Forall_cons_2; try done.
    apply land_fits_l; [done|]. eapply Hat; [done|lia].
  - apply quietly_discard, quiet_queue_remote_response; by solve_forall.
  - by apply quietly_param_req.
  - apply quietly_discard, quiet_queue_control; by solve_forall.
  - apply quietly_discard, quiet_queue_remote_response; by solve_forall.
  - apply quietly_discard, quiet_queue_control; by solve_forall.
Qed.

(** ** The parts of an event *)

(** The instants at either end of an event. *)
Lemma apply_and_notify_ok now w : conn_ok (w_conn w) → holds (apply_and_notify now) w
  (λ _ w', conn_ok (w_conn w') ∧ settled (w_conn w') ∧
     event_id (w_conn w') = event_id (w_conn w) ∧
     tx_view (w_conn w') = tx_view (w_conn w) ∧
     runner_view (w_runner w') = runner_view (w_runner w) ∧
     apply_post (w_conn w) (w_conn w'))
  (λ _ _, False).
Proof.
  intros Hc. unfold apply_and_notify.
  destruct (apply_instants_ok now _ Hc) as ([applied changed] & c & E & Hok & Hs & Hcnt & Hv).
  pose proof (apply_instants_effect now _ _ c E) as Heff.
  assert (apply_post (w_conn w) (c <| ac_local_param_request := None |>)) as Heff' by exact Heff.
  eapply holds_zoom_bind; [by rewrite E|]. eapply holds_try_bind; [done|].
  apply holds_gets_bind. cbn [w_conn w_runner set_field].
  assert (conn_ok (c <| ac_local_param_request := None |>)) by by apply ok_local_request.
  destruct applied; unfold when_; [apply holds_modify_bind|apply holds_ret_bind];
    case_match; try apply holds_ret; unfold emit; try apply holds_modify; done.
Qed.

(** The connection once the frame on air has been acknowledged. *)
Definition acknowledged (c : ActiveConnection) : ActiveConnection :=
  release_frame
    (match ac_transmitted c with
     | TxControl => advance_control c
     | TxAcl => advance_acl c
     | TxEmpty | TxNone => c
     end).

Lemma acknowledged_ok c : conn_ok c → conn_ok (acknowledged c).
Proof.
  intros Hc. destruct (ok_acl _ Hc) as (l & Hl & Hcap & Hempty & Hp & Hall).
  assert (acl_ok (ac_pending (acknowledged c)) (ac_queued_acl (acknowledged c)) ∧
    opt_ok ctl_ok (ac_pending_control (acknowledged c)) ∧
    ac_priority_control (acknowledged c) = None ∧
    opt_ok ctl_ok (ac_queued_control (acknowledged c))) as (Hacl & Hctl & Hprio & Hqueued).
  { unfold acknowledged. pose proof Hc as Hc'. destruct Hc'.
    destruct (ac_transmitted c); try done; cbn.
    - unfold advance_control. by rewrite ok_priority.
    - split_and!; try done. rewrite Hl.
      destruct (advance_slots_of l Hcap) as [-> ->]. exists (tail l). split_and!; try done.
      + destruct l; cbn in *; lia.
      + by destruct l.
      + destruct l as [|d l]; [done|]. by apply Forall_cons_1 in Hall as [? _].
      + by apply Forall_tail. }
  revert Hacl Hctl Hprio Hqueued. unfold acknowledged.
  set (c1 := match ac_transmitted c with TxNone => c | _ => _ end).
  assert ((ac_handle c1, ac_request c1, ac_channels c1, ac_event_counter c1) =
          (ac_handle c, ac_request c, ac_channels c, ac_event_counter c) ∧
          (ac_transmit_sn c1, ac_expected_sn c1, ac_tx_frame c1) =
          (ac_transmit_sn c, ac_expected_sn c, ac_tx_frame c) ∧
          ac_pending_connection_update c1 = ac_pending_connection_update c ∧
          ac_pending_channel_map c1 = ac_pending_channel_map c) as (E1 & E2 & E3 & E4).
  { subst c1. unfold advance_control. destruct (ac_transmitted c); try done. by case_match. }
  injection E1 as E1 E5 E6 E7. injection E2 as E2 E8 E9. clearbody c1. intros.
  destruct Hc. split; cbn; rewrite ?E1, ?E2, ?E3, ?E4, ?E5, ?E6, ?E7, ?E8, ?E9; try done.
  - by apply flip_sn.
  - by left.
Qed.

Lemma acknowledged_keeps c :
  event_id (acknowledged c) = event_id c ∧ waits c (acknowledged c).
Proof.
  unfold acknowledged, advance_control.
  destruct (ac_transmitted c); try (split; [done|by apply waits_same]).
  case_match; (split; [done|by apply waits_same]).
Qed.

Lemma acknowledge_ok now w : conn_ok (w_conn w) → holds (acknowledge now) w
  (λ _ w', conn_ok (w_conn w') ∧
     (∃ m, w_conn w' = acknowledged ((w_conn w) <| ac_procedures := m |>)) ∧
     runner_view (w_runner w') = runner_view (w_runner w))
  (λ r w', r = Some 0x1f ∧ runner_view (w_runner w') = runner_view (w_runner w)).
Proof.
  intros Hc. unfold acknowledge. apply holds_gets_bind.
  eapply (holds_bind _ _ _ _ (λ _ w', (∃ m, w_conn w' = (w_conn w) <| ac_procedures := m |>) ∧
    runner_view (w_runner w') = runner_view (w_runner w))).
  { apply holds_when.
    - intros _. unfold holds, try_conn. destruct (acknowledge_pending_control _ _) eqn:E; [|done].
      apply on_pending_control_inv in E. done.
    - intros _. split; [|done]. exists (ac_procedures (w_conn w)). by destruct (w_conn w). }
  intros _ w1 [[m Hw1] Hv1].
  pose proof (ok_procedures _ m Hc) as Hm.
  assert (ac_transmitted (w_conn w) = ac_transmitted (w_conn w1)) as Etx by (by rewrite Hw1).
  rewrite Etx. clear Etx.
  assert (conn_ok (acknowledged (w_conn w1))) as Hok by (rewrite Hw1; by apply acknowledged_ok).
  assert (∃ m, acknowledged (w_conn w1) = acknowledged ((w_conn w) <| ac_procedures := m |>)) as Hex
    by (exists m; by rewrite Hw1).
  clear Hw1. unfold holds, mbind, M_bind, on_conn, modify, emit.
  unfold acknowledged at 1 in Hex. unfold acknowledged at 1 in Hok.
  by destruct (ac_transmitted (w_conn w1)).
Qed.

Lemma note_transmitted_ok transmitted w : conn_ok (w_conn w) → holds (note_transmitted transmitted) w
  (λ _ w', conn_ok (w_conn w') ∧
     due_update (w_conn w') = due_update (w_conn w) ∧
     due_channel_map (w_conn w') = due_channel_map (w_conn w) ∧
     (∃ m, w_conn w' = (w_conn w) <| ac_procedures := m |>
        <| ac_tx_frame_fresh := ac_tx_frame_fresh (w_conn w) && negb transmitted |>) ∧
     runner_view (w_runner w') = runner_view (w_runner w))
  (λ r w', r = Some 0x1f ∧ runner_view (w_runner w') = runner_view (w_runner w)).
Proof.
  intros Hc. unfold note_transmitted. do 2 apply holds_gets_bind.
  apply holds_when; intros Hb.
  2: { split; [done|]. split; [done|]. split; [done|]. split; [|done].
       exists (ac_procedures (w_conn w)). destruct (w_conn w) as [].
       cbn in Hb |- *. f_equal. by destruct ac_tx_frame_fresh, transmitted. }
  apply andb_true_iff in Hb as [Hfresh ->].
  eapply (holds_bind _ _ _ _ (λ _ w', (∃ m, w_conn w' = (w_conn w) <| ac_procedures := m |>) ∧
    runner_view (w_runner w') = runner_view (w_runner w))).
  { apply holds_when.
    - intros _. unfold holds, try_conn. destruct (complete_pending_control_transmit _) eqn:E; [|done].
      apply on_pending_control_inv in E. done.
    - intros _. split; [|done]. exists (ac_procedures (w_conn w)). by destruct (w_conn w). }
  intros _ w1 [[m Hw1] Hv1]. apply holds_modify. cbn [w_conn w_runner set_field]. rewrite Hw1.
  split; [by apply ok_fresh, ok_procedures|]. split_and!; try done. exists m. by rewrite andb_false_r.
Qed.

Lemma accept_payload_ok header payload w : conn_ok (w_conn w) → bytes_ok payload →
  holds (accept_payload header payload) w
  (λ r w', conn_ok (w_conn w') ∧ opt_ok is_u8 r ∧
     event_id (w_conn w') = event_id (w_conn w) ∧
     runner_view (w_runner w') = runner_view (w_runner w) ∧
     waits (w_conn w) (w_conn w'))
  (λ _ _, False).
Proof.
  intros Hc Hb. unfold accept_payload, on_conn. apply holds_modify_bind.
  set (w1 := w <| w_conn := _ |>).
  assert (conn_ok (w_conn w1)) as Hc1 by by apply ok_flip_expected.
  assert (event_id (w_conn w1) = event_id (w_conn w)) as <- by done.
  change (waits (w_conn w)) with (waits (w_conn w1)).
  assert (runner_view (w_runner w1) = runner_view (w_runner w)) as <- by done. clearbody w1.
  case_match; [apply holds_modify_bind; by apply holds_ret|].
  case_match; [|by apply holds_ret].
  unfold holds.
  destruct (handle_ll_control_quiet payload w1 Hc1 Hb) as (r & w' & -> & [Hq [= ? ? ? ? ? _]] & Hr).
  split; [by apply Hq|]. split; [done|]. split; [by apply heard_event_id|].
  split; [unfold runner_view; congruence|by apply heard_waits].
Qed.

(** ** The whole event *)

(** The radio hands over octets. *)
Definition radio_ok
    (exchange : Channel → Instant → Duration → list Z → result Error ExchangeResult) : Prop :=
  ∀ channel deadline timeout frame result,
    exchange channel deadline timeout frame = Ok result →
    bytes_ok (rp_payload (ex_received result)).

(** Before the exchange: the instants are applied, the next channel is taken,
    and the frame handed to the radio is the staged one. *)
Lemma event_setup_ok clock w : conn_ok (w_conn w) → holds (event_setup clock) w
  (λ '(channel, deadline, timeout, frame, outstanding) w',
     conn_ok (w_conn w') ∧ settled (w_conn w') ∧
     event_id (w_conn w') = next_phase (event_id (w_conn w)) ∧
     runner_view (w_runner w') = runner_view (w_runner w) ∧
     ac_transmitted (w_conn w') ≠ TxNone ∧
     outstanding = negb (ac_tx_frame_fresh (w_conn w')) ∧
     frame = take (ac_tx_frame_len (w_conn w')) (ac_tx_frame (w_conn w')) ∧
     index channel = csa1_remap (cs_map (ac_channels (w_conn w')))
                       (cs_last_unmapped (ac_channels (w_conn w'))) ∧
     (∃ c1, apply_post (w_conn w) c1 ∧ waits c1 (w_conn w') ∧
        timing_in_force (w_conn w') = timing_in_force c1 ∧
        cs_map (ac_channels (w_conn w')) = cs_map (ac_channels c1)))
  (λ r w', r = Some 0x1f ∧ runner_view (w_runner w') = runner_view (w_runner w)).
Proof.
  intros Hc. unfold event_setup.
  eapply holds_bind_next; [by apply (apply_and_notify_ok (ck_entry clock))|].
  cbn beta. intros _ w1 (Hc1 & [Hu1 Hm1] & <- & _ & <- & Hpost1).
  destruct (next_channel_ok _ Hc1) as (channel & c2 & E2 & Hc2 & _ & Hu2 & Hm2 & Hid2 & Hw2 & Hch2 & Hreq2 & Hmap2).
  eapply holds_zoom_bind; [exact E2|]. apply holds_gets_bind.
  eapply holds_zoom_bind; [done|]. cbn [w_conn w_runner set_field].
  eapply holds_bind; [eapply holds_weaken; [apply stage_frame_ok; by apply ok_window| |]|].
  - cbn beta. intros ? w' H'. exact H'.
  - cbn beta. intros r w' [Hr1 Hr2]. by rewrite Hr1, Hr2.
  - cbn beta. intros _ w4 (Hc4 & Hr4 & Hne & Hu4 & Hm4 & Hid4 & Hw4 & Hreq4 & Hch4).
    do 2 apply holds_gets_bind. apply holds_ret.
    split; [done|]. split.
    { split; [etrans; [exact Hu4|by etrans]|etrans; [exact Hm4|by etrans]]. }
    split; [etrans; [exact Hid4|exact Hid2]|]. rewrite Hr4. do 4 (split; [done|]).
    rewrite Hch4. split; [exact Hch2|]. exists (w_conn w1). split; [done|]. split.
    { etrans; [exact Hw2|]. etrans; [|exact Hw4]. by apply waits_same. }
    unfold timing_in_force. rewrite Hreq4. cbn [ac_request]. by rewrite Hreq2.
Qed.

Lemma event_received_ok clock outstanding terminate received header len payload w :
  conn_ok (w_conn w) → bytes_ok payload →
  holds (event_received clock outstanding terminate received header len payload) w
  (λ r w', opt_ok is_u8 r ∧ conn_ok (w_conn w') ∧ settled (w_conn w') ∧
     event_id (w_conn w') = event_id (w_conn w) ∧
     runner_view (w_runner w') = runner_view (w_runner w) ∧
     waits (w_conn w) (w_conn w'))
  (λ r w', r ≠ None ∧ opt_ok is_u8 r ∧ runner_view (w_runner w') = runner_view (w_runner w)).
Proof.
  intros Hc Hb. unfold event_received, on_conn. apply holds_modify_bind.
  set (w1 := w <| w_conn := _ |>).
  assert (conn_ok (w_conn w1)) as Hc1 by by apply ok_received.
  assert (event_id (w_conn w1) = event_id (w_conn w)) as <- by done.
  change (waits (w_conn w)) with (waits (w_conn w1)).
  assert (runner_view (w_runner w1) = runner_view (w_runner w)) as <- by done. clearbody w1.
  apply holds_gets_bind.
  eapply (holds_bind _ _ _ _ (λ _ w', conn_ok (w_conn w') ∧
    event_id (w_conn w') = event_id (w_conn w1) ∧
    runner_view (w_runner w') = runner_view (w_runner w1) ∧
    waits (w_conn w1) (w_conn w'))).
  { apply holds_when; [|done]. intros _.
    eapply holds_weaken; [by apply acknowledge_ok| |]; cbn beta.
    - intros _ w' (Hok & [m Hm] & Hv). split; [done|]. 
      destruct (acknowledged_keeps ((w_conn w1) <| ac_procedures := m |>)) as [Hid Hw].
      rewrite Hm. split; [exact Hid|]. split; [done|]. exact Hw.
    - intros r w' [-> Hv]. done. }
  intros _ w2 (Hc2 & <- & <- & Hw2). apply holds_gets_bind.
  eapply (holds_bind _ _ _ _ (λ r w', conn_ok (w_conn w') ∧ opt_ok is_u8 r ∧
    event_id (w_conn w') = event_id (w_conn w2) ∧
    runner_view (w_runner w') = runner_view (w_runner w2) ∧
    waits (w_conn w2) (w_conn w'))).
  { case_match; [|by apply holds_ret].
    eapply holds_weaken; [by apply accept_payload_ok|cbn beta; tauto|cbn beta; tauto]. }
  intros terminated w3 (Hc3 & Hr & <- & <- & Hw3).
  eapply holds_bind_next; [by apply (apply_and_notify_ok (ck_exit clock))|].
  cbn beta. intros _ w4 (Hc4 & Hs4 & <- & _ & <- & Hw4 & _). apply holds_modify_bind.
  case_match; [by apply holds_return|]. apply holds_ret. cbn [w_conn w_runner set_field].
  split; [done|]. split; [by apply ok_synchronize|]. do 3 (split; [done|]).
  do 3 (etrans; [eassumption|]). by apply waits_same.
Qed.

Lemma received_pdu_bytes received header len payload : bytes_ok (rp_payload received) →
  received_pdu received = Some (header, len, payload) → bytes_ok payload.
Proof.
  unfold received_pdu. intros Hb. destruct (negb _); [done|].
  destruct (rp_payload received) as [|h [|l body]]; [done..|].
  destruct (_ || _); [done|]. destruct (_ <? _)%nat; [done|]. intros [= <- <- <-].
  apply Forall_take. by apply Forall_cons_1 in Hb as [_ [_ ?]%Forall_cons_1].
Qed.

(** What an event leaves behind: a reason to disconnect, or a connection in
    good order on the same event, with no instant due. *)
Definition event_post (w : World) (r : option Z) (w' : World) : Prop :=
  opt_ok is_u8 r ∧ runner_view (w_runner w') = runner_view (w_runner w) ∧
  (r = None → conn_ok (w_conn w') ∧ settled (w_conn w') ∧
              event_id (w_conn w') = next_phase (event_id (w_conn w)) ∧
              ∃ c0, apply_post (w_conn w) c0 ∧ waits c0 (w_conn w')).

Lemma connection_event_ok clock exchange w : conn_ok (w_conn w) → radio_ok exchange →
  ∃ r w', connection_event clock exchange w = Some (r, w') ∧ event_post w r w'.
Proof.
  intros Hc Hradio. unfold connection_event. apply (run_holds _ _ (event_post w)).
  eapply holds_bind.
  { eapply holds_weaken; [by apply event_setup_ok| |]; cbn beta.
    - intros setup w1 H1. exact H1.
    - intros r w1 [-> Hv]. by split. }
  cbn beta. intros [[[[channel deadline] timeout] frame] outstanding] w1.
  intros (Hc1 & Hs1 & Hid1 & Hv1 & Hne1 & Hout1 & _ & _ & c0 & Hw0 & Hw1 & _).
  destruct (exchange channel deadline timeout frame) as [result|] eqn:Hex.
  2: { split; [done|]. split; [done|]. intros _. do 3 (split; [done|]). by exists c0. }
  eapply holds_try_bind; [done|].
  eapply holds_bind.
  { eapply holds_weaken; [by apply note_transmitted_ok| |]; cbn beta.
    - intros ? w2 H2. exact H2.
    - intros r w2 [-> Hv2]. split; [done|]. split; [by rewrite Hv2|done]. }
  cbn beta. intros _ w2 (Hc2 & Hu2 & Hm2 & (m & Hw2) & Hv2). apply holds_gets_bind.
  assert (event_id (w_conn w2) = event_id (w_conn w1)) as Hid2 by (by rewrite Hw2).
  assert (waits (w_conn w1) (w_conn w2)) as Hww2 by (rewrite Hw2; by apply waits_same).
  destruct (received_pdu (ex_received result)) as [[[header len] payload]|] eqn:Hpdu.
  - eapply holds_weaken.
    { apply event_received_ok; [done|]. eapply received_pdu_bytes; [|exact Hpdu]. by eapply Hradio. }
    + cbn beta. intros r w3 (Hr & Hc3 & Hs3 & Hid3 & Hv3 & Hw3).
      split; [done|]. split; [congruence|]. intros _. split; [done|]. split; [done|]. split; [congruence|].
      exists c0. split; [done|]. etrans; [exact Hw1|]. by etrans.
    + cbn beta. intros r w3 (Hr & Hr' & Hv3). split; [done|]. split; [congruence|done].
  - apply holds_return. split; [done|]. split; [congruence|]. intros _. destruct Hs1 as [Hs1 Hs1'].
    split; [done|]. split; [split; congruence|]. split; [congruence|].
    exists c0. split; [done|by etrans].
Qed.

End event.
