(* ===== verification/HostProps.v ===== *)
(** * What the Host sees

    The packets that the controller sends to the Host are well-formed HCI
    packets, and every well-formed command gets exactly one reply. *)

From S2P Require Import Prelude Effects Time Channel Timing Sequence ControlPdu Llcp Advertising.
From S2P Require Import Hci Controller Connection Commands.

(** ** Framing *)

(** The bytes of a Command Complete and of a Command Status event. *)
Definition complete_bytes (opcode status : Z) (data : list Z) : list Z :=
  [0x0e; Z.of_nat (4 + length data); 1] ++ to_le 2 opcode ++ [status] ++ data.
Definition status_bytes (opcode status : Z) : list Z :=
  [0x0f; 4; status; 1] ++ to_le 2 opcode.

(** Writing a prefix of the 64-byte buffer. *)
Lemma prefix_buffer (l : list Z) n : (length l ≤ n)%nat →
  splice 0 l (replicate n 0) = l ++ replicate (n - length l) 0.
Proof. intros. unfold splice. by rewrite take_0, drop_replicate. Qed.

Lemma contents_prefix kind l rest : contents (mkPacket kind (length l) (l ++ rest)) = l.
Proof. unfold contents. cbn. by rewrite take_app_length. Qed.

Lemma from_bytes_spec kind data : (length data ≤ HCI_PACKET_CAPACITY)%nat →
  ∃ p, packet_from_bytes kind data = Ok p ∧ pk_kind p = kind ∧ contents p = data ∧
       pk_len p = length data ∧ length (pk_bytes p) = HCI_PACKET_CAPACITY.
Proof.
  intros Hlen. unfold packet_from_bytes. rewrite (proj2 (Nat.ltb_ge _ _)) by done.
  eexists. split; [done|]. cbn [pk_bytes pk_kind pk_len set_field packet_empty].
  rewrite prefix_buffer by done. split; [done|]. split; [apply contents_prefix|].
  split; [done|]. rewrite length_app, length_replicate. lia.
Qed.

(** The writes of [command_complete] lay out [complete_bytes]. *)
Lemma complete_layout opcode status data : (length data ≤ 58)%nat →
  take (6 + length data)
    (splice 6 data (<[5%nat := status]> (splice 3 (to_le 2 opcode)
      (<[2%nat := 1]> (<[1%nat := u8 (Z.of_nat (4 + length data))]>
        (<[0%nat := 0x0e]> (replicate HCI_PACKET_CAPACITY 0)))))))
  = complete_bytes opcode status data.
Proof.
  intros Hlen. rewrite (wrap_small 8) by int_lia.
  change (replicate HCI_PACKET_CAPACITY 0) with (0 :: 0 :: 0 :: 0 :: 0 :: 0 :: replicate 58 0).
  unfold splice, complete_bytes. cbn [insert list_insert to_le length app take drop Nat.add].
  rewrite !take_0. cbn [app]. by rewrite take_app_length.
Qed.

Lemma command_complete_spec opcode status data t : (length data ≤ 58)%nat →
  ∃ p, command_complete opcode status data t = Some (send_controller_packet p t) ∧
       pk_kind p = Event ∧ contents p = complete_bytes opcode status data.
Proof.
  intros Hlen. unfold command_complete, HCI_PACKET_CAPACITY at 1.
  rewrite (proj2 (Nat.ltb_ge _ _)) by lia. rewrite complete_layout by done.
  destruct (from_bytes_spec Event (complete_bytes opcode status data)) as (p & -> & Hk & Hc & _).
  { unfold complete_bytes, HCI_PACKET_CAPACITY. rewrite !length_app, length_to_le. cbn. lia. }
  eauto.
Qed.

Lemma command_status_spec opcode status t : is_u16 opcode →
  ∃ p, command_status opcode status t = Some (send_controller_packet p t) ∧
       pk_kind p = Event ∧ contents p = status_bytes opcode status.
Proof.
  intros Hop. unfold command_status.
  destruct (from_bytes_spec Event [0x0f; 0x04; status; 0x01; u8 opcode; u8 (Z.shiftr opcode 8)])
    as (p & -> & Hk & Hc & _); [unfold HCI_PACKET_CAPACITY; cbn; lia|].
  exists p. split; [done|]. split; [done|]. rewrite Hc. unfold status_bytes. cbn.
  rewrite Z.shiftr_div_pow2 by lia. done.
Qed.

(** A reply to the command with this opcode, and the exchange of exactly one
    such reply. *)
Definition is_reply (opcode : Z) (p : Packet) : Prop :=
  pk_kind p = Event ∧ ∃ status,
    (∃ data, contents p = complete_bytes opcode status data) ∨
    contents p = status_bytes opcode status.

Definition one_reply (opcode : Z) (t t' : Transport) : Prop :=
  ∃ p, tr_to_host t' = tr_to_host t ++ [p] ∧ is_reply opcode p.

(** ** Commands *)

Section replies.
Context `{!EmbassyTime} `{!RngCore} `{!RngCoreLaws}.

Lemma send_complete_reply {R} opcode status data r : (length data ≤ 58)%nat →
  ∃ r', (send_complete opcode status data : M Runner R ()) r = Next () r' ∧
        one_reply opcode (rn_transport r) (rn_transport r').
Proof.
  intros Hlen.
  destruct (command_complete_spec opcode status data (rn_transport r) Hlen) as (p & Hp & Hk & Hc).
  unfold send_complete, zoom. rewrite Hp. cbn. eexists. split; [done|].
  exists p. split; [done|]. split; [done|]. exists status. left. by exists data.
Qed.

Lemma send_status_reply {R} opcode status r : is_u16 opcode →
  ∃ r', (send_status opcode status : M Runner R ()) r = Next () r' ∧
        one_reply opcode (rn_transport r) (rn_transport r').
Proof.
  intros Hop.
  destruct (command_status_spec opcode status (rn_transport r) Hop) as (p & Hp & Hk & Hc).
  unfold send_status, zoom. rewrite Hp. cbn. eexists. split; [done|].
  exists p. split; [done|]. split; [done|]. exists status. by right.
Qed.

(** The answer of the dispatch: a short result with nothing sent yet, or a
    reply already sent. *)
Definition dispatch_post (opcode : Z) (r : Runner) (o : outcome Runner () (result Z (list Z)))
  : Prop :=
  match o with
  | Next result r' =>
      tr_to_host (rn_transport r') = tr_to_host (rn_transport r) ∧
      (∀ data, result = Ok data → (length data ≤ 58)%nat)
  | Return _ r' => one_reply opcode (rn_transport r) (rn_transport r')
  | Panic => False
  end.

Lemma dispatch_setter opcode r f :
  (∀ data, (f r).1 = Ok data → data = []) →
  tr_to_host (rn_transport (f r).2) = tr_to_host (rn_transport r) →
  dispatch_post opcode r (setter f r).
Proof.
  unfold setter, call, dispatch_post. destruct (f r) as [res r']. cbn [fst snd].
  intros Hd Ht. split; [done|]. intros data Hdata. rewrite (Hd data Hdata). cbn. lia.
Qed.

Lemma dispatch_status opcode r status : is_u16 opcode →
  dispatch_post opcode r ((send_status opcode status;; return_ ()) r).
Proof.
  intros Hop. destruct (send_status_reply (R := ()) opcode status r Hop) as (r' & E & Hr).
  unfold dispatch_post, mbind, M_bind, return_. by rewrite E.
Qed.

Lemma store_data_setter opcode put params r :
  dispatch_post opcode r (setter (store_advertising_data put params) r).
Proof.
  apply dispatch_setter; unfold store_advertising_data; repeat case_match; try done; cbn; by intros ? [= <-].
Qed.

Lemma command_result_post opcode params r : is_u16 opcode →
  dispatch_post opcode r (command_result opcode params r).
Proof.
  intros Hop. unfold command_result.
  repeat match goal with
  | |- dispatch_post _ _ ((if ?b then _ else _) _) => destruct b
  end;
    try (split; [done|]; intros ? [= <-]; cbn; lia);
    try (apply dispatch_status; done);
    try apply store_data_setter;
    try (apply dispatch_setter; cbv delta
      [set_random_address set_advertising_parameters set_advertising_enable] beta zeta;
      repeat case_match; try done; cbn; by intros ? [= <-]).
  - destruct (opcode =? 0x0c01); (split; [done|]; intros ? [= <-]; cbn; lia).
  - cbv delta [mbind M_bind call] beta zeta.
    destruct (fill_bytes 8 (rn_random r)) as [bytes rng] eqn:E.
    set (r1 := r <| rn_random := rng |>).
    pose proof (fill_bytes_length 8 (rn_random r)) as Hl. rewrite E in Hl. cbn in Hl.
    destruct (send_complete_reply (R := ()) opcode HCI_SUCCESS bytes r1) as (r' & E' & Hr); [lia|].
    unfold dispatch_post. cbn. cbn in E'. rewrite E'. exact Hr.
Qed.

Lemma command_opcode_fits bytes : bytes_ok bytes → malformed_command bytes = false →
  is_u16 (command_opcode bytes).
Proof.
  intros Hb Hm. unfold malformed_command in Hm. bool_to_prop.
  match goal with Hlt : (_ <? _)%nat = false |- _ => apply Nat.ltb_ge in Hlt end.
  apply from_le_two_fits; apply bytes_ok_lookup; done || lia.
Qed.

(** One reply per well-formed command, none to a malformed one, no panic. *)
Lemma handle_command_reply bytes r : bytes_ok bytes →
  ∃ r', handle_command bytes r = Some ((), r') ∧
    if malformed_command bytes then r' = r
    else one_reply (command_opcode bytes) (rn_transport r) (rn_transport r').
Proof.
  intros Hb. unfold handle_command, run.
  destruct (malformed_command bytes) eqn:Hm; [by exists r|].
  pose proof (command_opcode_fits _ Hb Hm) as Hop.
  pose proof (command_result_post (command_opcode bytes) (command_params bytes) r Hop) as Hpost.
  unfold mbind, M_bind. unfold dispatch_post in Hpost.
  destruct (command_result _ _ r) as [res r1|[] r1|]; [|by exists r1|done].
  destruct Hpost as [Ht Hd]. destruct res as [data|status].
  - destruct (send_complete_reply (R := ()) (command_opcode bytes) HCI_SUCCESS data r1)
      as (r' & -> & p & Hp & Hr); [by apply Hd|].
    exists r'. split; [done|]. exists p. by rewrite <- Ht.
  - destruct (send_complete_reply (R := ()) (command_opcode bytes) status [] r1)
      as (r' & -> & p & Hp & Hr); [cbn; lia|].
    exists r'. split; [done|]. exists p. by rewrite <- Ht.
Qed.

End replies.
