(* ===== verification/ConnectionSafety.v ===== *)
(** * Safety of a whole connection

    Host commands and packets keep the invariant of the connection, and so does
    every step of its life: from the CONNECT_IND on, no reachable state violates
    the invariant and no step out of it panics. *)

From S2P Require Import Prelude Effects Time Channel Timing Sequence ControlPdu Llcp Advertising.
From S2P Require Import Hci Controller Connection Commands Runner Loops ConnectionInv EventInv HostProps.

Section safety.
Context `{!EmbassyTime} `{!RngCore} `{!RngCoreLaws}.

Abbreviation transport w := (rn_transport (w_runner w)).

(** ** Connected commands *)

(** A connected command leaves the air interface alone and sends one reply. *)
Definition command_post (opcode : Z) (w w' : World) : Prop :=
  quiet (w_conn w) (w_conn w') ∧ one_reply opcode (transport w) (transport w').

Lemma holds_status {R} opcode code w : is_u16 opcode →
  holds (status opcode code : M World R ()) w
    (λ _ w', w_conn w' = w_conn w ∧ one_reply opcode (transport w) (transport w'))
    (λ _ _, False).
Proof.
  intros Hop. destruct (send_status_reply (R := ()) opcode code (w_runner w) Hop) as (r' & E & Hr).
  apply (holds_zoom _ _ _ () r'); [unfold run; by rewrite E|by split].
Qed.

Lemma holds_complete {R} opcode code data w : (length data ≤ 58)%nat →
  holds (complete opcode code data : M World R ()) w
    (λ _ w', w_conn w' = w_conn w ∧ one_reply opcode (transport w) (transport w'))
    (λ _ _, False).
Proof.
  intros Hd. destruct (send_complete_reply (R := ()) opcode code data (w_runner w) Hd) as (r' & E & Hr).
  apply (holds_zoom _ _ _ () r'); [unfold run; by rewrite E|by split].
Qed.

(** [status]/[complete] and then the end of the handler. *)
Lemma holds_reply_then {A} (m : M World bool ()) (k : M World bool A) opcode w0 w P :
  quiet (w_conn w0) (w_conn w) → transport w = transport w0 →
  holds m w (λ _ w', w_conn w' = w_conn w ∧ one_reply opcode (transport w) (transport w'))
    (λ _ _, False) →
  (∀ w', command_post opcode w0 w' → holds k w' P (λ _ w', command_post opcode w0 w')) →
  holds (m;; k) w P (λ _ w', command_post opcode w0 w').
Proof.
  intros Hq Ht Hm Hk. eapply holds_bind_next; [exact Hm|]. cbn beta.
  intros _ w' [Hc Hr]. apply Hk. split; [by rewrite Hc|by rewrite <- Ht].
Qed.

Lemma command_disconnect_ok opcode params w : is_u16 opcode → bytes_ok params →
  length params = 3%nat →
  holds (command_disconnect opcode params) w (λ _ w', command_post opcode w w')
    (λ _ w', command_post opcode w w').
Proof.
  intros Hop Hb Hlen. unfold command_disconnect. do 2 apply holds_gets_bind.
  case_match.
  - eapply holds_reply_then; [done|done|by apply holds_status|]. intros. by apply holds_ret.
  - destruct (queue_local_procedure Termination [0x02; params !!! 2%nat] None None (w_conn w))
      as [queued c'] eqn:E.
    assert (quiet (w_conn w) c') as Hq.
    { change c' with (queued, c').2. rewrite <- E. apply quiet_queue_local_procedure.
      solve_forall; [done|]. apply bytes_ok_lookup; [done|lia]. }
    eapply holds_zoom_bind; [by rewrite E|].
    eapply holds_reply_then; [exact Hq|done|by apply holds_status|]. intros. by apply holds_ret.
Qed.

Lemma command_read_rssi_ok opcode params w : is_u16 opcode → length params = 2%nat →
  holds (command_read_rssi opcode params) w (λ _ w', command_post opcode w w')
    (λ _ w', command_post opcode w w').
Proof.
  intros Hop Hlen. unfold command_read_rssi. do 2 apply holds_gets_bind.
  case_match;
    (eapply holds_reply_then; [done|done|apply holds_complete|intros; by apply holds_ret]).
  - lia.
  - rewrite length_insert, length_splice; rewrite ?length_replicate, ?length_to_le; lia.
Qed.

Lemma param_request_ok interval_min interval_max latency timeout counter :
  is_u16 interval_min → is_u16 interval_max → is_u16 latency → is_u16 timeout → is_u16 counter →
  bytes_ok (param_request_pdu interval_min interval_max latency timeout counter).
Proof.
  intros. unfold param_request_pdu. rewrite param_write_bytes by done.
  apply param_bytes_ok; [done|]. split; cbn; try done. by solve_forall.
Qed.

Lemma command_connection_update_ok opcode params w : is_u16 opcode → bytes_ok params →
  length params = 14%nat → conn_ok (w_conn w) →
  holds (command_connection_update opcode params) w (λ _ w', command_post opcode w w')
    (λ _ w', command_post opcode w w').
Proof.
  intros Hop Hb Hlen Hc. unfold command_connection_update.
  assert (∀ i, (S i < 14)%nat → is_u16 (from_le [params !!! i; params !!! S i])) as Hfit.
  { intros i Hi. apply from_le_two_fits; apply bytes_ok_lookup; done || lia. }
  assert (∀ (b : bool) code (k : M World bool bool) w P,
    (b = false → holds k w P (λ _ w', command_post opcode w w')) →
    holds ((if b then status opcode code;; return_ false else mret ());; k) w P
      (λ _ w', command_post opcode w w')) as Hguard.
  { intros [] code k w' P Hk; [|by apply Hk].
    eapply (holds_bind _ _ _ _ (λ _ _, False)); [|done].
    eapply holds_reply_then; [done|done|by apply holds_status|]. intros. by apply holds_return. }
  apply holds_gets_bind, Hguard. intros _. do 4 apply holds_gets_bind.
  apply Hguard. intros _. apply holds_gets_bind.
  pose proof (param_request_ok _ _ _ _ (ac_event_counter (w_conn w)) (Hfit 2%nat ltac:(lia))
    (Hfit 4%nat ltac:(lia)) (Hfit 6%nat ltac:(lia)) (Hfit 8%nat ltac:(lia)) (ok_counter _ Hc)) as Hpdu.
  set (pdu := param_request_pdu _ _ _ _ _) in *. clearbody pdu.
  destruct (queue_local_procedure_request KindConnectionParameters pdu 0x00 (w_conn w))
    as [queued c'] eqn:E.
  assert (quiet (w_conn w) c') as Hq.
  { change c' with (queued, c').2. rewrite <- E. by apply quiet_queue_local_procedure. }
  eapply holds_zoom_bind; [by rewrite E|]. destruct queued; cbn [negb].
  - apply holds_ret_bind, holds_modify_bind.
    eapply holds_reply_then; [|done|by apply holds_status|intros; by apply holds_ret].
    etrans; [exact Hq|]. apply quiet_local_request.
  - eapply (holds_bind _ _ _ _ (λ _ _, False)); [|done].
    eapply holds_reply_then; [exact Hq|done|by apply holds_status|]. intros. by apply holds_return.
Qed.

Lemma handle_connected_command_ok bytes w : conn_ok (w_conn w) → bytes_ok bytes →
  ∃ stop w', handle_connected_command bytes w = Some (stop, w') ∧
    if malformed_command bytes then w' = w
    else command_post (command_opcode bytes) w w'.
Proof.
  intros Hc Hb. unfold handle_connected_command.
  destruct (malformed_command bytes) eqn:Hm; [by exists false, w|].
  pose proof (command_opcode_fits _ Hb Hm) as Hop.
  assert (bytes_ok (command_params bytes)) as Hp by by apply Forall_drop.
  apply (run_holds _ _ (λ _ w', command_post (command_opcode bytes) w w')).
  assert (∀ b, holds (call_runner (handle_command bytes);; mret b : M World bool bool) w
    (λ _ w', command_post (command_opcode bytes) w w')
    (λ _ w', command_post (command_opcode bytes) w w')) as Hdefault.
  { intros b. destruct (handle_command_reply bytes (w_runner w) Hb) as (r' & E & Hr).
    rewrite Hm in Hr. eapply holds_zoom_bind; [exact E|]. apply holds_ret. by split. }
  unfold has_length.
  repeat match goal with
  | |- holds (if ?b then _ else _) _ _ _ => destruct b eqn:?
  end; bool_to_prop;
    repeat match goal with H : (_ =? _)%nat = true |- _ => apply Nat.eqb_eq in H end.
  - apply Hdefault.
  - by apply command_disconnect_ok.
  - by apply command_read_rssi_ok.
  - by apply command_connection_update_ok.
  - apply Hdefault.
Qed.

(** ** Host packets *)

(** A packet out of the transport: a 64-byte buffer of octets. *)
Definition packet_ok (p : Packet) : Prop :=
  length (pk_bytes p) = HCI_PACKET_CAPACITY ∧ bytes_ok (pk_bytes p) ∧
  (pk_len p ≤ HCI_PACKET_CAPACITY)%nat.

Lemma queue_acl_waits p c c' : queue_acl p c = Ok c' →
  event_id c' = event_id c ∧ waits c c'.
Proof.
  unfold queue_acl. destruct (_ <? _)%nat; [done|]. destruct (_ || _); [done|].
  destruct (ac_pending c); [destruct (fill_first_empty _ _); [|done]|];
    intros [= <-]; (split; [done|by apply waits_same]).
Qed.

Lemma process_packet_ok p w : conn_ok (w_conn w) → packet_ok p →
  ∃ stop w', process_connected_host_packet p w = Some (stop, w') ∧
    conn_ok (w_conn w') ∧ event_id (w_conn w') = event_id (w_conn w) ∧
    waits (w_conn w) (w_conn w').
Proof.
  intros Hc (Hlen & Hb & Hn). unfold process_connected_host_packet.
  destruct (pk_kind p); try by exists false, w.
  - destruct (handle_connected_command_ok (contents p) w Hc) as (stop & w' & E & Hpost);
      [by apply Forall_take|].
    exists stop, w'. split; [done|]. destruct (malformed_command _); [by subst|].
    destruct Hpost as [Hq%quiet_heard _].
    split; [by apply Hq|]. split; [by apply heard_event_id|by apply heard_waits].
  - destruct (queue_acl p (w_conn w)) as [c'|] eqn:E; [|by exists false, w].
    eexists _, _. split; [done|]. split; [by eapply queue_acl_ok|by eapply queue_acl_waits].
Qed.

(** ** Catching up *)

Fixpoint iterate {A} (n : nat) (f : A → A) (a : A) : A :=
  match n with O => a | S n => iterate n f (f a) end.

(** The catch-up loop ends: the receive window of the current event is still
    open, or 65536 events have been skipped and the connection is given up. *)
Definition skip_post (now : Instant) (budget : nat) (count : Z) (c : ActiveConnection)
    (r : result Z (Z * bool)) (c' : ActiveConnection) : Prop :=
  conn_ok c' ∧ tx_view c' = tx_view c ∧
  match r with
  | Ok (total, _) => ∃ n, (n ≤ budget)%nat ∧ total = count + Z.of_nat n ∧
      instant_ltb (receive_close c') now = false ∧
      event_id c' = iterate n (λ id, next_number (next_phase id)) (event_id c)
  | Err e => e = 0x08 ∧
      event_id c' = iterate (S budget) (λ id, next_number (next_phase id)) (event_id c)
  end.

Lemma skip_loop_ok now clock budget count notify c : conn_ok c →
  ∃ r c', skip_loop now clock budget count notify c = Some (r, c') ∧
    skip_post now budget count c r c'.
Proof.
  revert count notify c. induction budget as [|budget IH]; intros count notify c Hc;
    cbn [skip_loop]; destruct (instant_ltb (receive_close c) now) eqn:Hopen.
  - destruct (skip_event_ok (clock count) c Hc) as (n & c' & -> & Hc' & Hv & Hid & _).
    eexists _, _. split; [done|]. split; [done|]. split; [done|]. by split.
  - eexists _, _. split; [done|]. split; [done|]. split; [done|].
    exists 0%nat. split; [done|]. split; [lia|]. done.
  - destruct (skip_event_ok (clock count) c Hc) as (n & c' & -> & Hc' & Hv & Hid & _).
    destruct (IH (count + 1) (notify || n) c' Hc') as (r & c2 & E & Hc2 & Hv2 & Hr).
    exists r, c2. split; [done|]. split; [done|]. split; [congruence|].
    destruct r as [[total ?]|e].
    + destruct Hr as (k & Hk & -> & Hw & Hid2). exists (S k). split; [lia|]. split; [lia|].
      split; [done|]. rewrite Hid2, Hid. done.
    + destruct Hr as [-> Hid2]. split; [done|]. rewrite Hid2, Hid. done.
  - eexists _, _. split; [done|]. split; [done|]. split; [done|].
    exists 0%nat. split; [lia|]. split; [lia|]. done.
Qed.

(** ** The life of a connection as a transition system *)

(** A connection as a CONNECT_IND creates it. *)
Inductive conn_start : World → Prop :=
| start_connect packet address request us now c r :
    bytes_ok packet → parse_connect_ind_detailed packet address = Ok request →
    connection_new request us now = Ok c →
    conn_start (mkWorld r c).

(** The steps of [run_connection] that go on: a Host packet, the timeout check,
    catching up, a connection event followed by the scheduling of the next one,
    and whatever only touches the runner. *)
Inductive conn_step : World → World → Prop :=
| step_packet p stop w w' :
    packet_ok p → process_connected_host_packet p w = Some (stop, w') → conn_step w w'
| step_timeouts now_us error w :
    conn_step w (w <| w_conn := (w_conn w) <| ac_procedures :=
      (check_timeouts (ac_procedures (w_conn w)) now_us error).1 |> |>)
| step_skip now clock r c w :
    skip_expired_events now clock (w_conn w) = Some (r, c) →
    conn_step w (w <| w_conn := c |>)
| step_event clock exchange w w' :
    radio_ok exchange → connection_event clock exchange w = Some (None, w') →
    conn_step w (w' <| w_conn := schedule_following_event (w_conn w') |>)
| step_runner r w :
    conn_step w (w <| w_runner := r |>).

Inductive reachable : World → Prop :=
| reach_start w : conn_start w → reachable w
| reach_step w w' : reachable w → conn_step w w' → reachable w'.

Lemma connection_new_ok packet address request us now c :
  bytes_ok packet → parse_connect_ind_detailed packet address = Ok request →
  connection_new request us now = Ok c → conn_ok c ∧ settled c ∧ event_id c = (0, 0, ci_hop_increment request).
Proof.
  intros Hb Hp.
  destruct (parse_connect_ind_inv packet address request Hb Hp)
    as (_ & _ & _ & _ & Hfits & _ & _ & Htime & _ & _).
  unfold connection_new, connection_new_for. intros (s & Hs & [= <-])%ok_bind_inv.
  destruct (cs_new_ok _ _ s ltac:(apply Hfits) Hs) as (Hok & _ & Hhop & Hlast).
  split; [|split; [done|]].
  - split; try done; try (by left).
    exists []. split_and!; done || (cbn; lia).
  - unfold event_id. cbn. by rewrite Hlast, Hhop.
Qed.

Lemma reachable_ok w : reachable w → conn_ok (w_conn w).
Proof.
  induction 1 as [w Hs|w w' _ Hc Hstep].
  - destruct Hs. by eapply connection_new_ok.
  - destruct Hstep as [p stop w w' Hp E|now_us error w|now clock r c w E|clock ex w w' Hr E|r w].
    + destruct (process_packet_ok p w Hc Hp) as (stop' & w2 & E2 & Hok & _). congruence.
    + by apply ok_procedures.
    + destruct (skip_loop_ok now clock (Z.to_nat U16_MAX) 0 false _ Hc) as (r' & c' & E2 & Hok & _).
      unfold skip_expired_events in E. cbn. congruence.
    + destruct (connection_event_ok clock ex w Hc Hr) as (r' & w2 & E2 & _ & _ & Hpost).
      rewrite E in E2. injection E2 as <- <-. destruct (Hpost eq_refl) as (Hok & Hset & _ & _).
      by apply schedule_ok.
    + done.
Qed.

End safety.

(** ** Samples for the witnesses *)

Definition at_us (us : Z) : @Instant micros_time := us.

(** A clock at zero, a radio that hears nothing, and the connection of the
    sample CONNECT_IND. *)
Definition sample_transport : Transport := transport_init.
Definition sample_runner : Runner := mkRunner ADV_ACCESS_ADDRESS ADV_CRC_INIT (0 : Rng)
  (mkAdvertiser sample_advertiser (duration_from_micros 200000) [true; true; true] ad_new ad_new
     true) true sample_transport.
Definition sample_packet : list Z :=
  connect_ind_bytes sample_initiator sample_advertiser sample_connect_ind.
Definition sample_clock : EventClock := mkEventClock (at_us 0) (at_us 0) (at_us 0) (at_us 0).
Definition silent_radio : Channel → Instant → Duration → list Z → result Error ExchangeResult :=
  λ _ _ _ _, Err ErrorTimeout.

Definition get_ok {E A} (r : result E A) : is_ok r = true → A :=
  match r with
  | Ok a => λ _, a
  | Err _ => λ H, False_rect A (diff_false_true H)
  end.

Lemma get_ok_spec {E A} (r : result E A) (H : is_ok r = true) : r = Ok (get_ok r H).
Proof. by destruct r. Qed.

Definition sample_conn : ActiveConnection :=
  get_ok (connection_new sample_connect_ind 1000 (at_us 1000)) eq_refl.
Definition sample_world : World := mkWorld sample_runner sample_conn.

Lemma sample_packet_ok : bytes_ok sample_packet.
Proof. vm_compute. repeat constructor; discriminate. Qed.

Lemma sample_conn_new : connection_new sample_connect_ind 1000 (at_us 1000) = Ok sample_conn.
Proof. apply get_ok_spec. Qed.

Lemma sample_conn_ok : conn_ok sample_conn.
Proof.
  eapply (connection_new_ok sample_packet sample_advertiser sample_connect_ind 1000 (at_us 1000));
    [apply sample_packet_ok|vm_compute; reflexivity|apply sample_conn_new].
Qed.

Lemma sample_reachable : reachable sample_world.
Proof.
  apply reach_start.
  eapply (start_connect sample_packet sample_advertiser sample_connect_ind 1000 (at_us 1000));
    [apply sample_packet_ok|vm_compute; reflexivity|apply sample_conn_new].
Qed.

Lemma silent_radio_ok : radio_ok silent_radio.
Proof. done. Qed.

(** ** Properties *)

(** C1: No connection can be driven into a panic or out of its invariant: from any
    CONNECT_IND that the parser accepts, whatever the Host sends, whatever the radio
    delivers (any octets, CRC verdicts, timeouts) and whenever events are missed,
    every reachable connection satisfies the invariant (queues filled from the front,
    the staged frame the image of the selected PDU, valid channel selector and timing,
    no pending instant passed), and the next Host packet, catch-up or connection event
    runs to its end; an event that disconnects gives a one-octet reason. *)
Theorem connection_safe `{!EmbassyTime} `{!RngCore} `{!RngCoreLaws} w :
  reachable w →
  conn_ok (w_conn w) ∧
  (∀ p, packet_ok p → ∃ stop w', process_connected_host_packet p w = Some (stop, w')) ∧
  (∀ now clock, ∃ r c, skip_expired_events now clock (w_conn w) = Some (r, c)) ∧
  (∀ clock exchange, radio_ok exchange →
     ∃ reason w', connection_event clock exchange w = Some (reason, w') ∧ opt_ok is_u8 reason).
Proof.
  intros Hr. pose proof (reachable_ok w Hr) as Hc. split; [done|]. split; [|split].
  - intros p Hp. destruct (process_packet_ok p w Hc Hp) as (stop & w' & E & _). eauto.
  - intros now clock.
    destruct (skip_loop_ok now clock (Z.to_nat U16_MAX) 0 false _ Hc) as (r & c & E & _). eauto.
  - intros clock exchange Hex.
    destruct (connection_event_ok clock exchange w Hc Hex) as (r & w' & E & Hb & _). eauto.
Qed.

Lemma connection_safe_witness :
  reachable sample_world ∧
  ∃ reason w', connection_event sample_clock silent_radio sample_world = Some (reason, w') ∧
    opt_ok is_u8 reason.
Proof.
  split; [exact sample_reachable|].
  destruct (connection_safe sample_world sample_reachable) as (_ & _ & _ & H).
  exact (H sample_clock silent_radio silent_radio_ok).
Defined.



(** Every HCI command gets exactly one reply, in both states of the controller. For
    any octets, the command handlers run to their end without a panic; a command that is
    shorter than its header or whose length does not match changes nothing; any other one
    adds exactly one packet to the queue of the Host, a Command Complete or a Command
    Status with its own opcode, and during a connection it leaves everything on air, in
    the ACL queue and among the pending instants as it was. *)
Theorem command_one_reply `{!EmbassyTime} `{!RngCore} `{!RngCoreLaws} bytes :
  bytes_ok bytes →
  (∀ r, ∃ r', handle_command bytes r = Some ((), r') ∧
     if malformed_command bytes then r' = r
     else one_reply (command_opcode bytes) (rn_transport r) (rn_transport r')) ∧
  (∀ w, conn_ok (w_conn w) → ∃ stop w', handle_connected_command bytes w = Some (stop, w') ∧
     if malformed_command bytes then w' = w
     else one_reply (command_opcode bytes) (rn_transport (w_runner w)) (rn_transport (w_runner w')) ∧
          conn_ok (w_conn w') ∧ air_view (w_conn w') = air_view (w_conn w)).
Proof.
  intros Hb. split.
  - intros r. by apply handle_command_reply.
  - intros w Hc. destruct (handle_connected_command_ok bytes w Hc Hb) as (stop & w' & E & Hpost).
    exists stop, w'. split; [done|]. destruct (malformed_command bytes); [done|].
    destruct Hpost as [[Hok Hv] Hr]. auto.
Qed.

Lemma command_one_reply_witness :
  ∃ r', handle_command [0x03; 0x0c; 0] sample_runner = Some ((), r') ∧
    one_reply 0x0c03 (rn_transport sample_runner) (rn_transport r').
Proof.
  destruct (command_one_reply [0x03; 0x0c; 0]) as [H _];
    [vm_compute; repeat constructor; discriminate|].
  destruct (H sample_runner) as (r' & E & Hr). exists r'. split; [exact E|exact Hr].
Defined.
