(* ===== verification/Link.v ===== *)
(** * The link of a connection

    A connection belongs to the Access Address and the CRC initialization of its
    CONNECT_IND.  Updates change the timing and the channel map of the request
    that the connection keeps, and nothing changes these two; the walk of
    [HostLog] uses it for every body. *)

From S2P Require Import Prelude Effects Time Channel Timing Sequence ControlPdu Llcp Advertising.
From S2P Require Import Hci Controller Connection Commands Runner Loops.

Section link.
Context {time : EmbassyTime}.

(** What the radio is set to when the connection opens. *)
Definition link (c : ActiveConnection) : Z * Z :=
  (ci_access_address (ac_request c), Z.land (ci_crc_init (ac_request c)) 0x00ffffff).

(** The connection that an operation leaves, on each of its shapes. *)
Definition same_link (c c' : ActiveConnection) : Prop := link c' = link c.
Definition links {A} (f : ActiveConnection → A * ActiveConnection) : Prop :=
  ∀ c, same_link c (f c).2.
Definition links_opt {A} (f : ActiveConnection → option (A * ActiveConnection)) : Prop :=
  ∀ c a c', f c = Some (a, c') → same_link c c'.
Definition links_result {E} (f : ActiveConnection → result E ActiveConnection) : Prop :=
  ∀ c c', f c = Ok c' → same_link c c'.

#[local] Arguments same_link _ _ / : assert.

(** Most operations never touch the request. *)
Ltac same_request :=
  intros; unfold same_link, link in *; simplify_eq/=;
  repeat (case_match; simplify_eq/=); try done.

Lemma apply_channel_map_link : links_result apply_channel_map.
Proof.
  intros c c'. unfold apply_channel_map. destruct (due_channel_map c); [|by intros [= <-]].
  intros (? & _ & [= <-])%ok_bind_inv. done.
Qed.

Lemma apply_update_link now : links (apply_update now).
Proof. intros c. unfold apply_update. same_request. Qed.

Lemma apply_instants_link now : links (apply_instants now).
Proof.
  intros c. unfold apply_instants. destruct (apply_channel_map c) as [c1|e] eqn:E; [|done].
  pose proof (apply_update_link now c1) as Hu. destruct (apply_update now c1) as [flags c2].
  cbn in *. unfold same_link in *. etransitivity; [exact Hu|]. by apply apply_channel_map_link.
Qed.

Lemma next_channel_link : links_opt next_channel.
Proof.
  intros c a c'. unfold next_channel. destruct (cs_next_channel _) as [[]|]; [|done].
  by intros [= <- <-].
Qed.

Lemma schedule_link c : same_link c (schedule_following_event c).
Proof. unfold schedule_following_event. same_request. Qed.

Lemma skip_event_link now : links_opt (skip_event now).
Proof.
  intros c a c'. unfold skip_event. pose proof (apply_instants_link now c) as Hi.
  destruct (apply_instants now c) as [[[applied changed]|e] c1]; [|by intros [= <- <-]].
  destruct (next_channel _) as [[channel c2]|] eqn:E; [|done]. intros [= <- <-].
  apply next_channel_link in E. pose proof (schedule_link c2) as Hs.
  unfold same_link in *. rewrite Hs, E. by destruct applied.
Qed.

Lemma skip_expired_link now clock : links_opt (skip_expired_events now clock).
Proof.
  unfold skip_expired_events. generalize (Z.to_nat U16_MAX), 0, false.
  induction n as [|n IH]; intros count notify c a c'; cbn [skip_loop];
    (destruct (instant_ltb _ _); [|by intros [= <- <-]]);
    destruct (skip_event (clock count) c) as [[[b|e] c1]|] eqn:E; try done;
    apply skip_event_link in E; try (by intros [= <- <-]).
  intros Hn%IH. unfold same_link in *. congruence.
Qed.

(** ** The control queue *)

Lemma control_with_token_link bytes token : links (queue_control_with_token bytes token).
Proof. intros c. unfold queue_control_with_token. same_request. Qed.

Lemma queue_control_link bytes : links (queue_control bytes).
Proof.
  intros c. unfold queue_control, queue_control_owned, allocate_control_token, same_link.
  cbv beta iota zeta.
  match goal with |- context [queue_control_with_token bytes ?t ?c1] =>
    pose proof (control_with_token_link bytes t c1) as Hq;
    destruct (queue_control_with_token bytes t c1) end. exact Hq.
Qed.

Lemma with_procedures_link r : links_result (λ c, with_procedures c r).
Proof. intros c c'. unfold with_procedures. destruct r; [by intros [= <-]|done]. Qed.

Lemma fail_procedure_link i e c : same_link c (fail_procedure i e c).
Proof.
  unfold fail_procedure. destruct (with_procedures c _) eqn:E; [|done].
  by apply with_procedures_link in E.
Qed.

Lemma remote_response_link kind op response expected timeout :
  links (queue_remote_procedure_response_with_followup kind op response expected timeout).
Proof.
  intros c. unfold queue_remote_procedure_response_with_followup, allocate_control_token, same_link.
  destruct response as [|b response]; [done|]. cbv beta iota zeta. set (c0 := c <| _ := _ |>).
  change (link c) with (link c0). destruct (with_procedures c0 _) as [c1|[]] eqn:E1;
    try apply queue_control_link. apply with_procedures_link in E1.
  destruct (with_procedures c1 _) as [c2|] eqn:E2; [|by cbn; rewrite fail_procedure_link].
  apply with_procedures_link in E2.
  match goal with |- context [queue_control_with_token _ ?t c2] =>
    pose proof (control_with_token_link (b :: response) t c2) as H3;
    destruct (queue_control_with_token (b :: response) t c2) as [queued c3] end.
  unfold same_link in *. cbn [snd] in H3.
  destruct queued; cbn; [|rewrite fail_procedure_link]; congruence.
Qed.

Lemma remote_response_simple_link kind op response :
  links (queue_remote_procedure_response kind op response).
Proof. apply remote_response_link. Qed.

Lemma remote_instant_link kind opcode instant : links (start_remote_instant_procedure kind opcode instant).
Proof.
  intros c. unfold start_remote_instant_procedure, allocate_control_token, same_link.
  cbv beta iota zeta. destruct (with_procedures _ _) as [c1|[]] eqn:E; try done.
  apply with_procedures_link in E. exact E.
Qed.

Lemma local_procedure_link kind request expected timeout :
  links (queue_local_procedure kind request expected timeout).
Proof.
  intros c. unfold queue_local_procedure, allocate_control_token, same_link.
  destruct request as [|b request]; [done|]. cbv beta iota zeta. set (c0 := c <| _ := _ |>).
  change (link c) with (link c0). destruct (with_procedures c0 _) as [c1|] eqn:E1; [|done].
  apply with_procedures_link in E1.
  match goal with |- context [queue_control_with_token _ ?t c1] =>
    pose proof (control_with_token_link (b :: request) t c1) as H3;
    destruct (queue_control_with_token (b :: request) t c1) as [queued c3] end.
  unfold same_link in *. cbn [snd] in H3.
  destruct queued; cbn; [|rewrite fail_procedure_link]; congruence.
Qed.

Lemma local_request_link kind request expected :
  links (queue_local_procedure_request kind request expected).
Proof. apply local_procedure_link. Qed.

Lemma pending_control_link f c c' : on_pending_control f c = Ok c' → same_link c c'.
Proof.
  unfold on_pending_control. destruct (ac_pending_control c); [|by intros [= <-]].
  destruct (procedure_for_control_owner _ c) as [[]|]; [|by intros [= <-]].
  destruct (with_procedures c _) eqn:E; [|done]. intros [= <-].
  by apply with_procedures_link in E.
Qed.

Lemma complete_pending_link : links_result complete_pending_control_transmit.
Proof. intros c c'. apply pending_control_link. Qed.

Lemma acknowledge_pending_link now : links_result (acknowledge_pending_control now).
Proof. intros c c'. apply pending_control_link. Qed.

(** ** The runner's operations on the connection *)

Lemma update_owner_link instant : links (update_owner instant).
Proof.
  intros c. unfold update_owner, same_link.
  assert (∀ i, link (match with_procedures c
    (expected_response_with_instant (ac_procedures c) i 0 instant) with
    | Ok c => (Ok () : result Z (), c) | Err _ => (Err 0x3d, c) end).2 = link c) as Hr.
  { intros i. destruct (with_procedures c _) eqn:E; [|done]. by apply with_procedures_link in E. }
  cbv zeta. case_bool_decide; [apply Hr|]. case_match; [apply Hr|]. apply remote_instant_link.
Qed.

Lemma build_frame_link : links_result build_transmit_frame.
Proof.
  intros c c'. unfold build_transmit_frame. intros (c1 & Hc & Hb)%ok_bind_inv.
  assert (same_link c c1) as H1.
  { case_bool_decide; [|by injection Hc as ->]. by eapply pending_control_link. }
  destruct (selected_pdu c1). injection Hb as <-. exact H1.
Qed.

Lemma promote_link c : same_link c (promote_priority_control_if_idle c).
Proof. unfold promote_priority_control_if_idle. same_request. Qed.

Lemma choose_link c : same_link c (choose_transmit c).
Proof. unfold choose_transmit. same_request. Qed.

Lemma advance_control_link c : same_link c (advance_control c).
Proof. unfold advance_control. same_request. Qed.

Lemma advance_acl_link c : same_link c (advance_acl c).
Proof. unfold advance_acl. same_request. Qed.

Lemma take_timeout_link : links take_receive_timeout.
Proof. intros c. done. Qed.

Lemma queue_acl_link packet : links_result (queue_acl packet).
Proof.
  intros c c'. unfold queue_acl, same_link. intros H.
  repeat (case_match; simplify_eq/=; try done).
Qed.

Lemma new_link request us now c : connection_new request us now = Ok c →
  link c = (ci_access_address request, Z.land (ci_crc_init request) 0x00ffffff).
Proof.
  unfold connection_new, connection_new_for. by intros (? & _ & [= <-])%ok_bind_inv.
Qed.

End link.

Create HintDb link.
#[export] Hint Resolve apply_instants_link next_channel_link schedule_link skip_expired_link
  queue_control_link fail_procedure_link remote_response_link remote_response_simple_link
  remote_instant_link local_procedure_link local_request_link complete_pending_link
  acknowledge_pending_link update_owner_link build_frame_link promote_link choose_link
  advance_control_link advance_acl_link take_timeout_link queue_acl_link : link.
