(* ===== verification/Instants.v ===== *)
(** * Procedures with an instant, over many connection events

    A connection update or a channel map waits through any mix of served,
    missed and failed events and Host packets, and takes effect at its instant:
    the first event that uses the new parameters is the one whose number is the
    instant.  The channel hopping stays in step with the event number. *)

From S2P Require Import Prelude Effects Time Channel Timing Sequence ControlPdu Llcp Advertising.
From S2P Require Import Hci Controller Connection Commands Runner Loops ConnectionInv EventInv HostProps ConnectionSafety.

Section instants.
Context `{!EmbassyTime} `{!RngCore} `{!RngCoreLaws}.

(** Steps between events: a Host packet, the timeout check, and whatever only
    touches the runner. *)
Inductive host_step : World → World → Prop :=
| host_packet p stop w w' :
    packet_ok p → process_connected_host_packet p w = Some (stop, w') → host_step w w'
| host_timeouts now_us error w :
    host_step w (w <| w_conn := (w_conn w) <| ac_procedures :=
      (check_timeouts (ac_procedures (w_conn w)) now_us error).1 |> |>)
| host_runner r w : host_step w (w <| w_runner := r |>).

(** One event passes, missed (one iteration of the catch-up loop) or served
    without a reason to disconnect. *)
Inductive event_step : World → World → Prop :=
| event_missed w now notify c :
    skip_event now (w_conn w) = Some (Ok notify, c) → event_step w (w <| w_conn := c |>)
| event_served w w' clock exchange :
    radio_ok exchange → connection_event clock exchange w = Some (None, w') →
    event_step w (w' <| w_conn := schedule_following_event (w_conn w') |>).

(** [elapse n w w']: [n] events pass, with Host steps in between. *)
Inductive elapse : nat → World → World → Prop :=
| elapse_start w : elapse 0 w w
| elapse_host n w w1 w2 : elapse n w w1 → host_step w1 w2 → elapse n w w2
| elapse_event n w w1 w2 : elapse n w w1 → event_step w1 w2 → elapse (S n) w w2.

Lemma host_step_ok w w' : host_step w w' → conn_ok (w_conn w) →
  conn_ok (w_conn w') ∧ event_id (w_conn w') = event_id (w_conn w) ∧ waits (w_conn w) (w_conn w').
Proof.
  intros [p stop w0 w1 Hp E|now_us error w0|r w0] Hc.
  - destruct (process_packet_ok p w0 Hc Hp) as (stop' & w2 & E2 & Hpost). congruence.
  - split; [by apply ok_procedures|]. split; [done|by apply waits_same].
  - by split.
Qed.

Lemma event_step_ok w w' : event_step w w' → conn_ok (w_conn w) →
  conn_ok (w_conn w') ∧ event_id (w_conn w') = next_number (next_phase (event_id (w_conn w))) ∧
  passes (w_conn w) (w_conn w').
Proof.
  intros [w0 now notify c E|w0 w1 clock exchange Hex E] Hc.
  - destruct (skip_event_ok now _ Hc) as (n & c2 & E2 & Hok & _ & Hid & Hp).
    rewrite E in E2. by injection E2 as -> ->.
  - destruct (connection_event_ok clock exchange w0 Hc Hex) as (r & w2 & E2 & _ & _ & Hpost).
    rewrite E in E2. injection E2 as <- <-.
    destruct (Hpost eq_refl) as (Hok & Hs & Hid & c0 & Ha & Hw).
    split; [by apply schedule_ok|]. split; [|by exists c0, (w_conn w1)].
    cbn [w_conn set_field]. by rewrite schedule_event_id, Hid.
Qed.

Lemma elapse_ok n w w' : elapse n w w' → conn_ok (w_conn w) →
  conn_ok (w_conn w') ∧
  event_id (w_conn w') = iterate n (λ id, next_number (next_phase id)) (event_id (w_conn w)).
Proof.
  assert (∀ k (id : Z * Z * Z), next_number (next_phase (iterate k (λ id, next_number (next_phase id)) id)) =
    iterate (S k) (λ id, next_number (next_phase id)) id) as Hiter.
  { intros k. induction k as [|k IH]; intros id; [done|]. cbn [iterate]. by rewrite IH. }
  induction 1 as [w|n w w1 w2 _ IH Hstep|n w w1 w2 _ IH Hstep]; intros Hc; [done|..];
    destruct (IH Hc) as [Hc1 Hid1].
  - destruct (host_step_ok _ _ Hstep Hc1) as (Hok & Hid & _). split; [done|congruence].
  - destruct (event_step_ok _ _ Hstep Hc1) as (Hok & Hid & _).
    split; [done|]. by rewrite Hid, Hid1, Hiter.
Qed.

(** ** Waiting for an instant *)

(** [d] events before its instant. *)
Definition distance (counter instant d : Z) : Prop :=
  is_u16 counter ∧ is_u16 instant ∧ 0 ≤ d ≤ 32766 ∧ u16 (counter + d) = instant.

Lemma distance_zero counter instant d : distance counter instant d →
  instant = counter ↔ d = 0.
Proof.
  intros (Hc & Hi & Hd & He). unfold_ints. split; [intros ->|intros ->].
  - Z.div_mod_to_equations. lia.
  - rewrite Z.add_0_r, Z.mod_small in He by lia. done.
Qed.

Lemma distance_next counter instant d : distance counter instant d → d ≠ 0 →
  distance (u16 (counter + 1)) instant (d - 1).
Proof.
  intros (Hc & Hi & Hd & He) Hne. split; [by apply wrap_fits|]. split; [done|]. split; [lia|].
  rewrite <- He. unfold_ints. rewrite Zplus_mod_idemp_l. f_equal. lia.
Qed.

(** Over one event that is not the one of the instant. *)
Lemma passes_waits c c' : passes c c' →
  ac_event_counter c' = u16 (ac_event_counter c + 1) ∧
  (∀ u, ac_pending_connection_update c = Some u → cu_instant u ≠ ac_event_counter c →
     ac_pending_connection_update c' = Some u ∧ timing_in_force c' = timing_in_force c) ∧
  (∀ m, ac_pending_channel_map c = Some m → cm_instant m ≠ ac_event_counter c →
     ac_pending_channel_map c' = Some m ∧ cs_map (ac_channels c') = cs_map (ac_channels c)).
Proof.
  intros (c1 & c2 & [Hw1 _] & Hw2 & ->).
  assert (waits c c2) as (Hn & Hu & Hm) by by etrans.
  assert (∀ c : ActiveConnection, ac_event_counter (schedule_following_event c) = u16 (ac_event_counter c + 1) ∧
    ac_pending_connection_update (schedule_following_event c) = ac_pending_connection_update c ∧
    ac_pending_channel_map (schedule_following_event c) = ac_pending_channel_map c ∧
    timing_in_force (schedule_following_event c) = timing_in_force c ∧
    ac_channels (schedule_following_event c) = ac_channels c) as Hs.
  { intros c3. unfold schedule_following_event. by case_match. }
  destruct (Hs c2) as (-> & -> & -> & -> & ->). by rewrite Hn.
Qed.

(** A waiting procedure: [P] is what it will replace. *)
Definition waiting_update (u : ConnectionUpdateInd) (d : Z) (c : ActiveConnection) : Prop :=
  ac_pending_connection_update c = Some u ∧ distance (ac_event_counter c) (cu_instant u) d.
Definition waiting_map (m : ChannelMapInd) (d : Z) (c : ActiveConnection) : Prop :=
  ac_pending_channel_map c = Some m ∧ distance (ac_event_counter c) (cm_instant m) d.

Lemma waits_due c u d : waiting_update u d c → d = 0 → due_update c = Some u.
Proof.
  intros [Hu Hd] Hz. apply due_update_spec. split; [done|]. by apply (distance_zero _ _ _ Hd).
Qed.

Lemma waits_map_due c m d : waiting_map m d c → d = 0 → due_channel_map c = Some m.
Proof.
  intros [Hm Hd] Hz. apply due_channel_map_spec. split; [done|]. by apply (distance_zero _ _ _ Hd).
Qed.

(** A Host step does not disturb a procedure, even a due one. *)
Lemma host_step_pending w w' : host_step w w' →
  conn_ok (w_conn w) →
  keeps (ac_pending_connection_update (w_conn w)) (ac_pending_connection_update (w_conn w')) ∧
  keeps (ac_pending_channel_map (w_conn w)) (ac_pending_channel_map (w_conn w')) ∧
  timing_in_force (w_conn w') = timing_in_force (w_conn w) ∧
  cs_map (ac_channels (w_conn w')) = cs_map (ac_channels (w_conn w)).
Proof.
  intros [p stop w0 w1 Hp E|now_us error w0|r w0] Hc; try by (split; [intros ?|split; [intros ?|]]).
  revert E. unfold process_connected_host_packet. destruct (pk_kind p).
  - destruct (handle_connected_command_ok (contents p) w0 Hc) as (stop' & w2 & -> & Hpost);
      [apply Forall_take, Hp|]. intros [= <- <-].
    destruct (malformed_command _); [subst; by (split; [intros ?|split; [intros ?|]])|].
    destruct Hpost as [(_ & Hv & Hu & Hm)%quiet_heard _]. split; [done|]. split; [done|].
    unfold core_view in Hv. unfold timing_in_force.
    assert (ac_request (w_conn w2) = ac_request (w_conn w0) ∧
      ac_channels (w_conn w2) = ac_channels (w_conn w0)) as [-> ->] by (split; congruence). done.
  - unfold queue_acl. destruct (_ <? _)%nat; [|destruct (_ || _)];
      [|..|destruct (ac_pending _); [destruct (fill_first_empty _ _)|]];
      intros [= <- <-]; by (split; [intros ?|split; [intros ?|]]).
  - intros [= <- <-]. by (split; [intros ?|split; [intros ?|]]).
  - intros [= <- <-]. by (split; [intros ?|split; [intros ?|]]).
Qed.

Lemma elapse_waiting_update n w w' u d : elapse n w w' → conn_ok (w_conn w) →
  waiting_update u d (w_conn w) → Z.of_nat n ≤ d →
  waiting_update u (d - Z.of_nat n) (w_conn w') ∧
  timing_in_force (w_conn w') = timing_in_force (w_conn w).
Proof.
  induction 1 as [w|n w w1 w2 He IH Hstep|n w w1 w2 He IH Hstep]; intros Hc Hw Hn.
  - by rewrite Z.sub_0_r.
  - destruct (elapse_ok _ _ _ He Hc) as [Hc1 _]. destruct (IH Hc Hw Hn) as [[Hu Hd] Ht].
    destruct (host_step_pending _ _ Hstep Hc1) as (Hk & _ & Ht2 & _).
    destruct (host_step_ok _ _ Hstep Hc1) as (_ & Hid & _). unfold event_id in Hid.
    injection Hid as Hcnt _ _. split; [|congruence]. split; [by apply Hk|by rewrite Hcnt].
  - destruct (elapse_ok _ _ _ He Hc) as [Hc1 _]. destruct (IH Hc Hw ltac:(lia)) as [[Hu Hd] Ht].
    destruct (event_step_ok _ _ Hstep Hc1) as (_ & _ & (Hcnt & Hup & _)%passes_waits).
    destruct (Hup u Hu) as [Hu2 Ht2].
    { intros Heq. apply (distance_zero _ _ _ Hd) in Heq. lia. }
    split; [|congruence]. split; [exact Hu2|].
    rewrite Hcnt. replace (d - Z.of_nat (S n)) with (d - Z.of_nat n - 1) by lia.
    apply distance_next; [done|lia].
Qed.

Lemma elapse_waiting_map n w w' m d : elapse n w w' → conn_ok (w_conn w) →
  waiting_map m d (w_conn w) → Z.of_nat n ≤ d →
  waiting_map m (d - Z.of_nat n) (w_conn w') ∧
  cs_map (ac_channels (w_conn w')) = cs_map (ac_channels (w_conn w)).
Proof.
  induction 1 as [w|n w w1 w2 He IH Hstep|n w w1 w2 He IH Hstep]; intros Hc Hw Hn.
  - by rewrite Z.sub_0_r.
  - destruct (elapse_ok _ _ _ He Hc) as [Hc1 _]. destruct (IH Hc Hw Hn) as [[Hm Hd] Ht].
    destruct (host_step_pending _ _ Hstep Hc1) as (_ & Hk & _ & Ht2).
    destruct (host_step_ok _ _ Hstep Hc1) as (_ & Hid & _). unfold event_id in Hid.
    injection Hid as Hcnt _ _. split; [|congruence]. split; [by apply Hk|by rewrite Hcnt].
  - destruct (elapse_ok _ _ _ He Hc) as [Hc1 _]. destruct (IH Hc Hw ltac:(lia)) as [[Hm Hd] Ht].
    destruct (event_step_ok _ _ Hstep Hc1) as (_ & _ & (Hcnt & _ & Hup)%passes_waits).
    destruct (Hup m Hm) as [Hm2 Ht2].
    { intros Heq. apply (distance_zero _ _ _ Hd) in Heq. lia. }
    split; [|congruence]. split; [exact Hm2|].
    rewrite Hcnt. replace (d - Z.of_nat (S n)) with (d - Z.of_nat n - 1) by lia.
    apply distance_next; [done|lia].
Qed.

(** What the radio is called with at the event of the instant, and what a
    missed event leaves. *)
Lemma event_setup_due clock w : conn_ok (w_conn w) → holds (event_setup clock) w
  (λ '(channel, _, _, _, _) w',
     (∀ u, due_update (w_conn w) = Some u → timing_in_force (w_conn w') = update_timing u) ∧
     (∀ m, due_channel_map (w_conn w) = Some m →
        cs_map (ac_channels (w_conn w')) = cm_map m ∧ index channel ∈ enabled_channels (cm_map m)))
  (λ _ _, True).
Proof.
  intros Hc. eapply holds_weaken; [by apply event_setup_ok| |done].
  intros [[[[channel deadline] timeout] frame] outstanding] w'.
  intros (Hc' & _ & _ & _ & _ & _ & _ & Hch & c1 & (_ & Hu & Hm) & _ & Ht & Hmap).
  split; [intros u Hdue; by rewrite Ht; apply Hu|].
  intros m Hdue. destruct (Hm m Hdue) as [Hm1 _]. split; [congruence|].
  rewrite <- Hm1, <- Hmap, Hch. apply csa1_remap_enabled; [..|apply (ok_channels _ Hc')]; apply (ok_channels _ Hc').
Qed.

End instants.

(** ** Samples for the witnesses *)

Definition served_world (r : option (option Z * World)) (default : World) : World :=
  match r with Some (_, w) => w | None => default end.
Definition is_served (r : option (option Z * World)) : bool :=
  match r with Some (None, _) => true | _ => false end.

Lemma served_spec r default : is_served r = true → r = Some (None, served_world r default).
Proof. by destruct r as [[[]]|]. Qed.

Definition processed_world (r : option (bool * World)) (default : World) : World :=
  match r with Some (_, w) => w | None => default end.
Definition is_processed (r : option (bool * World)) : bool :=
  match r with Some _ => true | None => false end.
Lemma processed_spec r default : is_processed r = true →
  ∃ stop, r = Some (stop, processed_world r default).
Proof. destruct r as [[stop w]|]; [by exists stop|done]. Qed.

Definition setup_of {A} (o : outcome World (option Z) A) (default : A) (w : World) : A * World :=
  match o with Next a w => (a, w) | _ => (default, w) end.
Definition is_next {A} (o : outcome World (option Z) A) : bool :=
  match o with Next _ _ => true | _ => false end.
Lemma setup_spec {A} (o : outcome World (option Z) A) default w : is_next o = true →
  o = Next (setup_of o default w).1 (setup_of o default w).2.
Proof. by destruct o. Qed.

(** An update and a map one event ahead. *)
Definition sample_update : ConnectionUpdateInd := mkConnectionUpdateInd 2 5 40 0 100 1.
Definition sample_map_ind : ChannelMapInd := mkChannelMapInd [0xff; 0x0f; 0; 0; 0] 1.
Definition waiting_world : World := mkWorld sample_runner
  (sample_conn <| ac_pending_connection_update := Some sample_update |>
               <| ac_pending_channel_map := Some sample_map_ind |>).

Lemma waiting_ok : conn_ok (w_conn waiting_world).
Proof.
  destruct sample_conn_ok. split; try assumption.
  - split; [split; split; reflexivity || discriminate|].
    split; [|intros Hp; vm_compute in Hp; discriminate].
    apply connection_timing_iff; [discriminate|discriminate|reflexivity].
  - split; [split; [reflexivity|vm_compute; repeat constructor; discriminate]|].
    split; [split; [discriminate|reflexivity]|]. split; [reflexivity|].
    intros Hp. vm_compute in Hp. discriminate.
Qed.

Lemma waiting_served : is_served (connection_event sample_clock silent_radio waiting_world) = true.
Proof. vm_compute. reflexivity. Qed.

Definition after_one : World :=
  let w := served_world (connection_event sample_clock silent_radio waiting_world) waiting_world in
  w <| w_conn := schedule_following_event (w_conn w) |>.

Lemma after_one_elapse : elapse 1 waiting_world after_one.
Proof.
  eapply elapse_event; [apply elapse_start|].
  apply (event_served _ _ sample_clock silent_radio silent_radio_ok).
  apply served_spec, waiting_served.
Qed.

Lemma waiting_distance : distance (ac_event_counter (w_conn waiting_world)) 1 1.
Proof. split; [split; [discriminate|reflexivity]|]. split; [split; [discriminate|reflexivity]|]. split; [lia|reflexivity]. Qed.

(** ** Properties *)

(** The anchor that follows an event: one old interval later, and further by the
    offset of a new transmit window. *)
Definition following_anchor (c : ActiveConnection) (offset : option Z) : Instant :=
  let next := instant_add (ac_next_anchor c) (interval c) in
  match offset with
  | Some offset => instant_add next (duration_from_micros (offset * 1250))
  | None => next
  end.

Lemma scheduled_anchor u d c :
  ac_pending_connection_update c = Some u → distance (ac_event_counter c) (cu_instant u) d → d ≠ 0 →
  ac_next_anchor (schedule_following_event c) =
    following_anchor c (if d =? 1 then Some (cu_window_offset u) else None).
Proof.
  intros Hu Hd Hne. pose proof (distance_zero _ _ _ (distance_next _ _ _ Hd Hne)) as Hz.
  unfold schedule_following_event, due_update. cbn. rewrite Hu.
  destruct (Z.eqb_spec (cu_instant u) (u16 (ac_event_counter c + 1))) as [He|He];
    destruct (Z.eqb_spec d 1); try done; exfalso; [apply Hz in He; lia|apply He, Hz; lia].
Qed.

(** C12: A connection update takes effect exactly at its instant. An update whose
    instant is [d] events ahead (up to 32766, across the wrap-around of the event
    counter) stays pending with the old timing in force through every mix of [n <= d]
    served, missed and failed events and Host packets; the anchor after each of these
    events is one old interval later, moved by the new window offset only right before
    the [d]-th, at which the radio is called with the update's window, interval,
    latency and timeout in force. *)
Theorem connection_update_on_time `{!EmbassyTime} `{!RngCore} `{!RngCoreLaws} u d n w w' clock :
  conn_ok (w_conn w) → waiting_update u d (w_conn w) →
  elapse n w w' → Z.of_nat n ≤ d →
  ac_pending_connection_update (w_conn w') = Some u ∧
  timing_in_force (w_conn w') = timing_in_force (w_conn w) ∧
  (Z.of_nat n = d ↔ cu_instant u = ac_event_counter (w_conn w')) ∧
  (Z.of_nat n < d → ∀ c, ac_pending_connection_update c = Some u →
     ac_event_counter c = ac_event_counter (w_conn w') →
     ac_next_anchor (schedule_following_event c) =
       following_anchor c (if Z.of_nat n + 1 =? d then Some (cu_window_offset u) else None)) ∧
  (Z.of_nat n = d → holds (event_setup clock) w'
     (λ _ w'', timing_in_force (w_conn w'') = update_timing u) (λ _ _, True)).
Proof.
  intros Hc Hw He Hn. destruct (elapse_waiting_update _ _ _ _ _ He Hc Hw Hn) as [Hw' Ht].
  pose proof Hw' as [Hu Hd]. split; [done|]. split; [done|]. split.
  { rewrite (distance_zero _ _ _ Hd). lia. }
  split.
  - intros Hlt c Hcu Hcc. rewrite <- Hcc in Hd. rewrite (scheduled_anchor u _ c Hcu Hd) by lia.
    do 2 f_equal. destruct (Z.eqb_spec (d - Z.of_nat n) 1), (Z.eqb_spec (Z.of_nat n + 1) d); lia || done.
  - intros Heq. destruct (elapse_ok _ _ _ He Hc) as [Hc' _].
    eapply holds_weaken; [by apply event_setup_due| |done].
    intros [[[[? ?] ?] ?] ?] w'' [Hup _]. apply Hup. eapply waits_due; [done|lia].
Qed.

(** C13: A channel map takes effect exactly at its instant, without disturbing the phase
    of the hopping: a pending map [d] events ahead stays pending with the old map in
    force through every mix of [n <= d] served, missed and failed events and Host
    packets; at the [d]-th event the radio is called on a channel that the new map
    enables. The phase after [n] events is [n] hops from where it was. *)
Theorem channel_map_on_time `{!EmbassyTime} `{!RngCore} `{!RngCoreLaws} m d n w w' clock :
  conn_ok (w_conn w) → waiting_map m d (w_conn w) →
  elapse n w w' → Z.of_nat n ≤ d →
  ac_pending_channel_map (w_conn w') = Some m ∧
  cs_map (ac_channels (w_conn w')) = cs_map (ac_channels (w_conn w)) ∧
  event_id (w_conn w') = iterate n (λ id, next_number (next_phase id)) (event_id (w_conn w)) ∧
  (Z.of_nat n = d → holds (event_setup clock) w'
     (λ '(channel, _, _, _, _) w'', cs_map (ac_channels (w_conn w'')) = cm_map m ∧
        index channel ∈ enabled_channels (cm_map m) ∧
        event_id (w_conn w'') = next_phase (event_id (w_conn w'))) (λ _ _, True)).
Proof.
  intros Hc Hw He Hn. destruct (elapse_waiting_map _ _ _ _ _ He Hc Hw Hn) as [Hw' Ht].
  pose proof Hw' as [Hm Hd]. destruct (elapse_ok _ _ _ He Hc) as [Hc' Hid].
  split; [done|]. split; [done|]. split; [done|]. intros Heq.
  pose proof (event_setup_due clock w' Hc') as Hdue.
  pose proof (event_setup_ok clock w' Hc') as Hok.
  unfold holds in *. destruct (event_setup clock w') as [[[[[ch ?] ?] ?] ?] w''|r w''|]; try done.
  destruct Hdue as [_ Hmap]. destruct Hok as (_ & _ & Hph & _).
  destruct (Hmap m) as [Hmap' Hin]; [eapply waits_map_due; [done|lia]|]. done.
Qed.

Lemma connection_update_on_time_witness :
  ac_pending_connection_update (w_conn after_one) = Some sample_update ∧
  holds (event_setup sample_clock) after_one
    (λ _ w, timing_in_force (w_conn w) = (2, 5, 40, 0, 100)) (λ _ _, True).
Proof.
  destruct (connection_update_on_time sample_update 1 1 waiting_world after_one sample_clock
    waiting_ok (conj eq_refl waiting_distance) after_one_elapse) as (Hu & _ & _ & _ & Hnew); [lia|].
  split; [exact Hu|exact (Hnew eq_refl)].
Defined.

Lemma channel_map_on_time_witness :
  ac_pending_channel_map (w_conn after_one) = Some sample_map_ind ∧
  holds (event_setup sample_clock) after_one
    (λ '(channel, _, _, _, _) w, cs_map (ac_channels (w_conn w)) = [0xff; 0x0f; 0; 0; 0] ∧
       index channel ∈ enabled_channels [0xff; 0x0f; 0; 0; 0] ∧
       event_id (w_conn w) = next_phase (event_id (w_conn after_one))) (λ _ _, True).
Proof.
  destruct (channel_map_on_time sample_map_ind 1 1 waiting_world after_one sample_clock
    waiting_ok (conj eq_refl waiting_distance) after_one_elapse) as (Hm & _ & _ & Hnew); [lia|].
  split; [exact Hm|exact (Hnew eq_refl)].
Defined.
