(* ===== verification/DataPlane.v ===== *)
(** * The data path of a connection event

    What one connection event does to the ACL queue, the sequence bits, the
    staged frame and the packets for the Host, as a function of the radio
    exchange. *)

From S2P Require Import Prelude Effects Time Channel Timing Sequence ControlPdu Llcp Advertising.
From S2P Require Import Hci Controller Connection Commands Runner Loops ConnectionInv EventInv HostProps ConnectionSafety.
From S2P Require Import Instants.

(** A Data Channel PDU: LLID and payload. *)
Definition Pdu : Type := Z * list Z.
Definition pdu_image (d : PendingData) : Pdu := (pd_llid d, pd_payload d).

(** A PDU that carries L2CAP data: neither control nor empty. *)
Definition is_data (p : Pdu) : bool := negb (p.1 =? LLID_CONTROL) && negb (is_empty p.2).
Definition data (l : list Pdu) : list Pdu := filter is_data l.

Lemma data_app l l' : data (l ++ l') = data l ++ data l'.
Proof. apply filter_app. Qed.

(** The HCI ACL packet that carries a PDU to the Host. *)
Definition acl_image (handle : Z) (p : Pdu) : list Z :=
  to_le 2 (Z.lor handle (if p.1 =? LLID_CONTINUATION then HCI_PB_CONTINUING
                         else HCI_PB_FIRST_FLUSHABLE))
  ++ to_le 2 (Z.of_nat (length p.2)) ++ p.2.

(** The bits of a Data Channel header. *)
Definition header_sn (header : Z) : Z := Z.land (Z.shiftr header 3) 1.
Definition header_nesn (header : Z) : Z := Z.land (Z.shiftr header 2) 1.
Definition header_llid (header : Z) : Z := Z.land header 3.

Lemma data_header_bits llid nesn sn : 1 ≤ llid ≤ 3 → is_sn nesn → is_sn sn →
  header_sn (data_header llid nesn sn) = sn ∧ header_nesn (data_header llid nesn sn) = nesn ∧
  header_llid (data_header llid nesn sn) = llid.
Proof.
  intros Hl [-> | ->] [-> | ->]; assert (llid = 1 ∨ llid = 2 ∨ llid = 3) as [-> | [-> | ->]] by lia;
    done.
Qed.

Lemma land_one_bit x : is_sn (Z.land x 1).
Proof.
  change (Z.land x 1) with (Z.land x (Z.ones 1)). rewrite Z.land_ones by lia.
  pose proof (Z.mod_pos_bound x (2 ^ 1) ltac:(lia)). unfold is_sn. lia.
Qed.

Section dataplane.
Context `{!EmbassyTime} `{!RngCore} `{!RngCoreLaws}.

(** The ACL payloads in the order of transmission. *)
Definition acl_queue (c : ActiveConnection) : list PendingData :=
  option_list (ac_pending c) ++ omap id (ac_queued_acl c).

(** The fields of the data path. *)
Definition data_view (c : ActiveConnection) :=
  (ac_handle c, (ac_transmit_sn c, ac_expected_sn c), (ac_pending c, ac_queued_acl c)).
Definition frame_view (c : ActiveConnection) :=
  (ac_transmitted c, ac_tx_frame_len c, ac_tx_frame_fresh c).

Abbreviation host_out w := (host_acl (rn_transport (w_runner w))).

Lemma omap_slots_of l : omap id (slots_of l) = l.
Proof.
  unfold slots_of. rewrite omap_app. replace (omap id (replicate _ None)) with (@nil PendingData).
  - rewrite app_nil_r. induction l as [|x l IH]; [done|]. cbn. by f_equal.
  - generalize (ACL_QUEUE_CAPACITY - length l)%nat. intros n. by induction n.
Qed.

(** An acknowledged ACL payload leaves the queue at its head. *)
Lemma acl_queue_advance c : conn_ok c → acl_queue (advance_acl c) = tail (acl_queue c).
Proof.
  intros Hc. destruct (ok_acl _ Hc) as (l & Hl & Hcap & Hempty & _).
  unfold acl_queue, advance_acl. cbn. rewrite Hl.
  destruct (advance_slots_of l Hcap) as [-> ->]. rewrite !omap_slots_of.
  destruct (ac_pending c); cbn; [by destruct l|]. by rewrite Hempty.
Qed.

(** A staged frame shows the PDU it was built from, so connections with the same
    frame have the same PDU selected. *)
Lemma selected_same c c' : conn_ok c → conn_ok c' → ac_tx_frame_len c ≠ 0%nat →
  ac_tx_frame_len c' = ac_tx_frame_len c → ac_tx_frame c' = ac_tx_frame c →
  ac_transmit_sn c' = ac_transmit_sn c → selected_pdu c' = selected_pdu c.
Proof.
  intros Hc Hc' Hn El Ef Es.
  destruct (ok_image _ Hc) as [?|(nesn & Hb & _ & Ht)]; [done|].
  destruct (ok_image _ Hc') as [?|(nesn' & Hb' & _ & Ht')]; [congruence|].
  rewrite El, Ef, Es in Ht'. rewrite Ht in Ht'. injection Ht' as Hh _ Hp.
  destruct (selected_pdu_ok c Hc) as [Hl _]. destruct (selected_pdu_ok c' Hc') as [Hl' _].
  destruct (data_header_bits _ nesn _ Hl Hb (ok_transmit_sn _ Hc)) as (_ & _ & E1).
  destruct (data_header_bits _ nesn' _ Hl' Hb' (ok_transmit_sn _ Hc)) as (_ & _ & E2).
  destruct (selected_pdu c), (selected_pdu c'). cbn in *. congruence.
Qed.

(** ** Staging *)

(** The frame that the event hands to the radio: the one on air already, or a
    new image of what is selected now. *)
Definition staged (c c' : ActiveConnection) (frame : list Z) : Prop :=
  conn_ok c' ∧ data_view c' = data_view c ∧ ac_transmitted c' ≠ TxNone ∧
  ac_tx_frame_len c' ≠ 0%nat ∧
  frame = data_header (selected_pdu c').1 (ac_expected_sn c) (ac_transmit_sn c)
    :: Z.of_nat (length (selected_pdu c').2) :: (selected_pdu c').2 ∧
  (if (ac_tx_frame_len c =? 0)%nat then ac_tx_frame_fresh c' = true
   else selected_pdu c' = selected_pdu c ∧ frame_view c' = frame_view c).

Lemma build_shape c c' : build_transmit_frame c = Ok c' → ∃ m f n,
  c' = c <| ac_procedures := m |> <| ac_tx_frame := f |> <| ac_tx_frame_len := n |>
         <| ac_tx_frame_fresh := true |>.
Proof.
  unfold build_transmit_frame. intros (c1 & E1 & E)%ok_bind_inv.
  assert (∃ m, c1 = c <| ac_procedures := m |>) as [m ->].
  { case_bool_decide; [by eapply on_pending_control_inv|]. injection E1 as <-.
    exists (ac_procedures c). by destruct c. }
  destruct (selected_pdu _) as [llid payload]. injection E as <-. by eexists m, _, _.
Qed.

Lemma refresh_frame_image c : conn_ok c → ac_tx_frame_len c ≠ 0%nat →
  take (ac_tx_frame_len c) (ac_tx_frame (refresh_frame c)) =
    data_header (selected_pdu c).1 (ac_expected_sn c) (ac_transmit_sn c)
    :: Z.of_nat (length (selected_pdu c).2) :: (selected_pdu c).2.
Proof.
  intros Hc Hn. destruct (ok_image _ Hc) as [?|(nesn & Hb & Hlen & Ht)]; [done|].
  destruct (selected_pdu_ok c Hc) as (Hl & _). cbn.
  destruct (ac_tx_frame_len c) as [|n]; [done|]. destruct (ac_tx_frame c) as [|b0 f]; [done|].
  cbn in Ht |- *. injection Ht as -> Ht. rewrite Ht. f_equal.
  apply refresh_data_header; try done; apply Hc.
Qed.

Lemma stage_frame_data w : conn_ok (w_conn w) → holds stage_frame w
  (λ _ w', staged (w_conn w) (w_conn w')
      (take (ac_tx_frame_len (w_conn w')) (ac_tx_frame (w_conn w'))))
  (λ _ _, True).
Proof.
  intros Hc. unfold stage_frame, on_conn, conn.
  apply holds_modify_bind. rewrite promote_idle by done. apply holds_modify_bind.
  apply holds_gets_bind. cbn [w_conn w_runner set_field].
  destruct (choose_ok (w_conn w) Hc) as [Hc1 Hne].
  assert (data_view (choose_transmit (w_conn w)) = data_view (w_conn w) ∧
    ac_tx_frame_len (choose_transmit (w_conn w)) = ac_tx_frame_len (w_conn w) ∧
    (ac_tx_frame_len (w_conn w) ≠ 0%nat → choose_transmit (w_conn w) = w_conn w)) as (Hd & Hl & Hsame).
  { unfold choose_transmit. case_bool_decide as Hnone; [|done].
    split; [done|]. split; [done|]. intros Hn. pose proof (ok_owner _ Hc) as Ho.
    unfold owner_ok in Ho. by rewrite Hnone in Ho. }
  set (c1 := choose_transmit (w_conn w)) in *. clearbody c1.
  assert (∀ c2, conn_ok c2 → data_view c2 = data_view c1 → ac_transmitted c2 ≠ TxNone →
    ac_tx_frame_len c2 ≠ 0%nat →
    (if (ac_tx_frame_len (w_conn w) =? 0)%nat then ac_tx_frame_fresh c2 = true
     else c2 = w_conn w) →
    staged (w_conn w) (refresh_frame c2)
      (take (ac_tx_frame_len (refresh_frame c2)) (ac_tx_frame (refresh_frame c2)))) as Hfin.
  { intros c2 Hc2 Hd2 Hne2 Hn2 Hfresh. assert (data_view c2 = data_view (w_conn w)) as Hdv by congruence.
    split; [by apply refresh_ok|]. split; [exact Hdv|].
    split; [done|]. split; [done|]. split.
    - change (selected_pdu (refresh_frame c2)) with (selected_pdu c2).
      unfold data_view in Hdv. injection Hdv as _ <- <- _ _. exact (refresh_frame_image c2 Hc2 Hn2).
    - destruct (_ =? _)%nat; [done|]. by subst c2. }
  unfold when_. rewrite Hl. destruct (Nat.eqb_spec (ac_tx_frame_len (w_conn w)) 0) as [Hz|Hz].
  - unfold holds, mbind, M_bind, try_conn. cbn [w_conn].
    destruct (build_transmit_frame c1) as [c2|] eqn:E; [|done].
    destruct (build_ok c1 c2 Hc1 Hne E) as (Hc2 & Hlen2 & Htx & Hfr & _). cbn.
    destruct (build_shape c1 c2 E) as (m & f & n & Hshape).
    apply Hfin; [done|by rewrite Hshape|by rewrite Htx|lia|].
    exact Hfr.
  - apply holds_ret_bind. unfold holds, modify. cbn. apply Hfin; [done|done|done|congruence|].
    by apply Hsame.
Qed.

(** ** Before and after the exchange *)

Lemma apply_and_notify_data now w : conn_ok (w_conn w) → holds (apply_and_notify now) w
  (λ _ w', conn_ok (w_conn w') ∧ tx_view (w_conn w') = tx_view (w_conn w) ∧
     host_out w' = host_out w)
  (λ _ _, False).
Proof.
  intros Hc. unfold apply_and_notify.
  destruct (apply_instants_ok now _ Hc) as ([applied changed] & c & E & Hok & _ & _ & Hv).
  eapply holds_zoom_bind; [by rewrite E|]. eapply holds_try_bind; [done|].
  apply holds_gets_bind. cbn [w_conn w_runner set_field].
  assert (conn_ok (c <| ac_local_param_request := None |>)) by by apply ok_local_request.
  destruct applied; unfold when_; [apply holds_modify_bind|apply holds_ret_bind];
    case_match; try apply holds_ret; unfold emit; try apply holds_modify; try done;
    (split; [done|]; split; [done|]; apply event_host_acl).
Qed.

Lemma tx_data_view c c' : tx_view c' = tx_view c →
  data_view c' = data_view c ∧ frame_view c' = frame_view c ∧ ac_tx_frame c' = ac_tx_frame c ∧
  selected_pdu c' = selected_pdu c.
Proof.
  unfold tx_view. intros [= Eh Es Ee Ep Eq Ec _ _ Et Ef El Efr].
  unfold data_view, frame_view, selected_pdu. rewrite Eh, Es, Ee, Ep, Eq, Ec, Et, El, Efr. done.
Qed.

Lemma staged_tx c c1 c' frame : tx_view c1 = tx_view c → staged c1 c' frame → staged c c' frame.
Proof.
  intros Hv. pose proof Hv as (Hd & Hf & _ & Hs)%tx_data_view. unfold staged.
  rewrite Hd, Hf, Hs. pose proof Hd as Hd'. unfold data_view in Hd'. injection Hd' as _ -> -> _ _.
  unfold frame_view in Hf. by injection Hf as _ -> _.
Qed.

Lemma event_setup_data clock w : conn_ok (w_conn w) → holds (event_setup clock) w
  (λ '(channel, deadline, timeout, frame, outstanding) w',
     staged (w_conn w) (w_conn w') frame ∧ outstanding = negb (ac_tx_frame_fresh (w_conn w')) ∧
     host_out w' = host_out w)
  (λ _ _, True).
Proof.
  intros Hc. unfold event_setup.
  eapply holds_bind_next; [by apply (apply_and_notify_data (ck_entry clock))|].
  cbn beta. intros _ w1 (Hc1 & Hv1 & <-).
  destruct (next_channel_ok _ Hc1) as (channel & c2 & E2 & Hc2 & Hv2 & _).
  eapply holds_zoom_bind; [exact E2|]. apply holds_gets_bind.
  eapply holds_zoom_bind; [done|]. cbn [w_conn w_runner set_field].
  set (w3 := w1 <| w_conn := c2 |> <| w_conn := c2 <| ac_receive_window_size_us := 0 |> |>).
  assert (conn_ok (w_conn w3)) as Hc3 by by apply ok_window.
  pose proof (holds_and _ _ _ _ _ _ (stage_frame_ok w3 Hc3) (stage_frame_data w3 Hc3)) as Hstage.
  eapply holds_bind; [eapply holds_weaken; [exact Hstage| |]|].
  { cbn beta. intros ? w' H'. exact H'. }
  { intros r w' _. exact I. }
  cbn beta. intros _ w4 [(_ & Hr4 & _) Hst]. do 2 apply holds_gets_bind. apply holds_ret.
  split; [|split; [done|by rewrite Hr4]]. eapply staged_tx; [|exact Hst].
  etrans; [|exact Hv1]. etrans; [|exact Hv2]. done.
Qed.

Lemma note_transmitted_runner transmitted w : holds (note_transmitted transmitted) w
  (λ _ w', w_runner w' = w_runner w) (λ _ _, True).
Proof.
  unfold note_transmitted. do 2 apply holds_gets_bind. apply holds_when; [|done]. intros _.
  apply (holds_bind _ _ _ _ (λ _ w', w_runner w' = w_runner w)).
  - apply holds_when; [|done]. intros _. unfold holds, try_conn. by destruct (complete_pending_control_transmit _).
  - intros _ w' Hw. by apply holds_modify.
Qed.

Lemma acknowledge_host now w : holds (acknowledge now) w
  (λ _ w', host_out w' = host_out w) (λ _ _, True).
Proof.
  unfold acknowledge. apply holds_gets_bind.
  apply (holds_bind _ _ _ _ (λ _ w', host_out w' = host_out w)).
  { apply holds_when; [|done]. intros _. unfold holds, try_conn. by destruct (acknowledge_pending_control _ _). }
  intros _ w1 <-. destruct (ac_transmitted (w_conn w)); try done.
  unfold holds. cbn. apply event_host_acl.
Qed.

(** The packet built by [send_acl]. *)
Lemma send_acl_spec handle payload t : (length payload ≤ 60)%nat →
  (contents <$> host_acl (ignore_error t (send_acl handle payload t))) =
    (contents <$> host_acl t)
    ++ [to_le 2 handle ++ to_le 2 (Z.of_nat (length payload)) ++ payload].
Proof.
  intros Hlen. unfold send_acl. cbn [pk_bytes packet_empty].
  rewrite length_replicate. unfold HCI_PACKET_CAPACITY at 1.
  rewrite (proj2 (Nat.ltb_ge _ _)) by lia. cbn [ignore_error].
  unfold host_acl, send_controller_packet. cbn [tr_to_host set_field].
  rewrite filter_app. cbn. rewrite fmap_app. f_equal. cbn. f_equal.
  rewrite wrap_small by int_lia. unfold contents, HCI_PACKET_CAPACITY, splice. cbn.
  rewrite decide_True by done. cbn. rewrite Nat.add_comm. cbn.
  by rewrite take_app_length.
Qed.

(** A payload that comes with the expected sequence number. *)
Definition accepted (pdu : Pdu) (w w' : World) : Prop :=
  let c := w_conn w in let c' := w_conn w' in
  data_view c' = data_view (c <| ac_expected_sn := Z.lxor (ac_expected_sn c) 1 |>) ∧
  frame_view c' = frame_view c ∧ ac_tx_frame c' = ac_tx_frame c ∧
  (contents <$> host_out w') = (contents <$> host_out w)
    ++ (if is_data pdu then [acl_image (ac_handle c) pdu] else []).

Lemma accept_payload_data header payload w : conn_ok (w_conn w) → bytes_ok payload →
  (length payload ≤ 27)%nat → header_llid header ≠ 0 →
  holds (accept_payload header payload) w
    (λ _ w', accepted (header_llid header, payload) w w') (λ _ _, False).
Proof.
  intros Hc Hb Hlen Hllid. unfold accept_payload, on_conn. apply holds_modify_bind.
  set (w1 := w <| w_conn := _ |>).
  assert (conn_ok (w_conn w1)) as Hc1 by by apply ok_flip_expected.
  assert (0 ≤ header_llid header < 4) as Hrange.
  { unfold header_llid. change 3 with (Z.ones 2). rewrite Z.land_ones by lia.
    apply Z.mod_pos_bound. lia. }
  fold (header_llid header). unfold accepted, is_data, LLID_CONTINUATION, LLID_START, LLID_CONTROL.
  cbn [fst snd]. set (llid := header_llid header) in *. clearbody llid.
  destruct ((llid =? 1) || (llid =? 2)) eqn:Hdata.
  - assert ((llid =? 3) = false) as -> by (bool_to_prop; lia). cbn [negb andb].
    destruct (is_empty payload); cbn [negb].
    + apply holds_ret. by rewrite app_nil_r.
    + apply holds_modify_bind, holds_ret. do 3 (split; [done|]).
      cbn [w_runner w_conn set_field on_transport rn_transport deliver_acl].
      rewrite send_acl_spec by lia. done.
  - assert ((llid =? 3) = true) as -> by (bool_to_prop; lia). cbn [negb andb].
    unfold holds.
    destruct (handle_ll_control_quiet payload w1 Hc1 Hb) as (r & w' & -> & [Hq Hs] & Hr).
    destruct Hq as (_ & Hv & _). unfold core_view in Hv. unfold still_view in Hs.
    injection Hs as _ _ _ _ _ ->.
    injection Hv as Eh Es Ee Ep Eq Et Ef El Efr _ _ _ _.
    unfold data_view, frame_view. rewrite Eh, Es, Ee, Ep, Eq, Et, El, Efr, Ef.
    by rewrite app_nil_r.
Qed.

(** ** The event as a whole *)

(** What the data path does on an event, from the connection whose frame was
    handed to the radio: [acked] says that the frame on air has been acknowledged,
    [fresh] what has become of its freshness, [news] what was received in sequence. *)
Record exchanged (c1 : ActiveConnection) (acked fresh : bool) (news : option Pdu)
    (out : list Packet) (w' : World) : Prop := mk_exchanged {
  ex_ok : conn_ok (w_conn w');
  ex_handle : ac_handle (w_conn w') = ac_handle c1;
  ex_transmit_sn : ac_transmit_sn (w_conn w') =
    if acked then Z.lxor (ac_transmit_sn c1) 1 else ac_transmit_sn c1;
  ex_queue : acl_queue (w_conn w') =
    if acked && bool_decide (ac_transmitted c1 = TxAcl) then tail (acl_queue c1)
    else acl_queue c1;
  ex_frame : if acked then ac_tx_frame_len (w_conn w') = 0%nat
    else selected_pdu (w_conn w') = selected_pdu c1 ∧
         ac_tx_frame_len (w_conn w') = ac_tx_frame_len c1 ∧
         ac_transmitted (w_conn w') = ac_transmitted c1 ∧
         ac_tx_frame_fresh (w_conn w') = fresh;
  ex_expected_sn : ac_expected_sn (w_conn w') =
    match news with Some _ => Z.lxor (ac_expected_sn c1) 1 | None => ac_expected_sn c1 end;
  ex_out : (contents <$> host_out w') = (contents <$> out) ++
    match news with
    | Some pdu => if is_data pdu then [acl_image (ac_handle c1) pdu] else []
    | None => []
    end;
}.

(** What a received PDU means to a connection. *)
Definition pdu_acked (outstanding : bool) (c : ActiveConnection)
    (received : option (Z * Z * list Z)) : bool :=
  match received with
  | Some (header, _, _) => outstanding && negb (header_nesn header =? ac_transmit_sn c)
  | None => false
  end.
Definition pdu_news (c : ActiveConnection) (received : option (Z * Z * list Z)) : option Pdu :=
  match received with
  | Some (header, _, payload) =>
      if header_sn header =? ac_expected_sn c then Some (header_llid header, payload) else None
  | None => None
  end.

(** The acknowledgement, seen from the data path. *)
Lemma acknowledged_data c m : conn_ok c →
  let c' := acknowledged (c <| ac_procedures := m |>) in
  (ac_handle c', ac_expected_sn c') = (ac_handle c, ac_expected_sn c) ∧
  ac_transmit_sn c' = Z.lxor (ac_transmit_sn c) 1 ∧ ac_tx_frame_len c' = 0%nat ∧
  acl_queue c' =
    (if bool_decide (ac_transmitted c = TxAcl) then tail (acl_queue c) else acl_queue c).
Proof.
  intros Hc. cbn zeta. pose proof (acl_queue_advance c Hc) as Hadv.
  unfold acknowledged, advance_control. cbn.
  destruct (ac_transmitted c); [done| | |done]; cbn.
  - by case_match.
  - split; [done|]. split; [done|]. split; [done|]. exact Hadv.
Qed.

Abbreviation exchanged_with outstanding c received := 
  (exchanged c (pdu_acked outstanding c received) (ac_tx_frame_fresh c)).

Lemma acknowledge_data outstanding header len payload now w : conn_ok (w_conn w) →
  let c := w_conn w in
  holds (when_ (acknowledges_transmit_owner header (ac_transmit_sn c) outstanding false)
           (acknowledge now)) w
    (λ _ w', exchanged_with outstanding c (Some (header, len, payload)) None (host_out w) w')
    (λ r _, r ≠ None).
Proof.
  intros Hc c.
  assert (acknowledges_transmit_owner header (ac_transmit_sn c) outstanding false =
    pdu_acked outstanding c (Some (header, len, payload))) as ->.
  { unfold acknowledges_transmit_owner. by rewrite orb_false_r. }
  set (acked := pdu_acked _ _ _).
  apply holds_when; intros Ha.
  - eapply holds_weaken; [apply (holds_and _ _ _ _ _ _ (acknowledge_ok now w Hc)
      (acknowledge_host now w))| |]; cbn beta.
    + intros _ w1 [(Hok & (m & Hm) & _) Ho].
      destruct (acknowledged_data c m Hc) as (Hv & Hs & Hl & Hq). fold c in Hm. rewrite <- Hm in *.
      injection Hv as Hh He. rewrite Ha. split; try done. by rewrite Ho, app_nil_r.
    + by intros r w1 [[-> _] _].
  - rewrite Ha. split; try done. by rewrite app_nil_r.
Qed.

(** Without a new payload so far, the data path of [w1] but for the sequence
    number expected next. *)
Lemma exchanged_later c acked fresh news news' out w1 w2 :
  exchanged c acked fresh news out w1 → conn_ok (w_conn w2) →
  data_view (w_conn w2) =
    data_view ((w_conn w1) <| ac_expected_sn := ac_expected_sn (w_conn w2) |>) →
  frame_view (w_conn w2) = frame_view (w_conn w1) →
  ac_tx_frame (w_conn w2) = ac_tx_frame (w_conn w1) →
  ac_expected_sn (w_conn w2) =
    match news' with Some _ => Z.lxor (ac_expected_sn c) 1 | None => ac_expected_sn c end →
  (contents <$> host_out w2) = (contents <$> out) ++
    match news' with
    | Some pdu => if is_data pdu then [acl_image (ac_handle c) pdu] else []
    | None => []
    end →
  acked = true ∨ ac_tx_frame_len c ≠ 0%nat →
  exchanged c acked fresh news' out w2.
Proof.
  intros [Hok Hh Hs Hq Hf He Ho] Hok2 Hv Hfv Hfr He2 Ho2 Hn.
  unfold data_view in Hv. injection Hv as Eh Es Ep Eq. cbn in Eh, Es, Ep, Eq.
  unfold frame_view in Hfv. injection Hfv as Et El Ef.
  split; try done; try congruence.
  - unfold acl_queue. by rewrite Ep, Eq.
  - destruct acked; [congruence|]. destruct Hf as (Hsel & Hl & Ht & Hfresh).
    destruct Hn as [?|Hn]; [done|].
    split; [|split; [congruence|]; split; congruence].
    rewrite <- Hsel. apply selected_same; try done; congruence.
Qed.

Lemma accept_data c acked fresh out header len payload w :
  exchanged c acked fresh None out w → bytes_ok payload → (length payload ≤ 27)%nat →
  header_llid header ≠ 0 → acked = true ∨ ac_tx_frame_len c ≠ 0%nat →
  holds (if header_sn header =? ac_expected_sn (w_conn w) then accept_payload header payload
         else mret None : M World (option Z) (option Z)) w
    (λ _ w', exchanged c acked fresh (pdu_news c (Some (header, len, payload))) out w')
    (λ _ _, False).
Proof.
  intros Hx Hb Hlen Hllid Hn. pose proof Hx as [Hok Hh Hs Hq Hf He Ho]. cbn [pdu_news].
  rewrite He. destruct (_ =? _); [|by apply holds_ret].
  pose proof (accept_payload_ok header payload w Hok Hb) as Hp1.
  pose proof (accept_payload_data header payload w Hok Hb Hlen Hllid) as Hp2.
  eapply holds_weaken; [exact (holds_and _ _ _ _ _ _ Hp1 Hp2)| |by intros ? ? [? _]].
  cbn beta. intros r w' [(Hok' & _) (Hv & Hfv & Hfr & Ho')].
  assert (ac_expected_sn (w_conn w') = Z.lxor (ac_expected_sn c) 1) as He'.
  { unfold data_view in Hv. injection Hv as _ _ -> _ _. cbn. by rewrite He. }
  eapply exchanged_later; try done.
  - rewrite Hv, He'. cbn. by rewrite He.
  - rewrite Ho', Ho, app_nil_r. by rewrite Hh.
Qed.

Lemma received_pdu_spec received header len payload :
  received_pdu received = Some (header, len, payload) →
  (length payload ≤ 27)%nat ∧ header_llid header ≠ 0.
Proof.
  unfold received_pdu. destruct (negb _); [done|].
  destruct (rp_payload received) as [|h [|l body]]; [done..|].
  destruct (_ || _) eqn:Hg; [done|]. destruct (_ <? _)%nat; [done|]. intros [= <- <- <-].
  unfold MAX_DATA_PDU_PAYLOAD, ACL_PAYLOAD_LEN in *.
  apply orb_false_iff in Hg as [Hl%Z.ltb_ge Hh%Z.eqb_neq].
  split; [rewrite length_take; lia|exact Hh].
Qed.

Lemma event_received_data clock outstanding terminate received header len payload w :
  conn_ok (w_conn w) → bytes_ok payload → (length payload ≤ 27)%nat → header_llid header ≠ 0 →
  ac_tx_frame_len (w_conn w) ≠ 0%nat →
  let c := w_conn w in
  let pdu := Some (header, len, payload) in
  holds (event_received clock outstanding terminate received header len payload) w
    (λ _ w', exchanged_with outstanding c pdu (pdu_news c pdu) (host_out w) w')
    (λ r _, r ≠ None).
Proof.
  intros Hc Hb Hlen Hllid Hn c pdu. unfold event_received. apply holds_modify_bind.
  set (w1 := w <| w_conn := _ |>).
  assert (conn_ok (w_conn w1)) as Hc1 by by apply ok_received.
  apply holds_gets_bind.
  eapply holds_bind; [eapply holds_weaken; [by apply (acknowledge_data outstanding header len payload)| |]|].
  { intros ? w' H'. exact H'. }
  { done. }
  cbn beta. intros _ w2 Hx2. apply holds_gets_bind.
  eapply holds_bind_next; [apply (accept_data _ _ _ _ header len payload _ Hx2); [done..|by right]|].
  cbn beta. intros terminated w3 Hx3. pose proof Hx3 as [Hc3 _ _ _ _ He3 Ho3].
  eapply holds_bind_next; [by apply (apply_and_notify_data (ck_exit clock))|].
  cbn beta. intros _ w4 (Hc4 & Hv4 & Ho4). apply holds_modify_bind.
  destruct terminate; [done|]. apply holds_ret.
  destruct (tx_data_view _ _ Hv4) as (Hd & Hf & Hfr & Hsel).
  destruct Hx3 as [_ Hh Hs Hq Hfm He Ho].
  unfold data_view in Hd. injection Hd as Eh Es Ee Ep Eq.
  unfold frame_view in Hf. injection Hf as Et El Ef.
  split; cbn [w_conn w_runner set_field].
  - by apply ok_synchronize.
  - exact (eq_trans Eh Hh).
  - exact (eq_trans Es Hs).
  - etrans; [|exact Hq]. unfold acl_queue. by rewrite <- Ep, <- Eq.
  - rewrite <- Hsel, <- El, <- Ef, <- Et in Hfm. exact Hfm.
  - exact (eq_trans Ee He).
  - rewrite <- Ho4 in Ho. exact Ho.
Qed.

(** The exchange, with the answer of the radio. *)
Definition air (exchange : Channel → Instant → Duration → list Z → result Error ExchangeResult)
    (setup : Channel * Instant * Duration * list Z * bool) : result Error ExchangeResult :=
  let '(channel, deadline, timeout, frame, _) := setup in exchange channel deadline timeout frame.
Definition sent_on_air (r : result Error ExchangeResult) : bool :=
  match r with Ok r => ex_transmitted r | Err _ => false end.
Definition heard_on_air (r : result Error ExchangeResult) : option (Z * Z * list Z) :=
  match r with Ok r => received_pdu (ex_received r) | Err _ => None end.

(** A connection event that goes on: the frame of [setup] was offered to the
    radio, and its answer determines the rest. *)
Lemma connection_event_data clock exchange w setup w1 w' :
  conn_ok (w_conn w) → radio_ok exchange →
  event_setup clock w = Next setup w1 →
  connection_event clock exchange w = Some (None, w') →
  let c := w_conn w1 in
  let answer := air exchange setup in
  staged (w_conn w) c setup.1.2 ∧
  exchanged c (pdu_acked (negb (ac_tx_frame_fresh c)) c (heard_on_air answer))
    (ac_tx_frame_fresh c && negb (sent_on_air answer)) (pdu_news c (heard_on_air answer))
    (host_out w) w'.
Proof.
  intros Hc Hradio Hsetup Hrun c answer.
  pose proof (holds_next _ _ _ _ _ _ (event_setup_data clock w Hc) Hsetup) as Hdata.
  destruct setup as [[[[channel deadline] timeout] frame] outstanding].
  destruct Hdata as (Hst & Hout & Hho). split; [exact Hst|].
  unfold connection_event, run, mbind, M_bind in Hrun. rewrite Hsetup in Hrun.
  fold c in Hst, Hout. pose proof Hst as (Hc1 & _ & _ & Hn & _). rewrite <- Hho.
  subst answer. unfold air in *. cbn [try] in Hrun. unfold try in Hrun.
  destruct (exchange channel deadline timeout frame) as [res|] eqn:Hex; cbn [sent_on_air heard_on_air].
  2: { injection Hrun as <-. split; try done; fold c.
       - rewrite andb_true_r. done.
       - by rewrite app_nil_r. }
  pose proof (note_transmitted_ok (ex_transmitted res) w1 Hc1) as Hp1.
  pose proof (note_transmitted_runner (ex_transmitted res) w1) as Hp2.
  unfold holds in Hp1, Hp2. destruct (note_transmitted _ w1) as [[] w2|r w2|]; [| |done].
  2: { destruct Hp1 as [-> _]. congruence. }
  destruct Hp1 as (Hc2 & _ & _ & (m & Hw2) & _). fold c in Hw2. cbn [conn] in Hrun.
  unfold conn, gets in Hrun.
  assert (ac_tx_frame_fresh (w_conn w2) = ac_tx_frame_fresh c && negb (ex_transmitted res)) as Hfr
    by (by rewrite Hw2).
  destruct (received_pdu (ex_received res)) as [[[header len] payload]|] eqn:Hpdu.
  - assert (bytes_ok payload) as Hb by (eapply received_pdu_bytes; [by eapply Hradio|done]).
    destruct (received_pdu_spec _ _ _ _ Hpdu) as [Hlen Hllid].
    assert (ac_tx_frame_len (w_conn w2) ≠ 0%nat) as Hn2 by (by rewrite Hw2).
    pose proof (event_received_data clock outstanding (sent_terminate (ex_transmitted res) (w_conn w2))
      (ex_received res) header len payload w2 Hc2 Hb Hlen Hllid Hn2) as Hp3.
    unfold holds in Hp3. cbn zeta in Hp3. rewrite Hfr in Hp3. rewrite <- Hout, <- Hp2.
    destruct (event_received _ _ _ _ _ _ _ w2) as [a w3|r w3|]; [| |done];
      injection Hrun as -> ->; [|done].
    rewrite Hw2 in Hp3. destruct Hp3. split; assumption.
  - injection Hrun as <-. split; rewrite ?Hw2, ?Hp2; try done.
    + by rewrite <- Hw2.
    + by rewrite app_nil_r.
Qed.

End dataplane.
