(* ===== verification/Delivery.v ===== *)
(** * Exactly-once delivery over a lossy link

    The runner against a peer that follows the SN/NESN rules, over a radio that
    may lose any packet in either direction: the data of the Host reaches the peer,
    and the data of the peer reaches the Host, in order and exactly once. *)

From S2P Require Import Prelude Effects Time Channel Timing Sequence ControlPdu Llcp Advertising.
From S2P Require Import Hci Controller Connection Commands Runner Loops ConnectionInv EventInv HostProps ConnectionSafety.
From S2P Require Import Instants DataPlane.

(** ** The peer *)

(** The two sequence bits, what has been heard, what has been sent and
    acknowledged, and the PDU being sent. *)
Record Peer : Type := mkPeer {
  pr_sn : Z;
  pr_nesn : Z;
  pr_heard : list Pdu;
  pr_sent : list Pdu;
  pr_current : Pdu;
}.

Definition peer_start (first : Pdu) : Peer := mkPeer 0 0 [] [] first.

(** The peer accepts a PDU with the number it expects. *)
Definition peer_accepts (header : Z) (payload : list Z) (p : Peer) : Peer :=
  if header_sn header =? pr_nesn p then
    mkPeer (pr_sn p) (Z.lxor (pr_nesn p) 1) (pr_heard p ++ [(header_llid header, payload)])
      (pr_sent p) (pr_current p)
  else p.

(** It goes on to the [next] PDU when its own one is acknowledged. *)
Definition peer_advances (header : Z) (next : Pdu) (p : Peer) : Peer :=
  if header_nesn header =? pr_sn p then p
  else mkPeer (Z.lxor (pr_sn p) 1) (pr_nesn p) (pr_heard p) (pr_sent p ++ [pr_current p]) next.

Definition peer_hear (frame : list Z) (next : Pdu) (p : Peer) : Peer :=
  match frame with
  | header :: _ :: payload => peer_advances header next (peer_accepts header payload p)
  | _ => p
  end.

(** What the radio delivers is what the peer sends. *)
Definition peer_speaks (p : Peer) (received : option (Z * Z * list Z)) : Prop :=
  match received with
  | Some (header, _, payload) =>
      header_sn header = pr_sn p ∧ header_nesn header = pr_nesn p ∧
      (header_llid header, payload) = pr_current p
  | None => True
  end.

(** The PDU that an HCI ACL packet stands for. *)
Definition acl_pdu (p : Packet) : Pdu :=
  (if Z.land (Z.shiftr (le16 (pk_bytes p) 0) 12) 3 =? 1 then LLID_CONTINUATION else LLID_START,
   drop 4 (contents p)).

Section delivery.
Context `{!EmbassyTime} `{!RngCore} `{!RngCoreLaws}.

(** ** The link *)

(** A connection, its peer, and the data that the Host has got accepted. *)
Record Link : Type := mkLink {
  lk_world : World;
  lk_peer : Peer;
  lk_accepted : list Pdu;
}.

(** What the Host packet adds to it. *)
Definition submitted (p : Packet) (c : ActiveConnection) : list Pdu :=
  match pk_kind p, queue_acl p c with
  | AclData, Ok _ => [acl_pdu p]
  | _, _ => []
  end.

(** [lost]: the frame is not heard by the peer, even when it was on air. *)
Inductive link_step : Link → Link → Prop :=
| link_packet p stop w w' peer acc :
    packet_ok p → process_connected_host_packet p w = Some (stop, w') →
    link_step (mkLink w peer acc) (mkLink w' peer (acc ++ submitted p (w_conn w)))
| link_timeouts now_us error w peer acc :
    link_step (mkLink w peer acc)
      (mkLink (w <| w_conn := (w_conn w) <| ac_procedures :=
         (check_timeouts (ac_procedures (w_conn w)) now_us error).1 |> |>) peer acc)
| link_missed now notify c w peer acc :
    skip_event now (w_conn w) = Some (Ok notify, c) →
    link_step (mkLink w peer acc) (mkLink (w <| w_conn := c |>) peer acc)
| link_event clock exchange setup (lost : bool) next w w1 w' peer acc :
    radio_ok exchange → event_setup clock w = Next setup w1 →
    connection_event clock exchange w = Some (None, w') →
    peer_speaks peer (heard_on_air (air exchange setup)) →
    link_step (mkLink w peer acc)
      (mkLink (w' <| w_conn := schedule_following_event (w_conn w') |>)
         (if sent_on_air (air exchange setup) && negb lost then peer_hear setup.1.2 next peer
          else peer) acc).

Inductive linked : Link → Prop :=
| linked_start w first :
    conn_start w → host_acl (rn_transport (w_runner w)) = [] →
    linked (mkLink w (peer_start first) [])
| linked_step l l' : linked l → link_step l l' → linked l'.

(** ** The invariant *)

(** The PDU on air, when the peer has heard it but the connection does not know. *)
Definition heard_unknown (p : Peer) (c : ActiveConnection) : list Pdu :=
  if pr_nesn p =? ac_transmit_sn c then [] else [selected_pdu c].
(** The PDU of the peer, when the connection has accepted it but the peer does
    not know. *)
Definition received_unknown (p : Peer) (c : ActiveConnection) : list Pdu :=
  if pr_sn p =? ac_expected_sn c then [] else [pr_current p].

Definition tx_ok (p : Peer) (acc : list Pdu) (c : ActiveConnection) : Prop :=
  ∃ acked, pr_heard p = acked ++ heard_unknown p c ∧
    data acc = data acked ++ data (pdu_image <$> acl_queue c) ∧
    (pr_nesn p ≠ ac_transmit_sn c → ac_tx_frame_len c ≠ 0%nat ∧ ac_tx_frame_fresh c = false).

Record link_ok (l : Link) : Prop := mk_link_ok {
  lo_conn : conn_ok (w_conn (lk_world l));
  lo_handle : ac_handle (w_conn (lk_world l)) = CONNECTION_HANDLE;
  lo_sn : is_sn (pr_sn (lk_peer l));
  lo_nesn : is_sn (pr_nesn (lk_peer l));
  lo_tx : tx_ok (lk_peer l) (lk_accepted l) (w_conn (lk_world l));
  lo_rx : (contents <$> host_acl (rn_transport (w_runner (lk_world l)))) =
    acl_image CONNECTION_HANDLE <$>
      data (pr_sent (lk_peer l) ++ received_unknown (lk_peer l) (w_conn (lk_world l)));
}.

Lemma flip_to x y : is_sn x → is_sn y → x ≠ y → Z.lxor x 1 = y.
Proof. intros [-> | ->] [-> | ->]; done. Qed.

Lemma flip_differs x : is_sn x → Z.lxor x 1 ≠ x.
Proof. intros [-> | ->]; done. Qed.

(** Steps that keep the data path. *)
Lemma link_ok_same w w' p acc : link_ok (mkLink w p acc) → conn_ok (w_conn w') →
  data_view (w_conn w') = data_view (w_conn w) → frame_view (w_conn w') = frame_view (w_conn w) →
  ac_tx_frame (w_conn w') = ac_tx_frame (w_conn w) →
  host_acl (rn_transport (w_runner w')) = host_acl (rn_transport (w_runner w)) →
  link_ok (mkLink w' p acc).
Proof.
  intros [Hc Hh Hs Hn Htx Hrx] Hc' Hd Hf Hfr Ho. cbn in *.
  unfold data_view in Hd. injection Hd as Eh Es Ee Ep Eq.
  unfold frame_view in Hf. injection Hf as Et El Ef.
  split; cbn; try done; try congruence.
  - destruct Htx as (acked & Hheard & Hdata & Hair). exists acked.
    unfold heard_unknown, acl_queue in *. rewrite Es, Ep, Eq, El, Ef. split; [|by split].
    rewrite Hheard. f_equal. destruct (Z.eqb_spec (pr_nesn p) (ac_transmit_sn (w_conn w))); [done|].
    f_equal. symmetry. apply selected_same; try done. by apply Hair.
  - unfold received_unknown in *. by rewrite Ho, Ee, Hrx.
Qed.

(** ** One event *)

(** The header of a staged frame, and what the peer makes of the frame. *)
Lemma peer_hear_staged c c1 frame next p : staged c c1 frame →
  let sel := selected_pdu c1 in
  let p' := peer_hear frame next p in
  pr_heard p' = pr_heard p ++ (if ac_transmit_sn c1 =? pr_nesn p then [sel] else []) ∧
  pr_nesn p' = (if ac_transmit_sn c1 =? pr_nesn p then Z.lxor (pr_nesn p) 1 else pr_nesn p) ∧
  pr_sn p' = (if ac_expected_sn c1 =? pr_sn p then pr_sn p else Z.lxor (pr_sn p) 1) ∧
  pr_sent p' = pr_sent p ++ (if ac_expected_sn c1 =? pr_sn p then [] else [pr_current p]) ∧
  pr_current p' = (if ac_expected_sn c1 =? pr_sn p then pr_current p else next).
Proof.
  intros (Hc1 & Hd & _ & _ & -> & _).
  unfold data_view in Hd. injection Hd as _ Es Ee _ _. rewrite <- Es, <- Ee. intros sel p'.
  destruct (selected_pdu_ok c1 Hc1) as (Hl & _).
  destruct (data_header_bits _ _ _ Hl (ok_expected_sn _ Hc1) (ok_transmit_sn _ Hc1)) as (E1 & E2 & E3).
  subst p'. cbn [peer_hear]. unfold peer_accepts, peer_advances. rewrite E1, E2, E3.
  fold sel. destruct (ac_transmit_sn c1 =? pr_nesn p); cbn [pr_sn];
    destruct (ac_expected_sn c1 =? pr_sn p); cbn; rewrite ?app_nil_r; try done;
    by destruct sel.
Qed.

(** What is acknowledged leaves the queue exactly when it carries its head. *)
Lemma acknowledged_selected c : conn_ok c → ac_transmitted c ≠ TxNone →
  data [selected_pdu c] ++ data (pdu_image <$>
    (if bool_decide (ac_transmitted c = TxAcl) then tail (acl_queue c) else acl_queue c)) =
  data (pdu_image <$> acl_queue c).
Proof.
  intros Hc Hne. pose proof (ok_owner _ Hc) as Ho. unfold owner_ok in Ho.
  unfold selected_pdu. destruct (ac_transmitted c); try done; cbn [bool_decide decide_rel].
  - destruct Ho as [d Hd]. pose proof (ok_control _ Hc) as Hk. rewrite Hd in *.
    destruct Hk as [_ Hk]. unfold data. by rewrite filter_cons, Hk.
  - destruct Ho as [d Hd]. unfold acl_queue. rewrite Hd. cbn [option_list app].
    by rewrite <- data_app.
Qed.

Lemma staged_tx_ok p acc c c1 frame : staged c c1 frame → conn_ok c → tx_ok p acc c → tx_ok p acc c1.
Proof.
  intros (Hc1 & Hd & _ & Hn & _ & Hsame) Hc (acked & Hheard & Hdata & Hair). exists acked.
  unfold data_view in Hd. injection Hd as _ Es _ Ep Eq.
  unfold heard_unknown, acl_queue in *. rewrite Es, Ep, Eq.
  destruct (Z.eqb_spec (pr_nesn p) (ac_transmit_sn c)) as [Heq|Hne]; [done|].
  destruct (Hair Hne) as [Hlen Hfresh].
  rewrite (proj2 (Nat.eqb_neq _ _)) in Hsame by done. destruct Hsame as [-> Hf].
  unfold frame_view in Hf. injection Hf as _ _ ->. done.
Qed.

Lemma event_tx_ok c c1 frame sent (lost : bool) news out w' received next p acc :
  staged c c1 frame → conn_ok c → tx_ok p acc c → is_sn (pr_nesn p) →
  exchanged c1 (pdu_acked (negb (ac_tx_frame_fresh c1)) c1 received)
    (ac_tx_frame_fresh c1 && negb sent) news out w' →
  peer_speaks p received →
  let p' := if sent && negb lost then peer_hear frame next p else p in
  tx_ok p' acc (w_conn w') ∧ is_sn (pr_nesn p').
Proof.
  intros Hst Hc Htx Hbit [_ _ Hs Hq Hf _ _] Hspeaks p'.
  destruct (staged_tx_ok _ _ _ _ _ Hst Hc Htx) as (acked & Hheard & Hdata & Hair).
  destruct (peer_hear_staged _ _ _ next p Hst) as (Eh & En & _).
  pose proof Hst as (Hc1 & _ & Hne & Hn & _). pose proof (ok_transmit_sn _ Hc1) as Hsn.
  unfold heard_unknown in Hheard.
  destruct (pdu_acked _ _ _) eqn:Hacked.
  - destruct received as [[[h len] pl]|]; [|done]. cbn in Hacked, Hspeaks.
    destruct Hspeaks as (_ & Hnesn & _). rewrite Hnesn in Hacked.
    apply andb_true_iff in Hacked as [Hout Hdiff%negb_true_iff%Z.eqb_neq].
    rewrite (proj2 (Z.eqb_neq _ _)) in Hheard by congruence.
    rewrite (proj2 (Z.eqb_neq _ _)) in Eh, En by congruence. rewrite app_nil_r in Eh.
    assert (pr_heard p' = pr_heard p ∧ pr_nesn p' = pr_nesn p) as [E1 E2]
      by (subst p'; by destruct (sent && negb lost)).
    rewrite E2. split; [|done]. exists (pr_heard p).
    assert (ac_transmit_sn (w_conn w') = pr_nesn p) as Es'.
    { rewrite Hs. by apply flip_to. }
    unfold heard_unknown. rewrite E1, E2, Es', Z.eqb_refl, app_nil_r. split; [done|].
    split; [|done]. rewrite Hq, andb_true_l, Hheard, data_app, <- app_assoc, Hdata. f_equal.
    symmetry. by apply acknowledged_selected.
  - destruct Hf as (Hsel & Hlen & _ & Hfresh). cbn [andb] in Hq.
    destruct (sent && negb lost) eqn:Hheard'; subst p'.
    + apply andb_true_iff in Hheard' as [-> _]. rewrite andb_false_r in Hfresh.
      rewrite En. split.
      * destruct (Z.eqb_spec (ac_transmit_sn c1) (pr_nesn p)) as [Heq|Hneq].
        -- exists acked. unfold heard_unknown. rewrite Eh, En, Hs, Hsel, Hq, Hlen.
           rewrite (proj2 (Z.eqb_eq _ _)) in Hheard by done. rewrite Hheard, app_nil_r, Heq.
           rewrite (proj2 (Z.eqb_neq _ _)) by by apply flip_differs. done.
        -- exists acked. unfold heard_unknown. rewrite Eh, En, Hs, Hsel, Hq, Hlen, app_nil_r. done.
      * case_match; [|done]. destruct Hbit as [-> | ->]; [by right|by left].
    + split; [|done]. exists acked. unfold heard_unknown. rewrite Hs, Hsel, Hq, Hlen.
      split; [done|]. split; [done|]. intros Hdiff. destruct (Hair Hdiff) as [? Hz].
      split; [done|]. by rewrite Hfresh, Hz.
Qed.

Lemma event_rx_ok c c1 frame sent (lost : bool) acked fresh out w' received next p :
  staged c c1 frame → conn_ok c → is_sn (pr_sn p) → ac_handle c1 = CONNECTION_HANDLE →
  exchanged c1 acked fresh (pdu_news c1 received) out w' →
  peer_speaks p received →
  (contents <$> out) = acl_image CONNECTION_HANDLE <$> data (pr_sent p ++ received_unknown p c) →
  let p' := if sent && negb lost then peer_hear frame next p else p in
  is_sn (pr_sn p') ∧
  (contents <$> host_acl (rn_transport (w_runner w'))) =
    acl_image CONNECTION_HANDLE <$> data (pr_sent p' ++ received_unknown p' (w_conn w')).
Proof.
  intros Hst Hc Hbit Hhandle [_ _ _ _ _ He Ho] Hspeaks Hrx p'.
  destruct (peer_hear_staged _ _ _ next p Hst) as (_ & _ & Es & Esent & Ecur).
  pose proof Hst as (Hc1 & Hd & _). unfold data_view in Hd. injection Hd as _ _ Ee _ _.
  unfold received_unknown in *. rewrite <- Ee in Hrx. rewrite Ho, Hrx, Hhandle.
  pose proof (ok_expected_sn _ Hc1) as Hx.
  destruct (Z.eqb_spec (pr_sn p) (ac_expected_sn c1)) as [Heq|Hne].
  - rewrite (proj2 (Z.eqb_eq _ _)) in Es, Esent, Ecur by done. rewrite app_nil_r in *.
    assert (pr_sn p' = pr_sn p ∧ pr_sent p' = pr_sent p ∧ pr_current p' = pr_current p) as (-> & -> & ->)
      by (subst p'; by destruct (sent && negb lost)).
    split; [done|]. rewrite He. destruct received as [[[h len] pl]|]; cbn [pdu_news peer_speaks] in *.
    + destruct Hspeaks as (-> & _ & ->). rewrite (proj2 (Z.eqb_eq _ _)) by done.
      rewrite (proj2 (Z.eqb_neq _ _)) by (rewrite <- Heq; symmetry; by apply flip_differs).
      rewrite data_app, fmap_app. f_equal. unfold data. rewrite filter_cons.
      destruct (is_data (pr_current p)); done.
    + rewrite (proj2 (Z.eqb_eq _ _)) by done. by rewrite !app_nil_r.
  - rewrite (proj2 (Z.eqb_neq _ _)) in Es, Esent, Ecur by done.
    assert (pdu_news c1 received = None) as Hnews.
    { destruct received as [[[h len] pl]|]; [|done]. cbn in *. destruct Hspeaks as (-> & _).
      by rewrite (proj2 (Z.eqb_neq _ _)). }
    rewrite Hnews in *. rewrite He, app_nil_r. subst p'. destruct (sent && negb lost).
    + rewrite Es, Esent. assert (Z.lxor (pr_sn p) 1 = ac_expected_sn c1) as -> by by apply flip_to.
      rewrite Z.eqb_refl, app_nil_r. by split.
    + by rewrite (proj2 (Z.eqb_neq _ _)).
Qed.

(** ** Host packets *)

(** An accepted ACL packet joins the queue at its end. *)
Lemma queue_acl_appends p c c' : conn_ok c → packet_ok p → queue_acl p c = Ok c' →
  ∃ d, pdu_image d = acl_pdu p ∧ acl_queue c' = acl_queue c ++ [d] ∧
    (ac_handle c', ac_transmit_sn c', ac_expected_sn c') =
      (ac_handle c, ac_transmit_sn c, ac_expected_sn c) ∧
    frame_view c' = frame_view c ∧ ac_tx_frame c' = ac_tx_frame c.
Proof.
  intros Hc (Hlen & Hb & _). unfold queue_acl.
  destruct (pk_len p <? 4)%nat; [done|].
  set (len := Z.to_nat (le16 (pk_bytes p) 2)).
  destruct (_ || _) eqn:Hg; [done|]. apply orb_false_iff in Hg as [Hg Hmax%Nat.ltb_ge].
  apply orb_false_iff in Hg as [_ Hpk%negb_false_iff%Nat.eqb_eq].
  set (llid := if _ =? 1 then _ else _).
  assert (length (slice 4 (4 + len) (pk_bytes p)) = len) as Hs.
  { rewrite length_slice by (rewrite Hlen; unfold MAX_DATA_PDU_PAYLOAD, ACL_PAYLOAD_LEN,
      HCI_PACKET_CAPACITY in *; lia). lia. }
  assert (1 ≤ llid ≤ 3) as Hllid by (subst llid; case_match; done).
  destruct (pd_ok_make (slice 4 (4 + len) (pk_bytes p)) llid (ac_next_acl_owner_token c))
    as [_ Hd]; [by apply bytes_ok_slice|by rewrite Hs|done|]. rewrite Hs in Hd.
  set (d := mkPendingData _ len _ _) in *.
  assert (pdu_image d = acl_pdu p) as Himage.
  { unfold pdu_image, acl_pdu. rewrite Hd. f_equal. unfold contents, slice.
    rewrite <- Hpk. replace (4 + len - 4)%nat with len by lia.
    by rewrite take_drop_commute, Nat.add_comm. }
  clearbody d. destruct (ok_acl _ Hc) as (l & Hl & Hcap & Hempty & _ & _).
  unfold acl_queue. destruct (ac_pending c) as [d0|] eqn:Hp.
  - rewrite Hl, fill_slots_of by done. destruct (_ <? _)%nat; [|done]. intros [= <-].
    exists d. split; [done|]. split; [|done]. cbn. by rewrite Hp, !omap_slots_of.
  - intros [= <-]. exists d. split; [done|]. split; [|done]. cbn.
    by rewrite Hl, Hempty, omap_slots_of.
Qed.

Lemma one_reply_host_acl opcode t t' : one_reply opcode t t' → host_acl t' = host_acl t.
Proof.
  intros (p & Ht & Hk & _). unfold host_acl. rewrite Ht, filter_app. cbn. rewrite Hk.
  by rewrite app_nil_r.
Qed.

Lemma packet_link_ok p stop w w' peer acc : link_ok (mkLink w peer acc) → packet_ok p →
  process_connected_host_packet p w = Some (stop, w') →
  link_ok (mkLink w' peer (acc ++ submitted p (w_conn w))).
Proof.
  intros Hl Hp E. pose proof Hl as [Hc Hh Hs Hn Htx Hrx]. cbn in Hc, Hh, Hs, Hn, Htx, Hrx.
  destruct (process_packet_ok p w Hc Hp) as (stop' & w2 & E2 & Hc' & _).
  rewrite E in E2. injection E2 as <- <-.
  unfold process_connected_host_packet in E. unfold submitted. destruct (pk_kind p).
  - rewrite app_nil_r.
    destruct (handle_connected_command_ok (contents p) w Hc) as (stop2 & w2 & E2 & Hpost);
      [apply Forall_take, Hp|]. rewrite E in E2. injection E2 as <- <-.
    destruct (malformed_command _); [by subst|].
    destruct Hpost as [[_ Hv] Hr%one_reply_host_acl]. unfold air_view, core_view in Hv.
    injection Hv as Eh Es Ee Ep Eq Et Ef El Efr _ _ _ _ _ _.
    eapply link_ok_same; [exact Hl|done|..|exact Hr]; unfold data_view, frame_view; congruence.
  - destruct (queue_acl p (w_conn w)) as [c'|] eqn:Eq.
    2: { injection E as _ <-. by rewrite app_nil_r. }
    injection E as _ <-. cbn in Hc'.
    destruct (queue_acl_appends _ _ _ Hc Hp Eq) as (d & Hd & Hqueue & Hv & Hf & Hfr).
    injection Hv as Eh Es Ee. unfold frame_view in Hf. injection Hf as Et El Ef.
    split; cbn; try done; try congruence.
    + destruct Htx as (acked & Hheard & Hdata & Hair). exists acked.
      unfold heard_unknown in *. rewrite Es, Hqueue, El, Ef. split; [|split; [|done]].
      * rewrite Hheard. f_equal. destruct (Z.eqb_spec (pr_nesn peer) (ac_transmit_sn (w_conn w))); [done|].
        f_equal. symmetry. apply selected_same; try done. by apply Hair.
      * rewrite fmap_app, !data_app, Hdata, <- app_assoc. cbn. by rewrite Hd.
    + unfold received_unknown in *. by rewrite Ee, Hrx.
  - injection E as _ <-. by rewrite app_nil_r.
  - injection E as _ <-. by rewrite app_nil_r.
Qed.

(** ** The ACL queue as the Host sees it *)

(** What the Host may send: a packet of this connection with its own length. *)
Definition acl_valid (handle : Z) (p : Packet) : Prop :=
  (4 ≤ pk_len p)%nat ∧ Z.land (le16 (pk_bytes p) 0) 0x0fff = handle ∧
  (Z.to_nat (le16 (pk_bytes p) 2) + 4 = pk_len p)%nat ∧
  (Z.to_nat (le16 (pk_bytes p) 2) ≤ MAX_DATA_PDU_PAYLOAD)%nat.

Lemma length_acl_queue c : conn_ok c → (length (acl_queue c) ≤ 5)%nat ∧
  (length (acl_queue c) = 5%nat ↔
   is_Some (ac_pending c) ∧ ∀ d, fill_first_empty d (ac_queued_acl c) = None).
Proof.
  intros Hc. destruct (ok_acl _ Hc) as (l & Hl & Hcap & Hempty & _).
  unfold acl_queue. rewrite Hl, omap_slots_of. unfold ACL_QUEUE_CAPACITY in Hcap.
  destruct (ac_pending c) as [d0|]; cbn.
  - split; [lia|]. split.
    + intros [= H4]. split; [done|]. intros d. rewrite fill_slots_of by (unfold ACL_QUEUE_CAPACITY; lia).
      by rewrite H4.
    + intros [_ Hf]. specialize (Hf d0). rewrite fill_slots_of in Hf by (unfold ACL_QUEUE_CAPACITY; lia).
      destruct (Nat.ltb_spec (length l) ACL_QUEUE_CAPACITY) as [|Hge]; [done|].
      unfold ACL_QUEUE_CAPACITY in Hge. lia.
  - rewrite Hempty by done. cbn. split; [lia|]. split; [done|]. by intros [[? ?] _].
Qed.

(** Which packets are refused, and how. *)
Lemma queue_acl_refuses p c e : conn_ok c → queue_acl p c = Err e →
  (e = HCI_COMMAND_DISALLOWED ∧ ((pk_len p < 4)%nat ∨ length (acl_queue c) = 5%nat)) ∨
  (e = HCI_INVALID_PARAMETERS ∧ ¬ acl_valid (ac_handle c) p).
Proof.
  intros Hc. unfold queue_acl, acl_valid.
  destruct (Nat.ltb_spec (pk_len p) 4) as [Hs|Hs]; [intros [= <-]; left; auto|].
  set (len := Z.to_nat (le16 (pk_bytes p) 2)).
  destruct (_ || _) eqn:Hg.
  - intros [= <-]. right. split; [done|]. intros (_ & Hh & Hp & Hm).
    rewrite Hh, Z.eqb_refl, Hp, Nat.eqb_refl in Hg. apply Nat.leb_le in Hm.
    apply Nat.leb_le, Nat.ltb_ge in Hm. by rewrite Hm in Hg.
  - set (d := mkPendingData _ _ _ _). destruct (length_acl_queue c Hc) as [_ Hfull].
    destruct (ac_pending c) as [d0|] eqn:Hp; [|done].
    destruct (fill_first_empty d (ac_queued_acl c)) eqn:Hf; [done|].
    intros [= <-]. left. split; [done|]. right. apply Hfull. split; [done|].
    destruct (ok_acl _ Hc) as (l & Hl & Hcap & _). intros d'. rewrite Hl in *.
    rewrite fill_slots_of in Hf |- * by done. revert Hf. by destruct (length l <? ACL_QUEUE_CAPACITY)%nat.
Qed.

(** ** Every step *)

Lemma link_step_ok l l' : link_step l l' → link_ok l → link_ok l'.
Proof.
  intros [p stop w w' peer acc Hp E|now_us error w peer acc|now notify c w peer acc E
         |clock exchange setup lost next w w1 w' peer acc Hradio Hsetup E Hspeaks] Hl.
  - by eapply packet_link_ok.
  - eapply link_ok_same; try done. apply ok_procedures, Hl.
  - destruct (skip_event_ok now _ (lo_conn _ Hl)) as (n & c' & E' & Hc' & Hv & _).
    cbn in E'. rewrite E in E'. injection E' as <- <-.
    destruct (tx_data_view _ _ Hv) as (Hd & Hf & Hfr & _). by eapply link_ok_same.
  - pose proof Hl as [Hc Hh Hs Hn Htx Hrx]. cbn in Hc, Hh, Hs, Hn, Htx, Hrx.
    destruct (connection_event_data clock exchange w setup w1 w' Hc Hradio Hsetup E) as [Hst Hx].
    pose proof Hst as (_ & Hd & _). unfold data_view in Hd. injection Hd as Eh _ _ _ _.
    rewrite Hh in Eh. set (sent := sent_on_air _) in *. set (received := heard_on_air _) in *.
    destruct (event_tx_ok _ _ _ sent lost _ _ _ received next peer acc Hst Hc Htx Hn Hx Hspeaks)
      as [Htx' Hn'].
    destruct (event_rx_ok _ _ _ sent lost _ _ _ _ received next peer Hst Hc Hs Eh Hx Hspeaks Hrx)
      as [Hs' Hrx'].
    destruct (connection_event_ok clock exchange w Hc Hradio) as (r & w2 & E2 & _ & _ & Hpost).
    rewrite E in E2. injection E2 as <- <-. destruct (Hpost eq_refl) as (Hc' & Hset & _ & _).
    pose proof Hx as [_ Hh' _ _ _ _ _].
    assert (link_ok (mkLink w' (if sent && negb lost then peer_hear setup.1.2 next peer else peer)
      acc)) as Hl'.
    { split; try done. cbn. congruence. }
    destruct (tx_data_view _ _ (schedule_view (w_conn w'))) as (Hd' & Hf' & Hfr' & _).
    eapply link_ok_same; try done. by apply schedule_ok.
Qed.

Lemma linked_ok l : linked l → link_ok l.
Proof.
  induction 1 as [w first Hstart Hout|l l' _ Hl Hstep]; [|by eapply link_step_ok].
  destruct Hstart as [packet address request us now c r Hb Hparse Hnew].
  destruct (connection_new_ok _ _ _ _ _ _ Hb Hparse Hnew) as (Hc & _).
  revert Hnew. unfold connection_new, connection_new_for. intros (s & _ & [= <-])%ok_bind_inv.
  split; try done; try by left.
  - exists []. by split_and!.
  - cbn in *. by rewrite Hout.
Qed.

End delivery.

(** ** A run for the witness

    The Host submits one ACL packet; at the first event the radio hears a data PDU
    of the peer, and the frame of the connection reaches the peer. *)

Definition sample_acl : Packet :=
  mkPacket AclData 7 ([0x01; 0x20; 3; 0; 0xaa; 0xbb; 0xcc] ++ replicate 57 0).
Definition sample_first : Pdu := (LLID_START, [0x11; 0x22]).
Definition sample_radio : Channel → Instant → Duration → list Z → result Error ExchangeResult :=
  λ _ _ _ _, Ok (mkExchangeResult (mkReceivedPacket [0x02; 2; 0x11; 0x22] (-60) true 10000) true).

Lemma sample_radio_ok : radio_ok sample_radio.
Proof. intros ? ? ? ? r [= <-]. vm_compute. repeat constructor; discriminate. Qed.

Lemma sample_acl_ok : packet_ok sample_acl.
Proof.
  split; [done|]. split; [|unfold HCI_PACKET_CAPACITY; cbn; lia].
  vm_compute. repeat constructor; discriminate.
Qed.

Definition submitted_world : World :=
  processed_world (process_connected_host_packet sample_acl sample_world) sample_world.
Definition sample_setup : Channel * Instant * Duration * list Z * bool :=
  (setup_of (event_setup sample_clock submitted_world)
     (mkChannel 0, at_us 0, duration_from_micros 0, [], false) submitted_world).1.
Definition delivered_world : World :=
  let w := served_world (connection_event sample_clock sample_radio submitted_world) submitted_world in
  w <| w_conn := schedule_following_event (w_conn w) |>.
Definition sample_link : Link :=
  mkLink delivered_world (peer_hear sample_setup.1.2 sample_first (peer_start sample_first))
    [(LLID_START, [0xaa; 0xbb; 0xcc])].

Lemma sample_submitted : linked (mkLink submitted_world (peer_start sample_first)
  [(LLID_START, [0xaa; 0xbb; 0xcc])]).
Proof.
  destruct (processed_spec (process_connected_host_packet sample_acl sample_world) sample_world)
    as [stop E]; [vm_compute; reflexivity|].
  assert ([] ++ submitted sample_acl (w_conn sample_world) = [(LLID_START, [0xaa; 0xbb; 0xcc])]) as <-
    by (vm_compute; reflexivity).
  eapply linked_step; [|exact (link_packet _ _ _ _ _ [] sample_acl_ok E)].
  apply linked_start; [|vm_compute; reflexivity].
  eapply (start_connect sample_packet sample_advertiser sample_connect_ind 1000 (at_us 1000));
    [apply sample_packet_ok|vm_compute; reflexivity|apply sample_conn_new].
Qed.

Lemma sample_linked : linked sample_link.
Proof.
  eapply linked_step; [exact sample_submitted|].
  refine (link_event sample_clock sample_radio sample_setup false sample_first _ _ _ _ _
    sample_radio_ok (setup_spec _ _ submitted_world _) (served_spec _ submitted_world _) _).
  - vm_compute. reflexivity.
  - vm_compute. reflexivity.
  - vm_compute. auto.
Qed.

(** ** Properties *)

(** C2: Data is delivered exactly once and in order, in both directions, over a radio
    that may lose any packet either way, whatever events are missed and whatever
    control PDUs and Host commands are interleaved. What the peer has heard, followed
    by what still waits in the ACL queue (all of it, or all but a head that the peer
    has heard and the connection does not know to be acknowledged), is what the Host
    has got accepted; and the ACL packets handed to the Host are the images of the
    data PDUs that the peer has sent and seen acknowledged, followed by at most the
    one it is still repeating. *)
Theorem data_exactly_once `{!EmbassyTime} `{!RngCore} `{!RngCoreLaws} l :
  linked l →
  let c := w_conn (lk_world l) in
  let p := lk_peer l in
  (∃ waiting, data (lk_accepted l) = data (pr_heard p) ++ data waiting ∧
     (waiting = pdu_image <$> acl_queue c ∨
      waiting = tail (pdu_image <$> acl_queue c) ∧ pr_nesn p ≠ ac_transmit_sn c)) ∧
  (∃ repeated, (contents <$> host_acl (rn_transport (w_runner (lk_world l)))) =
       acl_image CONNECTION_HANDLE <$> data (pr_sent p ++ repeated) ∧
     (repeated = [] ∨ repeated = [pr_current p] ∧ pr_sn p ≠ ac_expected_sn c)).
Proof.
  intros Hl c p. destruct (linked_ok l Hl) as [Hc _ _ _ (acked & Hheard & Hdata & Hair) Hrx].
  fold c p in Hc, Hheard, Hdata, Hair, Hrx. split.
  - unfold heard_unknown in Hheard.
    destruct (Z.eqb_spec (pr_nesn p) (ac_transmit_sn c)) as [Heq|Hne].
    { rewrite app_nil_r in Hheard. exists (pdu_image <$> acl_queue c). rewrite Hheard. auto. }
    assert (ac_transmitted c ≠ TxNone) as Htx.
    { intros Hn. pose proof (ok_owner _ Hc) as Ho. unfold owner_ok in Ho. rewrite Hn in Ho.
      by destruct (Hair Hne). }
    pose proof (acknowledged_selected c Hc Htx) as Hsel.
    rewrite Hheard, data_app, Hdata, <- Hsel. case_bool_decide.
    + exists (tail (pdu_image <$> acl_queue c)). split; [|by right].
      rewrite <- app_assoc. do 2 f_equal. by destruct (acl_queue c).
    + exists (pdu_image <$> acl_queue c). split; [by rewrite <- app_assoc|by left].
  - unfold received_unknown in Hrx.
    destruct (Z.eqb_spec (pr_sn p) (ac_expected_sn c)); [exists []|exists [pr_current p]]; auto.
Qed.

Lemma data_exactly_once_witness :
  linked sample_link ∧
  data (pr_heard (lk_peer sample_link)) = [(LLID_START, [0xaa; 0xbb; 0xcc])] ∧
  ∃ repeated, (contents <$> host_acl (rn_transport (w_runner (lk_world sample_link)))) =
    acl_image CONNECTION_HANDLE <$> data (pr_sent (lk_peer sample_link) ++ repeated).
Proof.
  split; [exact sample_linked|]. split; [vm_compute; reflexivity|].
  destruct (data_exactly_once sample_link sample_linked) as [_ (repeated & E & _)].
  exists repeated. exact E.
Defined.

(** The ACL queue is a bounded FIFO that keeps its promise to the Host: with up to as
    many packets outstanding as the controller has announced credits for (five), every
    well-formed packet of the connection is accepted, as the last PDU to be transmitted,
    with its payload and packet boundary unchanged; a packet is refused, with nothing
    changed, only for its length, its handle, a payload beyond 27 octets, or a full
    queue. *)
Theorem acl_queue_fifo `{!EmbassyTime} `{!RngCore} `{!RngCoreLaws} p c :
  conn_ok c → packet_ok p →
  (length (acl_queue c) ≤ Z.to_nat ACL_CREDITS)%nat ∧
  (acl_valid (ac_handle c) p ∧ (length (acl_queue c) < Z.to_nat ACL_CREDITS)%nat →
   is_ok (queue_acl p c) = true) ∧
  match queue_acl p c with
  | Ok c' => conn_ok c' ∧
      (pdu_image <$> acl_queue c') = (pdu_image <$> acl_queue c) ++ [acl_pdu p]
  | Err e =>
      (e = HCI_COMMAND_DISALLOWED ∧ ((pk_len p < 4)%nat ∨ length (acl_queue c) = Z.to_nat ACL_CREDITS)) ∨
      (e = HCI_INVALID_PARAMETERS ∧ ¬ acl_valid (ac_handle c) p)
  end.
Proof.
  intros Hc Hp. change (Z.to_nat ACL_CREDITS) with 5%nat.
  split; [by apply length_acl_queue|]. split.
  - intros [Hv Hlen]. destruct (queue_acl p c) as [c'|e] eqn:E; [done|].
    apply queue_acl_refuses in E as [[_ [Hs|Hf]]|[_ Hn]]; [|lia|done|done].
    destruct Hv as [Hs' _]. lia.
  - destruct (queue_acl p c) as [c'|e] eqn:E; [|by apply queue_acl_refuses].
    destruct (queue_acl_appends _ _ _ Hc Hp E) as (d & <- & -> & _).
    split; [|by rewrite fmap_app]. destruct Hp as (Hl & Hb & _). by eapply queue_acl_ok.
Qed.

Lemma acl_queue_fifo_witness : is_ok (queue_acl sample_acl sample_conn) = true.
Proof.
  refine (proj1 (proj2 (acl_queue_fifo sample_acl sample_conn sample_conn_ok sample_acl_ok)) _).
  split; [|vm_compute; repeat constructor].
  split; [vm_compute; repeat constructor|]. split; [vm_compute; reflexivity|].
  split; [vm_compute; reflexivity|]. vm_compute. repeat constructor.
Defined.
