(* ===== verification/ControlPath.v ===== *)
(** * LL control procedures on the link

    The reply to each request of the peer, and two places where the handling of
    procedures ends a connection that the peer has kept alive. *)

From S2P Require Import Prelude Effects Time Channel Timing Sequence ControlPdu Llcp Advertising.
From S2P Require Import Hci Controller Connection Commands Runner Loops ConnectionInv EventInv HostProps ConnectionSafety.
From S2P Require Import Instants DataPlane.

(** ** The reply to a request

    What the peer is owed for a control PDU that neither carries an instant nor
    ends a procedure of the connection: nothing for the three indications that it
    sends, and LL_UNKNOWN_RSP for what is not understood. *)
Definition ll_reply (payload : list Z) : option (list Z) :=
  let len n := (length payload =? n)%nat in
  match payload with
  | [] => None
  | opcode :: _ =>
      if (opcode =? 0x12) && len 1%nat then Some [0x13]
      else if (opcode =? 0x0c) && len 6%nat then Some [0x0c; 0x09; 0xff; 0xff; 0x00; 0x00]
      else if (opcode =? 0x08) && len 9%nat then
        Some (0x09 :: Z.land (payload !!! 1%nat) 0x06 :: replicate 7 0)
      else if opcode =? 0x10 then Some [0x11; 0x10; 0x1e]
      else Some [0x07; opcode]
  end.

(** The PDUs with a handler of their own: updates, the termination, and the
    parameter request. *)
Definition ll_special (payload : list Z) : bool :=
  let len n := (length payload =? n)%nat in
  match payload with
  | [] => false
  | opcode :: _ =>
      (opcode =? 0x00) || (opcode =? 0x01) || (opcode =? 0x02) || (opcode =? 0x0f)
      || ((opcode =? 0x07) && len 2%nat) || ((opcode =? 0x11) && len 3%nat)
  end.

Section control.
Context `{!EmbassyTime} `{!RngCore} `{!RngCoreLaws}.

(** The payloads of the control PDUs in the order of transmission. *)
Definition control_queue (c : ActiveConnection) : list (list Z) :=
  pd_payload <$> option_list (ac_pending_control c) ++ option_list (ac_queued_control c).

Lemma queue_control_appends bytes token c : bytes_ok bytes →
  (length bytes ≤ MAX_DATA_PDU_PAYLOAD)%nat → ac_queued_control c = None →
  ∃ c', queue_control_with_token bytes token c = (true, c') ∧
    control_queue c' = control_queue c ++ [bytes].
Proof.
  intros Hb Hlen Hq. unfold queue_control_with_token.
  rewrite (proj2 (Nat.ltb_ge _ _)) by done. rewrite Hq. rewrite (bool_decide_true (None = None)) by done.
  destruct (pd_ok_make bytes LLID_CONTROL (pt_owner_token token) Hb Hlen) as [_ Hp]; [done|].
  set (d := mkPendingData _ _ _ _) in *. clearbody d.
  unfold control_queue. rewrite Hq. cbn [option_list]. rewrite app_nil_r, <- Hp.
  case_bool_decide as Hpend; eexists; (split; [done|]).
  - cbn. by rewrite Hq, Hpend.
  - cbn. by rewrite fmap_app.
Qed.

Lemma queue_control_reply bytes c : bytes_ok bytes → (length bytes ≤ MAX_DATA_PDU_PAYLOAD)%nat →
  ac_queued_control c = None →
  control_queue (queue_control bytes c).2 = control_queue c ++ [bytes].
Proof.
  intros Hb Hlen Hq. unfold queue_control, queue_control_owned.
  destruct (allocate_control_token c) as [token c1] eqn:E.
  assert (control_queue c1 = control_queue c ∧ ac_queued_control c1 = ac_queued_control c) as [<- Hq1]
    by (by injection E as _ <-).
  destruct (queue_control_appends bytes token c1 Hb Hlen) as (c' & -> & Hc'); [congruence|].
  done.
Qed.

Lemma remote_response_reply kind request response c : instant_procedure kind = None →
  bytes_ok response → response ≠ [] → (length response ≤ MAX_DATA_PDU_PAYLOAD)%nat →
  ac_queued_control c = None → active_context (pm_remote (ac_procedures c)) = None →
  control_queue (queue_remote_procedure_response kind request response c).2
    = control_queue c ++ [response].
Proof.
  intros Hkind Hb Hne Hlen Hq Hremote.
  unfold queue_remote_procedure_response, queue_remote_procedure_response_with_followup.
  destruct response as [|op rest]; [done|].
  destruct (allocate_control_token c) as [token c1] eqn:E.
  assert (control_queue c1 = control_queue c ∧ ac_queued_control c1 = ac_queued_control c ∧
    ac_procedures c1 = ac_procedures c) as (<- & Hq1 & Hp1) by (by injection E as _ <-).
  rewrite Hp1. unfold start_remote, with_procedures at 1. cbn [pc_initiator context_new].
  rewrite Hremote.
  assert (∀ m, ∃ m', response_queued (m <| pm_remote :=
    Some (context_new kind Remote token op None None None) |>) token op = Ok m') as Hresp
    by (intros m; by eexists).
  assert (∀ m, control_queue (match with_procedures (c1 <| ac_procedures := m <| pm_remote :=
      Some (context_new kind Remote token op None None None) |> |>)
      (response_queued (m <| pm_remote := Some (context_new kind Remote token op None None None) |>)
        token op) with
    | Ok c => let '(queued, c) := queue_control_with_token (op :: rest) token c in
              if queued then (true, c) else (false, fail_procedure Remote 0x3a c)
    | Err _ => (false, fail_procedure Remote 0x3a (c1 <| ac_procedures := m <| pm_remote :=
      Some (context_new kind Remote token op None None None) |> |>))
    end).2 = control_queue c1 ++ [op :: rest]) as Hgo.
  { intros m. destruct (Hresp m) as [m' ->]. cbn [with_procedures fmap result_fmap].
    destruct (queue_control_appends (op :: rest) token (c1 <| ac_procedures := m' |>) Hb Hlen)
      as (c' & E' & Hc'); [cbn; congruence|]. cbn in E' |- *. rewrite E'. exact Hc'. }
  destruct (active_context (pm_local (ac_procedures c))) as [l|].
  - cbn [pc_kind context_new]. rewrite Hkind. rewrite (bool_decide_false (is_Some None)) by by intros [? ?].
    rewrite andb_false_r. apply Hgo.
  - apply Hgo.
Qed.

(** One arm of [handle_ll_control] that queues a PDU and goes on. *)
Lemma reply_arm (f : ActiveConnection → bool * ActiveConnection) w :
  run ((_ ← call_conn f; mret ());; mret None : M World (option Z) (option Z)) w
  = Some (None, w <| w_conn := (f (w_conn w)).2 |>).
Proof.
  unfold run, mbind, M_bind, call_conn, zoom. by destruct (f (w_conn w)).
Qed.

Lemma handle_ll_control_reply payload w : bytes_ok payload →
  ll_special payload = false → ac_queued_control (w_conn w) = None →
  active_context (pm_remote (ac_procedures (w_conn w))) = None →
  ∃ w', handle_ll_control payload w = Some (None, w') ∧ w_runner w' = w_runner w ∧
    control_queue (w_conn w') =
      control_queue (w_conn w) ++ option_list (ll_reply payload).
Proof.
  intros Hb Hsp Hq Hremote. unfold handle_ll_control, ll_reply.
  destruct payload as [|op rest]; [exists w; by rewrite app_nil_r|].
  pose proof Hb as [Hop Hrest]%Forall_cons_1. cbn [ll_special] in Hsp. bool_to_prop.
  repeat match goal with H : _ = false |- _ => rewrite H end. cbn [andb].
  assert (∀ (f : ActiveConnection → bool * ActiveConnection) l,
    control_queue (f (w_conn w)).2 = control_queue (w_conn w) ++ [l] →
    ∃ w', run ((_ ← call_conn f; mret ());; mret None : M World (option Z) (option Z)) w
        = Some (None, w') ∧ w_runner w' = w_runner w ∧
      control_queue (w_conn w') = control_queue (w_conn w) ++ option_list (Some l)) as Harm.
  { intros f l Hl. rewrite reply_arm. eexists. split; [done|]. split; [done|]. exact Hl. }
  assert (∀ l, bytes_ok l → (length l ≤ MAX_DATA_PDU_PAYLOAD)%nat →
    control_queue (queue_control l (w_conn w)).2 = control_queue (w_conn w) ++ [l]) as Hctl
    by (intros; by apply queue_control_reply).
  assert (∀ kind request l, instant_procedure kind = None → bytes_ok l → l ≠ [] →
    (length l ≤ MAX_DATA_PDU_PAYLOAD)%nat →
    control_queue (queue_remote_procedure_response kind request l (w_conn w)).2 =
      control_queue (w_conn w) ++ [l]) as Hresp
    by (intros; by apply remote_response_reply).
  assert (∀ n, (n ≤ 27)%nat → (n ≤ MAX_DATA_PDU_PAYLOAD)%nat) as Hshort by done.
  repeat match goal with
  | |- context [if (op =? ?n) && ?l then _ else _] =>
      destruct (Z.eqb_spec op n); [subst op|]; cbn [andb]
  | |- context [if op =? ?n then _ else _] => destruct (Z.eqb_spec op n); [subst op|]
  | |- context [if (length (?x :: rest) =? ?n)%nat then _ else _] =>
      destruct (Nat.eqb_spec (length (x :: rest)) n)
  end; try lia; apply Harm;
    first [apply Hresp | apply Hctl]; try done; try (apply Hshort; cbn; lia);
    try (by solve_forall).
  unfold bytes_ok. repeat apply Forall_cons_2; try done.
  apply land_fits_l; [done|]. apply bytes_ok_lookup; [done|lia].
Qed.

(** ** A procedure that fails while its PDU is queued

    [owned_local c]: the PDU at the head of the control queue belongs to the
    connection's own procedure. *)
Definition owned_local (c : ActiveConnection) (context : ProcedureContext) : Prop :=
  ∃ pdu, ac_pending_control c = Some pdu ∧ pm_local (ac_procedures c) = Some context ∧
    pt_owner_token (pc_token context) = pd_owner_token pdu.

(** That procedure has failed meanwhile. *)
Definition stranded (c : ActiveConnection) : Prop :=
  ∃ context, owned_local c context ∧ pc_phase context = Failed.

Lemma on_stranded f c context : owned_local c context →
  is_ok (f Local (pc_token context)) = false → on_pending_control f c = Err ().
Proof.
  intros (pdu & Hpdu & Hl & Htok) Hf.
  unfold on_pending_control, procedure_for_control_owner. rewrite Hpdu, Hl, Htok, Z.eqb_refl.
  unfold with_procedures. by destruct (f Local _).
Qed.

(** Planning, completing or acknowledging its transmission is refused. *)
Lemma stranded_refused c : stranded c →
  plan_pending_control_procedure c = Err () ∧ complete_pending_control_transmit c = Err () ∧
  (∀ now_us, acknowledge_pending_control now_us c = Err ()).
Proof.
  intros (context & Hown & Hphase). pose proof Hown as (pdu & _ & Hl & _).
  split; [|split; [|intros now_us]]; apply (on_stranded _ _ context); try done;
    unfold tx_planned, tx_done, nesn_ack, context_mut, ack_context; cbn [get_context];
    rewrite Hl; cbn; destruct (negb _); rewrite ?Hphase; done.
Qed.

Lemma stranded_acknowledge now w : stranded (w_conn w) → ac_transmitted (w_conn w) = TxControl →
  acknowledge now w = Return (Some 0x1f) w.
Proof.
  intros Hs Htx. destruct (stranded_refused _ Hs) as (_ & _ & Hack).
  unfold acknowledge, conn, gets, when_, mbind, M_bind. rewrite Htx.
  rewrite (bool_decide_true (TxControl = TxControl)) by done.
  unfold try_conn. by rewrite Hack.
Qed.

Lemma stranded_build c : stranded c → ac_transmitted c = TxControl → build_transmit_frame c = Err ().
Proof.
  intros Hs Htx. destruct (stranded_refused _ Hs) as (Hplan & _).
  unfold build_transmit_frame. rewrite Htx.
  rewrite (bool_decide_true (TxControl = TxControl)) by done. by rewrite Hplan.
Qed.

Lemma fail_local_stranded e c context : owned_local c context →
  stranded (fail_procedure Local e c).
Proof.
  intros (pdu & Hpdu & Hl & Htok).
  unfold fail_procedure, fail, context_mut, with_procedures. cbn [get_context]. rewrite Hl.
  eexists. split; [exists pdu; by split|done].
Qed.

Lemma start_remote_local m context m' : start_remote m context = Ok m' → pm_local m' = pm_local m.
Proof.
  unfold start_remote. destruct (negb _); [done|].
  destruct (active_context (pm_remote m)); [done|].
  destruct (active_context (pm_local m)); [destruct (_ && _); [done|]|]; by intros [= <-].
Qed.

Lemma start_remote_instant_local kind op instant c :
  let c' := (start_remote_instant_procedure kind op instant c).2 in
  (stranded c → stranded c') ∧ ac_transmitted c' = ac_transmitted c.
Proof.
  unfold start_remote_instant_procedure. destruct (allocate_control_token c) as [token c1] eqn:E.
  injection E as <- <-. destruct (with_procedures _ _) as [c2|[]] eqn:E2; try done.
  apply with_procedures_inv in E2 as (m & Hm%start_remote_local & ->). split; [|done].
  intros (context & (pdu & Hp & Hl & Ht) & Hph). exists context. split; [|done].
  exists pdu. split; [done|]. split; [|done]. cbn. rewrite Hm. exact Hl.
Qed.

(** The channel map that arrives while the connection's own parameter request is
    at the head of the queue. *)
Lemma crossing_map payload w w' context : hd 0xff payload = 0x01 →
  is_Some (ac_local_param_request (w_conn w)) → owned_local (w_conn w) context →
  ac_transmitted (w_conn w) = TxControl →
  handle_ll_control payload w = Some (None, w') →
  stranded (w_conn w') ∧ ac_transmitted (w_conn w') = TxControl.
Proof.
  intros Hop [request Hreq] Hown Htx. destruct payload as [|op rest]; [done|].
  cbn in Hop. subst op.
  assert (holds (handle_channel_map_ind (0x01 :: rest)) w
    (λ _ w', stranded (w_conn w') ∧ ac_transmitted (w_conn w') = TxControl)
    (λ r _, r ≠ None)) as Hmap.
  { unfold handle_channel_map_ind. do 2 apply holds_gets_bind.
    destruct (map_parse _ _) as [m|[]]; try done.
    destruct (ac_pending_channel_map _); [done|]. apply holds_gets_bind. rewrite Hreq.
    rewrite (bool_decide_true (is_Some (Some request))) by done.
    set (e := procedure_collision_error _ _).
    eapply (holds_bind_next _ _ _ _ (λ _ w1, stranded (w_conn w1) ∧
      ac_transmitted (w_conn w1) = TxControl)).
    { unfold when_, abandon_local_request. do 2 apply holds_modify_bind. apply holds_modify. split.
      - by apply (fail_local_stranded _ _ context).
      - destruct (quiet_abandon (w_conn w) e) as [_ Hv]. unfold air_view, core_view in Hv.
        cbn in *. congruence. }
    cbn beta. intros _ w1 [Hs1 Htx1].
    destruct (start_remote_instant_local KindChannelMapUpdate 0x01 (cm_instant m) (w_conn w1))
      as [Hs2 Htx2].
    destruct (start_remote_instant_procedure _ _ _ (w_conn w1)) as [res c2] eqn:E.
    eapply holds_zoom_bind; [by rewrite E|]. cbn [fst snd] in Hs2, Htx2.
    destruct res as [[]|err]; [|done]. eapply holds_try_bind; [done|]. apply holds_modify.
    split; [exact (Hs2 Hs1)|cbn; congruence]. }
  change (handle_ll_control (0x01 :: rest) w)
    with (run (handle_channel_map_ind (0x01 :: rest);; mret None) w).
  unfold run, mbind, M_bind. unfold holds in Hmap.
  destruct (handle_channel_map_ind _ w) as [[] w1|r w1|]; [|by intros [= -> _]|done].
  by intros [= <-].
Qed.

(** ** LL_TERMINATE_IND on air *)

(** Once the termination PDU has been on air in this event, any PDU that the
    radio received with it ends the connection, whatever it acknowledges. *)
Lemma terminate_received clock outstanding received header len payload w :
  conn_ok (w_conn w) → bytes_ok payload →
  holds (event_received clock outstanding true received header len payload) w
    (λ _ _, False) (λ r _, r = Some 0x16 ∨ r = Some 0x1f ∧
      acknowledges_transmit_owner header (ac_transmit_sn (w_conn w)) outstanding false = true).
Proof.
  intros Hc Hb. unfold event_received, on_conn. apply holds_modify_bind.
  set (w1 := w <| w_conn := _ |>).
  assert (conn_ok (w_conn w1)) as Hc1 by by apply ok_received.
  change (ac_transmit_sn (w_conn w)) with (ac_transmit_sn (w_conn w1)). clearbody w1.
  apply holds_gets_bind.
  eapply (holds_bind _ _ _ _ (λ _ w2, conn_ok (w_conn w2))).
  { apply holds_when; [|done]. intros Hack.
    eapply holds_weaken; [by apply acknowledge_ok| |].
    - by intros ? w2 (? & _).
    - cbn beta. intros r w2 [-> _]. by right. }
  intros _ w2 Hc2. apply holds_gets_bind.
  eapply (holds_bind _ _ _ _ (λ _ w3, conn_ok (w_conn w3))).
  { case_match; [|by apply holds_ret].
    eapply holds_weaken; [by apply accept_payload_ok| |]; cbn beta; [|done]. by intros ? w3 (? & _). }
  intros terminated w3 Hc3.
  eapply holds_bind_next; [by apply (apply_and_notify_ok (ck_exit clock))|].
  intros _ w4 _. apply holds_modify_bind. apply holds_return. by left.
Qed.

(** Completing the transmission of a PDU keeps the termination active. *)
Lemma complete_keeps_active kind c c' : complete_pending_control_transmit c = Ok c' →
  local_procedure_active kind c = true → local_procedure_active kind c' = true.
Proof.
  unfold complete_pending_control_transmit, on_pending_control.
  destruct (ac_pending_control c); [|by intros [= <-]].
  destruct (procedure_for_control_owner _ c) as [[i token]|]; [|by intros [= <-]].
  unfold tx_done, context_mut, with_procedures.
  destruct (get_context (ac_procedures c) i) as [context|] eqn:Hget; [|done]. cbn.
  destruct (negb _); [done|]. destruct (negb _); [done|]. intros [= <-].
  unfold local_procedure_active. destruct i; cbn in Hget |- *; [|done].
  rewrite Hget. by intros [-> _]%andb_true_iff.
Qed.

Definition terminating (c : ActiveConnection) : Prop :=
  ac_transmitted c = TxControl ∧ local_procedure_active Termination c = true ∧
  ∃ pdu, ac_pending_control c = Some pdu ∧ pd_bytes pdu !!! 0%nat = 0x02.

Lemma note_transmitted_terminating w : conn_ok (w_conn w) → terminating (w_conn w) →
  holds (note_transmitted true) w
    (λ _ w', sent_terminate true (w_conn w') = true ∧
       ac_transmit_sn (w_conn w') = ac_transmit_sn (w_conn w)) (λ r _, r = Some 0x1f).
Proof.
  intros Hc (Htx & Hact & pdu & Hpdu & Hb).
  assert (∀ c, local_procedure_active Termination c = true →
    (ac_transmitted c, ac_pending_control c, ac_transmit_sn c) =
      (ac_transmitted (w_conn w), ac_pending_control (w_conn w), ac_transmit_sn (w_conn w)) →
    sent_terminate true c = true ∧ ac_transmit_sn c = ac_transmit_sn (w_conn w)) as Hfin.
  { intros c Ha [= Et Ep Es]. split; [|done]. unfold sent_terminate. rewrite Et, Ep, Ha, Htx, Hpdu, Hb.
    done. }
  unfold note_transmitted. do 2 apply holds_gets_bind. rewrite Htx.
  rewrite (bool_decide_true (TxControl = TxControl)) by done.
  unfold when_ at 1. rewrite andb_true_r. destruct (ac_tx_frame_fresh (w_conn w)) eqn:Hf.
  - unfold when_, holds, mbind, M_bind, try_conn, on_conn, modify.
    destruct (complete_pending_control_transmit (w_conn w)) as [c|] eqn:E; [|done].
      apply Hfin; [exact (complete_keeps_active _ _ _ E Hact)|].
    by destruct (on_pending_control_inv _ _ _ E) as [m ->].
  - by apply Hfin.
Qed.

End control.

(** ** Samples

    The Host asks for new parameters: an LL_CONNECTION_PARAM_REQ is staged. *)

Definition update_command : list Z :=
  [0x13; 0x20; 14; 1; 0; 24; 0; 40; 0; 0; 0; 100; 0; 0; 0; 0; 0].
Definition disconnect_command : list Z := [0x06; 0x04; 3; 1; 0; 0x13].
Definition command_packet (bytes : list Z) : Packet :=
  mkPacket Cmd (length bytes) (bytes ++ replicate (64 - length bytes) 0).
Definition after_command (bytes : list Z) : World :=
  processed_world (process_connected_host_packet (command_packet bytes) sample_world) sample_world.

Lemma after_command_ok bytes : packet_ok (command_packet bytes) → conn_ok (w_conn (after_command bytes)).
Proof.
  intros Hp. destruct (process_packet_ok (command_packet bytes) sample_world sample_conn_ok Hp)
    as (stop & w & E & Hok & _).
  unfold after_command, processed_world. by rewrite E.
Qed.

Definition staged_world (bytes : list Z) : World :=
  (setup_of (event_setup sample_clock (after_command bytes))
     (mkChannel 0, at_us 0, duration_from_micros 0, [], false) (after_command bytes)).2.

(** The peer answers with a channel map whose instant is six events ahead. *)
Definition crossing_pdu : list Z := [0x01; 0xff; 0x0f; 0; 0; 0; 6; 0].
Definition crossed_world : World :=
  served_world (handle_ll_control crossing_pdu (staged_world update_command))
    (staged_world update_command).

Definition outcome_reason {A} (r : option (option Z * A)) : option (option Z) := fst <$> r.

(** ** Properties *)

(** C31: Every request of the peer gets exactly the reply it is owed. For a control
    PDU other than the updates, the termination, the parameter request and the
    rejections of the connection's own requests, with room in the control queue and no
    procedure of the peer under way, the queue grows by exactly one PDU: the response of
    the ping, version and feature procedures with the right length, a rejection of an
    LL_CONNECTION_PARAM_RSP, and LL_UNKNOWN_RSP for everything else (nothing for an empty
    PDU); the Host hears nothing and the connection goes on. *)
Theorem ll_request_reply `{!EmbassyTime} `{!RngCore} `{!RngCoreLaws} payload w :
  bytes_ok payload → ll_special payload = false → ac_queued_control (w_conn w) = None →
  active_context (pm_remote (ac_procedures (w_conn w))) = None →
  ∃ w', handle_ll_control payload w = Some (None, w') ∧ w_runner w' = w_runner w ∧
    control_queue (w_conn w') = control_queue (w_conn w) ++ option_list (ll_reply payload).
Proof. apply handle_ll_control_reply. Qed.

Lemma ll_request_reply_witness :
  ∃ w', handle_ll_control [0x08; 0xff; 0; 0; 0; 0; 0; 0; 0] sample_world = Some (None, w') ∧
    control_queue (w_conn w') =
      control_queue (w_conn sample_world) ++ [[0x09; 0x06; 0; 0; 0; 0; 0; 0; 0]].
Proof.
  destruct (ll_request_reply [0x08; 0xff; 0; 0; 0; 0; 0; 0; 0] sample_world)
    as (w' & E & _ & Hq); [vm_compute; repeat constructor; discriminate|reflexivity..|].
  exists w'. split; [exact E|exact Hq].
Defined.




(** The peer answers the first transmission with a header that acknowledges nothing. *)
Definition unacknowledging_radio :
    Channel → Instant → Duration → list Z → result Error ExchangeResult :=
  λ _ _ _ _, Ok (mkExchangeResult (mkReceivedPacket [0x01; 0] (-60) true 10000) true).

