(* ===== verification/Window.v ===== *)
(** * Receive windows

    The window in which the radio listens at a connection event: it is the one
    that the scheduler waits for, and it contains every packet that the Central
    can send within the clock accuracies. *)

From S2P Require Import Prelude Effects Time Channel Timing Sequence ControlPdu Llcp Advertising.
From S2P Require Import Hci Controller Connection Commands Runner ConnectionInv EventInv ConnectionSafety.
From S2P Require Import Instants.

Section window.
Context `{!EmbassyTime} `{!EmbassyTimeLaws}.

Definition anchor_us (c : ActiveConnection) : Z := instant_as_micros (ac_next_anchor c).
Definition elapsed_us (c : ActiveConnection) : Z :=
  duration_as_micros (saturating_duration_since (ac_next_anchor c) (ac_last_sync_anchor c)).
(** The combined accuracy of the two sleep clocks, in parts per million. *)
Definition accuracy_ppm (c : ActiveConnection) : Z :=
  sleep_clock_accuracy_ppm (ci_sleep_clock_accuracy (ac_request c)) + LOCAL_SLEEP_CLOCK_PPM.

(** The transmit window of the event. *)
Definition event_window_us (c : ActiveConnection) : Z :=
  match due_update c with
  | Some update => cu_window_size update * 1250
  | None => ac_receive_window_size_us c
  end.

(** The window fits the 64-bit clock. *)
Record window_fits (c : ActiveConnection) : Prop := mk_window_fits {
  wf_window : 0 ≤ event_window_us c;
  wf_low : RX_SETUP_LEAD_US + connection_widening_us c ≤ anchor_us c;
  wf_high : anchor_us c + connection_widening_us c + event_window_us c
    + MAX_DATA_PACKET_AIRTIME_US ≤ U64_MAX;
}.

Lemma widening_bounds c :
  elapsed_us c * accuracy_ppm c ≤ 1000000 * connection_widening_us c ∧
  0 ≤ connection_widening_us c.
Proof.
  pose proof (duration_as_fits (saturating_duration_since (ac_next_anchor c) (ac_last_sync_anchor c)))
    as He.
  assert (is_u16 LOCAL_SLEEP_CLOCK_PPM) as Hp by (unfold LOCAL_SLEEP_CLOCK_PPM; int_lia).
  unfold connection_widening_us. rewrite window_widening_exact by done.
  unfold elapsed_us, accuracy_ppm.
  set (e := duration_as_micros _) in *. clearbody e.
  pose proof (sleep_clock_accuracy_range (ci_sleep_clock_accuracy (ac_request c))) as Hs.
  set (s := sleep_clock_accuracy_ppm _) in *. clearbody s.
  assert (0 ≤ e * (s + LOCAL_SLEEP_CLOCK_PPM)) by (unfold LOCAL_SLEEP_CLOCK_PPM; unfold_ints; nia).
  unfold div_ceil. split; Z.div_mod_to_equations; lia.
Qed.

(** The two ends of the window in microseconds. *)
Lemma receive_open_micros c : window_fits c → ∃ o, receive_open c = Some o ∧
  instant_as_micros o = anchor_us c - RX_SETUP_LEAD_US - connection_widening_us c.
Proof.
  intros [Hw Hlow Hhigh]. destruct (widening_bounds c) as [_ Hpos].
  unfold receive_open, receive_setup_lead_us.
  assert (is_u64 (RX_SETUP_LEAD_US + connection_widening_us c)) as Hfit.
  { unfold RX_SETUP_LEAD_US, MAX_DATA_PACKET_AIRTIME_US in *. unfold_ints.
    pose proof (instant_as_fits (ac_next_anchor c)). unfold anchor_us in *. unfold_ints. lia. }
  destruct (instant_sub_micros (ac_next_anchor c)
    (duration_from_micros (RX_SETUP_LEAD_US + connection_widening_us c))) as (o & -> & Ho).
  { by rewrite duration_as_from. }
  exists o. split; [done|]. rewrite Ho, duration_as_from by done. unfold anchor_us. lia.
Qed.

Lemma receive_close_micros c : window_fits c →
  instant_as_micros (receive_close c) = anchor_us c + connection_widening_us c + event_window_us c
    + MAX_DATA_PACKET_AIRTIME_US.
Proof.
  intros [Hw Hlow Hhigh]. destruct (widening_bounds c) as [_ Hpos].
  unfold receive_close. fold (event_window_us c).
  pose proof (instant_as_fits (ac_next_anchor c)) as Hi. unfold anchor_us in *.
  unfold RX_SETUP_LEAD_US, MAX_DATA_PACKET_AIRTIME_US, MAX_DATA_PDU_PAYLOAD, ACL_PAYLOAD_LEN in *.
  rewrite instant_add_micros; rewrite duration_as_from by int_lia; int_lia.
Qed.

Lemma receive_timeout_micros c : window_fits c → due_update c = None →
  duration_as_micros (take_receive_timeout c).1 =
    RX_SETUP_LEAD_US + 2 * connection_widening_us c + event_window_us c
    + MAX_DATA_PACKET_AIRTIME_US.
Proof.
  intros [Hw Hlow Hhigh] Hdue. destruct (widening_bounds c) as [_ Hpos].
  pose proof (instant_as_fits (ac_next_anchor c)) as Hi. unfold anchor_us in *.
  unfold event_window_us in *. rewrite Hdue in *.
  unfold take_receive_timeout, receive_setup_lead_us. cbn [fst].
  unfold RX_SETUP_LEAD_US, MAX_DATA_PACKET_AIRTIME_US, MAX_DATA_PDU_PAYLOAD, ACL_PAYLOAD_LEN in *.
  rewrite duration_as_from by int_lia. int_lia.
Qed.

(** What the window depends on. *)
Definition window_view (c : ActiveConnection) :=
  (ac_next_anchor c, connection_widening_us c, event_window_us c).

Lemma window_view_ends c c' : window_view c' = window_view c →
  receive_close c' = receive_close c ∧ receive_open c' = receive_open c ∧
  (window_fits c → window_fits c').
Proof.
  intros [= Ha Hw He]. unfold receive_close, receive_open, receive_setup_lead_us.
  fold (event_window_us c') (event_window_us c). rewrite Ha, Hw, He. split; [done|]. split; [done|].
  intros []. by split; unfold anchor_us; rewrite ?Ha, ?Hw, ?He.
Qed.

(** Applying the instants does not move the window: the window of a due update is
    the one that the scheduler has reckoned with. *)
Lemma apply_instants_window now c flags c' : apply_instants now c = (Ok flags, c') →
  window_view c' = window_view c ∧ due_update c' = None.
Proof.
  unfold apply_instants. destruct (apply_channel_map c) as [c1|] eqn:E1; [|done].
  assert (due_update c1 = due_update c ∧ ac_next_anchor c1 = ac_next_anchor c ∧
    connection_widening_us c1 = connection_widening_us c ∧
    ac_receive_window_size_us c1 = ac_receive_window_size_us c) as (Hd & Ha & Hw & Hr).
  { revert E1. unfold apply_channel_map. destruct (due_channel_map c); [|by intros [= <-]].
    destruct (map_err _ _); [|done]. by intros [= <-]. }
  assert (∀ c2 : ActiveConnection, ac_next_anchor c2 = ac_next_anchor c1 →
    connection_widening_us c2 = connection_widening_us c1 →
    event_window_us c2 = event_window_us c → due_update c2 = None →
    window_view c2 = window_view c ∧ due_update c2 = None) as Hsame.
  { intros c2 Ha2 Hw2 He2 Hd2. unfold window_view. by rewrite Ha2, Hw2, He2, Ha, Hw. }
  unfold apply_update. rewrite Hd. destruct (due_update c) as [u|] eqn:Hu; intros [= _ <-];
    apply Hsame; try done; unfold event_window_us; rewrite Hu; [done|].
  change (due_update _) with (due_update c1). by rewrite Hd.
Qed.

(** What the radio is called with. *)
Lemma event_setup_window `{!RngCore} clock w : conn_ok (w_conn w) → holds (event_setup clock) w
  (λ '(channel, deadline, timeout, frame, outstanding) _,
     deadline = receive_close (w_conn w) ∧
     ∃ c, window_view c = window_view (w_conn w) ∧ due_update c = None ∧
          timeout = (take_receive_timeout c).1)
  (λ _ _, True).
Proof.
  intros Hc. unfold event_setup.
  eapply (holds_bind_next _ _ _ _ (λ _ w1, conn_ok (w_conn w1) ∧
    window_view (w_conn w1) = window_view (w_conn w) ∧ due_update (w_conn w1) = None)).
  { unfold apply_and_notify.
    destruct (apply_instants_ok (ck_entry clock) _ Hc) as ([applied changed] & c & E & Hok & _).
    destruct (apply_instants_window _ _ _ _ E) as [Hv Hd].
    eapply holds_zoom_bind; [by rewrite E|]. eapply holds_try_bind; [done|].
    apply holds_gets_bind. cbn [w_conn w_runner set_field].
    assert (conn_ok (c <| ac_local_param_request := None |>)) by by apply ok_local_request.
    destruct applied; unfold when_; [apply holds_modify_bind|apply holds_ret_bind];
      case_match; try apply holds_ret; unfold emit; try apply holds_modify; done. }
  cbn beta. intros _ w1 (Hc1 & Hv1 & Hd1).
  destruct (next_channel_ok _ Hc1) as (channel & c2 & E2 & Hc2 & _ & Hd2 & _).
  assert (window_view c2 = window_view (w_conn w1)) as Hv2.
  { revert E2. unfold next_channel. destruct (cs_next_channel _) as [[ch s]|]; [|done].
    by intros [= _ <-]. }
  eapply holds_zoom_bind; [exact E2|]. apply holds_gets_bind.
  eapply holds_zoom_bind; [done|]. cbn [w_conn w_runner set_field].
  destruct (window_view_ends (w_conn w) c2) as (Hclose & _); [congruence|].
  eapply holds_bind; [eapply holds_weaken; [by apply stage_frame_ok, ok_window| |]|].
  { cbn beta. intros ? w' H'. exact H'. }
  { intros r w' _. exact I. }
  cbn beta. intros _ w4 _. do 2 apply holds_gets_bind. apply holds_ret.
  split; [exact Hclose|]. exists c2. split; [congruence|]. split; [congruence|done].
Qed.

End window.

(** ** Properties *)

(** C25: The receive window is right. The radio is told to stop exactly where the
    scheduler has reckoned the window to end, also at the instant of a connection update;
    [receive_open] plus the timeout is that end; and whatever the two sleep clocks do
    within their accuracy since the last synchronisation, a packet that the Central starts
    anywhere in the transmit window starts after the set-up lead and ends, at the maximal
    length, inside the window. *)
Theorem receive_window_covers `{!EmbassyTime} `{!EmbassyTimeLaws} `{!RngCore}
    clock w channel deadline timeout frame outstanding w1 :
  conn_ok (w_conn w) → window_fits (w_conn w) →
  event_setup clock w = Next (channel, deadline, timeout, frame, outstanding) w1 →
  let c := w_conn w in
  ∃ opens, receive_open c = Some opens ∧ deadline = receive_close c ∧
    instant_as_micros opens + duration_as_micros timeout = instant_as_micros deadline ∧
    ∀ start drift,
      1000000 * drift ≤ elapsed_us c * accuracy_ppm c →
      anchor_us c - drift ≤ start ≤ anchor_us c + event_window_us c + drift →
      instant_as_micros opens + RX_SETUP_LEAD_US ≤ start ∧
      start + MAX_DATA_PACKET_AIRTIME_US ≤ instant_as_micros deadline.
Proof.
  intros Hc Hfits Hsetup c.
  pose proof (holds_next _ _ _ _ _ _ (event_setup_window clock w Hc) Hsetup) as (Hclose & c2 & Hv & Hd & ->).
  fold c in Hclose, Hv, Hfits. destruct (receive_open_micros c Hfits) as (opens & Ho & Hopens).
  destruct (window_view_ends _ _ Hv) as (_ & _ & Hfits2).
  pose proof (receive_timeout_micros c2 (Hfits2 Hfits) Hd) as Ht.
  injection Hv as Ha Hw He. rewrite Hw, He in Ht.
  pose proof (receive_close_micros c Hfits) as Hend. destruct (widening_bounds c) as [Hdrift _].
  exists opens. split; [done|]. split; [done|]. split; [rewrite Hclose, Ht; lia|].
  intros start drift Hb Hs. rewrite Hclose. lia.
Qed.

Lemma receive_window_covers_witness :
  ∃ opens deadline timeout, receive_open (w_conn sample_world) = Some opens ∧
    deadline = receive_close (w_conn sample_world) ∧
    instant_as_micros opens + duration_as_micros timeout = instant_as_micros deadline.
Proof.
  destruct (setup_of (event_setup sample_clock sample_world)
    (mkChannel 0, at_us 0, duration_from_micros 0, [], false) sample_world)
    as [[[[[channel deadline] timeout] frame] outstanding] w1] eqn:E.
  destruct (receive_window_covers sample_clock sample_world channel deadline timeout frame
    outstanding w1 sample_conn_ok) as (opens & Ho & Hd & Ht & _).
  - split; vm_compute; discriminate.
  - rewrite (setup_spec (event_setup sample_clock sample_world)
      (mkChannel 0, at_us 0, duration_from_micros 0, [], false) sample_world) by (vm_compute; reflexivity).
    by rewrite E.
  - exists opens, deadline, timeout. split; [exact Ho|]. split; [exact Hd|exact Ht].
Defined.
