(* ===== verification/HostAdvertising.v ===== *)
(** * Advertising data from the Host

    The AD structures that HCI_LE_Set_Advertising_Data and
    HCI_LE_Set_Scan_Response_Data carry, and what the controller keeps of them. *)

From S2P Require Import Prelude Effects Time Channel Advertising Hci Controller Connection Commands.
From S2P Require Import ConnectionInv.

(** A sequence of AD structures: type and value of each. *)
Definition structure (f : Z * list Z) : list Z := Z.of_nat (length f.2 + 1) :: f.1 :: f.2.
Definition structures (fields : list (Z * list Z)) : list Z := concat (structure <$> fields).

(** The octets of the data are AD structures up to an early terminator. *)
Definition well_structured (bytes : list Z) (fields : list (Z * list Z)) : Prop :=
  ∃ tail, bytes = structures fields ++ tail ∧ (tail = [] ∨ hd 1 tail = 0).

Lemma structures_cons ty v fields :
  structures ((ty, v) :: fields) = Z.of_nat (length v + 1) :: ty :: v ++ structures fields.
Proof. done. Qed.

Lemma copy_structures_error fuel bytes d e : copy_structures fuel bytes d = Err e →
  e = HCI_INVALID_PARAMETERS.
Proof.
  revert bytes d. induction fuel as [|fuel IH]; intros [|head rest] d; cbn [copy_structures]; try done.
  destruct (_ =? _)%nat; [done|]. destruct (_ <=? _)%nat; [by intros [= <-]|].
  destruct (ad_push _ _ _); cbn [map_err mbind result_bind]; [apply IH|by intros [= <-]].
Qed.

(** What the loop accepts is well structured, and it is what it has copied. *)
Lemma copy_structures_sound fuel bytes d d' : bytes_ok bytes → (length bytes ≤ fuel)%nat →
  ad_ok d → copy_structures fuel bytes d = Ok d' →
  ∃ fields, well_structured bytes fields ∧ ad_ok d' ∧ as_bytes d' = as_bytes d ++ structures fields.
Proof.
  revert bytes d. induction fuel as [|fuel IH]; intros bytes d Hb Hn Hd.
  - destruct bytes; [|cbn in Hn; lia]. intros [= <-]. exists [].
    split; [exists []; auto|]. by rewrite app_nil_r.
  - destruct bytes as [|head rest]; cbn [copy_structures].
    { intros [= <-]. exists []. split; [exists []; auto|]. by rewrite app_nil_r. }
    apply Forall_cons_1 in Hb as [Hhead Hrest]. cbn [length] in Hn.
    destruct (Nat.eqb_spec (Z.to_nat head) 0) as [Hz|Hz].
    { intros [= <-]. exists []. split; [|by rewrite app_nil_r].
      exists (head :: rest). split; [done|]. right. cbn. unfold fits in Hhead. lia. }
    destruct (Nat.leb_spec (length (head :: rest)) (Z.to_nat head)) as [|Hlt]; [done|].
    cbn [length] in Hlt. intros (d1 & E1 & E)%ok_bind_inv.
    pose proof (ad_push_spec d (rest !!! 0%nat) (slice 1 (Z.to_nat head) rest) Hd) as Hpush.
    destruct (ad_push d _ _) as [d2|]; [|done]. injection E1 as <-. destruct Hpush as [Hd2 Hb2].
    destruct (IH (drop (Z.to_nat head) rest) d2) as (fields & (tail & Ht & Hend) & Hd' & Hb');
      [by apply Forall_drop|rewrite length_drop; lia|done|done|].
    destruct rest as [|ty rest]; [cbn in Hlt; lia|].
    destruct (Z.to_nat head) as [|n] eqn:Hh; [done|]. cbn [length] in Hlt.
    assert (slice 1 (S n) (ty :: rest) = take n rest) as Hs.
    { unfold slice. cbn [drop]. by rewrite Nat.sub_succ, Nat.sub_0_r, drop_0. }
    rewrite Hs in Hb2. cbn in Hb2, Ht.
    assert (length (take n rest) = n) as Hl by (rewrite length_take; lia).
    exists ((ty, take n rest) :: fields). split; [|split; [done|]].
    + exists tail. split; [|done]. cbn. rewrite Hl.
      replace (Z.of_nat (n + 1)) with head by (unfold fits in Hhead; lia).
      unfold structures in Ht. rewrite <- app_assoc, <- Ht, take_drop. done.
    + rewrite Hb', Hb2, <- app_assoc. cbn. rewrite Hl. do 2 f_equal. lia.
Qed.

(** Well-structured octets are accepted as long as there is room. *)
Lemma copy_structures_complete fuel bytes fields d : (length bytes ≤ fuel)%nat →
  ad_ok d → (ad_len d + length bytes ≤ 31)%nat → well_structured bytes fields →
  is_ok (copy_structures fuel bytes d) = true.
Proof.
  revert bytes fields d. induction fuel as [|fuel IH]; intros bytes fields d Hn Hd Hroom Hw.
  { by destruct bytes; [|cbn in Hn; lia]. }
  destruct Hw as (tail & -> & Hend). destruct fields as [|[ty v] fields].
  - cbn [structures concat fmap list_fmap app]. destruct tail as [|head rest]; [done|].
    destruct Hend as [?|Hh]; [done|]. cbn in Hh. subst head. done.
  - rewrite structures_cons in *. cbn [app length] in Hn, Hroom |- *. rewrite <- app_assoc in *.
    set (rest := v ++ structures fields ++ tail) in *.
    assert (length rest = length v + length (structures fields ++ tail))%nat as Hrest
      by (subst rest; by rewrite length_app).
    cbn [copy_structures]. rewrite Nat2Z.id.
    rewrite (proj2 (Nat.eqb_neq _ _)) by lia.
    rewrite (proj2 (Nat.leb_gt _ _)) by (cbn [length]; lia).
    assert (slice 1 (length v + 1) (ty :: rest) = v) as ->.
    { unfold slice. cbn [drop]. subst rest. by rewrite Nat.add_sub, drop_0, take_app_length. }
    pose proof (ad_push_spec d ty v Hd) as Hpush. cbn [lookup_total list_lookup_total].
    destruct (ad_push d ty v) as [d1|] eqn:E1; [|exfalso; destruct Hpush; lia].
    destruct Hpush as [Hd1 Hb1]. cbn [map_err mbind result_bind].
    pose proof (as_bytes_length d1 Hd1) as Hl1. rewrite Hb1, length_app, as_bytes_length in Hl1 by done.
    cbn in Hl1. rewrite Nat.add_1_r. cbn [drop]. subst rest. rewrite drop_app_length.
    apply (IH _ fields); [lia|done|lia|by exists tail].
Qed.

(** ** Properties *)

(** Advertising data from the Host is kept verbatim. The command is accepted exactly
    when it has its 32 octets, a length of at most 31 and AD structures in that many
    octets, each with a type and a value of the announced length, up to an early
    terminator; the data kept are those structures, octet for octet, without the
    terminator and the padding, and fit the buffer. Anything else is refused with
    Invalid Parameters. *)
Theorem advertising_data_verbatim params :
  bytes_ok params →
  match set_advertising_data params with
  | Ok d => ad_ok d ∧ length params = 32%nat ∧ params !!! 0%nat ≤ 31 ∧
      ∃ fields, well_structured (slice 1 (1 + Z.to_nat (params !!! 0%nat)) params) fields ∧
        as_bytes d = structures fields
  | Err e => e = HCI_INVALID_PARAMETERS ∧
      (length params = 32%nat → params !!! 0%nat ≤ 31 →
       ∀ fields, ¬ well_structured (slice 1 (1 + Z.to_nat (params !!! 0%nat)) params) fields)
  end.
Proof.
  intros Hb. unfold set_advertising_data.
  destruct (Nat.eqb_spec (length params) 32) as [Hl|Hl]; cbn [negb orb]; [|done].
  destruct (Z.ltb_spec 31 (params !!! 0%nat)) as [Hm|Hm]; [by split; [|lia]|].
  assert (is_u8 (params !!! 0%nat)) as Hfirst by (apply bytes_ok_lookup; [done|lia]).
  set (bytes := slice 1 _ params).
  assert (length bytes ≤ 31)%nat as Hlen.
  { subst bytes. unfold fits in Hfirst. rewrite length_slice by lia. lia. }
  destruct ad_new_ok as [Hnew Hempty].
  destruct (copy_structures (length bytes) bytes ad_new) as [d|e] eqn:E.
  - destruct (copy_structures_sound _ _ _ _ (bytes_ok_slice _ _ _ Hb) (Nat.le_refl _) Hnew E)
      as (fields & Hw & Hd & Hdata).
    split; [done|]. split; [done|]. split; [done|]. exists fields. split; [done|].
    by rewrite Hdata, Hempty.
  - split; [by eapply copy_structures_error|]. intros _ _ fields Hw.
    pose proof (copy_structures_complete (length bytes) bytes fields ad_new (Nat.le_refl _) Hnew) as Hok.
    rewrite E in Hok. cbn in Hok. discriminate (Hok Hlen Hw).
Qed.

Lemma advertising_data_verbatim_witness :
  match set_advertising_data ([3; 2; 0x01; 0x06] ++ replicate 28 0) with
  | Ok d => ∃ fields, well_structured [2; 0x01; 0x06] fields ∧ as_bytes d = structures fields
  | Err _ => False
  end.
Proof.
  assert (bytes_ok ([3; 2; 0x01; 0x06] ++ replicate 28 0)) as Hb
    by (vm_compute; repeat constructor; discriminate).
  pose proof (advertising_data_verbatim _ Hb) as H.
  assert (is_ok (set_advertising_data ([3; 2; 0x01; 0x06] ++ replicate 28 0)) = true) as Hok
    by (vm_compute; reflexivity).
  destruct (set_advertising_data ([3; 2; 0x01; 0x06] ++ replicate 28 0)) as [d|e].
  - exact (proj2 (proj2 (proj2 H))).
  - discriminate Hok.
Defined.
