(* ===== verification/HostLog.v ===== *)
(** * The log of replies

    Which packets of the log towards the Host are replies to commands.  The
    replies are exactly the Command Complete and Command Status events; the other
    events and the ACL packets, which the rest of the controller sends, are not.
    So a command adds its own opcode to the replies, and nothing else adds any. *)

From S2P Require Import Prelude Effects Time Channel Timing Sequence ControlPdu Llcp Advertising.
From S2P Require Import Hci Controller Connection Commands Runner Loops ConnectionInv EventInv.
From S2P Require Import HostProps ConnectionSafety Link.

(** The opcode that a packet to the Host replies to, the one a packet from the
    Host asks for. *)
Definition reply_opcode (p : Packet) : option Z :=
  if bool_decide (pk_kind p = Event) then
    match contents p with
    | code :: _ :: third :: fourth :: fifth :: rest =>
        if code =? 0x0e then Some (from_le [fourth; fifth])
        else if code =? 0x0f then
          match rest with sixth :: _ => Some (from_le [fifth; sixth]) | [] => None end
        else None
    | _ => None
    end
  else None.

Definition asked_opcode (p : Packet) : option Z :=
  if bool_decide (pk_kind p = Cmd) && negb (malformed_command (contents p))
  then Some (command_opcode (contents p)) else None.

(** What was sent from [t] to [t'], by the replies in it. *)
Definition tells (replies : list Z) (t t' : Transport) : Prop :=
  ∃ ps, tr_to_host t' = tr_to_host t ++ ps ∧ omap reply_opcode ps = replies.

Lemma tells_refl t : tells [] t t.
Proof. exists []. by rewrite app_nil_r. Qed.

Lemma tells_trans l1 l2 t1 t2 t3 : tells l1 t1 t2 → tells l2 t2 t3 → tells (l1 ++ l2) t1 t3.
Proof.
  intros (p1 & E1 & <-) (p2 & E2 & <-). exists (p1 ++ p2).
  by rewrite E2, E1, <- app_assoc, omap_app.
Qed.

(** Sending nothing but unsolicited packets. *)
#[global] Instance tells_preorder : PreOrder (tells []).
Proof. split; [exact tells_refl|]. intros t1 t2 t3. apply (tells_trans [] []). Qed.

Lemma tells_same t t' : tr_to_host t' = tr_to_host t → tells [] t t'.
Proof. intros E. exists []. by rewrite E, app_nil_r. Qed.

Lemma one_reply_tells opcode t t' : is_u16 opcode → one_reply opcode t t' → tells [opcode] t t'.
Proof.
  intros Hop (p & E & Hk & status & Hc). exists [p]. split; [done|].
  assert (from_le (to_le 2 opcode) = opcode) as Hle by (apply from_to_le; int_lia).
  cbn [omap list_omap]. unfold reply_opcode. rewrite bool_decide_true by done.
  destruct Hc as [[data Hc]|Hc]; rewrite Hc; cbn; f_equal; exact Hle.
Qed.

(** ** What the other packets are *)

Lemma event_chatter code params t : code ≠ 0x0e → code ≠ 0x0f →
  tells [] t (ignore_error t (event code params t)).
Proof.
  intros H1 H2. unfold event. case_match; [done|]. case_match; [done|]. cbn.
  eexists [_]. split; [done|]. cbn [omap list_omap]. unfold reply_opcode, contents.
  cbn. unfold splice. cbn. destruct params as [|a [|b [|c [|d params]]]]; cbn; try done;
    by rewrite (proj2 (Z.eqb_neq _ _) H1), (proj2 (Z.eqb_neq _ _) H2).
Qed.

Lemma acl_chatter handle payload t : tells [] t (ignore_error t (send_acl handle payload t)).
Proof. unfold send_acl. case_match; [done|]. cbn. by eexists [_]. Qed.


(** ** Bodies that only chatter *)

Section bodies.
Context {time : EmbassyTime} {rng : RngCore}.

Abbreviation transport w := (rn_transport (w_runner w)).

(** A relation that holds across any change of the connection that keeps its
    link, and any packet that is not a reply. *)
Class Chatty (Rel : World → World → Prop) : Prop := {
  chatty_preorder :: PreOrder Rel;
  chatty_conn w c : same_link (w_conn w) c → Rel w (w <| w_conn := c |>);
  chatty_event w code params : code ≠ 0x0e → code ≠ 0x0f →
    Rel w (w <| w_runner := emit_event code params (w_runner w) |>);
  chatty_acl w handle payload : Rel w (w <| w_runner := deliver_acl handle payload (w_runner w) |>);
}.

(** The three that matter: nothing but unsolicited packets was sent, the runner
    apart from its transport is as it was, and so is the link. *)
#[global] Instance chatty_tells : Chatty (λ w w', tells [] (transport w) (transport w')).
Proof.
  split.
  - split; [intros w; apply tells_refl|]. intros w1 w2 w3. apply (tells_trans [] []).
  - intros. apply tells_refl.
  - intros. by apply event_chatter.
  - intros. apply acl_chatter.
Qed.

#[global] Instance chatty_view :
  Chatty (λ w w', runner_view (w_runner w') = runner_view (w_runner w)).
Proof. split; [|done..]. split; [done|]. intros w1 w2 w3. congruence. Qed.

#[global] Instance chatty_link : Chatty (λ w w', same_link (w_conn w) (w_conn w')).
Proof. split; [|done..]. split; [done|]. intros w1 w2 w3. unfold same_link. congruence. Qed.

Context (Rel : World → World → Prop) `{!Chatty Rel}.

(** However the body ends, it ends in the relation. *)
Definition chatter {R A} (m : M World R A) : Prop := ∀ w,
  match m w with Next _ w' | Return _ w' => Rel w w' | Panic => True end.

Definition chatter_op {A} (f : World → option (A * World)) : Prop := ∀ w,
  match f w with Some (_, w') => Rel w w' | None => True end.

Lemma chatty_refl w : Rel w w.
Proof. reflexivity. Qed.

Lemma chatter_bind {R A B} (m : M World R A) (k : A → M World R B) :
  chatter m → (∀ a, chatter (k a)) → chatter (m ≫= k).
Proof.
  intros Hm Hk w. specialize (Hm w). unfold mbind, M_bind.
  destruct (m w) as [a w1|r w1|]; [|done..]. specialize (Hk a w1).
  destruct (k a w1); [by etrans..|done].
Qed.

Lemma chatter_ret {R A} (a : A) : chatter (R := R) (mret a).
Proof. intros w. apply chatty_refl. Qed.

Lemma chatter_return {R A} (r : R) : chatter (A := A) (return_ r).
Proof. intros w. apply chatty_refl. Qed.

Lemma chatter_conn {R A} (f : ActiveConnection → A) : chatter (R := R) (conn f).
Proof. intros w. apply chatty_refl. Qed.

Lemma chatter_on_conn {R} f : (∀ c, same_link c (f c)) → chatter (R := R) (on_conn f).
Proof. intros Hf w. by apply chatty_conn. Qed.

Lemma chatter_call_conn {R A} (f : ActiveConnection → A * ActiveConnection) :
  links f → chatter (R := R) (call_conn f).
Proof.
  intros Hf w. specialize (Hf (w_conn w)). unfold call_conn, zoom.
  destruct (f (w_conn w)). by apply chatty_conn.
Qed.

Lemma chatter_call_conn_opt {R A} (f : ActiveConnection → option (A * ActiveConnection)) :
  links_opt f → chatter (R := R) (call_conn_opt f).
Proof.
  intros Hf w. specialize (Hf (w_conn w)). unfold call_conn_opt, zoom.
  destruct (f (w_conn w)) as [[]|]; [|done]. eapply chatty_conn, Hf. done.
Qed.

Lemma chatter_try_conn {R E} (on_err : E → R) f : links_result f → chatter (try_conn on_err f).
Proof.
  intros Hf w. specialize (Hf (w_conn w)). unfold try_conn.
  destruct (f (w_conn w)); [by apply chatty_conn, Hf|apply chatty_refl].
Qed.

Lemma chatter_try {R E A} (on_err : E → R) (r : result E A) : chatter (try on_err r).
Proof. intros w. unfold try. destruct r; apply chatty_refl. Qed.

Lemma chatter_unwrap {R A} (o : option A) : chatter (R := R) (unwrap o).
Proof. intros w. unfold unwrap. destruct o; [apply chatty_refl|done]. Qed.

Lemma chatter_when {R} (b : bool) (m : M World R ()) : chatter m → chatter (when_ b m).
Proof. destruct b; [done|]. intros _. apply chatter_ret. Qed.

Lemma chatter_emit {R} (f : ActiveConnection → Runner → Runner) :
  (∀ w, Rel w (w <| w_runner := f (w_conn w) (w_runner w) |>)) → chatter (R := R) (emit f).
Proof. intros Hf w. apply Hf. Qed.

Lemma chatter_run {R} (m : M World R R) : chatter m → chatter_op (run m).
Proof. intros Hm w. specialize (Hm w). unfold run. by destruct (m w). Qed.

(** A closed operation inside a body. *)
Lemma chatter_call {R A} (f : World → option (A * World)) : chatter_op f →
  chatter (R := R) (λ w, match f w with Some (a, w) => Next a w | None => Panic end).
Proof. intros Hf w. specialize (Hf w). by destruct (f w) as [[]|]. Qed.

(** ** The emissions of the runner *)

Lemma connection_complete_chatter w c :
  Rel w (w <| w_runner := emit_connection_complete c (w_runner w) |>).
Proof. by apply chatty_event. Qed.

Lemma disconnection_chatter w c reason :
  Rel w (w <| w_runner := emit_disconnection c reason (w_runner w) |>).
Proof. by apply chatty_event. Qed.

Lemma update_result_chatter w c e :
  Rel w (w <| w_runner := emit_connection_update_result c e (w_runner w) |>).
Proof. by apply chatty_event. Qed.

Lemma update_complete_chatter w c :
  Rel w (w <| w_runner := emit_connection_update_complete c (w_runner w) |>).
Proof. apply update_result_chatter. Qed.

Lemma report_chatter w c : Rel w (w <| w_runner := report_completed c (w_runner w) |>).
Proof. by apply (chatty_event w 0x13). Qed.

Lemma deliver_chatter w h payload : Rel w (w <| w_runner := deliver_acl h payload (w_runner w) |>).
Proof. apply chatty_acl. Qed.

Create HintDb chatter.
#[local] Hint Resolve connection_complete_chatter disconnection_chatter update_result_chatter
  update_complete_chatter report_chatter deliver_chatter : chatter.

(** An operation of the connection keeps the link: a lemma of [Link], or it does
    not touch the request at all. *)
Ltac keep_link := first [solve [auto with link] | solve [intros ?; by repeat case_match]].

(** The walk through a body, by its syntax. *)
Ltac chat :=
  intros;
  lazymatch goal with
  | |- chatter (_ ≫= _) => apply chatter_bind; [chat|chat]
  | |- chatter (mret _) => apply chatter_ret
  | |- chatter (return_ _) => apply chatter_return
  | |- chatter (conn _) => apply chatter_conn
  | |- chatter (on_conn _) => apply chatter_on_conn; keep_link
  | |- chatter (call_conn _) => apply chatter_call_conn; keep_link
  | |- chatter (call_conn_opt _) => apply chatter_call_conn_opt; keep_link
  | |- chatter (try_conn _ _) => apply chatter_try_conn; keep_link
  | |- chatter (try _ _) => apply chatter_try
  | |- chatter (unwrap _) => apply chatter_unwrap
  | |- chatter (when_ _ _) => apply chatter_when; chat
  | |- chatter (emit _) => apply chatter_emit; intros; solve [auto with chatter]
  | |- chatter (if ?b then _ else _) => destruct b; chat
  | |- chatter (let '_ := ?p in _) => destruct p; chat
  | |- chatter (match ?x with _ => _ end) => destruct x; chat
  | |- chatter _ => cbv beta zeta; try solve [auto with chatter]
  end.

(** ** LL control, connection events, catching up *)

Lemma chatter_abandon {R} error : chatter (R := R) (abandon_local_request error).
Proof. unfold abandon_local_request. chat. Qed.
#[local] Hint Resolve chatter_abandon : chatter.

Lemma chatter_param_req {R} payload : chatter (R := R) (handle_param_req payload).
Proof. unfold handle_param_req. chat. Qed.
#[local] Hint Resolve chatter_param_req : chatter.

Lemma chatter_update_ind payload : chatter (handle_update_ind payload).
Proof. unfold handle_update_ind. chat. Qed.

Lemma chatter_channel_map_ind payload : chatter (handle_channel_map_ind payload).
Proof. unfold handle_channel_map_ind. chat. Qed.

Lemma chatter_reject_ext {R} rejected error : chatter (R := R) (handle_reject_ext rejected error).
Proof. unfold handle_reject_ext. chat. Qed.
#[local] Hint Resolve chatter_update_ind chatter_channel_map_ind chatter_reject_ext : chatter.

Lemma chatter_ll_control payload : chatter_op (handle_ll_control payload).
Proof. unfold handle_ll_control. apply chatter_run. chat. Qed.

Lemma chatter_apply_and_notify now : chatter (apply_and_notify now).
Proof. unfold apply_and_notify. chat. Qed.

Lemma chatter_stage_frame : chatter stage_frame.
Proof. unfold stage_frame. chat. Qed.

Lemma chatter_acknowledge now : chatter (acknowledge now).
Proof. unfold acknowledge. chat. Qed.

Lemma chatter_accept_payload header payload : chatter (accept_payload header payload).
Proof.
  unfold accept_payload. chat. apply chatter_call, chatter_ll_control.
Qed.
#[local] Hint Resolve chatter_apply_and_notify chatter_stage_frame chatter_acknowledge
  chatter_accept_payload : chatter.

Lemma chatter_event_setup clock : chatter (event_setup clock).
Proof. unfold event_setup. chat. Qed.

Lemma chatter_note_transmitted transmitted : chatter (note_transmitted transmitted).
Proof. unfold note_transmitted. chat. Qed.

Lemma chatter_event_received clock outstanding terminate received header len payload :
  chatter (event_received clock outstanding terminate received header len payload).
Proof. unfold event_received. chat. Qed.
#[local] Hint Resolve chatter_event_setup chatter_note_transmitted chatter_event_received : chatter.

Lemma chatter_connection_event clock exchange : chatter_op (connection_event clock exchange).
Proof. unfold connection_event. apply chatter_run. chat. Qed.

Lemma chatter_disconnect {A} reason : chatter (A := A) (disconnect reason).
Proof. unfold disconnect. chat. Qed.
#[local] Hint Resolve chatter_disconnect : chatter.

Lemma chatter_catch_up now clock : chatter (catch_up now clock).
Proof. unfold catch_up. chat. Qed.
#[local] Hint Resolve chatter_catch_up : chatter.

Lemma chatter_checks now clock : chatter (run_checks now clock).
Proof. unfold run_checks. chat. Qed.

(** What the wait leads to, unless it is a Host packet. *)
Lemma chatter_open now skip_clock clock exchange :
  chatter (run_wake (WakeOpen now skip_clock clock exchange)).
Proof.
  unfold run_wake. chat. apply chatter_call, chatter_connection_event.
Qed.

(** Connected commands, for relations that replies keep as well. *)
Section commands.
  Context (Hstatus : ∀ R opcode code, chatter (R := R) (status opcode code)).
  Context (Hcomplete : ∀ R opcode code data, chatter (R := R) (complete opcode code data)).

Lemma chatter_command_disconnect opcode params : chatter (command_disconnect opcode params).
Proof. unfold command_disconnect. chat. Qed.

Lemma chatter_read_rssi opcode params : chatter (command_read_rssi opcode params).
Proof. unfold command_read_rssi. chat. Qed.

Lemma chatter_connection_update opcode params : chatter (command_connection_update opcode params).
Proof. unfold command_connection_update. chat. Qed.
End commands.

End bodies.

(** ** Commands and packets of the Host *)

Section packets.
Context `{!EmbassyTime} `{!RngCore} `{!RngCoreLaws}.

Abbreviation transport w := (rn_transport (w_runner w)).

Lemma process_packet_tells p w stop w' : conn_ok (w_conn w) → packet_ok p →
  process_connected_host_packet p w = Some (stop, w') →
  tells (option_list (asked_opcode p)) (transport w) (transport w').
Proof.
  intros Hc (_ & Hb & _). unfold process_connected_host_packet, asked_opcode.
  destruct (pk_kind p) eqn:Hk; try (intros [= <- <-]; apply tells_refl).
  - destruct (handle_connected_command_ok (contents p) w Hc) as (stop' & w2 & E & Hpost);
      [by apply Forall_take|].
    intros E'. rewrite E in E'. injection E' as -> ->. cbn.
    destruct (malformed_command (contents p)) eqn:Hm; [subst; apply tells_refl|].
    apply one_reply_tells; [|by apply Hpost]. apply command_opcode_fits; [by apply Forall_take|done].
  - destruct (queue_acl p (w_conn w)); intros [= <- <-]; apply tells_refl.
Qed.

Lemma handle_packet_tells p r r' : packet_ok p → handle_host_packet p r = Some ((), r') →
  tells (option_list (asked_opcode p)) (rn_transport r) (rn_transport r').
Proof.
  intros (_ & Hb & _). unfold handle_host_packet, asked_opcode.
  destruct (pk_kind p) eqn:Hk; try (intros [= <-]; apply tells_refl).
  destruct (handle_command_reply (contents p) r) as (r2 & E & Hpost); [by apply Forall_take|].
  rewrite E. intros [= <-]. cbn.
  destruct (malformed_command (contents p)) eqn:Hm; [subst; apply tells_refl|].
  apply one_reply_tells; [|done]. apply command_opcode_fits; [by apply Forall_take|done].
Qed.

Lemma open_connection_tells request us now r w :
  open_connection request us now r = Some w → tells [] (rn_transport r) (transport w).
Proof.
  unfold open_connection. destruct (connection_new _ _ _) as [c|]; [|done]. intros [= <-].
  by apply (event_chatter 0x3e).
Qed.

End packets.
