(* ===== verification/AdvertiserProps.v ===== *)
(** * What commands do to the runner

    The advertiser is well-formed after every command, so that an advertising
    event always has PDUs that the radio takes; and the settings of the radio
    change with the reset command only. *)

From S2P Require Import Prelude Effects Time Channel Timing Sequence ControlPdu Llcp Advertising.
From S2P Require Import Hci Controller Connection Commands Runner Loops ConnectionInv EventInv.
From S2P Require Import HostProps ConnectionSafety Link HostLog HostAdvertising.

Section advertiser.
Context {time : EmbassyTime} {rng : RngCore} {rng_laws : RngCoreLaws}.

Definition advertiser_ok (a : Advertiser) : Prop :=
  address_ok (av_address a) ∧ ad_ok (av_data a) ∧ ad_ok (av_scan_response a) ∧
  length (av_channels a) = 3%nat.

(** What the radio is to be tuned to. *)
Definition settings (r : Runner) : Z * Z := (rn_access_address r, rn_crc_init r).
Definition adv_settings : Z * Z := (ADV_ACCESS_ADDRESS, Z.land ADV_CRC_INIT 0x00ffffff).

(** In a connection the controller does not advertise. *)
Definition mute (r : Runner) : Prop :=
  rn_connected r = true ∧ av_enabled (rn_advertiser r) = false.

(** What a command may do to the runner. *)
Definition commanded (reset : bool) (r r' : Runner) : Prop :=
  (advertiser_ok (rn_advertiser r) → advertiser_ok (rn_advertiser r')) ∧
  settings r' = (if reset then adv_settings else settings r) ∧
  rn_connected r' = rn_connected r ∧
  (mute r → mute r').

Definition commands {R A} (reset : bool) (m : M Runner R A) : Prop := ∀ r,
  match m r with Next _ r' | Return _ r' => commanded reset r r' | Panic => True end.

Lemma commanded_refl r : commanded false r r.
Proof. done. Qed.

Lemma commanded_then reset r1 r2 r3 :
  commanded reset r1 r2 → commanded false r2 r3 → commanded reset r1 r3.
Proof.
  intros (A1 & S1 & C1 & N1) (A2 & S2 & C2 & N2). split; [auto|]. rewrite S2, C2.
  by split_and!; auto.
Qed.

Lemma commands_bind {R A B} reset (m : M Runner R A) (k : A → M Runner R B) :
  commands reset m → (∀ a, commands false (k a)) → commands reset (m ≫= k).
Proof.
  intros Hm Hk r. specialize (Hm r). unfold mbind, M_bind.
  destruct (m r) as [a r1|r1' r1|]; [|done..]. specialize (Hk a r1).
  by destruct (k a r1); [eapply commanded_then..|].
Qed.

Lemma commands_ret {R A} (a : A) : commands (R := R) false (mret a).
Proof. done. Qed.

Lemma commands_return {R A} (r : R) : commands (A := A) false (return_ r).
Proof. done. Qed.

Lemma commands_complete {R} opcode status data :
  commands (R := R) false (send_complete opcode status data).
Proof. intros r. unfold send_complete, zoom. by destruct (command_complete _ _ _ _). Qed.

Lemma commands_status {R} opcode status : commands (R := R) false (send_status opcode status).
Proof. intros r. unfold send_status, zoom. by destruct (command_status _ _ _). Qed.

Lemma commands_setter {R} f : (∀ r, commanded false r (f r).2) → commands (R := R) false (setter f).
Proof.
  intros Hf r. specialize (Hf r). unfold setter, call. by destruct (f r).
Qed.

Lemma random_static_ok bytes a : bytes_ok bytes → length bytes = 6%nat →
  random_static bytes = Ok a → address_ok a.
Proof. intros Hb Hl. unfold random_static. case_match; [done|]. by intros [= <-]. Qed.

Lemma set_random_address_ok params r : bytes_ok params →
  commanded false r (set_random_address params r).2.
Proof.
  intros Hb. unfold set_random_address. case_match; [done|].
  destruct (Nat.eqb_spec (length params) 6) as [Hl|]; [|done]. cbn [negb].
  destruct (random_static params) as [a|] eqn:E; [|done].
  split; [|done]. intros (_ & Hok). split; [|done]. by eapply random_static_ok.
Qed.

Lemma set_parameters_ok params r : commanded false r (set_advertising_parameters params r).2.
Proof.
  unfold set_advertising_parameters. case_match; [done|].
  destruct (adv_parameters_parse params) as [p|] eqn:E; [|done].
  split; [|done]. intros (Ha & Hd & Hs & Hl). split; [done|]. split; [done|]. split; [done|].
  revert E. unfold adv_parameters_parse. case_match; [done|]. case_match; [done|]. by intros [= <-].
Qed.

Lemma set_data_ok params d : bytes_ok params → set_advertising_data params = Ok d → ad_ok d.
Proof.
  intros Hb. unfold set_advertising_data. case_match; [done|]. intros E.
  apply copy_structures_sound in E as (fields & _ & Hd & _); [done| |done|apply ad_new_ok].
  unfold slice. by apply Forall_take, Forall_drop.
Qed.

Lemma store_data_ok put params r : bytes_ok params →
  (∀ d a, ad_ok d → advertiser_ok a → advertiser_ok (put d a)) →
  (∀ d a, av_enabled (put d a) = av_enabled a) →
  commanded false r (store_advertising_data put params r).2.
Proof.
  intros Hb Hput Hen. unfold store_advertising_data.
  destruct (set_advertising_data params) as [d|] eqn:E; [|done].
  split; [intros Hok; apply Hput; [|done]; by eapply set_data_ok|].
  split; [done|]. split; [done|]. unfold mute. cbn. by rewrite Hen.
Qed.

Lemma set_enable_ok params r : commanded false r (set_advertising_enable params r).2.
Proof.
  unfold set_advertising_enable. destruct (_ || _); [done|].
  destruct (negb (params !!! 0%nat =? 0)); [destruct (rn_connected r) eqn:Hc; [done|]|];
    (split; [done|]; split; [done|]; split; [done|]; intros [? ?]); [congruence|done].
Qed.

(** The reset arm, and every other one. *)
Lemma reset_commanded r : commanded true r
  (set_crc_init ADV_CRC_INIT (set_access_address ADV_ACCESS_ADDRESS
    (on_advertiser (λ a, a <| av_enabled := false |>)
      (on_transport (set_le_event_mask 0x1f) (on_transport (set_event_mask U64_MAX) r))))).
Proof.
  split; [by intros (? & ? & ? & ?)|]. split; [done|]. split; [done|]. by intros [].
Qed.

Lemma command_result_commands opcode params : bytes_ok params →
  commands ((opcode =? 0x0c03) && is_empty params) (command_result opcode params).
Proof.
  intros Hb. unfold command_result. destruct ((opcode =? 0x0c03) && is_empty params).
  { intros r. apply reset_commanded. }
  repeat match goal with
  | |- commands _ (if ?b then _ else _) => destruct b
  end;
    try apply commands_ret;
    try (apply commands_bind; [apply commands_status|intros; apply commands_return]);
    try apply commands_setter; try intros r.
  - by destruct (opcode =? 0x0c01).
  - by apply set_random_address_ok.
  - by apply set_parameters_ok.
  - apply store_data_ok; [done| |done]. by intros d a ? (? & ? & ? & ?).
  - apply store_data_ok; [done| |done]. by intros d a ? (? & ? & ? & ?).
  - by apply set_enable_ok.
  - assert (commands (R := ()) false (random ← call (λ r,
        let '(bytes, rng) := fill_bytes 8 (rn_random r) in Some (bytes, r <| rn_random := rng |>));
        send_complete opcode HCI_SUCCESS random;; return_ (A := result Z (list Z)) ())) as H; [|exact (H r)].
    apply commands_bind; [|intros random; apply commands_bind;
      [apply commands_complete|intros; apply commands_return]].
    intros r'. unfold call. by destruct (fill_bytes 8 (rn_random r')).
Qed.

(** The command is the reset, whose handler tunes the radio. *)
(*! crates/ch58x-ble/src/link_layer/hci.rs 12-20 Runner::handle_command *)
Definition reset_command (bytes : list Z) : bool :=
  negb (malformed_command bytes) && (command_opcode bytes =? 0x0c03) &&
  is_empty (command_params bytes).

Lemma handle_command_commanded bytes r r' : bytes_ok bytes →
  handle_command bytes r = Some ((), r') → commanded (reset_command bytes) r r'.
Proof.
  intros Hb. unfold handle_command, run, reset_command.
  destruct (malformed_command bytes); [by intros [= <-]|]. cbn [negb andb].
  pose proof (commands_bind _ _ (λ result, match result with
    | Ok return_data => send_complete (command_opcode bytes) HCI_SUCCESS return_data
    | Err status => send_complete (command_opcode bytes) status []
    end) (command_result_commands (command_opcode bytes) (command_params bytes)
            ltac:(by apply Forall_drop)) (λ result, ltac:(destruct result; apply commands_complete)) r) as H.
  destruct ((command_result _ _ ≫= _) r) as [[] r1|[] r1|]; intros [= <-]; exact H.
Qed.

(** ** Connected commands *)

Definition world_commanded (w w' : World) : Prop := commanded false (w_runner w) (w_runner w').

#[global] Instance world_commanded_chatty : Chatty world_commanded.
Proof.
  split; unfold world_commanded; [|done..].
  split; [intros w; apply commanded_refl|]. intros w1 w2 w3. apply commanded_then.
Qed.

Lemma world_status {R} opcode code : chatter world_commanded (R := R) (status opcode code).
Proof.
  intros w. unfold status, call_runner, zoom, run.
  pose proof (commands_status (R := ()) opcode code (w_runner w)) as Hs.
  by destruct (send_status opcode code (w_runner w)).
Qed.

Lemma world_complete {R} opcode code data :
  chatter world_commanded (R := R) (complete opcode code data).
Proof.
  intros w. unfold complete, call_runner, zoom, run.
  pose proof (commands_complete (R := ()) opcode code data (w_runner w)) as Hs.
  by destruct (send_complete opcode code data (w_runner w)).
Qed.

Ltac world_leaf :=
  first [apply world_commanded_chatty | intros; apply world_status | intros; apply world_complete].

(** A command with its own handler during a connection leaves the runner alone. *)
Lemma connected_handler_commanded (opcode : Z) (m : M World bool bool) bytes w stop w' :
  chatter world_commanded m → opcode ≠ 0x0c03 → command_opcode bytes = opcode →
  run m w = Some (stop, w') → commanded (reset_command bytes) (w_runner w) (w_runner w').
Proof.
  intros Hm Hop <- E. unfold reset_command. rewrite (proj2 (Z.eqb_neq _ _) Hop).
  rewrite andb_false_r. cbn [andb]. specialize (Hm w). unfold run in E.
  destruct (m w); simplify_eq; exact Hm.
Qed.

Lemma connected_command_commanded bytes w stop w' : bytes_ok bytes →
  handle_connected_command bytes w = Some (stop, w') →
  commanded (reset_command bytes) (w_runner w) (w_runner w').
Proof.
  intros Hb. unfold handle_connected_command.
  assert (∀ b, run (call_runner (handle_command bytes);; mret b : M World bool bool) w = Some (stop, w') →
    commanded (reset_command bytes) (w_runner w) (w_runner w')) as Hdefault.
  { intros b. unfold run, call_runner, zoom, mbind, M_bind.
    destruct (handle_command bytes (w_runner w)) as [[[] r']|] eqn:E; [|done].
    intros [= <- <-]. by apply handle_command_commanded. }
  destruct (malformed_command bytes) eqn:Hm.
  { intros [= <- <-]. unfold reset_command. by rewrite Hm. }
  destruct ((command_opcode bytes =? 0x0c03) && _) eqn:E1; [apply Hdefault|].
  destruct ((command_opcode bytes =? 0x0406) && _) eqn:E2.
  { apply andb_true_iff in E2 as [E2%Z.eqb_eq _].
    eapply (connected_handler_commanded (command_opcode bytes)); [|lia|done].
    apply chatter_command_disconnect; world_leaf. }
  destruct ((command_opcode bytes =? 0x1405) && _) eqn:E3.
  { apply andb_true_iff in E3 as [E3%Z.eqb_eq _].
    eapply (connected_handler_commanded (command_opcode bytes)); [|lia|done].
    apply chatter_read_rssi; world_leaf. }
  destruct ((command_opcode bytes =? 0x2013) && _) eqn:E4; [|apply Hdefault].
  apply andb_true_iff in E4 as [E4%Z.eqb_eq _].
  eapply (connected_handler_commanded (command_opcode bytes)); [|lia|done].
  apply chatter_connection_update; world_leaf.
Qed.

(** ** Host packets *)

Definition is_reset (p : Packet) : bool :=
  bool_decide (pk_kind p = Cmd) && reset_command (contents p).

Lemma handle_packet_commanded p r r' : packet_ok p → handle_host_packet p r = Some ((), r') →
  commanded (is_reset p) r r'.
Proof.
  intros (_ & Hb & _). unfold handle_host_packet, is_reset.
  destruct (pk_kind p); try by intros [= <-].
  rewrite bool_decide_true by done. apply handle_command_commanded. by apply Forall_take.
Qed.

Lemma process_packet_commanded p w stop w' : packet_ok p →
  process_connected_host_packet p w = Some (stop, w') →
  commanded (is_reset p) (w_runner w) (w_runner w').
Proof.
  intros (_ & Hb & _). unfold process_connected_host_packet, is_reset.
  destruct (pk_kind p); try by intros [= <- <-].
  - rewrite bool_decide_true by done. apply connected_command_commanded. by apply Forall_take.
  - destruct (queue_acl p (w_conn w)); by intros [= <- <-].
Qed.

(** ** Packets keep the link *)

Definition world_link (w w' : World) : Prop := same_link (w_conn w) (w_conn w').

Lemma call_runner_link {R A} f : chatter world_link (R := R) (call_runner (A := A) f).
Proof. intros w. unfold call_runner, zoom. by destruct (f (w_runner w)) as [[]|]. Qed.

Lemma world_link_leaf :
  (∀ R opcode code, chatter world_link (R := R) (status opcode code)) ∧
  (∀ R opcode code data, chatter world_link (R := R) (complete opcode code data)).
Proof. split; intros; apply call_runner_link. Qed.

Lemma connected_command_link bytes : chatter_op world_link (handle_connected_command bytes).
Proof.
  destruct world_link_leaf as [Hs Hc]. pose proof chatty_link as Hchatty.
  assert (∀ b, chatter world_link
    (call_runner (handle_command bytes);; mret b : M World bool bool)) as Hdefault.
  { intros b. apply (chatter_bind world_link); [apply call_runner_link|].
    intros. apply (chatter_ret world_link). }
  unfold handle_connected_command. apply (chatter_run world_link). cbv zeta.
  destruct (malformed_command bytes); [apply (chatter_return world_link)|].
  repeat match goal with |- chatter _ (if ?b then _ else _) => destruct b end; try apply Hdefault.
  - by apply (chatter_command_disconnect world_link).
  - by apply (chatter_read_rssi world_link).
  - by apply (chatter_connection_update world_link).
Qed.

Lemma process_packet_link p w stop w' :
  process_connected_host_packet p w = Some (stop, w') → world_link w w'.
Proof.
  unfold process_connected_host_packet. destruct (pk_kind p); try by intros [= <- <-].
  - intros E. pose proof (connected_command_link (contents p) w) as H. by rewrite E in H.
  - destruct (queue_acl p (w_conn w)) eqn:E; intros [= <- <-]; [|done].
    by apply queue_acl_link in E.
Qed.

(** The reset ends the connection. *)
Lemma reset_stops p w stop w' : is_reset p = true →
  process_connected_host_packet p w = Some (stop, w') → stop = true.
Proof.
  unfold is_reset, reset_command, process_connected_host_packet.
  rewrite !andb_true_iff, bool_decide_eq_true, negb_true_iff. intros [-> [[Hm Hop] Hp]].
  unfold handle_connected_command. rewrite Hm. cbv zeta. rewrite Hop, Hp. cbn [andb].
  unfold run, call_runner, zoom, mbind, M_bind.
  destruct (handle_command (contents p) (w_runner w)) as [[]|]; [|done]. by intros [= <- _].
Qed.

End advertiser.
