(* ===== verification/LoopProps.v ===== *)
(** * The connection loop does not panic

    Every iteration of the loops of the runner on every input: what keeps
    [scheduler_open] from subtracting below the origin of time, and that each
    iteration runs to its end and leaves the connection fit for the next one. *)

From S2P Require Import Prelude Effects Time Channel Timing Sequence ControlPdu Llcp Advertising.
From S2P Require Import Hci Controller Connection Commands Runner Loops ConnectionInv EventInv.
From S2P Require Import HostProps ConnectionSafety Instants Window.

(** Additions beyond 64 bits of microseconds panic in [embassy_time]; these laws
    describe the crate before that. *)
Class EndlessTime `{!EmbassyTime} : Prop := {
  endless_nonneg i : 0 ≤ instant_as_micros i;
  endless_from us : 0 ≤ us → duration_as_micros (duration_from_micros us) = us;
  endless_add i d : instant_as_micros (instant_add i d) = instant_as_micros i + duration_as_micros d;
  endless_sub i d : duration_as_micros d ≤ instant_as_micros i → is_Some (instant_sub i d);
  endless_since i j : duration_as_micros (saturating_duration_since i j) ≤ instant_as_micros i;
  endless_duration d : 0 ≤ duration_as_micros d;
}.

Section loop_props.
Context `{!EmbassyTime} `{!EndlessTime} `{!RngCore} `{!RngCoreLaws}.

(** ** The receive window opens after the origin of time *)

(** The connection as the loop finds it: its next anchor is later than the
    shortest distance between anchors. *)
Definition paced (c : ActiveConnection) : Prop := conn_ok c ∧ 1250 ≤ anchor_us c.

Lemma widening_small c : 1250 ≤ anchor_us c →
  0 ≤ connection_widening_us c ∧ connection_widening_us c + 1000 ≤ anchor_us c.
Proof.
  intros Ha. unfold connection_widening_us, anchor_us in *.
  pose proof (endless_since (ac_next_anchor c) (ac_last_sync_anchor c)) as He.
  pose proof (endless_duration (saturating_duration_since (ac_next_anchor c) (ac_last_sync_anchor c))).
  set (e := duration_as_micros _) in *. set (a := instant_as_micros _) in *. clearbody e a.
  unfold window_widening_us, LOCAL_SLEEP_CLOCK_PPM.
  pose proof (sleep_clock_accuracy_range (ci_sleep_clock_accuracy (ac_request c))) as Hs.
  set (s := sleep_clock_accuracy_ppm _) in *. clearbody s.
  rewrite (wrap_small 64) by int_lia.
  pose proof (Z.div_mod e 1000000 ltac:(lia)) as Hdiv.
  pose proof (Z.mod_pos_bound e 1000000 ltac:(lia)) as Hr.
  pose proof (Z.div_pos e 1000000 ltac:(lia) ltac:(lia)) as Hw.
  set (w := e / 1000000) in *. set (r := e mod 1000000) in *. clearbody w r.
  assert (0 ≤ w * (s + 50) ≤ w * 550) by nia. assert (0 ≤ r * (s + 50) ≤ r * 550) by nia.
  unfold saturating_add64, saturating_mul64, div_ceil, U64_MAX.
  set (x := w * (s + 50)) in *. set (y := r * (s + 50)) in *. clearbody x y.
  Z.div_mod_to_equations. lia.
Qed.

Lemma paced_opens c : 1250 ≤ anchor_us c → is_Some (scheduler_open c).
Proof.
  intros Ha. unfold scheduler_open, receive_open, receive_setup_lead_us, RX_SETUP_LEAD_US.
  destruct (widening_small c Ha) as [Hlow Hhigh]. apply endless_sub.
  rewrite endless_from by lia. unfold anchor_us in *. lia.
Qed.

(** Scheduling puts the anchor at least an interval after the origin. *)
Lemma schedule_anchor c : request_ok (ac_request c) →
  1250 ≤ anchor_us (schedule_following_event c).
Proof.
  intros (_ & Hinterval & _). unfold schedule_following_event, anchor_us, interval.
  pose proof (endless_nonneg (ac_next_anchor c)).
  case_match; cbn; rewrite !endless_add, endless_from by lia; [|lia].
  match goal with |- context [duration_from_micros (cu_window_offset ?u * 1250)] =>
    pose proof (endless_duration (duration_from_micros (cu_window_offset u * 1250))) end. lia.
Qed.

Lemma connection_new_paced packet address request us now c :
  bytes_ok packet → parse_connect_ind_detailed packet address = Ok request →
  connection_new request us now = Ok c → paced c.
Proof.
  intros Hb Hp E. split; [by eapply connection_new_ok|].
  destruct (parse_connect_ind_inv packet address request Hb Hp) as (_ & _ & _ & _ & Hfits & _).
  unfold connection_new, connection_new_for in E. apply ok_bind_inv in E as (s & _ & [= <-]).
  unfold anchor_us. cbn. pose proof (endless_nonneg (instant_from_micros us)).
  assert (0 ≤ ci_window_offset request) by (destruct Hfits; unfold_ints; lia).
  rewrite endless_add, endless_from; lia.
Qed.

(** ** Host packets *)

Lemma queue_acl_anchor p c c' : queue_acl p c = Ok c' → ac_next_anchor c' = ac_next_anchor c.
Proof.
  unfold queue_acl. destruct (_ <? _)%nat; [done|]. destruct (_ || _); [done|].
  destruct (ac_pending c); [destruct (fill_first_empty _ _); [|done]|]; by intros [= <-].
Qed.

Lemma process_packet_paced p w : paced (w_conn w) → packet_ok p →
  ∃ stop w', process_connected_host_packet p w = Some (stop, w') ∧ paced (w_conn w').
Proof.
  intros [Hc Ha] Hp. destruct (process_packet_ok p w Hc Hp) as (stop & w' & E & Hc' & _).
  exists stop, w'. split; [done|]. split; [done|]. unfold anchor_us in *.
  enough (ac_next_anchor (w_conn w') = ac_next_anchor (w_conn w)) as -> by done.
  revert E. unfold process_connected_host_packet.
  destruct (pk_kind p); try by intros [= <- <-].
  - destruct (handle_connected_command_ok (contents p) w Hc) as (s & w2 & E & Hpost).
    { destruct Hp as (_ & Hb & _). by apply Forall_take. }
    rewrite E. intros [= <- <-]. destruct (malformed_command _); [by subst|].
    destruct Hpost as [[_ Hv] _]. unfold air_view, core_view in Hv. congruence.
  - destruct (queue_acl p (w_conn w)) as [c'|] eqn:E; intros [= <- <-]; [|done].
    by apply queue_acl_anchor in E.
Qed.

Lemma holds_disconnect {A} reason w P (Q : bool → World → Prop) :
  (∀ w', Q true w') → holds (disconnect reason : M World bool A) w P Q.
Proof. intros HQ. unfold disconnect. apply holds_modify_bind. by apply holds_return. Qed.

(** What a part of an iteration leads to: the next part on a connection that is
    fit for it, or the end. *)
Definition goes_on {A} (m : M World bool A) (w : World) : Prop :=
  holds m w (λ _ w', paced (w_conn w')) (λ ended _, ended = true).

Lemma drain_goes_on packets w : paced (w_conn w) → Forall packet_ok packets →
  goes_on (drain_host_packets packets) w.
Proof.
  intros Hc Hp. revert w Hc. induction Hp as [|p ps Hp Hps IH]; intros w Hc; [by apply holds_ret|].
  destruct (process_packet_paced p w Hc Hp) as (stop & w' & E & Hc').
  unfold goes_on, drain_host_packets, holds, mbind, M_bind. rewrite E.
  fold drain_host_packets. destruct stop; [done|]. apply (IH w' Hc').
Qed.

(** ** Catching up *)

Lemma skip_event_anchor now c notify c' : conn_ok c →
  skip_event now c = Some (Ok notify, c') → paced c'.
Proof.
  intros Hc E. destruct (skip_event_ok now c Hc) as (n & c2 & E2 & Hc2 & _).
  rewrite E in E2. injection E2 as <- <-. split; [done|]. revert E. unfold skip_event.
  destruct (apply_instants_ok now c Hc) as ([applied changed] & c1 & -> & Hc1 & _).
  set (c2 := if applied then _ else _).
  assert (request_ok (ac_request c2)) as Hr by (subst c2; destruct applied; apply Hc1).
  clearbody c2. unfold next_channel.
  destruct (cs_next_channel _) as [[ch chs]|]; [|done]. intros [= _ <-]. by apply schedule_anchor.
Qed.

Lemma skip_loop_paced now clock budget count notify c r c' : paced c →
  skip_loop now clock budget count notify c = Some (r, c') → paced c'.
Proof.
  revert count notify c. induction budget as [|budget IH]; intros count notify c Hc;
    cbn [skip_loop]; (destruct (instant_ltb _ _); [|by intros [= <- <-]]);
    destruct (skip_event_ok (clock count) c ltac:(apply Hc)) as (n & c1 & E & _); rewrite E;
    apply skip_event_anchor in E; try apply Hc.
  - by intros [= <- <-].
  - by apply IH.
Qed.

Lemma catch_up_goes_on now clock w : paced (w_conn w) → goes_on (catch_up now clock) w.
Proof.
  intros Hc. unfold catch_up.
  destruct (skip_loop_ok now clock (Z.to_nat U16_MAX) 0 false (w_conn w) ltac:(apply Hc))
    as (r & c' & E & _).
  eapply holds_zoom_bind; [exact E|]. apply skip_loop_paced in E; [|done].
  destruct r as [[n notify]|e]; [|by apply holds_disconnect].
  eapply holds_bind_next with (P' := λ _ w', paced (w_conn w')); [|intros; by apply holds_ret].
  apply holds_when; [|done]. intros _. by apply holds_modify.
Qed.

(** ** One iteration *)

Lemma goes_on_bind {A B} (m : M World bool A) (k : A → M World bool B) w :
  goes_on m w → (∀ a w', paced (w_conn w') → goes_on (k a) w') → goes_on (m ≫= k) w.
Proof. intros Hm Hk. eapply holds_bind; [exact Hm|]. apply Hk. Qed.

Lemma goes_on_ret {A} (a : A) w : paced (w_conn w) → goes_on (mret a) w.
Proof. intros Hc. by apply holds_ret. Qed.

Lemma goes_on_disconnect {A} reason w : goes_on (disconnect reason : M World bool A) w.
Proof. by apply holds_disconnect. Qed.

Lemma checks_go_on now clock w : paced (w_conn w) → goes_on (run_checks now clock) w.
Proof.
  intros [Hc Ha]. unfold run_checks.
  destruct (check_timeouts (ac_procedures (w_conn w)) (instant_as_micros now) 0x22)
    as [procedures timed_out] eqn:E.
  eapply holds_zoom_bind; [by rewrite E|].
  assert (paced ((w_conn w) <| ac_procedures := procedures |>)) as Hc1
    by (split; [by apply ok_procedures|done]).
  apply goes_on_bind; [destruct timed_out; [apply goes_on_disconnect|by apply goes_on_ret]|].
  intros _ w1 Hw1. apply holds_gets_bind.
  apply goes_on_bind; [case_match; [apply goes_on_disconnect|by apply goes_on_ret]|].
  intros _ w2 Hw2. apply goes_on_bind; [by apply catch_up_goes_on|]. intros skipped w3 Hw3.
  destruct (negb (skipped =? 0)); [by apply goes_on_ret|]. apply holds_gets_bind.
  destruct (paced_opens (w_conn w3) ltac:(apply Hw3)) as [o ->].
  by apply holds_ret_bind, goes_on_ret.
Qed.

(** What wakes the loop is a Host packet or a radio that hands over octets. *)
Definition wake_ok (wake : Wake) : Prop :=
  match wake with
  | WakePacket packet => packet_ok packet
  | WakeOpen _ _ _ exchange => radio_ok exchange
  end.

Lemma wake_goes_on wake w : paced (w_conn w) → wake_ok wake → goes_on (run_wake wake) w.
Proof.
  intros Hc Hwake. destruct wake as [p|now sc clock exchange]; unfold run_wake.
  - apply goes_on_bind; [by apply drain_goes_on; [|constructor]|]. intros _ w' Hw. by apply goes_on_ret.
  - apply goes_on_bind; [by apply catch_up_goes_on|]. intros skipped w1 Hw1.
    destruct (negb (skipped =? 0)); [by apply goes_on_ret|].
    destruct (connection_event_ok clock exchange w1 ltac:(apply Hw1) Hwake)
      as (reason & w2 & E & _ & _ & Hpost).
    unfold goes_on, holds, mbind, M_bind. rewrite E.
    destruct reason as [reason|]; [done|]. destruct (Hpost eq_refl) as (Hc2 & Hs2 & _).
    cbn. split; [by apply schedule_ok|]. apply schedule_anchor, Hc2.
Qed.

Definition iteration_ok (it : Iteration) : Prop :=
  Forall packet_ok (it_packets it) ∧ wake_ok (it_wake it).

Lemma iteration_runs it w : paced (w_conn w) → iteration_ok it →
  ∃ ended w', run_iteration it w = Some (ended, w') ∧ (ended = false → paced (w_conn w')).
Proof.
  intros Hc [Hp Hwake]. unfold run_iteration. apply run_holds.
  assert (goes_on (drain_host_packets (it_packets it);;
    waiting ← run_checks (it_now it) (it_skip_clock it);
    if (waiting : bool) then run_wake (it_wake it) else mret false) w) as Hgo.
  { apply goes_on_bind; [by apply drain_goes_on|]. intros _ w1 Hw1.
    apply goes_on_bind; [by apply checks_go_on|]. intros [] w2 Hw2;
      [by apply wake_goes_on|by apply goes_on_ret]. }
  eapply holds_weaken; [exact Hgo|done|]. cbn beta. by intros ? ? ->.
Qed.

Lemma connection_runs its w : paced (w_conn w) → Forall iteration_ok its →
  ∃ ended w', run_connection its w = Some (ended, w') ∧ (ended = false → paced (w_conn w')).
Proof.
  intros Hc Hits. revert w Hc. induction Hits as [|it its Hit Hits IH]; intros w Hc;
    cbn [run_connection]; [by exists false, w|].
  destruct (iteration_runs it w Hc Hit) as (ended & w1 & -> & Hw1).
  destruct ended; [by exists true, w1|]. by apply IH, Hw1.
Qed.

End loop_props.
