(* ===== verification/Mmio.v ===== *)
(** * Registers behind volatile accesses, and critical sections

    The hardware is not part of the repository: it is a [Device], an interface
    that answers reads and takes writes.  What the HAL does to it is the trace of
    the accesses of [Hal], the state all drivers share.  A register is a raw
    address where the source has one, and the accessor of the generated [pac]
    crate where the source uses that; bit positions of [pac] fields are the
    interface [Pac]. *)

From S2P Require Import Prelude.
From S2P Require Import Effects.

(** ** Registers *)

Inductive GpioReg : Type := Dir | Pu | PdDrv | PinIn | Out | Clr.
Inductive UartReg : Type := Ier | Fcr | Lcr | Mcr | Div | Dl | Thr | Rbr | Lsr | Tfc.
Inductive AdcReg : Type := AdcCfg | AdcChannel | AdcConvert | AdcData | TemSensor.
Inductive RtcReg : Type := Cnt2s | Cnt32k | CntDay.
Inductive SysReg : Type := WdogCount | Ck32kConfig | HfckPwrCtrl | PllConfig | ClkSysCfg | FlashCfg.

Inductive Reg : Type :=
| Addr (address : Z)
| Gpio (port : Z) (r : GpioReg)
| PinAlternate
| UartR (index : Z) (r : UartReg)
| AdcR (r : AdcReg)
| RtcR (r : RtcReg)
| SysR (r : SysReg).

#[export] Instance gpio_reg_eq_dec : EqDecision GpioReg.
Proof. solve_decision. Defined.
#[export] Instance uart_reg_eq_dec : EqDecision UartReg.
Proof. solve_decision. Defined.
#[export] Instance adc_reg_eq_dec : EqDecision AdcReg.
Proof. solve_decision. Defined.
#[export] Instance rtc_reg_eq_dec : EqDecision RtcReg.
Proof. solve_decision. Defined.
#[export] Instance sys_reg_eq_dec : EqDecision SysReg.
Proof. solve_decision. Defined.
#[export] Instance reg_eq_dec : EqDecision Reg.
Proof. solve_decision. Defined.

(** Hardware: reading may change it (a FIFO, a status that clears on read). *)
Class Device (D : Type) : Type := {
  dev_read : Reg → D → Z * D;
  dev_write : Reg → Z → D → D;
}.

(** Fields of the [pac] registers the source names: single bits by position, and
    the reset values a [write] starts from. *)
Inductive Field : Type :=
| IerReset | IerTxdEn | FcrFifoEn | FcrRxFifoClr | FcrTxFifoClr | McrOut2
| LsrOverErr | LsrParErr | LsrFrameErr | LsrBreakErr | LsrDataRdy | LsrTxAllEmp
| CfgPowerOn | CfgDiffEn | CfgBufEn | CfgOfsTest | TemPowerOn | ConvertStart
| ClkXt32kPon | ClkOsc32kXt | ClkInt32kPon | ClkXt32mPon | ClkPllPon.

(** Wider fields: [pac_put f x v] is the word [v] with [x] in the field. *)
Inductive WideField : Type :=
| FcrFifoTrig | CfgClkDiv | CfgPgaGain | ChannelIdx | AdcDataField | CntDayField
| ClkSysMod | ClkPllDiv.

Class Pac : Type := {
  pac_bit : Field → Z;
  pac_reset : Reg → Z;
  pac_put : WideField → Z → Z → Z;
  pac_get : WideField → Z → Z;
}.

Definition set_bit `{Pac} (f : Field) (v : Z) : Z := Z.lor v (Z.shiftl 1 (pac_bit f)).
Definition clear_bit `{Pac} (f : Field) (v : Z) : Z := Z.ldiff v (Z.shiftl 1 (pac_bit f)).
Definition put_bit `{Pac} (f : Field) (b : bool) (v : Z) : Z :=
  if b then set_bit f v else clear_bit f v.
Definition bit_is_set `{Pac} (f : Field) (v : Z) : bool := Z.testbit v (pac_bit f).

(** ** The state the drivers share

    An access of the processor; [csrrc] and [csrs] are the two instructions on
    the interrupt-enable register GINTENR (CSR 0x800), and a delay counts cycles.
    The [nop] and [fence] instructions between accesses are left out. *)
Inductive Event : Type :=
| Rd (r : Reg) (v : Z)
| Wr (r : Reg) (v : Z)
| Csrc (mask : Z)
| Csrs (mask : Z)
| Delay (cycles : Z).

Record Hal (D : Type) : Type := mkHal {
  hal_dev : D;
  hal_gintenr : Z;
  hal_hclk : Z;
  hal_taken : bool;
  hal_trace : list Event;
}.
Arguments mkHal {D}.
Arguments hal_dev {D}.
Arguments hal_gintenr {D}.
Arguments hal_hclk {D}.
Arguments hal_taken {D}.
Arguments hal_trace {D}.
#[export] Instance hal_eta D : Eta (Hal D) := λ h,
  mkHal (hal_dev h) (hal_gintenr h) (hal_hclk h) (hal_taken h) (hal_trace h).

Section access.
  Context {D : Type} {device : Device D} {R : Type}.

(** [read_volatile] and [write_volatile] of a [w]-bit register. *)
Definition read (w : Z) (r : Reg) : M (Hal D) R Z := λ s,
  let '(v, d) := dev_read r (hal_dev s) in
  let v := wrap w v in
  Next v (s <| hal_dev := d |> <| hal_trace := hal_trace s ++ [Rd r v] |>).

Definition write (w : Z) (r : Reg) (v : Z) : M (Hal D) R () := λ s,
  let v := wrap w v in
  Next () (s <| hal_dev := dev_write r v (hal_dev s) |>
             <| hal_trace := hal_trace s ++ [Wr r v] |>).

(** [register.modify(|r, w| w.bits(f(r.bits())))]. *)
Definition update (w : Z) (r : Reg) (f : Z → Z) : M (Hal D) R () :=
  v ← read w r; write w r (f v).

(** The two instructions on GINTENR. *)
Definition csrrc (mask : Z) : M (Hal D) R Z := λ s,
  Next (hal_gintenr s)
    (s <| hal_gintenr := Z.ldiff (hal_gintenr s) mask |>
       <| hal_trace := hal_trace s ++ [Csrc mask] |>).

Definition csrs (mask : Z) : M (Hal D) R () := λ s,
  Next () (s <| hal_gintenr := Z.lor (hal_gintenr s) mask |>
             <| hal_trace := hal_trace s ++ [Csrs mask] |>).

(** [riscv::asm::delay]. *)
Definition delay (cycles : Z) : M (Hal D) R () := λ s,
  Next () (s <| hal_trace := hal_trace s ++ [Delay cycles] |>).

End access.

(** ** [critical_section_impl.rs] *)

Module CriticalSection.
Section impl.
  Context {D : Type} {R : Type}.

(*! src/critical_section_impl.rs 9-9 GLOBAL_INTERRUPT_ENABLE *)
Definition GLOBAL_INTERRUPT_ENABLE : Z := 0x08.
(*! src/critical_section_impl.rs 10-10 GLOBAL_INTERRUPT_STATE_MASK *)
Definition GLOBAL_INTERRUPT_STATE_MASK : Z := 0x88.

(*! src/critical_section_impl.rs 16-30 disable_and_save *)
Definition disable_and_save : M (Hal D) R bool :=
  previous ← csrrc GLOBAL_INTERRUPT_STATE_MASK;
  mret (negb (Z.land previous GLOBAL_INTERRUPT_ENABLE =? 0)).

(*! src/critical_section_impl.rs 33-43 enable_interrupts *)
Definition enable_interrupts : M (Hal D) R () := csrs GLOBAL_INTERRUPT_STATE_MASK.

(*! src/critical_section_impl.rs 46-49 acquire *)
Definition acquire : M (Hal D) R bool := disable_and_save.

(*! src/critical_section_impl.rs 51-57 release *)
Definition release (was_enabled : bool) : M (Hal D) R () :=
  when_ was_enabled enable_interrupts.

End impl.

(** [critical_section::with] of the [critical_section] crate, which acquires
    before the closure and releases with the saved state after it. *)
Definition with_ {D A} (f : Hal D → option (A * Hal D)) : Hal D → option (A * Hal D) :=
  run (token ← acquire; a ← call f; release token;; mret a).

End CriticalSection.
Abbreviation critical := CriticalSection.with_.

(** ** What a piece of code emits

    [emits tr t m P Q]: after the accesses [t], [m] returns from every state, and
    [P] (or [Q], on an early return) holds of all the accesses so far. *)

Section emits.
  Context {S E : Type} (tr : S → list E).

Definition extends {A} (t : list E) (P : A → list E → Prop) (s : S) (a : A) (s' : S) : Prop :=
  ∃ u, tr s' = tr s ++ u ∧ P a (t ++ u).

Definition emits {R A} (t : list E) (m : M S R A)
    (P : A → list E → Prop) (Q : R → list E → Prop) : Prop :=
  ∀ s, holds m s (extends t P s) (extends t Q s).

(** A closed method that returns from every state. *)
Definition yields {A} (f : S → option (A * S)) (P : A → list E → Prop) : Prop :=
  ∀ s, ∃ a s', f s = Some (a, s') ∧ extends [] P s a s'.

Lemma extends_weaken {A} t (P P' : A → list E → Prop) s a s' :
  extends t P s a s' → (∀ u, P a u → P' a u) → extends t P' s a s'.
Proof. intros (u & Hu & HP) H. exists u. eauto. Qed.

Lemma extends_trans {A B} t u (P : A → list E → Prop) (P' : B → list E → Prop) s s1 s2 a b :
  tr s1 = tr s ++ u → extends (t ++ u) P' s1 b s2 → (∀ v, P' b v → P a v) →
  extends t P s a s2.
Proof.
  intros H1 (v & H2 & HP) H. exists (u ++ v).
  split; [by rewrite H2, H1, app_assoc|]. apply H. by rewrite app_assoc.
Qed.

Lemma emits_weaken {R A} t (m : M S R A) P P' Q Q' :
  emits t m P Q → (∀ a u, P a u → P' a u) → (∀ r u, Q r u → Q' r u) → emits t m P' Q'.
Proof.
  intros Hm HP HQ s. eapply holds_weaken; [apply Hm| |]; cbn beta;
    intros; eapply extends_weaken; eauto.
Qed.

Lemma emits_ret {R A} t (a : A) (P : A → list E → Prop) (Q : R → list E → Prop) :
  P a t → emits t (mret a) P Q.
Proof. intros HP s. exists []. by rewrite !app_nil_r. Qed.

Lemma emits_return {R A} t (r : R) (P : A → list E → Prop) (Q : R → list E → Prop) :
  Q r t → emits t (return_ r) P Q.
Proof. intros HP s. exists []. by rewrite !app_nil_r. Qed.

(** Running on after a statement: with everything so far, or with what the
    statement itself emits. *)
Lemma emits_bind {R A B} t (m : M S R A) (k : A → M S R B) P1 P Q :
  emits t m P1 Q → (∀ a u, P1 a u → emits u (k a) P Q) → emits t (m ≫= k) P Q.
Proof.
  intros Hm Hk s. eapply holds_bind; [apply Hm|]. cbn beta.
  intros a s1 (u & H1 & HP). eapply holds_weaken; [by apply (Hk a _ HP)| |]; cbn beta;
    intros; eapply extends_trans; eauto.
Qed.

Lemma emits_frame {R A} t (m : M S R A) P Q :
  emits [] m P Q →
  emits t m (λ a u, ∃ v, u = t ++ v ∧ P a v) (λ r u, ∃ v, u = t ++ v ∧ Q r v).
Proof.
  intros Hm s. eapply holds_weaken; [apply Hm| |]; cbn beta; intros a s' (u & Hu & H);
    exists u; eauto.
Qed.

Lemma emits_block {R A B} t (m : M S R A) (k : A → M S R B) P1 Q1 P Q :
  emits [] m P1 Q1 →
  (∀ r u, Q1 r u → Q r (t ++ u)) → (∀ a u, P1 a u → emits (t ++ u) (k a) P Q) →
  emits t (m ≫= k) P Q.
Proof.
  intros Hm HQ Hk. eapply emits_bind.
  - eapply emits_weaken; [by apply emits_frame|intros a u H; exact H|].
    cbn beta. intros r u (v & -> & H). by apply HQ.
  - cbn beta. intros a u (v & -> & H). by apply Hk.
Qed.

Lemma emits_when {R} t (b : bool) (m : M S R ()) P Q :
  (b = true → emits t m P Q) → (b = false → P () t) → emits t (when_ b m) P Q.
Proof. intros Ht Hf. destruct b; [by apply Ht|]. apply emits_ret. by apply Hf. Qed.

Lemma emits_call {R A} t (f : S → option (A * S)) P (P' : A → list E → Prop)
    (Q : R → list E → Prop) :
  yields f P → (∀ a u, P a u → P' a (t ++ u)) → emits t (call f) P' Q.
Proof.
  intros Hf HP s. unfold holds, call. destruct (Hf s) as (a & s' & -> & u & Hu & H).
  exists u. split; [done|by apply HP].
Qed.

Lemma emits_call_bind {R A B} t (f : S → option (A * S)) (k : A → M S R B) P1 P Q :
  yields f P1 → (∀ a u, P1 a u → emits (t ++ u) (k a) P Q) → emits t (call f ≫= k) P Q.
Proof.
  intros Hf Hk. eapply emits_bind;
    [apply (emits_call t f P1 (λ a u, ∃ v, u = t ++ v ∧ P1 a v)); eauto|].
  cbn beta. intros a u (v & -> & H). by apply Hk.
Qed.

(** [r?]. *)
Lemma emits_try {R Er A} t (f : Er → R) (r : result Er A) (P : A → list E → Prop) Q :
  (∀ a, r = Ok a → P a t) → (∀ e, r = Err e → Q (f e) t) → emits t (try f r) P Q.
Proof. intros HP HQ s. destruct r; exists []; rewrite !app_nil_r; eauto. Qed.

Lemma emits_try_bind {R Er A B} t (f : Er → R) (r : result Er A) (k : A → M S R B) P
    (Q : R → list E → Prop) :
  (∀ a, r = Ok a → emits t (k a) P Q) → (∀ e, r = Err e → Q (f e) t) →
  emits t (try f r ≫= k) P Q.
Proof.
  intros HP HQ. eapply emits_bind; [by apply (emits_try t f r (λ a u, r = Ok a ∧ u = t)); eauto|].
  cbn beta. intros a u [E' ->]. by apply HP.
Qed.

(** [if !f() { fail }], where [fail] leaves the method. *)
Lemma emits_guard {R B} t (f : S → option (bool * S)) (G : bool → list E → Prop)
    (fail : M S R ()) (k : M S R B) P Q :
  yields f G →
  (∀ u, G false u → emits (t ++ u) fail (λ _ _, False) Q) →
  (∀ u, G true u → emits (t ++ u) k P Q) →
  emits t (b ← call f; when_ (negb b) fail;; k) P Q.
Proof.
  intros Hf Hfail Hk. eapply emits_call_bind; [done|].
  intros [|] u Hu; cbn [negb when_].
  - by apply Hk.
  - eapply emits_bind; [by apply Hfail|]. done.
Qed.

Lemma yields_run {R} (m : M S R R) P : emits [] m P P → yields (run m) P.
Proof.
  intros Hm s. destruct (run_holds m s _ (Hm s)) as (r & s' & E' & H). eauto.
Qed.

Lemma yields_weaken {A} (f : S → option (A * S)) P P' :
  yields f P → (∀ a t, P a t → P' a t) → yields f P'.
Proof.
  intros Hf H s. destruct (Hf s) as (a & s' & E' & Hx). exists a, s'.
  split; [done|]. eapply extends_weaken; eauto.
Qed.

(** Loops keep an invariant of what has been emitted. *)
Lemma emits_repeat {R} (I : list E → Prop) n t (body : M S R ()) (Q : R → list E → Prop) :
  I t → (∀ u, I u → emits u body (λ _, I) Q) → emits t (repeat_ n body) (λ _, I) Q.
Proof.
  intros H0 Hb. revert t H0. induction n as [|n IH]; intros t Ht; cbn [repeat_].
  - by apply emits_ret.
  - eapply emits_bind; [by apply Hb|]. cbn beta. intros _ u Hu. by apply IH.
Qed.

Lemma emits_for_each {R A} (I : list A → list E → Prop) (l : list A) t (body : A → M S R ())
    (Q : R → list E → Prop) :
  I [] t →
  (∀ xs x rest u, l = xs ++ x :: rest → I xs u → emits u (body x) (λ _, I (xs ++ [x])) Q) →
  emits t (for_each l body) (λ _, I l) Q.
Proof.
  intros H0 Hb.
  enough (∀ rest xs u, l = xs ++ rest → I xs u → emits u (for_each rest body) (λ _, I l) Q) as H
    by (exact (H l [] t eq_refl H0)).
  induction rest as [|x rest IH]; intros xs u Hl Hu; cbn [for_each].
  - apply emits_ret. rewrite app_nil_r in Hl. by subst l.
  - eapply emits_bind; [by eapply Hb|]. cbn beta. intros _ v Hv.
    apply (IH (xs ++ [x])); [by rewrite <- app_assoc|done].
Qed.

End emits.

(** The accesses themselves. *)
Section access_rules.
  Context {D : Type} {device : Device D} {R : Type}.

Lemma emits_read t w r (P : Z → list Event → Prop) (Q : R → list Event → Prop) :
  (∀ v, P (wrap w v) (t ++ [Rd r (wrap w v)])) → emits hal_trace t (read (D := D) w r) P Q.
Proof.
  intros HP s. unfold holds, read. destruct (dev_read r (hal_dev s)) as [v d].
  eexists. split; [done|]. apply HP.
Qed.

Lemma emits_write t w r v (P : () → list Event → Prop) (Q : R → list Event → Prop) :
  P () (t ++ [Wr r (wrap w v)]) → emits hal_trace t (write (D := D) w r v) P Q.
Proof. intros HP s. by eexists. Qed.

Lemma emits_read_bind {B} t w r (k : Z → M (Hal D) R B) P Q :
  (∀ v, emits hal_trace (t ++ [Rd r (wrap w v)]) (k (wrap w v)) P Q) →
  emits hal_trace t (read w r ≫= k) P Q.
Proof.
  intros Hk. eapply emits_bind;
    [apply (emits_read t w r (λ a u, ∃ v, a = wrap w v ∧ u = t ++ [Rd r a])); eauto|].
  cbn beta. intros a u (v & -> & ->). apply Hk.
Qed.

Lemma emits_write_bind {B} t w r v (k : () → M (Hal D) R B) P Q :
  emits hal_trace (t ++ [Wr r (wrap w v)]) (k ()) P Q →
  emits hal_trace t (write w r v ≫= k) P Q.
Proof.
  intros Hk. eapply emits_bind;
    [by apply (emits_write t w r v (λ _ u, u = t ++ [Wr r (wrap w v)]))|].
  cbn beta. intros [] u ->. apply Hk.
Qed.

(** [modify]: a reading and the write of what it gives. *)
Lemma emits_update t w r f (P : () → list Event → Prop) (Q : R → list Event → Prop) :
  (∀ v, P () (t ++ [Rd r (wrap w v); Wr r (wrap w (f (wrap w v)))])) →
  emits hal_trace t (update (D := D) w r f) P Q.
Proof.
  intros HP. apply emits_read_bind. intros v. apply emits_write. rewrite <- app_assoc. apply HP.
Qed.

Lemma emits_update_bind {B} t w r f (k : () → M (Hal D) R B) P Q :
  (∀ v, emits hal_trace (t ++ [Rd r (wrap w v); Wr r (wrap w (f (wrap w v)))]) (k ()) P Q) →
  emits hal_trace t (update w r f ≫= k) P Q.
Proof.
  intros Hk. eapply emits_bind with
    (P1 := λ _ u, ∃ v, u = t ++ [Rd r (wrap w v); Wr r (wrap w (f (wrap w v)))]).
  - apply emits_update. eauto.
  - cbn beta. intros [] u (v & ->). apply Hk.
Qed.

Lemma emits_delay_bind {B} t cycles (k : () → M (Hal D) R B) P Q :
  emits hal_trace (t ++ [Delay cycles]) (k ()) P Q →
  emits hal_trace t (delay cycles ≫= k) P Q.
Proof.
  intros Hk. eapply emits_bind with (P1 := λ _ u, u = t ++ [Delay cycles]).
  - intros s. by eexists.
  - cbn beta. intros [] u ->. apply Hk.
Qed.

End access_rules.

(** Runs a straight line of accesses. *)
Ltac accesses := repeat lazymatch goal with
  | |- emits _ _ (read _ _ ≫= _) _ _ => apply emits_read_bind; intros ?
  | |- emits _ _ (write _ _ _ ≫= _) _ _ => apply emits_write_bind
  | |- emits _ _ (update _ _ _ ≫= _) _ _ => apply emits_update_bind; intros ?
  | |- emits _ _ (delay _ ≫= _) _ _ => apply emits_delay_bind
  | |- emits _ _ (write _ _ _) _ _ => apply emits_write
  | |- emits _ _ (update _ _ _) _ _ => apply emits_update; intros ?
  | |- emits _ _ (mret _) _ _ => apply emits_ret
  end.

(** ** Critical sections *)

(** [with] runs its closure between masking the interrupts and restoring them. *)
Definition masked {A} (P : A → list Event → Prop) (a : A) (t : list Event) : Prop :=
  ∃ u (was_enabled : bool),
    t = Csrc 0x88 :: u ++ (if was_enabled then [Csrs 0x88] else []) ∧ P a u.

Lemma yields_critical {D A} (f : Hal D → option (A * Hal D)) P :
  yields hal_trace f P → yields hal_trace (critical f) (masked P).
Proof.
  intros Hf. unfold CriticalSection.with_. apply yields_run.
  unfold CriticalSection.acquire, CriticalSection.disable_and_save.
  eapply emits_bind with (P1 := λ _ u, u = [Csrc 0x88]); [by intros s; eexists|].
  cbn beta. intros token ? ->. eapply emits_call_bind; [done|]. cbn beta. intros a u Hu.
  unfold CriticalSection.release.
  eapply emits_bind with (P1 := λ _ v, v = ([Csrc 0x88] ++ u) ++ if token then [Csrs 0x88] else []).
  - apply emits_when; intros ->; [by intros s; eexists|by rewrite app_nil_r].
  - cbn beta. intros _ v ->. apply emits_ret. by exists u, token.
Qed.

(** What a critical section does to GINTENR: the two state bits are clear while
    the closure runs, and afterwards they are as before when they agreed. *)
Definition agreeing (g : Z) : Prop := Z.testbit g 3 = Z.testbit g 7.

Definition keeps_gintenr {D A} (f : Hal D → option (A * Hal D)) : Prop :=
  ∀ s a s', agreeing (hal_gintenr s) → f s = Some (a, s') → hal_gintenr s' = hal_gintenr s.

Lemma mask_testbit i : 0 ≤ i → Z.testbit 0x88 i = bool_decide (i = 3 ∨ i = 7).
Proof.
  intros Hi. destruct (decide (i < 8)) as [Hlt|Hge].
  - assert (i ∈ seqZ 0 8) as Hin by (apply elem_of_seqZ; lia).
    assert (Forall (λ i, Z.testbit 0x88 i = bool_decide (i = 3 ∨ i = 7)) (seqZ 0 8)) as Hall
      by (repeat apply Forall_cons_2; reflexivity || constructor).
    rewrite list.Forall_forall in Hall. by apply Hall.
  - rewrite bool_decide_false by lia. apply (testbit_high 8); [unfold fits; lia|lia].
Qed.

Lemma masked_bits g : Z.testbit (Z.ldiff g 0x88) 3 = false ∧ Z.testbit (Z.ldiff g 0x88) 7 = false.
Proof. by rewrite !Z.ldiff_spec, !andb_false_r. Qed.

Lemma enabled_bit g : negb (Z.land g CriticalSection.GLOBAL_INTERRUPT_ENABLE =? 0) = Z.testbit g 3.
Proof.
  unfold CriticalSection.GLOBAL_INTERRUPT_ENABLE. change 0x08 with (Z.shiftl 1 3).
  destruct (Z.testbit g 3) eqn:E.
  - apply negb_true_iff, Z.eqb_neq. intros H. apply (f_equal (λ x, Z.testbit x 3)) in H.
    by rewrite Z.land_spec, E in H.
  - apply negb_false_iff, Z.eqb_eq, Z.bits_inj'. intros i Hi. rewrite Z.land_spec, Z.bits_0.
    destruct (decide (i = 3)) as [->|Hne]; [by rewrite E|].
    rewrite Z.shiftl_1_l, Z.pow2_bits_false by lia. apply andb_false_r.
Qed.

Lemma restored g : agreeing g →
  (if Z.testbit g 3 then Z.lor (Z.ldiff g 0x88) 0x88 else Z.ldiff g 0x88) = g.
Proof.
  unfold agreeing. intros Hg. apply Z.bits_inj'. intros i Hi.
  destruct (Z.testbit g 3) eqn:E.
  - rewrite Z.lor_spec, Z.ldiff_spec, mask_testbit by done.
    case_bool_decide as Hb; [|by rewrite andb_true_r, orb_false_r].
    rewrite orb_true_r. by destruct Hb as [-> | ->].
  - rewrite Z.ldiff_spec, mask_testbit by done.
    case_bool_decide as Hb; [|by rewrite andb_true_r].
    rewrite andb_false_r. by destruct Hb as [-> | ->].
Qed.

(** C35: A critical section runs its closure with both interrupt state bits of
    GINTENR clear, masking first and restoring last, and gives the register back as
    it was when the two bits agreed; the section is itself such a closure, so
    sections nest and only the outermost one enables interrupts again. *)
Theorem critical_section_restores {D A} (f : Hal D → option (A * Hal D)) s a s' :
  keeps_gintenr f → agreeing (hal_gintenr s) → critical f s = Some (a, s') →
  hal_gintenr s' = hal_gintenr s ∧
  (∃ s1 s2, f s1 = Some (a, s2) ∧ hal_gintenr s1 = Z.ldiff (hal_gintenr s) 0x88 ∧
     Z.testbit (hal_gintenr s1) 3 = false ∧ Z.testbit (hal_gintenr s1) 7 = false) ∧
  (Z.testbit (hal_gintenr s) 3 = false → hal_gintenr s' = Z.ldiff (hal_gintenr s) 0x88).
Proof.
  intros Hf Hg. unfold CriticalSection.with_, run, mbind, M_bind, call,
    CriticalSection.acquire, CriticalSection.disable_and_save, csrrc, mret, M_ret. cbn beta iota.
  unfold mbind, M_bind. cbn beta iota. rewrite enabled_bit. set (s1 := set_field _ _ _).
  destruct (f s1) as [[b s2]|] eqn:Ef; [|done].
  assert (hal_gintenr s1 = Z.ldiff (hal_gintenr s) 0x88) as H1 by done.
  assert (agreeing (hal_gintenr s1)) as Hg1.
  { unfold agreeing. rewrite H1. destruct (masked_bits (hal_gintenr s)) as [-> ->]. done. }
  pose proof (Hf _ _ _ Hg1 Ef) as Hk. rewrite H1 in Hk. pose proof (restored _ Hg) as Hr.
  assert (∃ s1 s2, f s1 = Some (b, s2) ∧ hal_gintenr s1 = Z.ldiff (hal_gintenr s) 0x88 ∧
     Z.testbit (hal_gintenr s1) 3 = false ∧ Z.testbit (hal_gintenr s1) 7 = false) as Hex.
  { exists s1, s2. rewrite H1. split; [done|]. split; [done|]. apply masked_bits. }
  unfold CriticalSection.release, CriticalSection.enable_interrupts, csrs, when_.
  destruct (Z.testbit (hal_gintenr s) 3) eqn:E; intros [= <- <-].
  - split; [|by split]. cbn. by rewrite Hk.
  - split; [by rewrite Hk|]. by split.
Qed.

Lemma critical_section_restores_witness :
  let s : Hal () := mkHal () 0x88 6400000 false [] in
  let f : Hal () → option (() * Hal ()) := λ s, Some (tt, s) in
  let s' := mkHal () 0x88 6400000 false [Csrc 0x88; Csrs 0x88] in
  critical f s = Some (tt, s') ∧ hal_gintenr s' = hal_gintenr s.
Proof.
  intros s f s'. split; [reflexivity|].
  refine (proj1 (critical_section_restores f s tt s' _ _ _)); [|reflexivity..].
  intros s0 a s1 _ [= _ <-]. reflexivity.
Defined.
