(* ===== verification/DataFlash.v ===== *)
(** * The DataFlash driver

    [src/dataflash.rs] and [src/dataflash_protocol.rs]: the transactions of the
    serial Flash controller, with their polling bounds, and the [NorFlash]
    operations on the 8-KiB window.  The controller itself is a [Device]; the
    theorems speak of the accesses it sees.  [usize] has 32 bits. *)

From S2P Require Import Prelude.
From S2P Require Import Effects.
From S2P Require Import Mmio.

(*! src/dataflash.rs 15-15 SAFE_ACCESS *)
Definition SAFE_ACCESS : Reg := Addr 0x40001040.
(*! src/dataflash.rs 16-16 GLOBAL_CONFIG *)
Definition GLOBAL_CONFIG : Reg := Addr 0x40001044.
(*! src/dataflash.rs 17-17 FLASH_DATA *)
Definition FLASH_DATA : Reg := Addr 0x40001804.
(*! src/dataflash.rs 18-18 FLASH_CTRL *)
Definition FLASH_CTRL : Reg := Addr 0x40001806.

(*! src/dataflash.rs 20-20 DATA_FLASH_BASE *)
Definition DATA_FLASH_BASE : Z := 0x00070000.
(*! src/dataflash.rs 21-21 DATA_FLASH_ALIAS *)
Definition DATA_FLASH_ALIAS : Z := 0x00080000.
(*! src/dataflash.rs 22-22 EXPOSED_OFFSET *)
Definition EXPOSED_OFFSET : Z := 0x00006000.
(*! src/dataflash.rs 23-23 CAPACITY *)
Definition CAPACITY : Z := 8 * 1024.
(*! src/dataflash.rs 24-24 ERASE_SIZE *)
Definition ERASE_SIZE : Z := 256.
(*! src/dataflash.rs 25-25 PAGE_SIZE *)
Definition PAGE_SIZE : Z := 256.
(*! src/dataflash.rs 26-26 MAX_STATUS_POLLS *)
Definition MAX_STATUS_POLLS : Z := 0x80000.

(*! src/dataflash.rs 28-28 CMD_WRITE_ENABLE *)
Definition CMD_WRITE_ENABLE : Z := 0x06.
(*! src/dataflash.rs 29-29 CMD_READ_STATUS *)
Definition CMD_READ_STATUS : Z := 0x05.
(*! src/dataflash.rs 30-30 CMD_DATA_READ *)
Definition CMD_DATA_READ : Z := 0x0b.
(*! src/dataflash.rs 31-31 CMD_PAGE_PROGRAM *)
Definition CMD_PAGE_PROGRAM : Z := 0x02.
(*! src/dataflash.rs 32-32 CMD_ERASE_256 *)
Definition CMD_ERASE_256 : Z := 0x81.
(*! src/dataflash.rs 33-33 CMD_CONTROLLER_RESET *)
Definition CMD_CONTROLLER_RESET : Z := 0xff.

(*! src/dataflash.rs 36-41 Error *)
Inductive Error : Type := OutOfBounds | NotAligned | Timeout | Program_.

(** [NorFlashErrorKind] of [embedded_storage], the kinds the source uses. *)
Inductive NorFlashErrorKind : Type := KindOutOfBounds | KindNotAligned | KindOther.

(*! src/dataflash.rs 44-50 kind *)
Definition kind (e : Error) : NorFlashErrorKind :=
  match e with
  | OutOfBounds => KindOutOfBounds
  | NotAligned => KindNotAligned
  | Timeout | Program_ => KindOther
  end.

(*! src/dataflash_protocol.rs 6-8 status_ready *)
Definition status_ready (first second : Z) : bool := Z.land second 1 =? 0.

Section driver.
  Context {D : Type} {device : Device D}.
  Abbreviation op A := (Hal D → option (A * Hal D)).
  Abbreviation st R A := (M (Hal D) R A).

(** ** Transactions, executed from SRAM *)

(*! src/dataflash.rs 60-68 ram_wait_interface *)
Definition ram_wait_interface : op bool := run (
  repeat_ (Z.to_nat MAX_STATUS_POLLS)
    (v ← read 8 FLASH_CTRL; when_ (Z.land v 0x80 =? 0) (return_ true));;
  mret false).

(*! src/dataflash.rs 71-77 ram_begin *)
Definition ram_begin {R} (command : Z) : st R () :=
  write 8 FLASH_CTRL 0;;
  write 8 FLASH_CTRL 5;;
  write 8 FLASH_DATA command.

(*! src/dataflash.rs 80-86 ram_output *)
Definition ram_output (byte : Z) : op bool := run (
  ready ← call ram_wait_interface;
  when_ (negb ready) (return_ false);;
  write 8 FLASH_DATA byte;;
  mret true).

(*! src/dataflash.rs 92-101 ram_address *)
Definition ram_address (command address : Z) (read_dummy : bool) : op bool := run (
  ram_begin command;;
  high ← call (ram_output (u8 (Z.shiftr address 16)));
  when_ (negb high) (return_ false);;
  middle ← call (ram_output (u8 (Z.shiftr address 8)));
  when_ (negb middle) (return_ false);;
  low ← call (ram_output (u8 address));
  when_ (negb low) (return_ false);;
  when_ (negb read_dummy) (return_ true);;
  dummy ← call (ram_output 0);
  when_ (negb dummy) (return_ false);;
  call (ram_output 0)).

(*! src/dataflash.rs 104-108 ram_end *)
Definition ram_end : op bool := run (
  ready ← call ram_wait_interface;
  write 8 FLASH_CTRL 0;;
  mret ready).

(*! src/dataflash.rs 111-114 ram_abort *)
Definition ram_abort {R} : st R Error :=
  write 8 FLASH_CTRL 0;; mret Timeout.

(*! src/dataflash.rs 118-128 ram_configure *)
Definition ram_configure {R} (write_ : bool) : st R Z :=
  original ← read 8 GLOBAL_CONFIG;
  write 8 SAFE_ACCESS 0x57;;
  write 8 SAFE_ACCESS 0xa8;;
  write 8 GLOBAL_CONFIG (Z.lor original (if write_ then 0xe0 else 0x20));;
  write 8 SAFE_ACCESS 0;;
  mret original.

(*! src/dataflash.rs 132-140 ram_restore *)
Definition ram_restore {R} (original : Z) : st R () :=
  write 8 SAFE_ACCESS 0x57;;
  write 8 SAFE_ACCESS 0xa8;;
  write 8 GLOBAL_CONFIG original;;
  write 8 SAFE_ACCESS 0.

(*! src/dataflash.rs 143-147 ram_fail *)
Definition ram_fail {R} (original : Z) : st R Error :=
  error ← ram_abort;
  ram_restore original;;
  mret error.

(*! src/dataflash.rs 176-186 ram_prepare *)
Definition ram_prepare : op (result Error ()) := run (
  write 8 FLASH_CTRL 4;;
  ram_begin CMD_CONTROLLER_RESET;;
  ready ← call ram_end;
  when_ (negb ready) (return_ (Err Timeout));;
  mret (Ok ())).

(** [return Err(ram_fail(original))], and the same after [ram_prepare]. *)
Definition fail_with {A} (original : Z) : st (result Error ()) A :=
  error ← ram_fail original; return_ (Err error).

(** The output slice is written through a raw pointer; it is threaded here. *)
(*! src/dataflash.rs 160-165 ram_read_bytes_loop *)
Fixpoint ram_read_loop (original : Z) (index count : nat) (output : list Z)
  : st (result Error () * list Z) (list Z) :=
  match count with
  | O => mret output
  | S count =>
      ready ← call ram_wait_interface;
      when_ (negb ready) (error ← ram_fail original; return_ (Err error, output));;
      byte ← read 8 FLASH_DATA;
      ram_read_loop original (S index) count (<[index := byte]> output)
  end.

(*! src/dataflash.rs 151-172 ram_read_bytes *)
Definition ram_read_bytes (address : Z) (output : list Z) (length_ : nat)
  : op (result Error () * list Z) := run (
  original ← ram_configure false;
  prepared ← call ram_prepare;
  when_ (negb (is_ok prepared)) (ram_restore original;; return_ (Err Timeout, output));;
  addressed ← call (ram_address CMD_DATA_READ address true);
  when_ (negb addressed) (error ← ram_fail original; return_ (Err error, output));;
  output ← ram_read_loop original 0 length_ output;
  ended ← call ram_end;
  when_ (negb ended) (ram_restore original;; return_ (Err Timeout, output));;
  ram_restore original;;
  mret (Ok (), output)).

(*! src/dataflash.rs 190-209 ram_wait_ready_active *)
Definition ram_wait_ready_active : op bool := run (
  repeat_ (Z.to_nat MAX_STATUS_POLLS) (
    ram_begin CMD_READ_STATUS;;
    ready ← call ram_wait_interface;
    when_ (negb ready) (return_ false);;
    first ← read 8 FLASH_DATA;
    ready ← call ram_wait_interface;
    when_ (negb ready) (return_ false);;
    second ← read 8 FLASH_DATA;
    ended ← call ram_end;
    when_ (negb ended) (return_ false);;
    when_ (status_ready first second) (return_ true));;
  mret false).

(*! src/dataflash.rs 213-231 ram_erase *)
Definition ram_erase (address : Z) : op (result Error ()) := run (
  original ← ram_configure true;
  prepared ← call ram_prepare;
  when_ (negb (is_ok prepared)) (ram_restore original;; return_ (Err Timeout));;
  ram_begin CMD_WRITE_ENABLE;;
  enabled ← call ram_end;
  when_ (negb enabled) (fail_with original);;
  addressed ← call (ram_address CMD_ERASE_256 address false);
  when_ (negb addressed) (fail_with original);;
  ended ← call ram_end;
  when_ (negb ended) (fail_with original);;
  ready ← call ram_wait_ready_active;
  when_ (negb ready) (fail_with original);;
  ram_restore original;;
  mret (Ok ())).

(** [data] is the [length_] bytes behind the pointer. *)
(*! src/dataflash.rs 235-261 ram_page_program *)
Definition ram_page_program (address : Z) (data : list Z) : op (result Error ()) := run (
  original ← ram_configure true;
  prepared ← call ram_prepare;
  when_ (negb (is_ok prepared)) (ram_restore original;; return_ (Err Timeout));;
  ram_begin CMD_WRITE_ENABLE;;
  enabled ← call ram_end;
  when_ (negb enabled) (fail_with original);;
  addressed ← call (ram_address CMD_PAGE_PROGRAM address false);
  when_ (negb addressed) (fail_with original);;
  for_each data (λ byte,
    sent ← call (ram_output byte);
    when_ (negb sent) (fail_with original));;
  ended ← call ram_end;
  when_ (negb ended) (fail_with original);;
  ready ← call ram_wait_ready_active;
  when_ (negb ready) (fail_with original);;
  ram_restore original;;
  mret (Ok ())).

(** ** The 8-KiB window *)

(*! src/dataflash.rs 275-280 physical *)
Definition physical (offset : Z) : result Error Z :=
  if CAPACITY <=? offset then Err OutOfBounds
  else Ok (Z.lor DATA_FLASH_ALIAS (DATA_FLASH_BASE + EXPOSED_OFFSET + u32 offset)).

(*! src/dataflash.rs 282-287 with_access *)
Definition with_access {A} (write_ : bool) (operation : op A) : op A := critical operation.

(** [usize::checked_add] at 32 bits. *)
Definition checked_add (a b : Z) : option Z :=
  if a + b <=? U32_MAX then Some (a + b) else None.

(*! src/dataflash.rs 297-310 read *)
Definition read_bytes (offset : Z) (output : list Z) : op (result Error () * list Z) := run (
  match checked_add offset (Z.of_nat (length output)) with
  | None => return_ (Err OutOfBounds, output)
  | Some end_ =>
      when_ (CAPACITY <? end_) (return_ (Err OutOfBounds, output));;
      when_ (length output =? 0)%nat (return_ (Ok (), output));;
      call (with_access false (run (
        address ← try (λ e, (Err e, output)) (physical offset);
        call (ram_read_bytes address output (length output)))))
  end).

(*! src/dataflash.rs 312-314 capacity *)
Definition capacity : Z := CAPACITY.

(** [(from..to).step_by(ERASE_SIZE)]. *)
Definition step_by (from to step : Z) : list Z :=
  (λ i, from + step * Z.of_nat i) <$> seq 0 (Z.to_nat (div_ceil (to - from) step)).

(*! src/dataflash.rs 321-336 erase *)
Definition erase (from to : Z) : op (result Error ()) := run (
  when_ (negb (Z.land from (ERASE_SIZE - 1) =? 0) || negb (Z.land to (ERASE_SIZE - 1) =? 0))
    (return_ (Err NotAligned));;
  when_ ((to <=? from) || (CAPACITY <? to)) (return_ (Err OutOfBounds));;
  call (with_access true (run (
    for_each (step_by from to ERASE_SIZE) (λ offset,
      address ← try Err (physical offset);
      done ← call (ram_erase address);
      try Err done);;
    mret (Ok ()))))).

(** One pass of [while cursor < data.len()] with the bytes left; each pass takes
    at least one, so their number bounds the passes. *)
(*! src/dataflash.rs 347-354 write_loop *)
Fixpoint write_loop (passes : nat) (start : Z) (data : list Z) (cursor : nat)
  : st (result Error ()) () :=
  match passes with
  | O => mret ()
  | S passes =>
      if (cursor <? length data)%nat then
        let address := start + Z.of_nat cursor in
        let page_remaining := PAGE_SIZE - address mod PAGE_SIZE in
        let count := Z.to_nat (Z.min (Z.min page_remaining
                       (Z.of_nat (length data) - Z.of_nat cursor)) 32) in
        let scratch := slice cursor (cursor + count) data in
        physical_address ← try Err (physical address);
        done ← call (ram_page_program physical_address scratch);
        try Err done;;
        write_loop passes start data (cursor + count)
      else mret ()
  end.

(*! src/dataflash.rs 338-357 write *)
Definition write_bytes (offset : Z) (data : list Z) : op (result Error ()) := run (
  match checked_add offset (Z.of_nat (length data)) with
  | None => return_ (Err OutOfBounds)
  | Some end_ =>
      when_ (CAPACITY <? end_) (return_ (Err OutOfBounds));;
      call (with_access true (run (
        write_loop (length data) offset data 0;;
        mret (Ok ()))))
  end).

End driver.
