(* ===== verification/FlashProtocol.v ===== *)
(** * What the DataFlash driver does to the controller

    Traces are read back as transactions, the byte strings between the writes
    that open and close them; each primitive is specified by the transactions it
    makes, on every path. *)

From S2P Require Import Prelude.
From S2P Require Import Effects.
From S2P Require Import Mmio.
From S2P Require Import DataFlash.

(** ** Reading a trace back *)

(** Closed transactions and the open one. *)
Record FlashView : Type := mkFlashView {
  fv_done : list (list Z);
  fv_open : option (list Z);
}.

Definition flushed (v : FlashView) : list (list Z) := fv_done v ++ option_list (fv_open v).

(** Writing 5 to the control register opens a transaction, any other value
    closes it; a byte written to the data register is clocked out. *)
Definition flash_step (v : FlashView) (e : Event) : FlashView :=
  match e with
  | Wr r x =>
      if decide (r = FLASH_CTRL) then
        mkFlashView (flushed v) (if x =? 5 then Some [] else None)
      else if decide (r = FLASH_DATA) then
        mkFlashView (fv_done v) ((λ b, b ++ [x]) <$> fv_open v)
      else v
  | _ => v
  end.

Definition flash_view (v : FlashView) (t : list Event) : FlashView := foldl flash_step v t.
Definition transactions (t : list Event) : list (list Z) :=
  flushed (flash_view (mkFlashView [] None) t).

(** The bytes read from the data register. *)
Definition data_reads (t : list Event) : list Z :=
  omap (λ e, match e with Rd r v => if decide (r = FLASH_DATA) then Some v else None | _ => None end) t.

(** Accesses to the serial controller only. *)
Definition flash_access (e : Event) : Prop :=
  match e with
  | Rd r _ | Wr r _ => r = FLASH_CTRL ∨ r = FLASH_DATA
  | _ => False
  end.

(** [t] closes what was open; [o] is open after it. *)
Record turns (t : list Event) (o : option (list Z)) : Prop := {
  turns_access : Forall flash_access t;
  turns_view v : flash_view v t = mkFlashView (flushed v) o;
  turns_reads : data_reads t = [];
}.

(** [t] adds the bytes [xs] to the open transaction. *)
Record feeds (t : list Event) (xs rs : list Z) : Prop := {
  feeds_access : Forall flash_access t;
  feeds_view v : flash_view v t = mkFlashView (fv_done v) ((λ b, b ++ xs) <$> fv_open v);
  feeds_reads : data_reads t = rs;
}.

(** Each access of a literal trace is to the controller. *)
Ltac flash_accesses := repeat first [apply Forall_nil_2 | apply Forall_cons_2]; cbn; auto.

(** [t] makes the transactions [l] when none is open. *)
Record follows (t : list Event) (l : list (list Z)) (o : option (list Z)) (rs : list Z) : Prop := {
  follows_access : Forall flash_access t;
  follows_view v : fv_open v = None → flash_view v t = mkFlashView (fv_done v ++ l) o;
  follows_reads : data_reads t = rs;
}.

Lemma flash_view_app v t1 t2 : flash_view v (t1 ++ t2) = flash_view (flash_view v t1) t2.
Proof. apply foldl_app. Qed.

Lemma data_reads_app t1 t2 : data_reads (t1 ++ t2) = data_reads t1 ++ data_reads t2.
Proof. apply omap_app. Qed.

Lemma feeds_feeds t1 xs1 rs1 t2 xs2 rs2 : feeds t1 xs1 rs1 → feeds t2 xs2 rs2 →
  feeds (t1 ++ t2) (xs1 ++ xs2) (rs1 ++ rs2).
Proof.
  intros [A1 V1 R1] [A2 V2 R2]. split.
  - by apply Forall_app.
  - intros v. rewrite flash_view_app, V1, V2. cbn. destruct (fv_open v); cbn; [|done].
    by rewrite app_assoc.
  - by rewrite data_reads_app, R1, R2.
Qed.

Lemma feeds_turns t1 t2 o : feeds t1 [] [] → turns t2 o → turns (t1 ++ t2) o.
Proof.
  intros [A1 V1 R1] [A2 V2 R2]. split.
  - by apply Forall_app.
  - intros v. rewrite flash_view_app, V1, V2. unfold flushed. cbn.
    destruct (fv_open v); cbn; [|done]. by rewrite app_nil_r.
  - by rewrite data_reads_app, R1, R2.
Qed.

Lemma feeds_nil : feeds [] [] [].
Proof.
  split; [done| |done]. intros [l [b|]]; cbn; [|done]. by rewrite app_nil_r.
Qed.

Lemma follows_nil : follows [] [] None [].
Proof. split; [done| |done]. intros [l o]; cbn. intros ->. by rewrite app_nil_r. Qed.

Lemma follows_turns t1 l o rs t2 o' : follows t1 l o rs → turns t2 o' →
  follows (t1 ++ t2) (l ++ option_list o) o' rs.
Proof.
  intros [A1 V1 R1] [A2 V2 R2]. split.
  - by apply Forall_app.
  - intros v Hv. rewrite flash_view_app, V1, V2 by done. unfold flushed. cbn.
    by rewrite app_assoc.
  - by rewrite data_reads_app, R1, R2, app_nil_r.
Qed.

Lemma follows_feeds t1 l b rs1 t2 xs rs2 : follows t1 l (Some b) rs1 → feeds t2 xs rs2 →
  follows (t1 ++ t2) l (Some (b ++ xs)) (rs1 ++ rs2).
Proof.
  intros [A1 V1 R1] [A2 V2 R2]. split.
  - by apply Forall_app.
  - intros v Hv. by rewrite flash_view_app, V1, V2 by done.
  - by rewrite data_reads_app, R1, R2.
Qed.

Lemma follows_follows t1 l1 rs1 t2 l2 o rs2 : follows t1 l1 None rs1 → follows t2 l2 o rs2 →
  follows (t1 ++ t2) (l1 ++ l2) o (rs1 ++ rs2).
Proof.
  intros [A1 V1 R1] [A2 V2 R2]. split.
  - by apply Forall_app.
  - intros v Hv. rewrite flash_view_app, V1, V2 by done. cbn. by rewrite app_assoc.
  - by rewrite data_reads_app, R1, R2.
Qed.

Lemma turns_open c : turns [Wr FLASH_CTRL 0; Wr FLASH_CTRL 5; Wr FLASH_DATA c] (Some [c]).
Proof.
  split; [flash_accesses| |done]. intros v. cbn. unfold flushed. cbn. by rewrite app_nil_r.
Qed.

Lemma turns_close x : x ≠ 5 → turns [Wr FLASH_CTRL x] None.
Proof.
  intros Hx. split; [flash_accesses| |done]. intros v. cbn.
  by rewrite (proj2 (Z.eqb_neq x 5) Hx).
Qed.

Lemma feeds_byte x : feeds [Wr FLASH_DATA x] [x] [].
Proof. split; [flash_accesses| |done]. done. Qed.

Lemma feeds_poll v : feeds [Rd FLASH_CTRL v] [] [].
Proof.
  split; [flash_accesses| |done].
  intros [l [b|]]; cbn; [|done]. by rewrite app_nil_r.
Qed.

Lemma feeds_read v : feeds [Rd FLASH_DATA v] [] [v].
Proof.
  split; [flash_accesses| |done].
  intros [l [b|]]; cbn; [|done]. by rewrite app_nil_r.
Qed.

(** The accesses so far: [p], then transactions of the controller. *)
Definition during (p t : list Event) (l : list (list Z)) (o : option (list Z)) (rs : list Z) : Prop :=
  ∃ b, t = p ++ b ∧ follows b l o rs.

Lemma during_start p : during p p [] None [].
Proof. exists []. rewrite app_nil_r. split; [done|apply follows_nil]. Qed.

Lemma during_turns p t l o rs u o' : during p t l o rs → turns u o' →
  during p (t ++ u) (l ++ option_list o) o' rs.
Proof.
  intros (b & -> & Hb) Hu. exists (b ++ u). rewrite app_assoc.
  split; [done|by apply follows_turns].
Qed.

Lemma during_feeds p t l b rs u xs rs' : during p t l (Some b) rs → feeds u xs rs' →
  during p (t ++ u) l (Some (b ++ xs)) (rs ++ rs').
Proof.
  intros (c & -> & Hc) Hu. exists (c ++ u). rewrite app_assoc.
  split; [done|by apply follows_feeds].
Qed.

Lemma during_quiet p t l b rs u : during p t l (Some b) rs → feeds u [] [] →
  during p (t ++ u) l (Some b) rs.
Proof.
  intros H Hu. pose proof (during_feeds _ _ _ _ _ _ _ _ H Hu) as H'.
  by rewrite !app_nil_r in H'.
Qed.

Lemma during_follows p t l rs u l' o rs' : during p t l None rs → follows u l' o rs' →
  during p (t ++ u) (l ++ l') o (rs ++ rs').
Proof.
  intros (b & -> & Hb) Hu. exists (b ++ u). rewrite app_assoc.
  split; [done|by apply follows_follows].
Qed.

Lemma during_nil t l o rs : during [] t l o rs → follows t l o rs.
Proof. by intros (b & -> & Hb). Qed.

(** ** The primitives *)

(** The three address bytes, most significant first. *)
Definition address_bytes (address : Z) : list Z :=
  [u8 (Z.shiftr address 16); u8 (Z.shiftr address 8); u8 address].

(** Success is claimed on a status without the busy flag. *)
Definition last_status_ready (rs : list Z) : Prop :=
  ∃ earlier first second, rs = earlier ++ [first; second] ∧ status_ready first second = true.

(** The transaction of command [c], complete or cut short. *)
Definition cut_or_done (c : Z) (full : list Z) (b : bool) (t : list Event) : Prop :=
  ∃ xs, follows t [] (Some (c :: xs)) [] ∧ xs `prefix_of` full ∧ (b = true → xs = full).

Definition polled (b : bool) (t : list Event) : Prop := ∃ n o rs,
  follows t (replicate n [CMD_READ_STATUS]) o rs ∧ (o = None ∨ o = Some [CMD_READ_STATUS]) ∧
  (b = true → o = None ∧ last_status_ready rs).

Section primitives.
  Context {D : Type} {device : Device D}.
  Abbreviation emits_ := (emits (hal_trace (D := D))).
  Abbreviation yields_ := (yields (hal_trace (D := D))).

Lemma wait_interface_ok : yields_ ram_wait_interface (λ _ t, feeds t [] []).
Proof.
  unfold ram_wait_interface. generalize (Z.to_nat MAX_STATUS_POLLS). intros n.
  apply yields_run. eapply emits_bind.
  - apply (emits_repeat _ (λ t, feeds t [] [])); [apply feeds_nil|].
    intros t H. apply emits_read_bind. intros v.
    pose proof (feeds_feeds _ [] [] _ [] [] H (feeds_poll (wrap 8 v))) as H'.
    by apply emits_when; intros _; [apply emits_return|].
  - cbn beta. intros _ t H. by apply emits_ret.
Qed.

Lemma begin_ok {R} p t l o rs c (Q : R → list Event → Prop) : is_u8 c → during p t l o rs →
  emits_ t (ram_begin c) (λ _ u, during p u (l ++ option_list o) (Some [c]) rs) Q.
Proof.
  intros Hc H. unfold ram_begin. do 2 apply emits_write_bind. apply emits_write.
  rewrite (wrap_small 8 c Hc), <- !app_assoc. cbn [app].
  exact (during_turns _ _ _ _ _ _ _ H (turns_open c)).
Qed.

Lemma output_ok x : is_u8 x →
  yields_ (ram_output x) (λ b t, feeds t (if b then [x] else []) []).
Proof.
  intros Hx. apply yields_run. eapply emits_guard; [apply wait_interface_ok| |]; cbn beta; intros u H.
  - by apply (emits_return _ _ false).
  - apply emits_write_bind. apply emits_ret. rewrite (wrap_small 8 x Hx).
    exact (feeds_feeds _ [] [] _ [x] [] H (feeds_byte x)).
Qed.

Lemma end_ok : yields_ ram_end (λ _ t, turns t None).
Proof.
  apply yields_run. eapply emits_call_bind; [apply wait_interface_ok|].
  cbn beta. intros b u H. apply emits_write_bind. apply emits_ret.
  exact (feeds_turns _ _ _ H (turns_close 0 ltac:(done))).
Qed.

Lemma address_step c x xs rest t (k : M (Hal D) bool bool) :
  is_u8 x → follows t [] (Some (c :: xs)) [] →
  (∀ t', follows t' [] (Some (c :: xs ++ [x])) [] →
     emits_ t' k (cut_or_done c (xs ++ x :: rest)) (cut_or_done c (xs ++ x :: rest))) →
  emits_ t (b ← call (ram_output x); when_ (negb b) (return_ false);; k)
    (cut_or_done c (xs ++ x :: rest)) (cut_or_done c (xs ++ x :: rest)).
Proof.
  intros Hx Ht Hk. eapply emits_guard; [by apply output_ok| |]; cbn beta; intros u Hu;
    pose proof (follows_feeds _ _ _ _ _ _ _ Ht Hu) as H'; cbn in H'.
  - apply (emits_return _ _ false). exists xs. rewrite app_nil_r in H'.
    split; [exact H'|]. split; [by eexists|done].
  - by apply Hk.
Qed.

Lemma address_ok c a (dummy : bool) : is_u8 c →
  yields_ (ram_address c a dummy)
    (cut_or_done c (address_bytes a ++ if dummy then [0; 0] else [])).
Proof.
  intros Hc. assert (∀ x, is_u8 (u8 x)) as Hu8 by (intros; by apply wrap_fits).
  apply yields_run. eapply emits_bind; [by apply (begin_ok [] _ [] None []), during_start|].
  cbn beta. intros [] t1 H1%during_nil.
  apply (address_step c _ []); [done..|]. intros t2 H2.
  apply (address_step c _ [_]); [done..|]. intros t3 H3.
  apply (address_step c _ [_; _]); [done..|]. intros t4 H4.
  destruct dummy; cbn [negb when_ app].
  - eapply emits_bind; [by apply (emits_ret _ _ () (λ _ u, u = t4))|]. cbn beta. intros _ ? ->.
    apply (address_step c 0 [_; _; _] [0]); [done..|]. intros t5 H5.
    eapply emits_call; [by apply output_ok|]. cbn beta. intros b u Hu.
    pose proof (follows_feeds _ _ _ _ _ _ _ H5 Hu) as H'. cbn in H'. destruct b.
    + exists (address_bytes a ++ [0; 0]). by split.
    + exists (address_bytes a ++ [0]). split; [exact H'|]. split; [|done]. by exists [0].
  - eapply emits_bind; [apply (emits_return _ _ true (λ _ _, False))|done].
    by exists (address_bytes a).
Qed.

Lemma prepare_ok :
  yields_ ram_prepare (λ r t, follows t [[CMD_CONTROLLER_RESET]] None [] ∧
    match r with Ok _ => True | Err e => e = Timeout end).
Proof.
  apply yields_run. apply emits_write_bind.
  eapply emits_bind; [apply (begin_ok [] _ [] None [] CMD_CONTROLLER_RESET); [done|]|].
  { exact (during_turns _ _ _ _ _ _ _ (during_start []) (turns_close 4 ltac:(done))). }
  cbn beta. intros [] t1 H1.
  eapply emits_guard; [apply end_ok| |]; cbn beta; intros t2 H2;
    pose proof (during_nil _ _ _ _ (during_turns _ _ _ _ _ _ _ H1 H2)).
  - by apply emits_return.
  - by apply emits_ret.
Qed.

(** The status transactions. *)
Lemma wait_ready_ok : yields_ ram_wait_ready_active polled.
Proof.
  unfold ram_wait_ready_active. generalize (Z.to_nat MAX_STATUS_POLLS). intros polls.
  apply yields_run. eapply emits_bind.
  - apply (emits_repeat _ (λ t, ∃ n rs, during [] t (replicate n [CMD_READ_STATUS]) None rs)).
    { exists O, []. apply during_start. }
    intros t1 (n & rs & H1).
    eapply emits_bind; [eapply (begin_ok [] t1 _ _ rs CMD_READ_STATUS); [done|exact H1]|].
    cbn beta. intros [] t2 H2. rewrite app_nil_r in H2.
    assert (∀ u rs', during [] u (replicate n [CMD_READ_STATUS]) (Some [CMD_READ_STATUS]) rs' →
              polled false u) as Hfalse.
    { intros u rs' Hu. exists n, (Some [CMD_READ_STATUS]), rs'. split; [by apply during_nil|by split; [right|]]. }
    eapply emits_guard; [apply wait_interface_ok| |]; cbn beta; intros u3 H3;
      pose proof (during_quiet _ _ _ _ _ _ H2 H3) as H3'.
    { apply (emits_return _ _ false). by eapply Hfalse. }
    apply emits_read_bind. intros first.
    pose proof (during_feeds _ _ _ _ _ _ _ _ H3' (feeds_read (wrap 8 first))) as H4.
    eapply emits_guard; [apply wait_interface_ok| |]; cbn beta; intros u5 H5;
      pose proof (during_quiet _ _ _ _ _ _ H4 H5) as H5'.
    { apply (emits_return _ _ false). by eapply Hfalse. }
    apply emits_read_bind. intros second.
    pose proof (during_feeds _ _ _ _ _ _ _ _ H5' (feeds_read (wrap 8 second))) as H6.
    eapply emits_guard; [apply end_ok| |]; cbn beta; intros u7 H7;
      pose proof (during_turns _ _ _ _ _ _ _ H6 H7) as H8; cbn [app] in H8;
      change (option_list (Some ?x)) with [x] in H8; rewrite <- replicate_cons_app in H8;
      change (_ :: replicate n ?x) with (replicate (S n) x) in H8.
    { apply (emits_return _ _ false). exists (S n), None. eexists.
      split; [by apply during_nil|]. by split; [left|]. }
    apply emits_when; intros Hready.
    + apply (emits_return _ _ true). exists (S n), None. eexists.
      split; [by apply during_nil|]. split; [by left|]. intros _. split; [done|].
      exists rs, (wrap 8 first), (wrap 8 second). by rewrite <- app_assoc.
    + eauto.
  - cbn beta. intros _ t (n & rs & H). apply emits_ret. exists n, None, rs.
    split; [by apply during_nil|]. by split; [left|].
Qed.

(** ** Sessions

    A session reads the global configuration, opens the safe access to set
    [flag] in it, talks to the controller, and puts the configuration back. *)
Definition opening (original flag : Z) : list Event :=
  [Rd GLOBAL_CONFIG original; Wr SAFE_ACCESS 0x57; Wr SAFE_ACCESS 0xa8;
   Wr GLOBAL_CONFIG (Z.lor original flag); Wr SAFE_ACCESS 0].
Definition closing (original : Z) : list Event :=
  [Wr SAFE_ACCESS 0x57; Wr SAFE_ACCESS 0xa8; Wr GLOBAL_CONFIG original; Wr SAFE_ACCESS 0].

Definition session (flag : Z) (l : list (list Z)) (rs : list Z) (t : list Event) : Prop :=
  ∃ original body, is_u8 original ∧ t = opening original flag ++ body ++ closing original ∧
    follows body l None rs.

Lemma configure_ok {R} (w : bool) (Q : R → list Event → Prop) :
  emits_ [] (ram_configure w)
    (λ a u, is_u8 a ∧ u = opening a (if w then 0xe0 else 0x20)) Q.
Proof.
  unfold ram_configure. apply emits_read_bind. intros v.
  do 4 apply emits_write_bind. apply emits_ret.
  assert (is_u8 (wrap 8 v)) as Hv by (by apply wrap_fits). split; [done|].
  rewrite (wrap_small 8 (Z.lor _ _)); [done|].
  apply lor_fits; [lia|done|]. destruct w; unfold_ints; lia.
Qed.

Lemma restore_ok {R} a flag t l rs (Q : R → list Event → Prop) :
  is_u8 a → during (opening a flag) t l None rs →
  emits_ t (ram_restore a) (λ _ u, session flag l rs u) Q.
Proof.
  intros Ha (b & -> & Hb). unfold ram_restore. do 3 apply emits_write_bind. apply emits_write.
  exists a, b. split; [done|]. rewrite (wrap_small 8 a Ha), <- !app_assoc. by split.
Qed.

Lemma fail_ok {R} a flag t l o rs (Q : R → list Event → Prop) :
  is_u8 a → during (opening a flag) t l o rs →
  emits_ t (ram_fail a) (λ e u, e = Timeout ∧ session flag (l ++ option_list o) rs u) Q.
Proof.
  intros Ha H. unfold ram_fail, ram_abort.
  eapply emits_bind with (P1 := λ e u, e = Timeout ∧ during (opening a flag) u (l ++ option_list o) None rs).
  { apply emits_write_bind, emits_ret. split; [done|].
    by apply (during_turns _ _ _ _ _ _ _ H), turns_close. }
  cbn beta. intros e u [-> Hu]. eapply emits_bind; [by apply restore_ok|].
  cbn beta. intros _ v Hv. by apply emits_ret.
Qed.

(** A sequence of transactions abandoned in, or after, one of them. *)
Definition cut_short (short full : list (list Z)) : Prop :=
  ∃ before x y after, short = before ++ [x] ∧ full = before ++ y :: after ∧ x `prefix_of` y.

Lemma cut_short_last before x y after : x `prefix_of` y →
  cut_short (before ++ [x]) (before ++ y :: after).
Proof. intros H. by exists before, x, y, after. Qed.

Lemma cut_short_refl l : l ≠ [] → cut_short l l.
Proof.
  intros H. destruct (exists_last H) as (before & x & ->). by apply cut_short_last.
Qed.

(** Reset, write enable, and the command that changes the Flash. *)
Definition change_sequence (command : list Z) (polls : nat) : list (list Z) :=
  [[CMD_CONTROLLER_RESET]; [CMD_WRITE_ENABLE]; command] ++ replicate polls [CMD_READ_STATUS].

Lemma change_sequence_S command n :
  change_sequence command n ++ [[CMD_READ_STATUS]] = change_sequence command (S n).
Proof. unfold change_sequence. rewrite <- app_assoc. f_equal. by rewrite <- replicate_cons_app. Qed.

Definition changed (command : list Z) (r : result Error ()) (t : list Event) : Prop :=
  match r with
  | Ok _ => ∃ n rs, session 0xe0 (change_sequence command n) rs t ∧ last_status_ready rs
  | Err e => e = Timeout ∧
      ∃ n l rs, cut_short l (change_sequence command n) ∧ session 0xe0 l rs t
  end.

Lemma fail_with_ok {A} a t l o rs command n P :
  is_u8 a → during (opening a 0xe0) t l o rs →
  cut_short (l ++ option_list o) (change_sequence command n) →
  emits_ t (fail_with (A := A) a) P (changed command).
Proof.
  intros Ha H Hl. unfold fail_with. eapply emits_bind; [by apply fail_ok|].
  cbn beta. intros e u [-> Hu]. apply emits_return. split; [done|]. eauto.
Qed.

(** The end of a change: close the command, poll until the Flash is ready. *)
Lemma change_tail a t command : is_u8 a →
  during (opening a 0xe0) t [[CMD_CONTROLLER_RESET]; [CMD_WRITE_ENABLE]] (Some command) [] →
  emits_ t (ended ← call ram_end;
            when_ (negb ended) (fail_with a);;
            ready ← call ram_wait_ready_active;
            when_ (negb ready) (fail_with a);;
            ram_restore a;;
            mret (Ok ())) (changed command) (changed command).
Proof.
  intros Ha H. eapply emits_guard; [apply end_ok| |]; cbn beta; intros u Hu;
    pose proof (during_turns _ _ _ _ _ _ _ H Hu) as H1; cbn [app] in H1;
    change (option_list (Some ?x)) with [x] in H1; cbn [app] in H1.
  { eapply (fail_with_ok _ _ _ _ _ _ O); [done|exact H1|].
    exists [[CMD_CONTROLLER_RESET]; [CMD_WRITE_ENABLE]], command, command, []. by split. }
  eapply emits_guard; [apply wait_ready_ok| |]; cbn beta; intros u2 (n & o & rs & H2 & Ho & Hrs);
    pose proof (during_follows _ _ _ _ _ _ _ _ H1 H2) as H3; cbn [app] in H3.
  - destruct Ho as [-> | ->]; eapply (fail_with_ok _ _ _ _ _ _); [done|exact H3| |done|exact H3|].
    + change (option_list None) with (@nil (list Z)). rewrite app_nil_r.
      by apply (cut_short_refl (change_sequence command n)).
    + change (option_list (Some ?x)) with [x]. 
      enough (cut_short (change_sequence command n ++ [[CMD_READ_STATUS]])
                (change_sequence command (S n))) as E by exact E.
      rewrite change_sequence_S. by apply (cut_short_refl (change_sequence command (S n))).
  - destruct (Hrs eq_refl) as [-> Hready].
    eapply emits_bind; [by apply restore_ok|]. cbn beta. intros _ v Hv. apply emits_ret.
    exists n, rs. by split.
Qed.

(** The start of a change, up to the command. *)
Lemma change_head a (k : M (Hal D) (result Error ()) (result Error ())) command : is_u8 a →
  (∀ t, during (opening a 0xe0) t [[CMD_CONTROLLER_RESET]; [CMD_WRITE_ENABLE]] None [] →
     emits_ t k (changed command) (changed command)) →
  emits_ (opening a 0xe0)
    (prepared ← call ram_prepare;
     when_ (negb (is_ok prepared)) (ram_restore a;; return_ (Err Timeout));;
     ram_begin CMD_WRITE_ENABLE;;
     enabled ← call ram_end;
     when_ (negb enabled) (fail_with a);;
     k) (changed command) (changed command).
Proof.
  intros Ha Hk. eapply emits_call_bind; [apply prepare_ok|]. cbn beta. intros r u [Hu Hr].
  pose proof (during_follows _ _ _ _ _ _ _ _ (during_start (opening a 0xe0)) Hu) as H1. cbn in H1.
  destruct r as [[]|e]; cbn [is_ok negb when_].
  - eapply emits_bind; [by apply (emits_ret _ _ () (λ _ v, v = opening a 0xe0 ++ u))|]. cbn beta. intros _ ? ->.
    eapply emits_bind; [by eapply (begin_ok _ _ _ _ _ CMD_WRITE_ENABLE)|].
    cbn beta. intros [] t H2.
    eapply emits_guard; [apply end_ok| |]; cbn beta; intros u3 H3;
      pose proof (during_turns _ _ _ _ _ _ _ H2 H3) as H4.
    + eapply (fail_with_ok _ _ _ _ _ _ O); [done|exact H4|].
      by apply (cut_short_last [[CMD_CONTROLLER_RESET]]).
    + by apply Hk.
  - subst e. eapply emits_bind with (P1 := λ _ _, False); [|done].
    eapply emits_bind; [by apply restore_ok|]. cbn beta. intros _ v Hv. apply emits_return.
    split; [done|]. exists O, [[CMD_CONTROLLER_RESET]], []. split; [|done].
    by apply (cut_short_last []).
Qed.

Lemma change_address a t cmd address rest (k : M (Hal D) (result Error ()) (result Error ())) :
  is_u8 a → is_u8 cmd →
  during (opening a 0xe0) t [[CMD_CONTROLLER_RESET]; [CMD_WRITE_ENABLE]] None [] →
  (∀ u, during (opening a 0xe0) u [[CMD_CONTROLLER_RESET]; [CMD_WRITE_ENABLE]]
          (Some (cmd :: address_bytes address)) [] →
     emits_ u k (changed (cmd :: address_bytes address ++ rest))
                (changed (cmd :: address_bytes address ++ rest))) →
  emits_ t (addressed ← call (ram_address cmd address false);
            when_ (negb addressed) (fail_with a);;
            k)
    (changed (cmd :: address_bytes address ++ rest)) (changed (cmd :: address_bytes address ++ rest)).
Proof.
  intros Ha Hcmd H Hk. eapply emits_guard; [by apply address_ok| |]; cbn beta;
    intros u (xs & Hu & Hxs & Hfull);
    pose proof (during_follows _ _ _ _ _ _ _ _ H Hu) as H1; cbn [app] in H1;
    rewrite app_nil_r in Hxs, Hfull.
  - eapply (fail_with_ok _ _ _ _ _ _ O); [done|exact H1|].
    apply (cut_short_last [[CMD_CONTROLLER_RESET]; [CMD_WRITE_ENABLE]] (cmd :: xs)).
    apply prefix_cons, prefix_app_r, Hxs.
  - rewrite Hfull in H1 by done. by apply Hk.
Qed.

(** Erasing one page, programming a piece of one. *)
Lemma erase_ok address :
  yields_ (ram_erase address) (changed (CMD_ERASE_256 :: address_bytes address)).
Proof.
  apply yields_run. eapply emits_bind; [apply configure_ok|]. cbn beta. intros a ? [Ha ->].
  apply change_head; [done|]. intros t H.
  rewrite <- (app_nil_r (address_bytes address)).
  apply change_address; [done..|]. intros u Hu. rewrite app_nil_r. by apply change_tail.
Qed.

Lemma program_ok address data : bytes_ok data →
  yields_ (ram_page_program address data)
    (changed (CMD_PAGE_PROGRAM :: address_bytes address ++ data)).
Proof.
  intros Hdata. apply yields_run. eapply emits_bind; [apply configure_ok|].
  cbn beta. intros a ? [Ha ->]. apply change_head; [done|]. intros t H.
  apply change_address; [done..|]. intros u Hu.
  eapply emits_bind.
  - apply (emits_for_each _ (λ xs v, during (opening a 0xe0) v
      [[CMD_CONTROLLER_RESET]; [CMD_WRITE_ENABLE]]
      (Some (CMD_PAGE_PROGRAM :: address_bytes address ++ xs)) [])); [by rewrite app_nil_r|].
    intros xs x rest v -> Hv.
    assert (is_u8 x) as Hx by (by apply list.Forall_app in Hdata as [_ [? _]%list.Forall_cons]).
    eapply emits_call_bind; [by apply output_ok|]. cbn beta. intros b w Hw.
    pose proof (during_feeds _ _ _ _ _ _ _ _ Hv Hw) as H'. cbn [app] in H'.
    rewrite <- app_assoc in H'. destruct b; cbn [negb when_].
    + by apply emits_ret.
    + eapply (fail_with_ok _ _ _ _ _ _ O); [done|exact H'|].
      apply (cut_short_last [[CMD_CONTROLLER_RESET]; [CMD_WRITE_ENABLE]]).
      rewrite app_nil_r. apply prefix_cons, prefix_app, prefix_app_r. done.
  - cbn beta. intros _ v Hv. by apply change_tail.
Qed.

(** Reading: the data bytes of the session land in the output, in order. *)
Definition read_sequence (address : Z) : list (list Z) :=
  [[CMD_CONTROLLER_RESET]; CMD_DATA_READ :: address_bytes address ++ [0; 0]].

Definition fetched (address : Z) (output : list Z) (length_ : nat)
    (r : result Error () * list Z) (t : list Event) : Prop :=
  ∃ l rs, session 0x20 l rs t ∧ bytes_ok rs ∧ r.2 = splice 0 rs output ∧
    match r.1 with
    | Ok _ => l = read_sequence address ∧ length rs = length_
    | Err e => e = Timeout ∧ cut_short l (read_sequence address) ∧ (length rs ≤ length_)%nat
    end.

Lemma fetch_failed {A} a t address output length_ l o rs (P : A → list Event → Prop) :
  is_u8 a → during (opening a 0x20) t l o rs → bytes_ok rs → (length rs ≤ length_)%nat →
  cut_short (l ++ option_list o) (read_sequence address) →
  emits_ t (error ← ram_fail a; return_ (Err error, splice 0 rs output)) P
    (fetched address output length_).
Proof.
  intros Ha H Hrs Hlen Hl. eapply emits_bind; [by apply fail_ok|].
  cbn beta. intros e u [-> Hu]. apply emits_return. by exists (l ++ option_list o), rs.
Qed.

Lemma splice_next (rs output : list Z) x : (length rs < length output)%nat →
  <[length rs := x]> (splice 0 rs output) = splice 0 (rs ++ [x]) output.
Proof.
  intros H. unfold splice. rewrite !take_0. cbn [app]. rewrite insert_app_r_alt, Nat.sub_diag by lia.
  destruct (drop (0 + length rs) output) as [|y rest] eqn:E.
  { apply (f_equal length) in E. rewrite length_drop in E. cbn in E. lia. }
  cbn [insert list_insert]. rewrite <- app_assoc. cbn [app]. do 2 f_equal.
  apply (f_equal (drop 1)) in E. rewrite drop_drop in E.
  rewrite <- (eq_refl : drop 1 (y :: rest) = rest), <- E. f_equal. rewrite length_app. cbn. lia.
Qed.

Lemma read_loop_ok a address output count t rs : is_u8 a → bytes_ok rs →
  (length rs + count ≤ length output)%nat →
  let full := CMD_DATA_READ :: address_bytes address ++ [0; 0] in
  during (opening a 0x20) t [[CMD_CONTROLLER_RESET]] (Some full) rs →
  emits_ t (ram_read_loop a (length rs) count (splice 0 rs output))
    (λ out u, ∃ rs', out = splice 0 rs' output ∧ bytes_ok rs' ∧
       length rs' = (length rs + count)%nat ∧
       during (opening a 0x20) u [[CMD_CONTROLLER_RESET]] (Some full) rs')
    (fetched address output (length rs + count)).
Proof.
  intros Ha. revert t rs. induction count as [|count IH]; intros t rs Hrs Hlen full H;
    cbn [ram_read_loop].
  - apply emits_ret. exists rs. split; [done|]. split; [done|]. split; [lia|done].
  - eapply emits_guard; [apply wait_interface_ok| |]; cbn beta; intros u Hu;
      pose proof (during_quiet _ _ _ _ _ _ H Hu) as H1.
    + eapply (fetch_failed _ _ _ _ _ _ _ _ _ Ha H1); [done|lia|].
      by apply (cut_short_last [[CMD_CONTROLLER_RESET]]).
    + apply emits_read_bind. intros v. set (x := wrap 8 v).
      assert (is_u8 x) by (by apply wrap_fits).
      pose proof (during_feeds _ _ _ _ _ _ _ _ H1 (feeds_read x)) as H2. rewrite app_nil_r in H2.
      rewrite splice_next by lia.
      replace (S (length rs)) with (length (rs ++ [x])) by (rewrite length_app; cbn; lia).
      replace (length rs + S count)%nat with (length (rs ++ [x]) + count)%nat
        by (rewrite length_app; cbn; lia).
      apply IH; [|rewrite length_app; cbn; lia|exact H2].
      apply bytes_ok_app. split; [done|by apply Forall_cons_2].
Qed.

Lemma read_ok address output :
  yields_ (ram_read_bytes address output (length output))
    (fetched address output (length output)).
Proof.
  apply yields_run. eapply emits_bind; [apply configure_ok|]. cbn beta. intros a ? [Ha ->].
  eapply emits_call_bind; [apply prepare_ok|]. cbn beta. intros r u [Hu Hr].
  pose proof (during_follows _ _ _ _ _ _ _ _ (during_start (opening a 0x20)) Hu) as H1. cbn in H1.
  destruct r as [[]|e]; cbn [is_ok negb when_].
  - eapply emits_bind; [by apply (emits_ret _ _ () (λ _ v, v = opening a 0x20 ++ u))|].
    cbn beta. intros _ ? ->.
    eapply emits_guard; [by apply address_ok| |]; cbn beta; intros w (xs & Hw & Hxs & Hfull);
      pose proof (during_follows _ _ _ _ _ _ _ _ H1 Hw) as H2; cbn [app] in H2.
    + apply (fetch_failed a _ address output _ _ _ [] _ Ha H2); [constructor|cbn; lia|].
      apply (cut_short_last [[CMD_CONTROLLER_RESET]]). by apply prefix_cons.
    + rewrite Hfull in H2 by done.
      eapply emits_bind; [apply (read_loop_ok a address output _ _ [] Ha); [constructor|cbn; lia|exact H2]|].
      cbn beta. intros out v (rs & -> & Hrs & Hlen & H3).
      eapply emits_guard; [apply end_ok| |]; cbn beta; intros x Hx;
        pose proof (during_turns _ _ _ _ _ _ _ H3 Hx) as H4.
      * eapply emits_bind; [by apply restore_ok|]. cbn beta. intros _ y Hy. apply emits_return.
        eexists _, rs. split; [done|]. split; [done|]. split; [done|]. cbn [fst].
        split; [done|]. split; [by apply (cut_short_last [[CMD_CONTROLLER_RESET]])|].
        cbn in Hlen. lia.
      * eapply emits_bind; [by apply restore_ok|]. cbn beta. intros _ y Hy. apply emits_ret.
        by eexists _, rs.
  - subst e. eapply emits_bind with (P1 := λ _ _, False); [|done].
    eapply emits_bind; [by apply restore_ok|]. cbn beta. intros _ v Hv. apply emits_return.
    eexists _, []. split; [done|]. split; [constructor|]. split; [done|]. cbn [fst].
    split; [done|]. split; [by apply (cut_short_last [])|cbn; lia].
Qed.

End primitives.
