(* ===== verification/FlashProps.v ===== *)
(** * What the DataFlash operations promise

    Bounds, alignment, the exact commands the controller receives, and the
    configuration put back, whatever the controller answers. *)

From S2P Require Import Prelude.
From S2P Require Import Effects.
From S2P Require Import Mmio.
From S2P Require Import DataFlash.
From S2P Require Import FlashProtocol.

(** The absolute address of the window's first byte. *)
Definition WINDOW : Z := 0xF6000.

Lemma physical_ok offset : 0 ≤ offset < CAPACITY → physical offset = Ok (WINDOW + offset).
Proof.
  intros H. unfold physical. rewrite (proj2 (Z.leb_gt _ _)) by lia.
  rewrite (wrap_small 32 offset) by (unfold CAPACITY in H; unfold_ints; lia).
  f_equal. unfold DATA_FLASH_ALIAS, DATA_FLASH_BASE, EXPOSED_OFFSET, WINDOW, CAPACITY in *.
  rewrite Z.lor_comm. change 0x80000 with (Z.shiftl 1 19).
  rewrite lor_shift_add by (unfold fits; lia). lia.
Qed.

(** A change for each command in turn, up to the first that fails. *)
Inductive each : list (list Z) → result Error () → list Event → Prop :=
| each_nil : each [] (Ok ()) []
| each_ok c cs r t u : changed c (Ok ()) t → each cs r u → each (c :: cs) r (t ++ u)
| each_err c cs e t : changed c (Err e) t → each (c :: cs) (Err e) t.

Lemma each_snoc_ok cs c t u : each cs (Ok ()) t → changed c (Ok ()) u →
  each (cs ++ [c]) (Ok ()) (t ++ u).
Proof.
  intros H Hc. remember (Ok ()) as r eqn:E. induction H; cbn [app].
  - rewrite <- (app_nil_r u). apply each_ok; [done|]. subst. constructor.
  - rewrite <- app_assoc. apply each_ok; eauto.
  - done.
Qed.

Lemma each_app_err cs c later t u e : each cs (Ok ()) t → changed c (Err e) u →
  each (cs ++ c :: later) (Err e) (t ++ u).
Proof.
  intros H Hc. remember (Ok ()) as r eqn:E. induction H; cbn [app].
  - by apply each_err.
  - rewrite <- app_assoc. apply each_ok; eauto.
  - done.
Qed.

(** Programming lays the data out in order from [address], in pieces of at most
    32 bytes that stay within a 256-byte page. *)
Fixpoint laid_out (address : Z) (chunks : list (Z * list Z)) (data : list Z) : Prop :=
  match chunks with
  | [] => data = []
  | (a, c) :: chunks =>
      a = address ∧ (0 < length c ≤ 32)%nat ∧
      address mod PAGE_SIZE + Z.of_nat (length c) ≤ PAGE_SIZE ∧
      ∃ rest, data = c ++ rest ∧ laid_out (address + Z.of_nat (length c)) chunks rest
  end.

Lemma laid_out_exists data address : ∃ chunks, laid_out address chunks data.
Proof.
  revert address. induction data as [|x data IH]; intros address; [by exists []|].
  destruct (IH (address + 1)) as (chunks & H). exists ((address, [x]) :: chunks).
  split; [done|]. split; [cbn; lia|]. split; [|by exists data].
  unfold PAGE_SIZE. cbn. pose proof (Z.mod_pos_bound address 256). lia.
Qed.

Definition program_command (chunk : Z * list Z) : list Z :=
  CMD_PAGE_PROGRAM :: address_bytes chunk.1 ++ chunk.2.
Definition erase_command (address : Z) : list Z := CMD_ERASE_256 :: address_bytes address.

(** The page-sized steps of an aligned range. *)
Definition pages (from to : Z) : list Z :=
  (λ i, from + ERASE_SIZE * Z.of_nat i) <$> seq 0 (Z.to_nat ((to - from) / ERASE_SIZE)).

Section window.
  Context {D : Type} {device : Device D}.
  Abbreviation emits_ := (emits (hal_trace (D := D))).
  Abbreviation yields_ := (yields (hal_trace (D := D))).

Lemma with_access_ok {A} w (f : Hal D → option (A * Hal D)) P :
  yields_ f P → yields_ (with_access w f) (masked P).
Proof. apply yields_critical. Qed.

Lemma write_loop_ok passes start data cursor :
  0 ≤ start → start + Z.of_nat (length data) ≤ CAPACITY → bytes_ok data →
  (cursor ≤ length data)%nat → (length data - cursor ≤ passes)%nat →
  let lays r u := ∃ chunks,
    laid_out (WINDOW + start + Z.of_nat cursor) chunks (drop cursor data) ∧
    each (program_command <$> chunks) r u in
  emits_ [] (write_loop passes start data cursor) (λ _, lays (Ok ())) lays.
Proof.
  intros Hstart Hend Hdata. revert cursor. induction passes as [|passes IH]; intros cursor Hc Hp lays;
    cbn [write_loop].
  { apply emits_ret. exists []. split; [|constructor]. cbn. apply drop_ge. lia. }
  destruct (Nat.ltb_spec cursor (length data)) as [Hlt|Hge].
  2: { apply emits_ret. exists []. split; [|constructor]. cbn. by apply drop_ge. }
  set (address := start + Z.of_nat cursor).
  set (count := Z.to_nat _).
  assert (0 ≤ address mod PAGE_SIZE < PAGE_SIZE) as Hmod by (by apply Z.mod_pos_bound).
  assert (0 < count ≤ 32)%nat as H32 by (unfold count, PAGE_SIZE in *; lia).
  assert (cursor + count ≤ length data)%nat as Hlen by (unfold count, PAGE_SIZE in *; lia).
  assert ((WINDOW + address) mod PAGE_SIZE + Z.of_nat count ≤ PAGE_SIZE) as Hpage.
  { unfold WINDOW. rewrite (Z.add_comm 0xF6000 address). change 0xF6000 with (0xF60 * PAGE_SIZE).
    rewrite Z.mod_add by done. unfold count, PAGE_SIZE in *. lia. }
  assert (length (slice cursor (cursor + count) data) = count) as Hslice
    by (rewrite length_slice; lia).
  assert (drop cursor data = slice cursor (cursor + count) data ++ drop (cursor + count) data) as Hdrop.
  { unfold slice. replace (cursor + count - cursor)%nat with count by lia. rewrite <- drop_drop. by rewrite take_drop. }
  rewrite physical_ok by (unfold address; lia).
  apply emits_try_bind; [intros ? [= <-]|done].
  eapply emits_call_bind; [apply program_ok; by apply bytes_ok_slice|]. cbn beta. intros r u Hu.
  set (chunk := (WINDOW + address, slice cursor (cursor + count) data)).
  assert (∀ chunks rest, laid_out (WINDOW + start + Z.of_nat (cursor + count)) chunks rest →
            rest = drop (cursor + count) data →
            laid_out (WINDOW + start + Z.of_nat cursor) (chunk :: chunks) (drop cursor data)) as Hcons.
  { intros chunks ? Hl ->. cbn [laid_out]. unfold chunk. split; [unfold address; lia|].
    rewrite Hslice. split; [done|]. replace (WINDOW + start + Z.of_nat cursor) with (WINDOW + address)
      by (unfold address; lia). split; [done|].
    eexists. split; [exact Hdrop|]. by replace (WINDOW + address + Z.of_nat count) with
      (WINDOW + start + Z.of_nat (cursor + count)) by (unfold address; lia). }
  apply emits_try_bind.
  - intros [] ->. eapply emits_weaken; [apply emits_frame, IH; lia| |]; cbn beta.
    + intros _ v (w & -> & chunks & Hl & He). exists (chunk :: chunks).
      split; [by eapply Hcons|]. by apply each_ok.
    + intros r v (w & -> & chunks & Hl & He). exists (chunk :: chunks).
      split; [by eapply Hcons|]. by apply each_ok.
  - intros e ->. destruct (laid_out_exists (drop (cursor + count) data)
                (WINDOW + start + Z.of_nat (cursor + count))) as (chunks & Hl).
    exists (chunk :: chunks). split; [by eapply Hcons|]. by apply each_err.
Qed.

(** ** The three operations *)

(** Refused without an access. *)
Definition untouched {A} (r : A) (a : A) (t : list Event) : Prop := a = r ∧ t = [].

(** C11: Writing to the DataFlash window checks the whole range first: beyond the
    8 KiB (or on overflow of the sum) it returns OutOfBounds without an access.
    Otherwise it returns on every controller, masks interrupts around all its
    accesses, and the page-program commands are a cut of the data into pieces of
    at most 32 bytes, in order, each within one 256-byte page and inside the
    window; on Ok all of them were sent whole, each in a session that puts the
    global configuration back and ends on a ready status, and the only error is
    Timeout, after which one command was abandoned and none was sent later. *)
Theorem flash_write_commands offset data : is_u32 offset → bytes_ok data →
  yields_ (write_bytes offset data)
    (if offset + Z.of_nat (length data) <=? CAPACITY then
       masked (λ r t, ∃ chunks, laid_out (WINDOW + offset) chunks data ∧
         each (program_command <$> chunks) r t)
     else untouched (Err OutOfBounds)).
Proof.
  intros Hoff Hdata. apply yields_run. unfold checked_add.
  assert (0 ≤ offset) as H0 by (unfold_ints; lia).
  destruct (Z.leb_spec (offset + Z.of_nat (length data)) CAPACITY) as [Hin|Hout].
  - rewrite (proj2 (Z.leb_le _ _)) by (unfold CAPACITY in Hin; unfold_ints; lia).
    rewrite (proj2 (Z.ltb_ge _ _)) by lia.
    eapply emits_bind; [by apply (emits_ret _ _ () (λ _ u, u = []))|]. cbn beta. intros _ ? ->.
    eapply emits_call; [|intros r u H; exact H].
    apply with_access_ok, yields_run. eapply emits_bind.
    + eapply emits_weaken; [apply (write_loop_ok (length data) offset data 0); (done || lia)| |];
        cbn beta; intros r u (chunks & Hl & He).
      * cbn in Hl. rewrite Z.add_0_r in Hl. exact (ex_intro _ chunks (conj Hl He)).
      * cbn in Hl. rewrite Z.add_0_r in Hl. by exists chunks.
    + cbn beta. intros _ u Hu. by apply emits_ret.
  - destruct (_ <=? U32_MAX); [|by apply emits_return].
    rewrite (proj2 (Z.ltb_lt _ _)) by lia.
    eapply emits_bind; [by apply (emits_return _ _ _ (λ _ _, False))|done].
Qed.

Lemma aligned_mod x : Z.land x (ERASE_SIZE - 1) = x mod ERASE_SIZE.
Proof. change (ERASE_SIZE - 1) with (Z.ones 8). by rewrite Z.land_ones. Qed.

Lemma step_by_pages from to : from mod ERASE_SIZE = 0 → to mod ERASE_SIZE = 0 →
  step_by from to ERASE_SIZE = pages from to.
Proof.
  intros Hf Ht. unfold step_by, pages. do 3 f_equal. unfold div_ceil, ERASE_SIZE in *.
  Z.div_mod_to_equations. lia.
Qed.

(** C23: Erasing takes a page-aligned, non-empty range inside the window and
    otherwise returns NotAligned or OutOfBounds without an access; it sends one
    erase command for each 256-byte page of the range and for no other address,
    in order, stopping at the first that times out. *)
Theorem flash_erase_commands from to : is_u32 from → is_u32 to →
  yields_ (erase from to)
    (if negb (from mod ERASE_SIZE =? 0) || negb (to mod ERASE_SIZE =? 0) then
       untouched (Err NotAligned)
     else if (to <=? from) || (CAPACITY <? to) then untouched (Err OutOfBounds)
     else masked (each ((λ offset, erase_command (WINDOW + offset)) <$> pages from to))).
Proof.
  intros Hfrom Hto. apply yields_run. rewrite !aligned_mod.
  destruct (negb (from mod _ =? 0) || _) eqn:Ealign; cbn [when_].
  { eapply emits_bind; [by apply (emits_return _ _ _ (λ _ _, False))|done]. }
  eapply emits_bind; [by apply (emits_ret _ _ () (λ _ u, u = []))|]. cbn beta. intros _ ? ->.
  destruct ((to <=? from) || _) eqn:Ebound; cbn [when_].
  { eapply emits_bind; [by apply (emits_return _ _ _ (λ _ _, False))|done]. }
  eapply emits_bind; [by apply (emits_ret _ _ () (λ _ u, u = []))|]. cbn beta. intros _ ? ->.
  eapply emits_call; [|intros r u H; exact H].
  apply orb_false_iff in Ealign as [Ef Et]. apply orb_false_iff in Ebound as [El Eh].
  apply negb_false_iff, Z.eqb_eq in Ef, Et. apply Z.leb_gt in El. apply Z.ltb_ge in Eh.
  rewrite (step_by_pages from to Ef Et).
  apply with_access_ok, yields_run. eapply emits_bind.
  - apply (emits_for_each _ (λ xs u,
      each ((λ offset, erase_command (WINDOW + offset)) <$> xs) (Ok ()) u)); [constructor|].
    intros xs x rest u Hl Hu.
    assert (0 ≤ x < CAPACITY) as Hx.
    { assert (x ∈ pages from to) as Hx by (rewrite Hl; set_solver).
      apply list_elem_of_fmap in Hx as (i & -> & Hi%elem_of_seq).
      unfold ERASE_SIZE, CAPACITY in *. unfold_ints. Z.div_mod_to_equations. lia. }
    rewrite (physical_ok x Hx). apply emits_try_bind; [intros ? [= <-]|done].
    eapply emits_call_bind; [apply erase_ok|]. cbn beta. intros r v Hv.
    apply emits_try.
    + intros [] ->. rewrite fmap_app. by apply each_snoc_ok.
    + intros e ->. rewrite Hl, fmap_app. by apply each_app_err.
  - cbn beta. intros _ u Hu. by apply emits_ret.
Qed.

(** C24: Reading checks the range first and touches nothing when it is out of
    bounds or empty; otherwise, on success, the output is exactly the bytes the
    controller answered to one read command for the address of the range, as many
    as the output has room for; on Timeout the command was abandoned and the
    output holds the bytes answered until then followed by what it held before. *)
Theorem flash_read_verbatim offset output : is_u32 offset →
  yields_ (read_bytes offset output)
    (if negb (offset + Z.of_nat (length output) <=? CAPACITY) then
       untouched (Err OutOfBounds, output)
     else if bool_decide (output = []) then untouched (Ok (), output)
     else masked (fetched (WINDOW + offset) output (length output))).
Proof.
  intros Hoff. apply yields_run. unfold checked_add.
  assert (0 ≤ offset) as H0 by (unfold_ints; lia).
  destruct (Z.leb_spec (offset + Z.of_nat (length output)) CAPACITY) as [Hin|Hout]; cbn [negb].
  - rewrite (proj2 (Z.leb_le _ _)) by (unfold CAPACITY in Hin; unfold_ints; lia).
    rewrite (proj2 (Z.ltb_ge _ _)) by lia. cbn [when_].
    eapply emits_bind; [by apply (emits_ret _ _ () (λ _ u, u = []))|]. cbn beta. intros _ ? ->.
    destruct output as [|x output].
    { eapply emits_bind; [by apply (emits_return _ _ _ (λ _ _, False))|done]. }
    eapply emits_bind; [by apply (emits_ret _ _ () (λ _ u, u = []))|]. cbn beta. intros _ ? ->.
    eapply emits_call; [|intros r u H; exact H].
    apply with_access_ok, yields_run.
    rewrite physical_ok by (cbn in Hin; lia).
    apply emits_try_bind; [intros ? [= <-]|done].
    eapply emits_call; [apply read_ok|]. by intros r u H.
  - destruct (_ <=? U32_MAX); [|by apply emits_return].
    rewrite (proj2 (Z.ltb_lt _ _)) by lia. cbn [when_].
    eapply emits_bind; [by apply (emits_return _ _ _ (λ _ _, False))|done].
Qed.

End window.

(** A controller that is never busy and reads zero. *)
Definition idle_device : Device () := {| dev_read _ d := (0, d); dev_write _ _ d := d |}.

Lemma flash_write_commands_witness :
  yields hal_trace (write_bytes (device := idle_device) 0x1ff0 [1; 2; 3])
    (masked (λ r t, ∃ chunks, laid_out (WINDOW + 0x1ff0) chunks [1; 2; 3] ∧
       each (program_command <$> chunks) r t)).
Proof.
  apply (flash_write_commands (device := idle_device) 0x1ff0 [1; 2; 3]).
  - split; reflexivity || discriminate.
  - repeat (apply Forall_cons_2; [split; reflexivity || discriminate|]). constructor.
Defined.

Lemma flash_erase_commands_witness :
  yields hal_trace (erase (device := idle_device) 0x100 0x300)
    (masked (each [erase_command 0xF6100; erase_command 0xF6200])).
Proof.
  apply (flash_erase_commands (device := idle_device) 0x100 0x300);
    split; reflexivity || discriminate.
Defined.

Lemma flash_read_verbatim_witness :
  yields hal_trace (read_bytes (device := idle_device) 0x20 [7; 7; 7])
    (masked (fetched (WINDOW + 0x20) [7; 7; 7] 3)).
Proof.
  apply (flash_read_verbatim (device := idle_device) 0x20 [7; 7; 7]).
  split; reflexivity || discriminate.
Defined.
