(* ===== verification/RadioMachine.v ===== *)
(** * The radio block: DMA policy, registers and the baseband interrupt

    [crates/ch58x-ble/src/radio_dma_policy.rs], [radio_phy.rs],
    [radio_rx_status.rs], and of [radio.rs] the registers, the static variables
    and the BLEB interrupt handler.  The hardware is a [RadioDevice]: it answers
    register and DMA-memory reads and the clock, and says before which accesses
    the interrupt is taken. *)

From S2P Require Import Prelude.
From S2P Require Import Effects.
From S2P Require Import Time.
From S2P Require Import Channel.

(** ** Receive-length policy *)

(*! crates/ch58x-ble/src/radio_dma_policy.rs 3-3 MAX_LL_DATA_PAYLOAD_LEN *)
Definition MAX_LL_DATA_PAYLOAD_LEN : Z := 27.
(*! crates/ch58x-ble/src/radio_dma_policy.rs 4-4 SUPPORTS_DATA_LENGTH_EXTENSION *)
Definition SUPPORTS_DATA_LENGTH_EXTENSION : bool := false.
(*! crates/ch58x-ble/src/radio_dma_policy.rs 5-5 SUPPORTS_EXTENDED_ADVERTISING *)
Definition SUPPORTS_EXTENDED_ADVERTISING : bool := false.
(*! crates/ch58x-ble/src/radio_dma_policy.rs 6-6 MAX_LEGACY_ADV_PAYLOAD_LEN *)
Definition MAX_LEGACY_ADV_PAYLOAD_LEN : Z := 37.
(*! crates/ch58x-ble/src/radio_dma_policy.rs 7-7 RF_DMA_BUFFER_LEN *)
Definition RF_DMA_BUFFER_LEN : Z := 64.
(*! crates/ch58x-ble/src/radio_dma_policy.rs 8-8 LL_HEADER_LEN *)
Definition LL_HEADER_LEN : Z := 2.
(*! crates/ch58x-ble/src/radio_dma_policy.rs 9-9 MAX_LEGACY_ADV_WIRE_LEN *)
Definition MAX_LEGACY_ADV_WIRE_LEN : Z := LL_HEADER_LEN + MAX_LEGACY_ADV_PAYLOAD_LEN.
(*! crates/ch58x-ble/src/radio_dma_policy.rs 10-10 MAX_DATA_WIRE_LEN *)
Definition MAX_DATA_WIRE_LEN : Z := LL_HEADER_LEN + MAX_LL_DATA_PAYLOAD_LEN.
(*! crates/ch58x-ble/src/radio_dma_policy.rs 11-11 CONNECTION_RX_MAX_WIRE_PAYLOAD_LEN *)
Definition CONNECTION_RX_MAX_WIRE_PAYLOAD_LEN : Z := MAX_LL_DATA_PAYLOAD_LEN.

(** The compile-time assertions. *)
(*! crates/ch58x-ble/src/radio_dma_policy.rs 13-18 dma_policy_assertions *)
Definition dma_policy_assertions : bool :=
  negb SUPPORTS_DATA_LENGTH_EXTENSION && negb SUPPORTS_EXTENDED_ADVERTISING &&
  (MAX_LEGACY_ADV_WIRE_LEN <=? RF_DMA_BUFFER_LEN) && (MAX_DATA_WIRE_LEN <=? RF_DMA_BUFFER_LEN).

Example dma_policy_holds : dma_policy_assertions = true.
Proof. reflexivity. Qed.

(*! crates/ch58x-ble/src/radio_dma_policy.rs 20-25 ReceiveLengthPolicy *)
Inductive ReceiveLengthPolicy : Type :=
| Accepted (wire_len : Z)
| PhysicalDmaOverflow
| UnsupportedCapability.

(*! crates/ch58x-ble/src/radio_dma_policy.rs 27-44 classify_received_length *)
Definition classify_received_length (advertising : bool) (payload_len : Z) : ReceiveLengthPolicy :=
  let wire_len := LL_HEADER_LEN + payload_len in
  if RF_DMA_BUFFER_LEN <? wire_len then PhysicalDmaOverflow
  else
    let maximum_wire_len := if advertising then MAX_LEGACY_ADV_WIRE_LEN else MAX_DATA_WIRE_LEN in
    if maximum_wire_len <? wire_len then UnsupportedCapability
    else Accepted wire_len.

(** ** LE 1M layout and timing *)

(*! crates/ch58x-ble/src/radio_phy.rs 4-6 legacy_request_payload_len_is_valid *)
Definition legacy_request_payload_len_is_valid (pdu_type payload_len : Z) : bool :=
  ((pdu_type =? 0x03) && (payload_len =? 12)) || ((pdu_type =? 0x05) && (payload_len =? 34)).

(** Packets longer than the buffer panic; the callers have checked. *)
(*! crates/ch58x-ble/src/radio_phy.rs 8-11 encode_transmit_buffer *)
Definition encode_transmit_buffer (packet : list Z) : option (list Z) :=
  if (length packet <=? Z.to_nat RF_DMA_BUFFER_LEN)%nat
  then Some (splice 0 packet (replicate (Z.to_nat RF_DMA_BUFFER_LEN) 0))
  else None.

(*! crates/ch58x-ble/src/radio_phy.rs 13-19 tx_1m_countdown *)
Definition tx_1m_countdown (packet_len : Z) : Z :=
  u32 (Z.shiftl (u32 (u32 ((u32 packet_len + 2) * 8) + 0xee)) 1).

(*! crates/ch58x-ble/src/radio_phy.rs 21-24 rx_1m_capture_countdown *)
Definition rx_1m_capture_countdown (max_packet_len : Z) : Z :=
  u32 (u32 (Z.shiftl (u32 max_packet_len + 5) 4) + 0x3c).

(*! crates/ch58x-ble/src/radio_phy.rs 26-29 rx_to_tx_timing *)
Definition rx_to_tx_timing (received_len : Z) : Z := 0x76.

(*! crates/ch58x-ble/src/radio_rx_status.rs 5-7 capture_ack *)
Definition capture_ack (status : Z) : Z := Z.land status (Z.shiftl 1 6).

(** ** Constants of [radio.rs] *)

(*! crates/ch58x-ble/src/radio.rs 21-21 BB_BASE *)
Definition BB_BASE : Z := 0x4000c100.
(*! crates/ch58x-ble/src/radio.rs 23-23 LLE_BASE *)
Definition LLE_BASE : Z := 0x4000c200.
(*! crates/ch58x-ble/src/radio.rs 25-25 RFEND_BASE *)
Definition RFEND_BASE : Z := 0x4000d000.
(*! crates/ch58x-ble/src/radio.rs 27-27 TX_POWER_0_DBM *)
Definition TX_POWER_0_DBM : Z := 0x15.
(*! crates/ch58x-ble/src/radio.rs 28-28 BB_TX_POWER_MASK *)
Definition BB_TX_POWER_MASK : Z := 0x7e000000.
(*! crates/ch58x-ble/src/radio.rs 30-30 BB_INTERRUPT_STATUS_MASK *)
Definition BB_INTERRUPT_STATUS_MASK : Z := 0x000001f0.
(*! crates/ch58x-ble/src/radio.rs 34-34 MAX_OPERATION_POLLS *)
Definition MAX_OPERATION_POLLS : Z := 65536.
(*! crates/ch58x-ble/src/radio.rs 40-40 BB_MODE_MASK *)
Definition BB_MODE_MASK : Z := 0x300.
(*! crates/ch58x-ble/src/radio.rs 42-42 BB_MODE_IDLE *)
Definition BB_MODE_IDLE : Z := 0x100.
(*! crates/ch58x-ble/src/radio.rs 44-44 BB_MODE_ACTIVE *)
Definition BB_MODE_ACTIVE : Z := 0x200.
(*! crates/ch58x-ble/src/radio.rs 46-46 LLE_MODE_IDLE *)
Definition LLE_MODE_IDLE : Z := 0x00030000.
(*! crates/ch58x-ble/src/radio.rs 48-48 LLE_MODE_CALIBRATION *)
Definition LLE_MODE_CALIBRATION : Z := 0x00030558.
(*! crates/ch58x-ble/src/radio.rs 50-50 LLE_MODE_RX *)
Definition LLE_MODE_RX : Z := 0x00030158.
(*! crates/ch58x-ble/src/radio.rs 52-52 LLE_MODE_TX *)
Definition LLE_MODE_TX : Z := 0x00030258.
(*! crates/ch58x-ble/src/radio.rs 53-53 LLE_TX_BUFFER_OFFSET *)
Definition LLE_TX_BUFFER_OFFSET : Z := 0x78.
(*! crates/ch58x-ble/src/radio.rs 55-55 LLE_RX_BUFFER_OFFSET *)
Definition LLE_RX_BUFFER_OFFSET : Z := 0x7c.
(*! crates/ch58x-ble/src/radio.rs 57-57 LLE_STATUS_RX_COMPLETE *)
Definition LLE_STATUS_RX_COMPLETE : Z := 0x1.
(*! crates/ch58x-ble/src/radio.rs 58-58 LLE_STATUS_TX_COMPLETE *)
Definition LLE_STATUS_TX_COMPLETE : Z := 0x2.
(*! crates/ch58x-ble/src/radio.rs 59-59 LLE_STATUS_RX_TO_TX *)
Definition LLE_STATUS_RX_TO_TX : Z := 0x4.
(*! crates/ch58x-ble/src/radio.rs 60-60 LLE_STATUS_TX_TO_RX *)
Definition LLE_STATUS_TX_TO_RX : Z := 0x8.
(*! crates/ch58x-ble/src/radio.rs 62-62 LLE_STATUS_RX_CAPTURE_COMPLETE *)
Definition LLE_STATUS_RX_CAPTURE_COMPLETE : Z := 0x20000.
(*! crates/ch58x-ble/src/radio.rs 63-63 LLE_STATUS_TIMING *)
Definition LLE_STATUS_TIMING : Z := LLE_STATUS_RX_CAPTURE_COMPLETE.
(*! crates/ch58x-ble/src/radio.rs 65-65 LLE_1M_TRANSITION_COUNTDOWN *)
Definition LLE_1M_TRANSITION_COUNTDOWN : Z := 0x18e.
(*! crates/ch58x-ble/src/radio.rs 68-68 LEGACY_ADV_RX_MAX_LEN *)
Definition LEGACY_ADV_RX_MAX_LEN : Z := MAX_LEGACY_ADV_PAYLOAD_LEN.
(*! crates/ch58x-ble/src/radio.rs 69-69 CONNECTION_EVENT_RX_BUFFER_LEN *)
Definition CONNECTION_EVENT_RX_BUFFER_LEN : Z := 2 + CONNECTION_RX_MAX_WIRE_PAYLOAD_LEN.
(*! crates/ch58x-ble/src/radio.rs 76-76 LEGACY_ADV_RESPONSE_WINDOW_US *)
Definition LEGACY_ADV_RESPONSE_WINDOW_US : Z := 650.
(*! crates/ch58x-ble/src/radio.rs 85-85 RF_DMA_LIMITS_MAGIC *)
Definition RF_DMA_LIMITS_MAGIC : Z := 0x52464c31.

(** [RadioRegisters::new]: the addresses of the named registers. *)
(*! crates/ch58x-ble/src/radio.rs 164-164 bb_config *)
Definition bb_config : Z := BB_BASE + 0x00.
(*! crates/ch58x-ble/src/radio.rs 165-165 bb_tx_crc_init *)
Definition bb_tx_crc_init : Z := BB_BASE + 0x04.
(*! crates/ch58x-ble/src/radio.rs 166-166 bb_tx_access_address *)
Definition bb_tx_access_address : Z := BB_BASE + 0x08.
(*! crates/ch58x-ble/src/radio.rs 167-167 bb_receive_config_10 *)
Definition bb_receive_config_10 : Z := BB_BASE + 0x10.
(*! crates/ch58x-ble/src/radio.rs 169-169 bb_receive_config_18 *)
Definition bb_receive_config_18 : Z := BB_BASE + 0x18.
(*! crates/ch58x-ble/src/radio.rs 171-171 bb_tx_control *)
Definition bb_tx_control : Z := BB_BASE + 0x2c.
(*! crates/ch58x-ble/src/radio.rs 172-172 bb_rssi_status *)
Definition bb_rssi_status : Z := BB_BASE + 0x30.
(*! crates/ch58x-ble/src/radio.rs 173-173 bb_interrupt_enable *)
Definition bb_interrupt_enable : Z := BB_BASE + 0x34.
(*! crates/ch58x-ble/src/radio.rs 174-174 bb_interrupt_status *)
Definition bb_interrupt_status : Z := BB_BASE + 0x38.
(*! crates/ch58x-ble/src/radio.rs 176-176 bb_config_3c *)
Definition bb_config_3c : Z := BB_BASE + 0x3c.
(*! crates/ch58x-ble/src/radio.rs 177-177 lle_command *)
Definition lle_command : Z := LLE_BASE + 0x00.
(*! crates/ch58x-ble/src/radio.rs 178-178 lle_config *)
Definition lle_config : Z := LLE_BASE + 0x04.
(*! crates/ch58x-ble/src/radio.rs 179-179 lle_status *)
Definition lle_status : Z := LLE_BASE + 0x08.
(*! crates/ch58x-ble/src/radio.rs 180-180 lle_interrupt_enable *)
Definition lle_interrupt_enable : Z := LLE_BASE + 0x0c.
(*! crates/ch58x-ble/src/radio.rs 181-181 lle_rx_to_tx_timing *)
Definition lle_rx_to_tx_timing : Z := LLE_BASE + 0x1c.
(*! crates/ch58x-ble/src/radio.rs 182-182 lle_mode *)
Definition lle_mode : Z := LLE_BASE + 0x50.
(*! crates/ch58x-ble/src/radio.rs 183-183 lle_operation_countdown *)
Definition lle_operation_countdown : Z := LLE_BASE + 0x64.
(*! crates/ch58x-ble/src/radio.rs 184-184 lle_tx_buffer *)
Definition lle_tx_buffer : Z := LLE_BASE + LLE_TX_BUFFER_OFFSET.
(*! crates/ch58x-ble/src/radio.rs 185-185 lle_rx_buffer *)
Definition lle_rx_buffer : Z := LLE_BASE + LLE_RX_BUFFER_OFFSET.

(** ** The machine *)

Section machine.
Context `{!EmbassyTime}.

(** Registers are 32-bit words by address, one of them also written as a half
    word.  The receive buffer belongs to the baseband once an operation runs:
    its bytes are answers of the device.  The addresses of the three static
    buffers are the linker's. *)
Class RadioDevice (D : Type) : Type := {
  rd_read : Z → D → Z * D;
  rd_write : Z → Z → D → D;
  rd_write16 : Z → Z → D → D;
  rd_dma : nat → D → Z * D;
  rd_fill : Z → D → D;
  rd_now : D → Instant * D;
  rd_irq : D → bool * D;
  tx_buffer_address : Z;
  response_buffer_address : Z;
  rx_buffer_address : Z;
}.

Inductive RadioEvent : Type :=
| RRead (address value : Z)
| RWrite (address value : Z)
| RWrite16 (address value : Z)
| RDma (offset : nat) (value : Z)
| RNow (micros : Z).

(** Who makes an access: the driver or the interrupt handler. *)
Inductive Access : Type :=
| Own (e : RadioEvent)
| Irq (e : RadioEvent).

(** [Radio] with the static variables of [radio.rs], the PFIC enable of
    interrupt 20, and the trace of accesses. *)
(*! crates/ch58x-ble/src/radio.rs 196-203 Radio *)
Record Machine (D : Type) : Type := mkMachine {
  m_dev : D;
  m_trace : list Access;
  m_tx_buffer : list Z;
  m_response_buffer : list Z;
  m_diagnostics : list Z;
  m_capture_seen : bool;
  m_capture_countdown : Z;
  m_irq_enabled : bool;
  m_access_address : Z;
  m_crc_init : Z;
  m_phy : Phy;
  m_digital_initialized : bool;
  m_frontend_calibrated : bool;
}.
#[global] Arguments mkMachine {D}.
#[global] Arguments m_dev {D}.
#[global] Arguments m_trace {D}.
#[global] Arguments m_tx_buffer {D}.
#[global] Arguments m_response_buffer {D}.
#[global] Arguments m_diagnostics {D}.
#[global] Arguments m_capture_seen {D}.
#[global] Arguments m_capture_countdown {D}.
#[global] Arguments m_irq_enabled {D}.
#[global] Arguments m_access_address {D}.
#[global] Arguments m_crc_init {D}.
#[global] Arguments m_phy {D}.
#[global] Arguments m_digital_initialized {D}.
#[global] Arguments m_frontend_calibrated {D}.
#[global] Instance Machine_eta D : Eta (Machine D) := λ m,
  mkMachine (m_dev m) (m_trace m) (m_tx_buffer m) (m_response_buffer m) (m_diagnostics m)
    (m_capture_seen m) (m_capture_countdown m) (m_irq_enabled m) (m_access_address m)
    (m_crc_init m) (m_phy m) (m_digital_initialized m) (m_frontend_calibrated m).

Context {D : Type} `{!RadioDevice D}.
Abbreviation R_ R A := (M (Machine D) R A).

(** *** Accesses, without interruption *)

Definition raw_read {R} (who : RadioEvent → Access) (address : Z) : R_ R Z := λ s,
  let '(v, d) := rd_read address (m_dev s) in
  let v := u32 v in
  Next v (s <| m_dev := d |> <| m_trace := m_trace s ++ [who (RRead address v)] |>).

Definition raw_write {R} (who : RadioEvent → Access) (address value : Z) : R_ R () := λ s,
  let v := u32 value in
  Next () (s <| m_dev := rd_write address v (m_dev s) |>
             <| m_trace := m_trace s ++ [who (RWrite address v)] |>).

Definition raw_write16 {R} (address value : Z) : R_ R () := λ s,
  let v := u16 value in
  Next () (s <| m_dev := rd_write16 address v (m_dev s) |>
             <| m_trace := m_trace s ++ [Own (RWrite16 address v)] |>).

Definition raw_dma {R} (offset : nat) : R_ R Z := λ s,
  let '(v, d) := rd_dma offset (m_dev s) in
  let v := u8 v in
  Next v (s <| m_dev := d |> <| m_trace := m_trace s ++ [Own (RDma offset v)] |>).

Definition raw_now {R} : R_ R Instant := λ s,
  let '(i, d) := rd_now (m_dev s) in
  Next i (s <| m_dev := d |> <| m_trace := m_trace s ++ [Own (RNow (instant_as_micros i))] |>).

Definition raw_irq {R} : R_ R bool := λ s,
  let '(b, d) := rd_irq (m_dev s) in Next b (s <| m_dev := d |>).

(** [CAPTURE_SEEN.store] and [RX_CAPTURE_COUNTDOWN.store]. *)
Definition store_capture_seen {R} (b : bool) : R_ R () := modify (λ s, s <| m_capture_seen := b |>).
Definition store_capture_countdown {R} (v : Z) : R_ R () :=
  modify (λ s, s <| m_capture_countdown := v |>).

(*! crates/ch58x-ble/src/radio.rs 957-979 BLEB *)
Definition BLEB {R} : R_ R () :=
  status ← raw_read Irq bb_interrupt_status;
  when_ (negb (Z.land status (Z.shiftl 1 6) =? 0)) (
    raw_write Irq bb_interrupt_status (capture_ack status);;
    countdown ← gets m_capture_countdown;
    when_ (negb (countdown =? 0)) (
      raw_write Irq lle_status LLE_STATUS_TIMING;;
      raw_write Irq lle_operation_countdown countdown;;
      store_capture_seen true));;
  remaining ← raw_read Irq bb_interrupt_status;
  raw_write Irq bb_interrupt_status (Z.land remaining 0x190).

(** The interrupt is taken, or not, before an access of the driver. *)
Definition preempt {R} : R_ R () :=
  enabled ← gets m_irq_enabled;
  when_ enabled (
    taken ← raw_irq;
    when_ taken BLEB).

(** *** Accesses of the driver *)

(*! crates/ch58x-ble/src/radio.rs 122-124 Register::read *)
Definition rread {R} (address : Z) : R_ R Z := preempt;; raw_read Own address.

(*! crates/ch58x-ble/src/radio.rs 126-128 Register::write *)
Definition rwrite {R} (address value : Z) : R_ R () := preempt;; raw_write Own address value.

(*! crates/ch58x-ble/src/radio.rs 130-132 Register::modify *)
Definition rmodify {R} (address : Z) (f : Z → Z) : R_ R () :=
  v ← rread address; rwrite address (f v).

Definition rwrite16 {R} (address value : Z) : R_ R () := preempt;; raw_write16 address value.

(*! crates/ch58x-ble/src/radio.rs 982-986 read_dma_byte *)
Definition read_dma_byte {R} (offset : nat) : R_ R Z := preempt;; raw_dma offset.

(** [rx.0.fill(0xff)]. *)
Definition fill_rx {R} (v : Z) : R_ R () := modify (λ s, s <| m_dev := rd_fill v (m_dev s) |>).

(** [Instant::now()]. *)
Definition now {R} : R_ R Instant := preempt;; raw_now.

(** [CAPTURE_SEEN.load]. *)
Definition load_capture_seen {R} : R_ R bool := preempt;; gets m_capture_seen.

End machine.
