(* ===== verification/FrontEnd.v ===== *)
(** * The analog front end

    [crates/ch58x-ble/src/rf_frontend.rs]: the baseline configuration and the
    per-die calibration, with their bounded waits.  Spin-loop hints have no
    effect; [snapshot] is empty in the source. *)

From S2P Require Import Prelude.
From S2P Require Import Effects.
From S2P Require Import Time.
From S2P Require Import Channel.
From S2P Require Import Hci.
From S2P Require Import RadioMachine.

(*! crates/ch58x-ble/src/rf_frontend.rs 11-11 TUNE_COUNTDOWN *)
Definition TUNE_COUNTDOWN : Z := 0x1f40.
(*! crates/ch58x-ble/src/rf_frontend.rs 13-13 FILTER_COUNTDOWN *)
Definition FILTER_COUNTDOWN : Z := 0x64.
(*! crates/ch58x-ble/src/rf_frontend.rs 14-14 MAX_CALIBRATION_POLLS *)
Definition MAX_CALIBRATION_POLLS : Z := 32768.

(** [FrontEnd::new]: the registers by offset, and the compensation table. *)
(*! crates/ch58x-ble/src/radio.rs 116-120 Register::at *)
Definition rfend (offset : Z) : Z := RFEND_BASE + offset.
(*! crates/ch58x-ble/src/rf_frontend.rs 61-75 tune_table *)
Definition tune_table : list Z :=
  rfend <$> [0xa0; 0xa4; 0xa8; 0xac; 0xb0; 0xb4; 0xb8; 0xbc; 0xc0; 0xc4; 0xc8; 0xcc; 0xd0].
(*! crates/ch58x-ble/src/rf_frontend.rs 43-43 control_04 *)
Definition control_04 : Z := rfend 0x04.
(*! crates/ch58x-ble/src/rf_frontend.rs 44-44 analog_enable_08 *)
Definition analog_enable_08 : Z := rfend 0x08.
(*! crates/ch58x-ble/src/rf_frontend.rs 45-45 reset_control_0c *)
Definition reset_control_0c : Z := rfend 0x0c.
(*! crates/ch58x-ble/src/rf_frontend.rs 46-46 config_28 *)
Definition config_28 : Z := rfend 0x28.
(*! crates/ch58x-ble/src/rf_frontend.rs 47-47 config_2c *)
Definition config_2c : Z := rfend 0x2c.
(*! crates/ch58x-ble/src/rf_frontend.rs 48-48 config_30 *)
Definition config_30 : Z := rfend 0x30.
(*! crates/ch58x-ble/src/rf_frontend.rs 49-49 config_38 *)
Definition config_38 : Z := rfend 0x38.
(*! crates/ch58x-ble/src/rf_frontend.rs 50-50 config_3c *)
Definition config_3c : Z := rfend 0x3c.
(*! crates/ch58x-ble/src/rf_frontend.rs 51-51 config_48 *)
Definition config_48 : Z := rfend 0x48.
(*! crates/ch58x-ble/src/rf_frontend.rs 52-52 config_4c *)
Definition config_4c : Z := rfend 0x4c.
(*! crates/ch58x-ble/src/rf_frontend.rs 53-53 filter_50 *)
Definition filter_50 : Z := rfend 0x50.
(*! crates/ch58x-ble/src/rf_frontend.rs 55-55 adc_58 *)
Definition adc_58 : Z := rfend 0x58.
(*! crates/ch58x-ble/src/rf_frontend.rs 57-57 config_5c *)
Definition config_5c : Z := rfend 0x5c.
(*! crates/ch58x-ble/src/rf_frontend.rs 58-58 tune_co_90 *)
Definition tune_co_90 : Z := rfend 0x90.
(*! crates/ch58x-ble/src/rf_frontend.rs 59-59 tune_ga_94 *)
Definition tune_ga_94 : Z := rfend 0x94.
(*! crates/ch58x-ble/src/rf_frontend.rs 60-60 filter_status_9c *)
Definition filter_status_9c : Z := rfend 0x9c.

Section frontend.
Context `{!EmbassyTime} {D : Type} `{!RadioDevice D}.
Abbreviation st R A := (M (Machine D) R A).
Abbreviation op A := (Machine D → option (A * Machine D)).

(*! crates/ch58x-ble/src/rf_frontend.rs 80-106 FrontEnd::initialize_baseline *)
Definition initialize_baseline {R} : st R () :=
  rwrite config_28 0x480;;
  rmodify config_3c (λ value, Z.lor (Z.ldiff value 0x06000000) 0x02000000);;
  rmodify config_3c (λ value, Z.lor (Z.ldiff value 0xe0000000) 0x40000000);;
  rmodify config_30 (λ value, Z.lor value 0x00000700);;
  rmodify config_30 (λ value, Z.lor value 0x00007000);;
  rmodify config_30 (λ value, Z.lor value 0x00070000);;
  rmodify config_30 (λ value, Z.lor (Z.ldiff value 0x70000000) 0x10000000);;
  rmodify config_48 (λ value, Z.ldiff value 0x00070000);;
  rmodify config_4c (λ value, Z.ldiff value 0x00000007);;
  rmodify config_4c (λ value, Z.ldiff value 0x00000070);;
  rmodify config_4c (λ value, Z.ldiff value 0x00030000);;
  rmodify config_5c (λ value, Z.ldiff value 0x00070000);;
  rmodify config_5c (λ value, Z.ldiff value 0x00700000).

(*! crates/ch58x-ble/src/rf_frontend.rs 132-135 FrontEnd::leave_calibration *)
Definition leave_calibration {R} : st R () :=
  rmodify analog_enable_08 (λ value, Z.land value 0xffcdffff).

(*! crates/ch58x-ble/src/rf_frontend.rs 207-219 FrontEnd::wait_tune *)
Definition wait_tune : op (result Error ()) := run (
  rwrite lle_operation_countdown TUNE_COUNTDOWN;;
  repeat_ (Z.to_nat MAX_CALIBRATION_POLLS) (
    co ← rread tune_co_90;
    when_ (Z.land co 0x06000000 =? 0x06000000) (return_ (Ok ()));;
    countdown ← rread lle_operation_countdown;
    when_ (countdown =? 0) (return_ (Err ErrorTimeout)));;
  mret (Err ErrorTimeout)).

(*! crates/ch58x-ble/src/rf_frontend.rs 190-199 FrontEnd::measure_ctune *)
Definition measure_ctune (tune : Z) : op (result Error Measurement) := run (
  rmodify control_04 (λ value, Z.ldiff value 0x01);;
  rmodify config_38 (λ value, Z.lor (Z.land value 0xfffe00ff) tune);;
  rmodify control_04 (λ value, Z.lor value 0x01);;
  waited ← call wait_tune;
  try Err waited;;
  co ← rread tune_co_90;
  ga ← rread tune_ga_94;
  mret (Ok (mkMeasurement (u8 (Z.land co 0x3f)) (u8 (Z.land (Z.shiftr ga 10) 0x7f))))).

(** The closure around the four measurements. *)
(*! crates/ch58x-ble/src/rf_frontend.rs 154-164 tx_ctune_measurements *)
Definition ctune_measurements : op (result Error (Measurement * Measurement * Measurement)) := run (
  m ← call (measure_ctune 0x0000bf00); mhz_2401 ← try Err m;
  m ← call (measure_ctune 0x0000e800); mhz_2480 ← try Err m;
  m ← call (measure_ctune 0x0000d400); mhz_2440 ← try Err m;
  m ← call (measure_ctune 0x0000fc00); _mhz_2522 ← try Err m;
  mret (Ok (mhz_2401, mhz_2440, mhz_2480))).

(*! crates/ch58x-ble/src/rf_frontend.rs 147-188 FrontEnd::tx_ctune *)
Definition tx_ctune : op (result Error ()) := run (
  rmodify control_04 (λ value, Z.ldiff value 0x100);;
  rmodify config_28 (λ value, Z.ldiff value 0x1000);;
  rmodify config_2c (λ value, Z.ldiff value 0x10);;
  rmodify analog_enable_08 (λ value, Z.lor value 0x00020000);;
  rmodify control_04 (λ value, Z.lor value 0x10);;
  measurements ← call ctune_measurements;
  rmodify control_04 (λ value, Z.ldiff value 0x11);;
  rmodify config_28 (λ value, Z.lor value 0x1000);;
  rmodify config_2c (λ value, Z.lor value 0x10);;
  measured ← try Err measurements;
  let '(mhz_2401, mhz_2440, mhz_2480) := measured in
  rmodify config_38 (λ value,
    Z.lor (Z.lor (Z.land value 0x80ffffc0) (Z.land (ms_co mhz_2440) 0x3f))
      (Z.shiftl (Z.land (ms_ga mhz_2440) 0x7f) 24));;
  table ← try (λ _, Err ErrorHardware) (build_table mhz_2401 mhz_2440 mhz_2480);
  for_each (zip (seq 0 TABLE_WORDS) (zip tune_table table)) (λ '(index, (register, value)),
    if (index + 1 =? TABLE_WORDS)%nat
    then rmodify register (λ old, Z.lor (Z.land old 0xf0000000) (Z.land value 0x0fffffff))
    else rwrite register value);;
  mret (Ok ())).

(*! crates/ch58x-ble/src/rf_frontend.rs 201-205 FrontEnd::tx_ftune *)
Definition tx_ftune {R} : st R () := rmodify control_04 (λ value, Z.lor value 0x100).

(** The polling loop of [rx_filter], left by [break]. *)
(*! crates/ch58x-ble/src/rf_frontend.rs 239-247 rx_filter_wait *)
Definition rx_filter_wait : op () := run (
  repeat_ (Z.to_nat MAX_CALIBRATION_POLLS) (
    status ← rread filter_status_9c;
    when_ (negb (Z.land status 0x100 =? 0)) (return_ ());;
    countdown ← rread lle_operation_countdown;
    when_ (countdown =? 0) (return_ ()));;
  mret ()).

(*! crates/ch58x-ble/src/rf_frontend.rs 221-256 FrontEnd::rx_filter *)
Definition rx_filter {R} : st R () :=
  rmodify filter_50 (λ value, Z.ldiff value 0x00010000);;
  rmodify analog_enable_08 (λ value, Z.lor value 0x00200000);;
  rmodify reset_control_0c (λ value, Z.lor value 0x10);;
  rmodify reset_control_0c (λ value, Z.ldiff value 0x10);;
  rmodify reset_control_0c (λ value, Z.lor value 0x10);;
  rmodify control_04 (λ value, Z.lor value 0x1000);;
  rwrite lle_operation_countdown FILTER_COUNTDOWN;;
  call rx_filter_wait;;
  status ← rread filter_status_9c;
  let result_ := Z.land status 0x1f in
  rmodify filter_50 (λ value, Z.lor value 0x00010000);;
  rmodify filter_50 (λ value, Z.lor (Z.ldiff value 0x1f) result_);;
  rmodify analog_enable_08 (λ value, Z.ldiff value 0x00200000).

(*! crates/ch58x-ble/src/rf_frontend.rs 258-265 FrontEnd::rx_adc *)
Definition rx_adc {R} : st R () :=
  rmodify adc_58 (λ value, Z.ldiff value 0x00010000);;
  rmodify analog_enable_08 (λ value, Z.lor value 0x00010000);;
  rmodify reset_control_0c (λ value, Z.ldiff value 0x100);;
  rmodify control_04 (λ value, Z.ldiff value 0x00010000);;
  rmodify reset_control_0c (λ value, Z.lor value 0x100);;
  rmodify control_04 (λ value, Z.lor value 0x00010000).

(*! crates/ch58x-ble/src/rf_frontend.rs 108-130 FrontEnd::calibrate *)
Definition calibrate : op (result Error ()) := run (
  rmodify analog_enable_08 (λ value, Z.lor value 0x00330000);;
  tuned ← call tx_ctune;
  try Err tuned;;
  tx_ftune;;
  rx_filter;;
  rx_adc;;
  mret (Ok ())).

End frontend.
