(* ===== verification/Radio.v ===== *)
(** * The radio backend

    [crates/ch58x-ble/src/radio.rs]: initialization, the direct operations and
    the two hardware-chained exchanges, register by register.  The loops bounded
    by the clock take fuel; running out of it is the panic outcome, excluded by
    the theorems of [RadioTime]. *)

From S2P Require Import Prelude.
From S2P Require Import Effects.
From S2P Require Import Time.
From S2P Require Import Channel.
From S2P Require Import Timing.
From S2P Require Import Advertising.
From S2P Require Import Runner.
From S2P Require Import RadioMachine.
From S2P Require Import FrontEnd.

(** [status & mask != 0]. *)
Definition any_bit (v mask : Z) : bool := negb (Z.land v mask =? 0).

(** [-((status >> 15) as u8 as i8)], with wrapping arithmetic. *)
Definition as_i8 (v : Z) : Z := if 128 <=? u8 v then u8 v - 256 else u8 v.

Section radio.
Context `{!EmbassyTime} {D : Type} `{!RadioDevice D}.
Abbreviation st R A := (M (Machine D) R A).
Abbreviation op A := (Machine D → option (A * Machine D)).

(** A loop whose fuel is spent. *)
Definition out_of_fuel {R A} : st R A := λ _, Panic.

(*! crates/ch58x-ble/src/radio.rs 95-103 rf_dma_limit_counters *)
Definition rf_dma_limit_counters (s : Machine D) : Z * Z :=
  if negb (m_diagnostics s !!! 0%nat =? RF_DMA_LIMITS_MAGIC) then (0, 0)
  else (m_diagnostics s !!! 1%nat, m_diagnostics s !!! 2%nat).

(** On a device [d], with the static variables as reset leaves them. *)
(*! crates/ch58x-ble/src/radio.rs 208-220 Radio::new *)
Definition radio_new (d : D) (tx response : list Z) (irq : bool) : Machine D :=
  mkMachine d [] tx response [RF_DMA_LIMITS_MAGIC; 0; 0] false 0 irq
    ADV_ACCESS_ADDRESS ADV_CRC_INIT Le1M false false.

(** ** Initialization *)

(*! crates/ch58x-ble/src/radio.rs 1033-1036 Radio::set_access_address *)
Definition radio_set_access_address {R} (access_address : Z) : st R () :=
  modify (λ s, s <| m_access_address := access_address |>);;
  rwrite bb_tx_access_address access_address.

(*! crates/ch58x-ble/src/radio.rs 1038-1041 Radio::set_crc_init *)
Definition radio_set_crc_init {R} (crc_init : Z) : st R () :=
  modify (λ s, s <| m_crc_init := Z.land crc_init 0x00ffffff |>);;
  crc_init ← gets m_crc_init;
  rwrite bb_tx_crc_init crc_init.

(*! crates/ch58x-ble/src/radio.rs 1043-1051 Radio::set_phy *)
Definition radio_set_phy (phy : Phy) : op (result Error ()) := run (
  when_ (negb (bool_decide (phy = Le1M))) (return_ (Err ErrorHardware));;
  modify (λ s, s <| m_phy := phy |>);;
  mret (Ok ())).

(*! crates/ch58x-ble/src/radio.rs 233-268 Radio::init_lle *)
Definition init_lle {R} : st R () :=
  rwrite lle_tx_buffer tx_buffer_address;;
  rwrite lle_rx_buffer rx_buffer_address;;
  for_each [(0x14, 0x8c); (0x1c, 0x76); (0x24, 0x8c); (0x2c, 0x6e);
            (0x34, 0x8c); (0x3c, 0x6e); (0x44, 0x8c); (0x4c, 0x76)]
    (λ '(offset, value), rwrite (LLE_BASE + offset) value);;
  rmodify lle_config (λ value, Z.ldiff value 0x1f);;
  rwrite16 (LLE_BASE + 0x06) 1;;
  rwrite (LLE_BASE + 0x54) 0;;
  rwrite lle_status U32_MAX;;
  rwrite lle_interrupt_enable 0x001f000f.

(*! crates/ch58x-ble/src/radio.rs 270-292 Radio::init_baseband *)
Definition init_baseband {R} : st R () :=
  rmodify bb_config (λ value,
    Z.lor (Z.ldiff (Z.lor value (Z.shiftl 1 23)) BB_MODE_MASK) BB_MODE_IDLE);;
  rwrite bb_interrupt_status 0x3ff;;
  rwrite bb_interrupt_enable 0x50;;
  rmodify bb_tx_control (λ value,
    Z.lor (Z.ldiff (Z.lor value (Z.shiftl 1 31)) BB_TX_POWER_MASK) (Z.shiftl TX_POWER_0_DBM 25));;
  rmodify (RFEND_BASE + 0x5c) (λ value, Z.lor (Z.ldiff value 0x07000000) 0x01000000);;
  rwrite bb_config_3c 0x0002020c;;
  rmodify bb_receive_config_10 (λ value, Z.lor (Z.ldiff value 0x3f) 0x0e);;
  rwrite lle_mode LLE_MODE_IDLE;;
  access_address ← gets m_access_address;
  radio_set_access_address access_address;;
  crc_init ← gets m_crc_init;
  radio_set_crc_init crc_init.

(*! crates/ch58x-ble/src/radio.rs 226-231 Radio::init_digital *)
Definition init_digital : op () := run (
  init_lle;;
  init_baseband;;
  modify (λ s, s <| m_digital_initialized := true |> <| m_frontend_calibrated := false |>)).

(** [qingke::pfic], as the enable bit of interrupt 20; [unpend] clears what is
    pending, which is the device's. *)
Definition enable_interrupt {R} (b : bool) : st R () := modify (λ s, s <| m_irq_enabled := b |>).

(*! crates/ch58x-ble/src/radio.rs 298-349 Radio::initialize *)
Definition initialize : op (result Error ()) := run (
  init_lle;;
  initialize_baseline;;
  init_baseband;;
  modify (λ s, s <| m_digital_initialized := true |> <| m_frontend_calibrated := false |>);;
  rmodify lle_mode (λ value, Z.ldiff value 0x700);;
  rmodify lle_command (λ value, Z.lor value 0x08);;
  rmodify bb_config (λ value, Z.lor value (Z.shiftl 1 7));;
  rmodify bb_config (λ value, Z.lor (Z.ldiff value BB_MODE_MASK) BB_MODE_ACTIVE);;
  rwrite lle_mode LLE_MODE_CALIBRATION;;
  result_ ← call calibrate;
  rmodify bb_config (λ value, Z.lor (Z.ldiff value BB_MODE_MASK) BB_MODE_IDLE);;
  rwrite lle_status LLE_STATUS_TIMING;;
  leave_calibration;;
  rwrite lle_mode LLE_MODE_IDLE;;
  modify (λ s, s <| m_frontend_calibrated := is_ok result_ |>);;
  when_ (is_ok result_) (enable_interrupt true);;
  mret result_).

(** ** Staging and channels *)

(*! crates/ch58x-ble/src/radio.rs 405-420 Radio::configure_ch585_synth *)
Definition configure_ch585_synth {R} (channel : Channel) (receive : bool) : st R () :=
  mhz ← unwrap (frequency_mhz channel);
  let frequency_khz := u32 (mhz * 1000) in
  let frequency_khz := if receive then u32 (frequency_khz - 1000) else frequency_khz in
  rmodify (RFEND_BASE + 0x2c) (λ value, Z.lor value 0x02);;
  let integer := Z.land (frequency_khz / 64000) 0x1f in
  let fraction := Z.land (u32 (Z.shiftl (frequency_khz mod 64000) 10) / 250) 0x0003ffff in
  rmodify (RFEND_BASE + 0x44) (λ value,
    Z.lor (Z.lor (Z.land value 0xfe0c0000) (Z.shiftl integer 20)) fraction).

(*! crates/ch58x-ble/src/radio.rs 378-384 Radio::set_channel *)
Definition set_channel {R} (channel : Channel) : st R () :=
  rmodify bb_config (λ value, Z.lor (Z.ldiff value 0x7f) (index channel));;
  configure_ch585_synth channel false.

(*! crates/ch58x-ble/src/radio.rs 386-403 Radio::set_receive_channel *)
Definition set_receive_channel {R} (channel : Channel) : st R () :=
  rmodify bb_config (λ value, Z.lor (Z.ldiff value 0x7f) (index channel));;
  configure_ch585_synth channel true;;
  rmodify (RFEND_BASE + 0x2c) (λ value, Z.ldiff value 0x03).

(*! crates/ch58x-ble/src/radio.rs 351-367 Radio::stage_transmit *)
Definition stage_transmit (channel : Channel) (packet : list Z) : op (result Error ()) := run (
  digital ← gets m_digital_initialized;
  calibrated ← gets m_frontend_calibrated;
  when_ (negb digital || negb calibrated) (return_ (Err ErrorHardware));;
  when_ ((length packet <? 2)%nat || (Z.to_nat RF_DMA_BUFFER_LEN <? length packet)%nat)
    (return_ (Err ErrorInvalidPacket));;
  buffer ← unwrap (encode_transmit_buffer packet);
  modify (λ s, s <| m_tx_buffer := buffer |>);;
  set_channel channel;;
  rwrite lle_tx_buffer tx_buffer_address;;
  mret (Ok ())).

(*! crates/ch58x-ble/src/radio.rs 369-376 Radio::stage_response *)
Definition stage_response (packet : list Z) : op (result Error Z) := run (
  when_ ((length packet <? 2)%nat || (Z.to_nat RF_DMA_BUFFER_LEN <? length packet)%nat)
    (return_ (Err ErrorInvalidPacket));;
  buffer ← unwrap (encode_transmit_buffer packet);
  modify (λ s, s <| m_response_buffer := buffer |>);;
  mret (Ok response_buffer_address)).

(** ** Pieces of an operation *)

(*! crates/ch58x-ble/src/radio.rs 422-437 Radio::prepare_common_operation *)
Definition prepare_common_operation {R} (mode : Z) : st R () :=
  rwrite16 (LLE_BASE + 0x06) (if mode =? LLE_MODE_TX then 0x50 else 1);;
  rmodify bb_tx_control (λ value, Z.lor (Z.ldiff value 0x03) 0x01);;
  rmodify bb_config (λ value, Z.lor (Z.ldiff value BB_MODE_MASK) BB_MODE_ACTIVE);;
  rmodify (RFEND_BASE + 0x08) (λ value, Z.lor value 0x00330000);;
  rwrite lle_mode mode.

(*! crates/ch58x-ble/src/radio.rs 439-446 Radio::prepare_receive_operation *)
Definition prepare_receive_operation {R} : st R () :=
  rwrite16 (LLE_BASE + 0x06) 1;;
  rmodify bb_config (λ value, Z.lor (Z.ldiff value BB_MODE_MASK) BB_MODE_ACTIVE);;
  rmodify (RFEND_BASE + 0x08) (λ value, Z.lor value 0x00330000);;
  rwrite lle_mode LLE_MODE_RX.

(*! crates/ch58x-ble/src/radio.rs 448-456 Radio::wait_for_settle_countdown *)
Definition wait_for_settle_countdown : op (result Error ()) := run (
  repeat_ (Z.to_nat MAX_OPERATION_POLLS) (
    countdown ← rread lle_operation_countdown;
    when_ (countdown =? 0) (return_ (Ok ())));;
  mret (Err ErrorTimeout)).

(*! crates/ch58x-ble/src/radio.rs 458-471 Radio::configure_transmit_phy_1m *)
Definition configure_transmit_phy_1m {R} (packet_len : Z) : st R () :=
  rmodify bb_config (λ value, Z.ldiff value (Z.shiftl 1 7));;
  rmodify lle_interrupt_enable (λ value, Z.ldiff value LLE_STATUS_TIMING);;
  rwrite lle_status LLE_STATUS_TIMING;;
  rwrite lle_operation_countdown (tx_1m_countdown packet_len).

(*! crates/ch58x-ble/src/radio.rs 473-482 Radio::configure_receive_phy_1m *)
Definition configure_receive_phy_1m {R} : st R () :=
  rmodify bb_config (λ value, Z.ldiff value (Z.shiftl 1 7));;
  rmodify bb_receive_config_18 (λ value, Z.lor (Z.ldiff value 0xff0003ff) 0x7f000132).

(*! crates/ch58x-ble/src/radio.rs 484-503 Radio::continue_tx_to_rx_1m *)
Definition continue_tx_to_rx_1m {R} (channel : Channel) : st R () :=
  rwrite lle_status LLE_STATUS_TX_TO_RX;;
  rmodify bb_tx_control (λ value, Z.lor (Z.ldiff value 0x03) 0x01);;
  configure_ch585_synth channel true;;
  configure_receive_phy_1m;;
  rwrite lle_status LLE_STATUS_TIMING;;
  rwrite lle_operation_countdown LLE_1M_TRANSITION_COUNTDOWN.

(*! crates/ch58x-ble/src/radio.rs 505-534 Radio::release_receive_to_transmit_1m *)
Definition release_receive_to_transmit_1m {R} (channel : Channel)
    (transmit_address transmit_len received_len : Z) : st R () :=
  rwrite lle_tx_buffer transmit_address;;
  rwrite lle_rx_to_tx_timing (rx_to_tx_timing received_len);;
  rwrite lle_status LLE_STATUS_RX_TO_TX;;
  rmodify bb_tx_control (λ value, Z.lor (Z.ldiff value 0x03) 0x01);;
  configure_ch585_synth channel false;;
  configure_transmit_phy_1m transmit_len;;
  rmodify bb_config (λ value,
    Z.lor (Z.lor (Z.ldiff value BB_MODE_MASK) BB_MODE_ACTIVE) (Z.shiftl 1 23));;
  rmodify (RFEND_BASE + 0x08) (λ value, Z.lor value 0x00330000);;
  rwrite lle_mode LLE_MODE_TX;;
  rmodify bb_tx_control (λ value, Z.ldiff value 0x03).

(*! crates/ch58x-ble/src/radio.rs 536-544 Radio::start_transmit_operation *)
Definition start_transmit_operation {R} : st R () :=
  rmodify bb_config (λ value, Z.lor value (Z.shiftl 1 23));;
  rmodify bb_tx_control (λ value, Z.ldiff value 0x03);;
  rwrite lle_command 2.

(*! crates/ch58x-ble/src/radio.rs 546-565 Radio::shut_down_operation *)
Definition shut_down_operation {R} : st R () :=
  store_capture_countdown 0;;
  rmodify lle_mode (λ value, Z.ldiff value 0x10);;
  rmodify lle_mode (λ value, Z.ldiff value 0x700);;
  rmodify lle_command (λ value, Z.lor value 0x08);;
  rmodify bb_config (λ value, Z.lor (Z.ldiff value BB_MODE_MASK) BB_MODE_IDLE);;
  rmodify (RFEND_BASE + 0x08) (λ value, Z.land value 0xffcdffff);;
  rwrite lle_mode LLE_MODE_IDLE.

(*! crates/ch58x-ble/src/radio.rs 567-578 Radio::wait_for_operation *)
Definition wait_for_operation (completion_mask : Z) : op (result Error ()) := run (
  repeat_ (Z.to_nat MAX_OPERATION_POLLS) (
    status ← rread lle_status;
    when_ (any_bit status completion_mask) (return_ (Ok ()));;
    countdown ← rread lle_operation_countdown;
    when_ (countdown =? 0) (return_ (Err ErrorTimeout)));;
  mret (Err ErrorTimeout)).

(*! crates/ch58x-ble/src/radio.rs 580-587 Radio::clear_bb_interrupt_status *)
Definition clear_bb_interrupt_status {R} : st R () :=
  observed ← rread bb_interrupt_status;
  rwrite bb_interrupt_status (Z.land observed BB_INTERRUPT_STATUS_MASK).

(*! crates/ch58x-ble/src/radio.rs 589-596 Radio::clear_lle_status *)
Definition clear_lle_status {R} : st R () := rwrite lle_status U32_MAX.

(** One pass of the polling loop, with the [capture_started] it leaves. *)
(*! crates/ch58x-ble/src/radio.rs 603-639 receive_pass *)
Definition receive_pass (software_receive_deadline : Instant) (capture_started : bool)
  : st (result Error ()) bool :=
  bb_status ← rread bb_interrupt_status;
  when_ (any_bit bb_status (Z.shiftl 1 6)) (
    rwrite bb_interrupt_status (capture_ack bb_status);;
    rwrite lle_status LLE_STATUS_TIMING;;
    rwrite lle_operation_countdown (rx_1m_capture_countdown LEGACY_ADV_RX_MAX_LEN));;
  let capture_started := capture_started || any_bit bb_status (Z.shiftl 1 6) in
  when_ capture_started (
    status ← rread lle_status;
    when_ (any_bit status (Z.lor LLE_STATUS_RX_COMPLETE LLE_STATUS_RX_CAPTURE_COMPLETE))
      (return_ (Ok ())));;
  countdown ← rread lle_operation_countdown;
  when_ (countdown =? 0) (return_ (Err ErrorTimeout));;
  when_ (negb capture_started) (
    t ← now;
    when_ (negb (instant_ltb t software_receive_deadline)) (return_ (Err ErrorTimeout)));;
  mret capture_started.

Fixpoint receive_polls (n : nat) (deadline : Instant) (capture_started : bool)
  : st (result Error ()) () :=
  match n with
  | O => mret ()
  | S n => capture_started ← receive_pass deadline capture_started;
           receive_polls n deadline capture_started
  end.

(*! crates/ch58x-ble/src/radio.rs 598-641 Radio::wait_for_polled_receive_operation *)
Definition wait_for_polled_receive_operation (deadline : Instant) : op (result Error ()) := run (
  receive_polls (Z.to_nat MAX_OPERATION_POLLS) deadline false;;
  mret (Err ErrorTimeout)).

(** The number of bytes copied, and the output slice. *)
Fixpoint copy_dma_bytes {R} (i n : nat) (output : list Z) : st R (list Z) :=
  match n with
  | O => mret output
  | S n => byte ← read_dma_byte i; copy_dma_bytes (S i) n (<[i := byte]> output)
  end.

(** [RF_DMA_LIMIT_DIAGNOSTICS[i].fetch_add(1)]. *)
Definition count_limit {R} (i : nat) : st R () :=
  modify (λ s, s <| m_diagnostics := alter (λ v, u32 (v + 1)) i (m_diagnostics s) |>).

(*! crates/ch58x-ble/src/radio.rs 988-1017 copy_received_packet *)
Definition copy_received_packet (output : list Z) (advertising : bool) : op (nat * list Z) := run (
  claimed ← read_dma_byte 1;
  let payload_len := if advertising then Z.land claimed 0x3f else claimed in
  match classify_received_length advertising payload_len with
  | PhysicalDmaOverflow => count_limit 1;; mret (0%nat, output)
  | UnsupportedCapability => count_limit 2;; mret (0%nat, output)
  | Accepted wire_len =>
      let copy_len := Z.to_nat wire_len in
      if (length output <? copy_len)%nat then mret (0%nat, output)
      else output ← copy_dma_bytes 0 copy_len output; mret (copy_len, output)
  end).

(** [timeout.as_micros().saturating_mul(4).clamp(1, u32::MAX) as u32]. *)
Definition quarter_micros (timeout : Duration) : Z :=
  Z.min (Z.max (saturating_mul64 (duration_as_micros timeout) 4) 1) U32_MAX.

Definition instant_min (a b : Instant) : Instant := if instant_ltb b a then b else a.

Definition read_rssi {R} : st R Z :=
  status ← rread bb_rssi_status;
  mret (as_i8 (- as_i8 (Z.shiftr status 15))).

(** ** Direct operations *)

(*! crates/ch58x-ble/src/radio.rs 643-661 Radio::transmit_blocking *)
Definition transmit_blocking (channel : Channel) (packet : list Z) : op (result Error ()) := run (
  staged ← call (stage_transmit channel packet);
  try Err staged;;
  prepare_common_operation LLE_MODE_TX;;
  rmodify lle_config (λ value, Z.ldiff value 0x01);;
  clear_lle_status;;
  clear_bb_interrupt_status;;
  rwrite lle_operation_countdown 0xa0;;
  settled ← call wait_for_settle_countdown;
  try Err settled;;
  configure_transmit_phy_1m (Z.of_nat (length packet));;
  start_transmit_operation;;
  result_ ← call (wait_for_operation (Z.shiftl 1 1));
  shut_down_operation;;
  mret result_).

(*! crates/ch58x-ble/src/radio.rs 663-732 Radio::receive_blocking *)
Definition receive_blocking (channel : Channel) (timeout : Duration) (output : list Z)
  : op (result Error ReceivedPacket) := run (
  digital ← gets m_digital_initialized;
  calibrated ← gets m_frontend_calibrated;
  when_ (negb digital || negb calibrated) (return_ (Err ErrorHardware));;
  when_ (length output =? 0)%nat (return_ (Err ErrorInvalidPacket));;
  fill_rx 0xff;;
  rwrite lle_rx_buffer rx_buffer_address;;
  set_receive_channel channel;;
  rmodify lle_config (λ value, Z.ldiff value 0x01);;
  clear_lle_status;;
  clear_bb_interrupt_status;;
  configure_receive_phy_1m;;
  enable_interrupt false;;
  rwrite lle_operation_countdown (quarter_micros timeout);;
  prepare_receive_operation;;
  start ← now;
  let software_receive_deadline := instant_add start timeout in
  rwrite lle_command 1;;
  wait ← call (wait_for_polled_receive_operation software_receive_deadline);
  status ← rread bb_interrupt_status;
  let crc_ok := negb (any_bit status (Z.shiftl 1 5)) in
  access_address ← gets m_access_address;
  copied ← call (copy_received_packet output (access_address =? ADV_ACCESS_ADDRESS));
  let '(copy_len, output) := copied in
  rssi_dbm ← read_rssi;
  shut_down_operation;;
  enable_interrupt true;;
  try Err wait;;
  when_ (copy_len =? 0)%nat (return_ (Err ErrorTimeout));;
  end_ ← now;
  mret (Ok (mkReceivedPacket (take copy_len output) rssi_dbm crc_ok (instant_as_micros end_)))).

(** ** The connection exchange *)

(** What the loop of [exchange] keeps: [timestamp_us], [turnaround] and
    [transmitted]. *)
Definition ExchangeState : Type := option Z * bool * bool.

(** The release of the staged response, in the order of [exchange]. *)
(*! crates/ch58x-ble/src/radio.rs 784-799 exchange_release *)
Definition exchange_release {R} (channel : Channel) (transmit_len received_len : Z) : st R () :=
  rwrite lle_rx_to_tx_timing (rx_to_tx_timing received_len);;
  rwrite lle_status LLE_STATUS_RX_COMPLETE;;
  rwrite lle_status LLE_STATUS_RX_TO_TX;;
  rmodify bb_tx_control (λ value, Z.lor (Z.ldiff value 0x03) 0x01);;
  configure_transmit_phy_1m transmit_len;;
  configure_ch585_synth channel false;;
  rmodify bb_config (λ value,
    Z.lor (Z.lor (Z.ldiff value BB_MODE_MASK) BB_MODE_ACTIVE) (Z.shiftl 1 23));;
  rmodify (RFEND_BASE + 0x08) (λ value, Z.lor value 0x00330000);;
  rwrite lle_mode LLE_MODE_TX;;
  rmodify bb_tx_control (λ value, Z.ldiff value 0x03).

(** One pass of the loop: [inr] leaves it with [break]. *)
(*! crates/ch58x-ble/src/radio.rs 773-815 exchange_pass *)
Definition exchange_pass {R} (channel : Channel) (transmit_len : Z) (receive_deadline : Instant)
    (x : ExchangeState) : st R (ExchangeState + ExchangeState) :=
  let '(timestamp_us, turnaround, transmitted) := x in
  status ← rread lle_status;
  if any_bit status LLE_STATUS_RX_TO_TX && negb turnaround then
    length_ ← read_dma_byte 1;
    t ← now;
    let timestamp_us := Some (instant_as_micros t) in
    bb_status ← rread bb_interrupt_status;
    if any_bit bb_status (Z.shiftl 1 5) || (CONNECTION_RX_MAX_WIRE_PAYLOAD_LEN <? length_)
    then mret (inr (timestamp_us, turnaround, transmitted))
    else exchange_release channel transmit_len length_;;
         mret (inl (timestamp_us, true, transmitted))
  else if turnaround && any_bit status LLE_STATUS_RX_COMPLETE then
    rwrite lle_status LLE_STATUS_RX_COMPLETE;;
    mret (inr (timestamp_us, turnaround, true))
  else
    countdown ← rread lle_operation_countdown;
    if countdown =? 0 then mret (inr x)
    else if turnaround then mret (inl x)
    else
      t ← now;
      if negb (instant_ltb t receive_deadline) then mret (inr x) else mret (inl x).

(*! crates/ch58x-ble/src/radio.rs 772-816 exchange_loop *)
Fixpoint exchange_loop {R} (fuel : nat) (channel : Channel) (transmit_len : Z)
    (receive_deadline operation_deadline : Instant) (x : ExchangeState) : st R ExchangeState :=
  match fuel with
  | O => out_of_fuel
  | S fuel =>
      t ← now;
      if negb (instant_ltb t operation_deadline) then mret x
      else
        next ← exchange_pass channel transmit_len receive_deadline x;
        match next with
        | inl x => exchange_loop fuel channel transmit_len receive_deadline operation_deadline x
        | inr x => mret x
        end
  end.

(** What follows the loop: the packet is copied and the operation shut down. *)
(*! crates/ch58x-ble/src/radio.rs 817-833 exchange_finish *)
Definition exchange_finish (output : list Z) (x : ExchangeState)
  : st (result Error ExchangeResult) (result Error ExchangeResult) :=
  let '(timestamp_us, turnaround, transmitted) := x in
  status ← rread bb_interrupt_status;
  let crc_ok := negb (any_bit status (Z.shiftl 1 5)) in
  copied ← call (copy_received_packet output false);
  let '(len, output) := copied in
  rssi_dbm ← read_rssi;
  shut_down_operation;;
  timestamp_us ← try Err (ok_or timestamp_us ErrorTimeout);
  when_ (len <? 2)%nat (return_ (Err ErrorInvalidPacket));;
  mret (Ok (mkExchangeResult
    (mkReceivedPacket (take len output) rssi_dbm crc_ok timestamp_us) transmitted)).

(*! crates/ch58x-ble/src/radio.rs 735-834 Radio::exchange *)
Definition exchange (fuel : nat) (channel : Channel) (deadline : Instant) (timeout : Duration)
    (transmit output : list Z) : op (result Error ExchangeResult) := run (
  when_ (length output <? Z.to_nat CONNECTION_EVENT_RX_BUFFER_LEN)%nat
    (return_ (Err ErrorInvalidPacket));;
  staged ← call (stage_transmit channel transmit);
  try Err staged;;
  fill_rx 0xff;;
  rwrite lle_rx_buffer rx_buffer_address;;
  set_receive_channel channel;;
  prepare_common_operation LLE_MODE_RX;;
  rmodify lle_config (λ value, Z.lor value 0x01);;
  clear_lle_status;;
  clear_bb_interrupt_status;;
  configure_receive_phy_1m;;
  store_capture_countdown (rx_1m_capture_countdown CONNECTION_RX_MAX_WIRE_PAYLOAD_LEN);;
  rwrite lle_operation_countdown (quarter_micros timeout);;
  rwrite lle_command 1;;
  start ← now;
  let receive_deadline := instant_min (instant_add start timeout) deadline in
  let operation_deadline := instant_add receive_deadline (duration_from_micros 1000) in
  finished ← exchange_loop fuel channel (Z.of_nat (length transmit)) receive_deadline
               operation_deadline (None, false, false);
  exchange_finish output finished).

(** ** The advertising exchange *)

(** [deadline], [armed], [responding], [buffered_end] and [received], with the
    output slice. *)
Record AdvState : Type := mkAdvState {
  as_deadline : Instant;
  as_armed : bool;
  as_responding : bool;
  as_buffered_end : option Instant;
  as_received : option (nat * bool * Z);
  as_output : list Z;
}.
#[global] Instance AdvState_eta : Eta AdvState := λ a,
  mkAdvState (as_deadline a) (as_armed a) (as_responding a) (as_buffered_end a)
    (as_received a) (as_output a).

(** [buffered_end.is_some_and(|end| now >= end)]. *)
Definition reached {R} (end_ : option Instant) : st R bool :=
  match end_ with
  | None => mret false
  | Some end_ => t ← now; mret (negb (instant_ltb t end_))
  end.

(** The first half of a pass: arm the receive leg, and note a complete request
    header. *)
(*! crates/ch58x-ble/src/radio.rs 872-890 advertising_arm *)
Definition advertising_arm {R} (channel : Channel) (timeout : Duration) (status : Z)
    (a : AdvState) : st R (AdvState * Z * Z) :=
  a ← (if negb (as_armed a) && any_bit status (Z.lor LLE_STATUS_TX_TO_RX LLE_STATUS_TX_COMPLETE)
       then
         continue_tx_to_rx_1m channel;;
         t ← now;
         mret (a <| as_armed := true |>
                 <| as_deadline := instant_add t (duration_from_micros
                      (Z.max (duration_as_micros timeout) LEGACY_ADV_RESPONSE_WINDOW_US)) |>)
       else mret a : st R AdvState);
  type_byte ← read_dma_byte 0;
  let pdu_type := Z.land type_byte 0x0f in
  length_byte ← read_dma_byte 1;
  let length_ := Z.land length_byte 0x3f in
  a ← (if as_armed a && bool_decide (as_buffered_end a = None) &&
          legacy_request_payload_len_is_valid pdu_type length_
       then
         t ← now;
         mret (a <| as_buffered_end :=
                      Some (instant_add t (duration_from_micros ((length_ + 3) * 8))) |>)
       else mret a : st R AdvState);
  mret (a, pdu_type, length_).

(** [captured]. *)
(*! crates/ch58x-ble/src/radio.rs 896-900 advertising_captured *)
Definition advertising_captured {R} : st R bool :=
  seen ← load_capture_seen;
  if (seen : bool) then
    status ← rread lle_status;
    if any_bit status (Z.lor LLE_STATUS_RX_COMPLETE LLE_STATUS_RX_CAPTURE_COMPLETE)
    then mret true
    else countdown ← rread lle_operation_countdown; mret (countdown =? 0)
  else mret false.

(** What follows a captured packet: a response to a scan request for this
    advertiser, or the end of the exchange ([inr]); [None] if it is not one yet. *)
(*! crates/ch58x-ble/src/radio.rs 905-932 advertising_packet *)
Definition advertising_packet {R} (channel : Channel) (transmit : list Z)
    (response_address response_len : Z) (advertiser_address : list Z) (length_ : Z)
    (a : AdvState) : st R (option (AdvState + AdvState) * AdvState) :=
  bb_status ← rread bb_interrupt_status;
  let crc_ok := negb (any_bit bb_status (Z.shiftl 1 5)) in
  copied ← call (copy_received_packet (as_output a) true);
  let '(len, output) := copied in
  let a := a <| as_output := output |> in
  first ← (if (2 <=? len)%nat then read_dma_byte 0 else mret 0xff);
  if (2 <=? len)%nat && negb (first =? 0xff) then
    t ← now;
    let a := a <| as_received := Some (len, crc_ok, instant_as_micros t) |> in
    header ← unwrap (transmit !! 0%nat);
    let address := mkDeviceAddress advertiser_address
      (if any_bit header (Z.shiftl 1 6) then Random else Public) in
    if crc_ok && is_scan_request (take len output) address then
      release_receive_to_transmit_1m channel response_address response_len length_;;
      t ← now;
      mret (Some (inl (a <| as_responding := true |>
                         <| as_deadline := instant_add t (duration_from_micros 1000) |>)), a)
    else mret (Some (inr a), a)
  else mret (None, a).

(** One pass of the loop: [inr] leaves it with [break]. *)
(*! crates/ch58x-ble/src/radio.rs 871-937 advertising_pass *)
Definition advertising_pass {R} (channel : Channel) (timeout : Duration) (transmit : list Z)
    (response_address response_len : Z) (advertiser_address : list Z) (a : AdvState)
  : st R (AdvState + AdvState) :=
  status ← rread lle_status;
  armed ← advertising_arm channel timeout status a;
  let '(a, pdu_type, length_) := armed in
  buffered_scan ← (if pdu_type =? 3 then reached (as_buffered_end a) else mret false);
  captured ← advertising_captured;
  packet ← (if as_armed a && negb (as_responding a) &&
               (any_bit status LLE_STATUS_RX_TO_TX || captured || buffered_scan)
            then advertising_packet channel transmit response_address response_len
                   advertiser_address length_ a
            else mret (None, a));
  match packet with
  | (Some next, _) => mret next
  | (None, a) =>
      if as_responding a &&
         any_bit status (Z.lor LLE_STATUS_RX_COMPLETE LLE_STATUS_TX_COMPLETE)
      then mret (inr a) else mret (inl a)
  end.

(*! crates/ch58x-ble/src/radio.rs 870-938 advertising_loop *)
Fixpoint advertising_loop {R} (fuel : nat) (channel : Channel) (timeout : Duration)
    (transmit : list Z) (response_address response_len : Z) (advertiser_address : list Z)
    (a : AdvState) : st R AdvState :=
  match fuel with
  | O => out_of_fuel
  | S fuel =>
      t ← now;
      if negb (instant_ltb t (as_deadline a)) then mret a
      else
        next ← advertising_pass channel timeout transmit response_address response_len
                 advertiser_address a;
        match next with
        | inl a => advertising_loop fuel channel timeout transmit response_address response_len
                     advertiser_address a
        | inr a => mret a
        end
  end.

(*! crates/ch58x-ble/src/radio.rs 837-948 Radio::advertising_exchange *)
Definition advertising_exchange (fuel : nat) (channel : Channel) (timeout : Duration)
    (transmit scan_response advertiser_address output : list Z)
  : op (result Error ReceivedPacket) := run (
  staged ← call (stage_transmit channel transmit);
  try Err staged;;
  response ← call (stage_response scan_response);
  response_address ← try Err response;
  fill_rx 0xff;;
  rwrite lle_rx_buffer rx_buffer_address;;
  prepare_common_operation LLE_MODE_TX;;
  rmodify lle_config (λ value, Z.lor value 1);;
  clear_lle_status;;
  clear_bb_interrupt_status;;
  rwrite lle_operation_countdown 0xa0;;
  settled ← call wait_for_settle_countdown;
  try Err settled;;
  configure_transmit_phy_1m (Z.of_nat (length transmit));;
  store_capture_countdown (rx_1m_capture_countdown LEGACY_ADV_RX_MAX_LEN);;
  store_capture_seen false;;
  start_transmit_operation;;
  start ← now;
  a ← advertising_loop fuel channel timeout transmit response_address
        (Z.of_nat (length scan_response)) advertiser_address
        (mkAdvState (instant_add start (duration_from_micros 2000)) false false None None output);
  rssi_dbm ← read_rssi;
  shut_down_operation;;
  received ← try Err (ok_or (as_received a) ErrorTimeout);
  let '(len, crc_ok, timestamp_us) := received in
  mret (Ok (mkReceivedPacket (take len (as_output a)) rssi_dbm crc_ok timestamp_us))).

End radio.
