(* ===== verification/RadioLogic.v ===== *)
(** * Reasoning about radio operations

    What matters of the accesses of an operation is a [View] of the trace: the
    mode the link-layer engine was last given, and for every release to
    transmission what the driver had last read of the CRC flag and of the length.
    [sees] is the partial-correctness triple on views; the interrupt handler,
    taken anywhere, leaves the view alone. *)

From S2P Require Import Prelude.
From S2P Require Import Effects.
From S2P Require Import Time.
From S2P Require Import Channel.
From S2P Require Import RadioMachine.
From S2P Require Import Radio.

(** The CRC-error flag in the baseband interrupt status. *)
Definition CRC_FLAG : Z := Z.shiftl 1 5.

(** Since the last start command: [vw_crc] and [vw_len] are the driver's last
    readings of the CRC flag (clear: [Some true]) and of the received length,
    [vw_releases] pairs them at each change to transmit mode, and [vw_erased]
    says that someone cleared the CRC flag. *)
Record View : Type := mkView {
  vw_mode : option Z;
  vw_releases : list (option bool * option Z);
  vw_crc : option bool;
  vw_len : option Z;
  vw_erased : bool;
}.
#[export] Instance View_eta : Eta View := λ v,
  mkView (vw_mode v) (vw_releases v) (vw_crc v) (vw_len v) (vw_erased v).

Definition view_write (v : View) (address w : Z) : View :=
  if address =? lle_command then
    if (w =? 1) || (w =? 2) then mkView (vw_mode v) [] None None false else v
  else if address =? lle_mode then
    let v := v <| vw_mode := Some w |> in
    if w =? LLE_MODE_TX then v <| vw_releases := vw_releases v ++ [(vw_crc v, vw_len v)] |> else v
  else if address =? bb_interrupt_status then
    v <| vw_erased := vw_erased v || any_bit w CRC_FLAG |>
  else v.

Definition view_step (v : View) (x : Access) : View :=
  match x with
  | Own (RRead address w) =>
      if address =? bb_interrupt_status
      then v <| vw_crc := Some (negb (any_bit w CRC_FLAG)) |> else v
  | Own (RDma 1 w) => v <| vw_len := Some w |>
  | Own (RWrite address w) | Irq (RWrite address w) => view_write v address w
  | _ => v
  end.

Definition view_of (t : list Access) : View := foldl view_step (mkView None [] None None false) t.

(** Registers whose writes and reads the view ignores. *)
Definition quiet (address : Z) : bool :=
  negb ((address =? lle_command) || (address =? lle_mode) || (address =? bb_interrupt_status)).

Lemma quiet_write v address w : quiet address = true → view_write v address w = v.
Proof.
  unfold quiet, view_write. intros H%negb_true_iff. apply orb_false_iff in H as [H H3].
  apply orb_false_iff in H as [H1 H2]. by rewrite H1, H2, H3.
Qed.

Lemma status_write v w : any_bit w CRC_FLAG = false → view_write v bb_interrupt_status w = v.
Proof.
  intros Hw. unfold view_write.
  rewrite (eq_refl : (bb_interrupt_status =? lle_command) = false).
  rewrite (eq_refl : (bb_interrupt_status =? lle_mode) = false).
  rewrite (eq_refl : (bb_interrupt_status =? bb_interrupt_status) = true), Hw.
  destruct v. cbn. by rewrite orb_false_r.
Qed.

Lemma quiet_read v address w : quiet address = true → view_step v (Own (RRead address w)) = v.
Proof.
  unfold quiet. intros H%negb_true_iff. apply orb_false_iff in H as [_ H]. cbn. by rewrite H.
Qed.

(** A word masked with other bits; [m] fits in 32 bits. *)
Lemma any_bit_masked v m n : u32 m = m → Z.land m n = 0 → any_bit (u32 (Z.land v m)) n = false.
Proof.
  intros Hm H. rewrite wrap_small.
  - unfold any_bit. by rewrite <- Z.land_assoc, H, Z.land_0_r.
  - apply land_fits_r; [lia|]. rewrite <- Hm. by apply wrap_fits.
Qed.

Section logic.
Context `{!EmbassyTime} {D : Type} `{!RadioDevice D}.
Abbreviation st R A := (M (Machine D) R A).
Abbreviation op A := (Machine D → option (A * Machine D)).

(** What the triples speak of. *)
Record Abs : Type := mkAbs {
  ab_view : View;
  ab_tx : list Z;
  ab_response : list Z;
  ab_flags : bool * bool;
}.
#[local] Instance Abs_eta : Eta Abs := λ x, mkAbs (ab_view x) (ab_tx x) (ab_response x) (ab_flags x).

Definition abs (s : Machine D) : Abs :=
  mkAbs (view_of (m_trace s)) (m_tx_buffer s) (m_response_buffer s)
    (m_digital_initialized s, m_frontend_calibrated s).

(** The radio may be used. *)
Definition ready (flags : bool * bool) : bool := flags.1 && flags.2.

Definition sees {R A} (x : Abs) (m : st R A) (P : A → Abs → Prop) (Q : R → Abs → Prop) : Prop :=
  ∀ s, abs s = x →
  match m s with
  | Next a s' => P a (abs s')
  | Return r s' => Q r (abs s')
  | Panic => True
  end.

(** The same of a closed method. *)
Definition sees_op {A} (x : Abs) (f : op A) (P : A → Abs → Prop) : Prop :=
  ∀ s, abs s = x → match f s with Some (a, s') => P a (abs s') | None => True end.

Lemma sees_weaken {R A} x (m : st R A) (P P' : A → Abs → Prop) (Q Q' : R → Abs → Prop) :
  sees x m P Q → (∀ a y, P a y → P' a y) → (∀ r y, Q r y → Q' r y) → sees x m P' Q'.
Proof. intros Hm HP HQ s Hs. specialize (Hm s Hs). destruct (m s); eauto. Qed.

Lemma sees_ret {R A} x (a : A) P (Q : R → Abs → Prop) : P a x → sees x (mret a) P Q.
Proof. by intros HP s <-. Qed.

Lemma sees_return {R A} x (r : R) (P : A → Abs → Prop) Q : Q r x → sees x (return_ r) P Q.
Proof. by intros HP s <-. Qed.

Lemma sees_bind {R A B} x (m : st R A) (k : A → st R B) P1 P Q :
  sees x m P1 Q → (∀ a y, P1 a y → sees y (k a) P Q) → sees x (m ≫= k) P Q.
Proof.
  intros Hm Hk s Hs. specialize (Hm s Hs). unfold mbind, M_bind.
  destruct (m s) as [a s'|r s'|]; [by apply (Hk a _ Hm)|done|done].
Qed.

Lemma sees_when {R} x (b : bool) (m : st R ()) P Q :
  (b = true → sees x m P Q) → (b = false → P () x) → sees x (when_ b m) P Q.
Proof. intros Ht Hf. destruct b; [by apply Ht|apply sees_ret; by apply Hf]. Qed.

Lemma sees_gets {R A} x (f : Machine D → A) P (Q : R → Abs → Prop) :
  (∀ s, abs s = x → P (f s) x) → sees x (gets f) P Q.
Proof. intros HP s Hs. cbn. rewrite Hs. by apply HP. Qed.

Lemma sees_modify {R} x (f : Machine D → Machine D) (P : () → Abs → Prop) (Q : R → Abs → Prop) :
  (∀ s, abs s = x → P () (abs (f s))) → sees x (modify f) P Q.
Proof. intros HP s Hs. by apply HP. Qed.

Lemma sees_try {R E A} x (f : E → R) (r : result E A) P Q :
  (∀ a, r = Ok a → P a x) → (∀ e, r = Err e → Q (f e) x) → sees x (try f r) P Q.
Proof. intros HP HQ s <-. destruct r; cbn; eauto. Qed.

Lemma sees_unwrap {R A} x (o : option A) P (Q : R → Abs → Prop) :
  (∀ a, o = Some a → P a x) → sees x (unwrap o) P Q.
Proof. intros HP s <-. destruct o; cbn; eauto. Qed.

Lemma sees_unwrap_bind {R A B} x (o : option A) (k : A → st R B) P Q :
  (∀ a, o = Some a → sees x (k a) P Q) → sees x (unwrap o ≫= k) P Q.
Proof. intros Hk s Hs. destruct o as [a|]; cbn; [|done]. by apply (Hk a). Qed.

Lemma sees_try_ok {R E A B} x (f : E → R) (a : A) (k : A → st R B) P Q :
  sees x (k a) P Q → sees x (try f (Ok a) ≫= k) P Q.
Proof. done. Qed.

Lemma sees_try_err {R E A B} x (f : E → R) (e : E) (k : A → st R B) P (Q : R → Abs → Prop) :
  Q (f e) x → sees x (try f (Err e) ≫= k) P Q.
Proof. by intros HQ s <-. Qed.

Lemma sees_call {R A} x (f : op A) P (Q : R → Abs → Prop) : sees_op x f P → sees x (call f) P Q.
Proof. intros Hf s Hs. specialize (Hf s Hs). unfold call. by destruct (f s) as [[]|]. Qed.

Lemma sees_run {R} x (m : st R R) P : sees x m P P → sees_op x (run m) P.
Proof. intros Hm s Hs. specialize (Hm s Hs). unfold run. by destruct (m s). Qed.

Lemma sees_repeat {R} (I : Abs → Prop) n x (body : st R ()) Q :
  I x → (∀ y, I y → sees y body (λ _, I) Q) → sees x (repeat_ n body) (λ _, I) Q.
Proof.
  intros H0 Hb. revert x H0. induction n as [|n IH]; intros x Hx; cbn [repeat_].
  - by apply sees_ret.
  - eapply sees_bind; [by apply Hb|]. cbn beta. intros _ y Hy. by apply IH.
Qed.

(** *** Silence: code that leaves the view and the buffers alone

    [may] says whether it may return early. *)

Definition silent (may : bool) {R A} (m : st R A) : Prop :=
  ∀ x, sees x m (λ _ y, y = x) (λ _ y, may = true ∧ y = x).
Definition silent_op {A} (f : op A) : Prop := ∀ x, sees_op x f (λ _ y, y = x).

Lemma silent_bind may {R A B} (m : st R A) (k : A → st R B) :
  silent may m → (∀ a, silent may (k a)) → silent may (m ≫= k).
Proof. intros Hm Hk x. eapply sees_bind; [apply Hm|]. cbn beta. intros a ? ->. apply Hk. Qed.

Lemma silent_ret may {R A} (a : A) : silent may (R := R) (mret a).
Proof. intros x. by apply sees_ret. Qed.

Lemma silent_return {R A} (r : R) : silent true (A := A) (return_ r).
Proof. intros x. by apply sees_return. Qed.

Lemma silent_when may {R} b (m : st R ()) : silent may m → silent may (when_ b m).
Proof. intros Hm. destruct b; [done|apply silent_ret]. Qed.

Lemma silent_gets may {R A} (f : Machine D → A) : silent may (R := R) (gets f).
Proof. intros x. by apply sees_gets. Qed.

Lemma silent_modify may {R} (f : Machine D → Machine D) :
  (∀ s, abs (f s) = abs s) → silent may (R := R) (modify f).
Proof. intros Hf x. apply sees_modify. intros s <-. apply Hf. Qed.

Lemma silent_try {R E A} (f : E → R) (r : result E A) : silent true (try f r).
Proof. intros x. by apply sees_try. Qed.

Lemma silent_unwrap may {R A} (o : option A) : silent may (R := R) (unwrap o).
Proof. intros x. by apply sees_unwrap. Qed.

Lemma silent_call may {R A} (f : op A) : silent_op f → silent may (R := R) (call f).
Proof. intros Hf x. by apply sees_call. Qed.

Lemma silent_run {R} (m : st R R) : silent true m → silent_op (run m).
Proof.
  intros Hm x. apply sees_run. eapply sees_weaken; [apply Hm|done|]. by intros r y [_ ?].
Qed.

Lemma silent_repeat may {R} n (body : st R ()) : silent may body → silent may (repeat_ n body).
Proof. intros Hb x. apply (sees_repeat (λ y, y = x)); [done|]. intros ? ->. apply Hb. Qed.

Lemma silent_for_each may {R A} (l : list A) (body : A → st R ()) :
  (∀ a, silent may (body a)) → silent may (for_each l body).
Proof.
  intros Hb. induction l as [|a l IH]; cbn [for_each]; [apply silent_ret|].
  by apply silent_bind.
Qed.

(** Sequencing after a silent statement. *)
Lemma sees_silent {R A} x (m : st R A) (P : A → Abs → Prop) (Q : R → Abs → Prop) :
  silent false m → (∀ a, P a x) → sees x m P Q.
Proof.
  intros Hm HP. eapply sees_weaken; [apply Hm| |]; cbn beta; [by intros a ? ->|by intros r ? [? ?]].
Qed.

Lemma sees_then {R A B} x (m : st R A) (k : A → st R B) P Q :
  silent false m → (∀ a, sees x (k a) P Q) → sees x (m ≫= k) P Q.
Proof.
  intros Hm Hk. eapply sees_bind with (P1 := λ _ y, y = x); [by apply sees_silent|].
  cbn beta. intros a ? ->. apply Hk.
Qed.

(** *** The primitives *)

Lemma view_snoc t x : view_of (t ++ [x]) = view_step (view_of t) x.
Proof. unfold view_of. by rewrite foldl_app. Qed.

Lemma abs_eq s s' : view_of (m_trace s') = view_of (m_trace s) →
  m_tx_buffer s' = m_tx_buffer s → m_response_buffer s' = m_response_buffer s →
  m_digital_initialized s' = m_digital_initialized s →
  m_frontend_calibrated s' = m_frontend_calibrated s → abs s' = abs s.
Proof. intros. unfold abs. congruence. Qed.

(** The state after one more access. *)
Definition after (x : Abs) (a : Access) : Abs := x <| ab_view := view_step (ab_view x) a |>.

Lemma abs_after (s s' : Machine D) a : m_trace s' = m_trace s ++ [a] →
  m_tx_buffer s' = m_tx_buffer s → m_response_buffer s' = m_response_buffer s →
  m_digital_initialized s' = m_digital_initialized s →
  m_frontend_calibrated s' = m_frontend_calibrated s → abs s' = after (abs s) a.
Proof. intros E E1 E2 E3 E4. unfold abs, after. cbn. by rewrite E, E1, E2, E3, E4, view_snoc. Qed.

Lemma sees_raw_read {R} x who address P (Q : R → Abs → Prop) :
  (∀ v, P (u32 v) (after x (who (RRead address (u32 v))))) → sees x (raw_read who address) P Q.
Proof.
  intros HP s <-. unfold raw_read. destruct (rd_read address (m_dev s)) as [v d].
  by erewrite (abs_after s).
Qed.

Lemma sees_raw_write {R} x who address v (P : () → Abs → Prop) (Q : R → Abs → Prop) :
  P () (after x (who (RWrite address (u32 v)))) → sees x (raw_write who address v) P Q.
Proof. intros HP s <-. cbn. by erewrite (abs_after s). Qed.

Lemma after_quiet_write x who address w : (who = Own ∨ who = Irq) → quiet address = true →
  after x (who (RWrite address w)) = x.
Proof.
  intros Hwho Hq. unfold after. destruct x. cbn.
  by destruct Hwho as [-> | ->]; cbn [view_step]; rewrite quiet_write.
Qed.

(** A write to the baseband status that leaves the CRC flag alone. *)
Lemma after_status_write x who w : (who = Own ∨ who = Irq) → any_bit (u32 w) CRC_FLAG = false →
  after x (who (RWrite bb_interrupt_status (u32 w))) = x.
Proof.
  intros Hwho Hw. unfold after. destruct x. cbn [ab_view].
  destruct Hwho as [-> | ->]; cbn [view_step]; by rewrite status_write.
Qed.

Lemma preempt_silent may {R} : silent may (R := R) preempt.
Proof.
  unfold preempt. apply silent_bind; [apply silent_gets|]. intros enabled.
  apply silent_when, silent_bind.
  { intros x s <-. unfold raw_irq. by destruct (rd_irq (m_dev s)). }
  intros taken. apply silent_when. intros x. unfold BLEB.
  eapply sees_bind with (P1 := λ _ y, y = x); [by apply sees_raw_read; destruct x|].
  cbn beta. intros status ? ->.
  eapply sees_bind with (P1 := λ _ y, y = x).
  - apply sees_when; intros _; [|done].
    eapply sees_bind with (P1 := λ _ y, y = x).
    { apply sees_raw_write. unfold capture_ack.
      rewrite after_status_write; [done|by right|by apply any_bit_masked]. }
    cbn beta. intros _ ? ->. eapply sees_bind with (P1 := λ _ y, y = x); [by apply sees_gets|].
    cbn beta. intros countdown ? ->. apply sees_when; intros _; [|done].
    eapply sees_bind with (P1 := λ _ y, y = x);
      [apply sees_raw_write; rewrite after_quiet_write; [done|by right|done]|].
    cbn beta. intros _ ? ->. eapply sees_bind with (P1 := λ _ y, y = x);
      [apply sees_raw_write; rewrite after_quiet_write; [done|by right|done]|].
    cbn beta. intros _ ? ->. apply sees_modify. by intros s <-.
  - cbn beta. intros _ ? ->.
    eapply sees_bind with (P1 := λ _ y, y = x); [by apply sees_raw_read; destruct x|].
    cbn beta. intros remaining ? ->. apply sees_raw_write.
    rewrite after_status_write; [done|by right|by apply any_bit_masked].
Qed.

Lemma sees_rread {R} x address P (Q : R → Abs → Prop) :
  (∀ v, P (u32 v) (after x (Own (RRead address (u32 v))))) → sees x (rread address) P Q.
Proof. intros HP. apply sees_then; [apply preempt_silent|]. intros _. by apply sees_raw_read. Qed.

Lemma sees_rwrite {R} x address v (P : () → Abs → Prop) (Q : R → Abs → Prop) :
  P () (after x (Own (RWrite address (u32 v)))) → sees x (rwrite address v) P Q.
Proof. intros HP. apply sees_then; [apply preempt_silent|]. intros _. by apply sees_raw_write. Qed.

Lemma after_quiet_read x address w : quiet address = true → after x (Own (RRead address w)) = x.
Proof. intros Hq. unfold after. rewrite quiet_read by done. by destruct x. Qed.

Lemma silent_rread may {R} address : quiet address = true → silent may (R := R) (rread address).
Proof. intros Hq x. apply sees_rread. intros v. by rewrite after_quiet_read. Qed.

Lemma silent_rwrite may {R} address v : quiet address = true → silent may (R := R) (rwrite address v).
Proof. intros Hq x. apply sees_rwrite. rewrite after_quiet_write; [done|by left|done]. Qed.

Lemma silent_rmodify may {R} address f : quiet address = true → silent may (R := R) (rmodify address f).
Proof.
  intros Hq. unfold rmodify. apply silent_bind; [by apply silent_rread|].
  intros v. by apply silent_rwrite.
Qed.

Lemma silent_rwrite16 may {R} address v : silent may (R := R) (rwrite16 address v).
Proof.
  unfold rwrite16. apply silent_bind; [apply preempt_silent|]. intros _ x s <-. cbn.
  erewrite (abs_after s); [|done..]. by destruct (abs s).
Qed.

Lemma silent_now may {R} : silent may (R := R) now.
Proof.
  unfold now. apply silent_bind; [apply preempt_silent|]. intros _ x s <-. unfold raw_now.
  destruct (rd_now (m_dev s)) as [i d]. erewrite (abs_after s); [|done..]. by destruct (abs s).
Qed.

Lemma sees_read_dma {R} x i (P : Z → Abs → Prop) (Q : R → Abs → Prop) :
  (∀ v, P (u8 v) (after x (Own (RDma i (u8 v))))) → sees x (read_dma_byte i) P Q.
Proof.
  intros HP. apply sees_then; [apply preempt_silent|]. intros _ s <-. unfold raw_dma.
  destruct (rd_dma i (m_dev s)) as [v d]. by erewrite (abs_after s).
Qed.

(** Sequencing after the accesses the view does see. *)
Lemma sees_dma_bind {R A} x i (k : Z → st R A) P Q :
  (∀ v, is_u8 v → sees (after x (Own (RDma i v))) (k v) P Q) → sees x (read_dma_byte i ≫= k) P Q.
Proof.
  intros Hk. eapply sees_bind with (P1 := λ v y, is_u8 v ∧ y = after x (Own (RDma i v))).
  - apply sees_read_dma. intros v. split; [by apply wrap_fits|done].
  - cbn beta. intros v ? [Hv ->]. by apply Hk.
Qed.

Lemma sees_rread_bind {R A} x address (k : Z → st R A) P Q :
  (∀ v, is_u32 v → sees (after x (Own (RRead address v))) (k v) P Q) →
  sees x (rread address ≫= k) P Q.
Proof.
  intros Hk. eapply sees_bind with (P1 := λ v y, is_u32 v ∧ y = after x (Own (RRead address v))).
  - apply sees_rread. intros v. split; [by apply wrap_fits|done].
  - cbn beta. intros v ? [Hv ->]. by apply Hk.
Qed.

Lemma sees_rwrite_bind {R A} x address v (k : () → st R A) P Q :
  sees (after x (Own (RWrite address (u32 v)))) (k ()) P Q → sees x (rwrite address v ≫= k) P Q.
Proof.
  intros Hk. eapply sees_bind with (P1 := λ _ y, y = after x (Own (RWrite address (u32 v)))).
  - by apply sees_rwrite.
  - by cbn beta; intros [] ? ->.
Qed.

Lemma silent_load_capture_seen may {R} : silent may (R := R) load_capture_seen.
Proof. apply silent_bind; [apply preempt_silent|]. intros _. apply silent_gets. Qed.

Lemma silent_fill may {R} v : silent may (R := R) (fill_rx v).
Proof. by apply silent_modify. Qed.

Lemma silent_capture_seen may {R} b : silent may (R := R) (store_capture_seen b).
Proof. by apply silent_modify. Qed.

Lemma silent_capture_countdown may {R} v : silent may (R := R) (store_capture_countdown v).
Proof. by apply silent_modify. Qed.

Lemma silent_enable_interrupt may {R} b : silent may (R := R) (enable_interrupt b).
Proof. by apply silent_modify. Qed.

Lemma silent_count_limit may {R} i : silent may (R := R) (count_limit i).
Proof. by apply silent_modify. Qed.

End logic.

Create HintDb radio.
#[export] Hint Resolve silent_bind silent_ret silent_return silent_when silent_gets silent_try
  silent_unwrap silent_call silent_run silent_repeat silent_for_each silent_rread silent_rwrite
  silent_rmodify silent_rwrite16 silent_now silent_load_capture_seen silent_fill
  silent_capture_seen silent_capture_countdown silent_enable_interrupt silent_count_limit : radio.

(** Straight-line code of silent statements. *)
Ltac silence := repeat first
  [ progress intros
  | apply silent_ret | apply silent_return | apply silent_rwrite16 | apply silent_now
  | apply silent_rmodify; reflexivity | apply silent_rwrite; reflexivity
  | apply silent_rread; reflexivity | apply silent_gets | apply silent_try
  | apply silent_unwrap | solve [eauto 2 with radio]
  | match goal with |- silent _ (if ?b then _ else _) => destruct b end
  | apply silent_when | apply silent_repeat | apply silent_for_each | apply silent_call
  | apply silent_run | apply silent_bind ].

(** ** The pieces of an operation *)

Section pieces.
Context `{!EmbassyTime} {D : Type} `{!RadioDevice D}.
Abbreviation st R A := (M (Machine D) R A).
Abbreviation op A := (Machine D → option (A * Machine D)).

Lemma silent_synth may {R} channel receive :
  silent may (R := R) (configure_ch585_synth (D := D) channel receive).
Proof. unfold configure_ch585_synth. silence. Qed.

Lemma silent_set_channel may {R} channel : silent may (R := R) (set_channel (D := D) channel).
Proof. unfold set_channel. silence. Qed.

Lemma silent_set_receive_channel may {R} channel :
  silent may (R := R) (set_receive_channel (D := D) channel).
Proof. unfold set_receive_channel. silence. Qed.

Lemma silent_transmit_phy may {R} n : silent may (R := R) (configure_transmit_phy_1m (D := D) n).
Proof. unfold configure_transmit_phy_1m. silence. Qed.

Lemma silent_receive_phy may {R} : silent may (R := R) (configure_receive_phy_1m (D := D)).
Proof. unfold configure_receive_phy_1m. silence. Qed.

Lemma silent_settle : silent_op (wait_for_settle_countdown (D := D)).
Proof. unfold wait_for_settle_countdown. silence. Qed.

Lemma sees_settle x :
  sees_op x (wait_for_settle_countdown (D := D))
    (λ r y, y = x ∧ (r = Ok () ∨ r = Err ErrorTimeout)).
Proof.
  apply sees_run. eapply sees_bind.
  - apply (sees_repeat (λ y, y = x)); [done|]. intros ? ->.
    apply sees_then; [silence|]. intros countdown.
    apply sees_when; intros _; [|done]. apply sees_return. by split; [|left].
  - cbn beta. intros _ ? ->. apply sees_ret. by split; [|right].
Qed.

(** A countdown that never expires. *)
Lemma sees_settle_stuck x : (∀ d, u32 (rd_read lle_operation_countdown d).1 ≠ 0) →
  sees_op x (wait_for_settle_countdown (D := D)) (λ r y, y = x ∧ r = Err ErrorTimeout).
Proof.
  intros Hstuck. apply sees_run. eapply sees_bind.
  - apply (sees_repeat (λ y, y = x)); [done|]. intros ? ->.
    eapply sees_bind with (P1 := λ v y, v ≠ 0 ∧ y = x).
    + apply sees_then; [apply preempt_silent|]. intros _ s <-. unfold raw_read.
      pose proof (Hstuck (m_dev s)) as Hs.
      destruct (rd_read lle_operation_countdown (m_dev s)) as [v d]. split; [done|].
      erewrite (abs_after s); [|done..]. by apply after_quiet_read.
    + cbn beta. intros v ? [Hv ->]. rewrite (proj2 (Z.eqb_neq _ _) Hv). by apply sees_ret.
  - cbn beta. intros _ ? ->. by apply sees_ret.
Qed.

Lemma silent_wait mask : silent_op (wait_for_operation (D := D) mask).
Proof. unfold wait_for_operation. silence. Qed.

Lemma silent_clear_lle may {R} : silent may (R := R) (clear_lle_status (D := D)).
Proof. unfold clear_lle_status. silence. Qed.

Lemma silent_rssi may {R} : silent may (R := R) (read_rssi (D := D)).
Proof. unfold read_rssi. silence. Qed.

Lemma silent_continue may {R} channel : silent may (R := R) (continue_tx_to_rx_1m (D := D) channel).
Proof. unfold continue_tx_to_rx_1m. silence; first [apply silent_synth|apply silent_receive_phy]. Qed.

Lemma silent_reached may {R} e : silent may (R := R) (reached (D := D) e).
Proof. unfold reached. destruct e; silence. Qed.

Lemma silent_captured may {R} : silent may (R := R) (advertising_captured (D := D)).
Proof. unfold advertising_captured. silence. Qed.

(** Code that at most changes the mode. *)
Definition moded (mode : Z) (x y : Abs) : Prop :=
  vw_mode (ab_view y) = Some mode ∧ ab_tx y = ab_tx x ∧ ab_response y = ab_response x ∧
  ab_flags y = ab_flags x.

(** The abstract state after a start command. *)
Definition started (mode : Z) (x : Abs) : Abs :=
  mkAbs (mkView (Some mode) [] None None false) (ab_tx x) (ab_response x) (ab_flags x).

Lemma u32_small v : is_u32 v → u32 v = v.
Proof. apply wrap_small. Qed.

Lemma after_mode x w : w ≠ LLE_MODE_TX →
  after x (Own (RWrite lle_mode w)) = mkAbs ((ab_view x) <| vw_mode := Some w |>) (ab_tx x) (ab_response x) (ab_flags x).
Proof.
  intros Hw. unfold after. cbn [view_step]. unfold view_write.
  rewrite (eq_refl : (lle_mode =? lle_command) = false).
  rewrite (eq_refl : (lle_mode =? lle_mode) = true).
  rewrite (proj2 (Z.eqb_neq _ _) Hw). by destruct x.
Qed.

Lemma after_mode_moded x w : moded w x (after x (Own (RWrite lle_mode w))).
Proof.
  unfold after. cbn [view_step]. unfold view_write.
  rewrite (eq_refl : (lle_mode =? lle_command) = false).
  rewrite (eq_refl : (lle_mode =? lle_mode) = true). by destruct (w =? LLE_MODE_TX).
Qed.

Lemma after_start mode x y c : (c = 1 ∨ c = 2) → moded mode x y →
  after y (Own (RWrite lle_command c)) = started mode x.
Proof.
  intros Hc (Hm & Ht & Hr & Hd). unfold after, started. cbn [view_step]. unfold view_write.
  rewrite (eq_refl : (lle_command =? lle_command) = true).
  assert ((c =? 1) || (c =? 2) = true) as -> by lia. destruct y. cbn in *. by rewrite Hm, Ht, Hr, Hd.
Qed.

(** Code that touches neither the mode nor the buffers. *)
Definition unmoved (y z : Abs) : Prop :=
  vw_mode (ab_view z) = vw_mode (ab_view y) ∧ vw_releases (ab_view z) = vw_releases (ab_view y) ∧
  ab_tx z = ab_tx y ∧ ab_response z = ab_response y ∧
  ab_flags z = ab_flags y.

Lemma moded_unmoved mode x y z : moded mode x y → unmoved y z → moded mode x z.
Proof. unfold moded, unmoved. intuition congruence. Qed.

(** Clearing the baseband status touches the CRC reading only. *)
Lemma sees_clear_bb_unmoved {R} y (Q : R → Abs → Prop) :
  sees y (clear_bb_interrupt_status (D := D)) (λ _, unmoved y) Q.
Proof.
  unfold clear_bb_interrupt_status.
  eapply sees_bind with (P1 := λ _, unmoved y).
  - apply sees_rread. intros v. by destruct y as [[] ? ? ?].
  - cbn beta. intros observed z Hz. apply sees_rwrite. revert Hz. by destruct z as [[] ? ? ?].
Qed.

Lemma sees_clear_bb {R} mode x y (Q : R → Abs → Prop) : moded mode x y →
  sees y (clear_bb_interrupt_status (D := D)) (λ _ z, moded mode x z) Q.
Proof.
  intros Hy. eapply sees_weaken; [apply (sees_clear_bb_unmoved y (λ _ _, False))| |done].
  intros ? z. by apply moded_unmoved.
Qed.

Lemma sees_prepare {R} mode x y (Q : R → Abs → Prop) : is_u32 mode →
  ab_tx y = ab_tx x → ab_response y = ab_response x → ab_flags y = ab_flags x →
  sees y (prepare_common_operation (D := D) mode) (λ _ z, moded mode x z) Q.
Proof.
  intros Hm Ht Hr Hd. unfold prepare_common_operation.
  do 4 (apply sees_then; [silence|]; intros _).
  apply sees_rwrite. rewrite u32_small by done.
  destruct (after_mode_moded y mode) as (? & ? & ? & ?). unfold moded. intuition congruence.
Qed.

(** Clearing a bit of the transmit mode never writes that mode. *)
Lemma cleared_not_tx v n : any_bit LLE_MODE_TX n = true → Z.land (Z.ones 32) n = n →
  u32 (Z.ldiff v n) ≠ LLE_MODE_TX.
Proof.
  intros Hn Hw E. unfold any_bit in Hn. rewrite <- E, <- land_mask in Hn by lia.
  by rewrite <- Z.land_assoc, Hw, Z.land_ldiff in Hn.
Qed.

Lemma or_not_start v : u32 (Z.lor v 8) ≠ 1 ∧ u32 (Z.lor v 8) ≠ 2.
Proof.
  assert (Z.testbit (u32 (Z.lor v 8)) 3 = true) as Hb.
  { unfold wrap. rewrite Z.mod_pow2_bits_low by lia. rewrite Z.lor_spec. apply orb_true_r. }
  split; intros E; by rewrite E in Hb.
Qed.

(** The end of every operation. *)
Definition idled (x : Abs) : Abs :=
  mkAbs ((ab_view x) <| vw_mode := Some LLE_MODE_IDLE |>) (ab_tx x) (ab_response x) (ab_flags x).

Lemma sees_shut_down {R} x (P : () → Abs → Prop) (Q : R → Abs → Prop) :
  P () (idled x) → sees x (shut_down_operation (D := D)) P Q.
Proof.
  intros HP. unfold shut_down_operation.
  apply sees_then; [apply silent_capture_countdown|]. intros _.
  set (into (y : Abs) := ∃ m, y = mkAbs ((ab_view x) <| vw_mode := m |>) (ab_tx x) (ab_response x) (ab_flags x)).
  assert (into x) as Hx by (exists (vw_mode (ab_view x)); by destruct x as [[] ? ? ?]).
  assert (∀ y n, into y → any_bit LLE_MODE_TX n = true → Z.land (Z.ones 32) n = n →
    sees (R := R) y (rmodify lle_mode (λ v, Z.ldiff v n)) (λ _, into) Q) as Hmod.
  { intros y n [m ->] Hn Hw. unfold rmodify.
    eapply sees_bind with (P1 := λ _ z, into z); [|cbn beta; intros v z [m' ->]].
    - apply sees_rread. intros v. exists m. by destruct x as [[] ? ? ?].
    - apply sees_rwrite. rewrite after_mode by (by apply cleared_not_tx).
      by eexists. }
  eapply sees_bind; [by apply Hmod|]. cbn beta. intros _ y1 H1.
  eapply sees_bind; [by apply Hmod|]. cbn beta. intros _ y2 [m ->].
  eapply sees_bind with (P1 := λ _ y, into y).
  { unfold rmodify. eapply sees_bind with (P1 := λ _ y, into y); [|cbn beta; intros v y [m' ->]].
    - apply sees_rread. intros v. exists m. by destruct x as [[] ? ? ?].
    - apply sees_rwrite. exists m'. destruct (or_not_start v) as [H1' H2'].
      unfold after. cbn [view_step]. unfold view_write.
      rewrite (eq_refl : (lle_command =? lle_command) = true).
      by rewrite (proj2 (Z.eqb_neq _ _) H1'), (proj2 (Z.eqb_neq _ _) H2'). }
  cbn beta. intros _ y [m' ->].
  do 2 (apply sees_then; [silence|]; intros _).
  apply sees_rwrite. rewrite u32_small by (unfold_ints; by split).
  rewrite after_mode by done. exact HP.
Qed.

(** *** Copying what was received *)

Lemma sees_copy_bytes {R} x i n output (Q : R → Abs → Prop) :
  (i + n ≤ length output)%nat → bytes_ok (take i output) →
  sees x (copy_dma_bytes (D := D) i n output)
    (λ out y, length out = length output ∧ bytes_ok (take (i + n) out) ∧
       ∃ l, y = mkAbs ((ab_view x) <| vw_len := l |>) (ab_tx x) (ab_response x) (ab_flags x)) Q.
Proof.
  revert x i output. induction n as [|n IH]; intros x i output Hn Hb; cbn [copy_dma_bytes].
  - apply sees_ret. rewrite Nat.add_0_r. split; [done|]. split; [done|].
    exists (vw_len (ab_view x)). by destruct x as [[] ? ? ?].
  - apply sees_dma_bind. intros byte Hbyte.
    eapply sees_weaken; [apply IH| |done].
    + rewrite length_insert. lia.
    + rewrite take_S_r with (x := byte).
      * rewrite take_insert_ge by lia. apply bytes_ok_app. split; [done|]. by apply Forall_cons_2.
      * apply list_lookup_insert_eq. lia.
    + cbn beta. intros out y (Hl & Ho & l & ->). rewrite length_insert in Hl.
      split; [done|]. split; [by replace (i + S n)%nat with (S i + n)%nat by lia|].
      exists l. destruct x as [[] ? ? ?], i as [|[|]]; done.
Qed.

(** The bound on what an exchange hands over. *)
Definition max_wire (advertising : bool) : Z :=
  if advertising then MAX_LEGACY_ADV_WIRE_LEN else MAX_DATA_WIRE_LEN.

Definition copied_ok (advertising : bool) (output : list Z) (r : nat * list Z) : Prop :=
  length r.2 = length output ∧
  (r.1 = O ∨ (2 ≤ r.1 ∧ r.1 ≤ length output)%nat ∧ Z.of_nat r.1 ≤ max_wire advertising ∧
    bytes_ok (take r.1 r.2)).

Lemma classify_accepted advertising n w : 0 ≤ n →
  classify_received_length advertising n = Accepted w → w = 2 + n ∧ w ≤ max_wire advertising.
Proof.
  unfold classify_received_length, max_wire, LL_HEADER_LEN. intros Hn.
  destruct (RF_DMA_BUFFER_LEN <? _); [done|].
  destruct (Z.ltb_spec (if advertising then MAX_LEGACY_ADV_WIRE_LEN else MAX_DATA_WIRE_LEN) (2 + n));
    [done|]. intros [= <-]. done.
Qed.

Lemma sees_copy x output advertising :
  sees_op x (copy_received_packet (D := D) output advertising)
    (λ r y, copied_ok advertising output r ∧
       ∃ l, y = mkAbs ((ab_view x) <| vw_len := l |>) (ab_tx x) (ab_response x) (ab_flags x)).
Proof.
  apply sees_run. unfold copy_received_packet.
  apply sees_dma_bind. intros claimed Hc.
  set (payload_len := if advertising then _ else _).
  assert (0 ≤ payload_len) as Hp.
  { unfold payload_len. destruct advertising; [|apply Hc]. apply Z.land_nonneg. by right. }
  assert (∀ l, ∃ l', mkAbs ((ab_view (after x (Own (RDma 1 claimed)))) <| vw_len := l |>)
      (ab_tx x) (ab_response x) (ab_flags x) =
      mkAbs ((ab_view x) <| vw_len := l' |>) (ab_tx x) (ab_response x) (ab_flags x)) as Hl
    by (intros l; exists l; by destruct x as [[] ? ? ?]).
  assert (after x (Own (RDma 1 claimed)) =
      mkAbs ((ab_view x) <| vw_len := Some claimed |>) (ab_tx x) (ab_response x) (ab_flags x)) as E
    by (by destruct x as [[] ? ? ?]).
  destruct (classify_received_length advertising payload_len) as [w| |] eqn:Ew.
  - apply classify_accepted in Ew as [-> Hw]; [|done].
    destruct (Nat.ltb_spec (length output) (Z.to_nat (2 + payload_len))) as [Hlt|Hge].
    + apply sees_ret. split; [split; [done|by left]|]. rewrite E. by eexists.
    + eapply sees_bind; [apply sees_copy_bytes; [cbn; lia|constructor]|].
      cbn beta. intros out y (Hout & Hb & l & ->). apply sees_ret. split.
      * split; [done|]. right. cbn [fst snd]. split; [lia|]. split; [lia|exact Hb].
      * rewrite E. by eexists.
  - apply sees_then; [apply silent_count_limit|]. intros _. apply sees_ret.
    split; [split; [done|by left]|]. rewrite E. by eexists.
  - apply sees_then; [apply silent_count_limit|]. intros _. apply sees_ret.
    split; [split; [done|by left]|]. rewrite E. by eexists.
Qed.

End pieces.
