(* ===== verification/RadioProps.v ===== *)
(** * The two exchanges

    Whatever the hardware does, and whenever the interrupt is taken: a response
    is released only after a packet without CRC error, what is handed over is
    bounded, the CRC flag is not cleared behind the driver's back, and the engine
    is left idle. *)

From S2P Require Import Prelude.
From S2P Require Import Effects.
From S2P Require Import Time.
From S2P Require Import Channel.
From S2P Require Import Advertising.
From S2P Require Import Runner.
From S2P Require Import RadioMachine.
From S2P Require Import Radio.
From S2P Require Import RadioLogic.
From S2P Require Import EventInv.

Section exchanges.
Context {time : EmbassyTime} {D : Type} {device : RadioDevice D}.
Abbreviation st R A := (M (Machine D) R A).
Abbreviation op A := (Machine D → option (A * Machine D)).

(** ** Staging *)

(** What goes on air: the packet, then zeros up to the end of the DMA bank. *)
Definition bank (packet : list Z) : list Z :=
  packet ++ replicate (Z.to_nat RF_DMA_BUFFER_LEN - length packet) 0.

Definition packet_fits (packet : list Z) : bool :=
  (2 <=? length packet)%nat && (length packet <=? Z.to_nat RF_DMA_BUFFER_LEN)%nat.

Lemma encode_bank packet : packet_fits packet = true →
  encode_transmit_buffer packet = Some (bank packet).
Proof.
  unfold packet_fits, encode_transmit_buffer. intros [_ H]%andb_true_iff. rewrite H.
  unfold splice, bank. rewrite take_0, drop_replicate. done.
Qed.

Lemma unfit_guard packet :
  (length packet <? 2)%nat || (Z.to_nat RF_DMA_BUFFER_LEN <? length packet)%nat =
  negb (packet_fits packet).
Proof.
  unfold packet_fits. rewrite negb_andb.
  by destruct (Nat.ltb_spec (length packet) 2), (Nat.leb_spec 2 (length packet)),
    (Nat.ltb_spec (Z.to_nat RF_DMA_BUFFER_LEN) (length packet)),
    (Nat.leb_spec (length packet) (Z.to_nat RF_DMA_BUFFER_LEN)); try lia.
Qed.

(** The refusals of [stage_transmit] touch nothing. *)
Definition stage_refusal (ready : bool) (packet : list Z) : option Error :=
  if negb ready then Some ErrorHardware
  else if negb (packet_fits packet) then Some ErrorInvalidPacket else None.

Lemma stage_refused channel packet (s : Machine D) e :
  stage_refusal (m_digital_initialized s && m_frontend_calibrated s) packet = Some e →
  stage_transmit channel packet s = Some (Err e, s).
Proof.
  unfold stage_refusal, stage_transmit. rewrite unfit_guard. intros E.
  unfold run, mbind, M_bind, gets. rewrite <- negb_andb.
  destruct (m_digital_initialized s && m_frontend_calibrated s); cbn [negb when_] in *.
  - destruct (packet_fits packet); [done|]. by injection E as <-.
  - by injection E as <-.
Qed.

Lemma stage_accepted channel packet x :
  stage_refusal (ready (ab_flags x)) packet = None →
  sees_op x (stage_transmit (D := D) channel packet)
    (λ r y, r = Ok () ∧ y = mkAbs (ab_view x) (bank packet) (ab_response x) (ab_flags x)).
Proof.
  unfold stage_refusal. intros E. apply sees_run. unfold stage_transmit. rewrite unfit_guard.
  destruct (ready (ab_flags x)) eqn:Er; cbn [negb] in E; [|done].
  apply andb_true_iff in Er as [Er1 Er2].
  destruct (packet_fits packet) eqn:Ef; cbn [negb when_] in *; [|done].
  eapply sees_bind with (P1 := λ b y, b = true ∧ y = x).
  { apply sees_gets. intros s <-. by split. }
  cbn beta. intros ? ? [-> ->].
  eapply sees_bind with (P1 := λ b y, b = true ∧ y = x).
  { apply sees_gets. intros s <-. by split. }
  cbn beta. intros ? ? [-> ->]. cbn [negb orb when_].
  do 2 (apply sees_then; [silence|]; intros _).
  rewrite encode_bank by done.
  eapply sees_bind with (P1 := λ b y, b = bank packet ∧ y = x).
  { apply sees_unwrap. by intros ? [= <-]. }
  cbn beta. intros ? ? [-> ->].
  eapply sees_bind with (P1 := λ _ y, y = mkAbs (ab_view x) (bank packet) (ab_response x) (ab_flags x)).
  { apply sees_modify. by intros s <-. }
  cbn beta. intros _ ? ->.
  apply sees_then; [apply silent_set_channel|]. intros _.
  apply sees_then; [silence|]. intros _. by apply sees_ret.
Qed.

Lemma stage_response_accepted packet x : packet_fits packet = true →
  sees_op x (stage_response (D := D) packet)
    (λ r y, r = Ok response_buffer_address ∧
       y = mkAbs (ab_view x) (ab_tx x) (bank packet) (ab_flags x)).
Proof.
  intros Ef. apply sees_run. unfold stage_response. rewrite unfit_guard, Ef. cbn [negb when_].
  apply sees_then; [silence|]. intros _. rewrite encode_bank by done.
  eapply sees_bind with (P1 := λ b y, b = bank packet ∧ y = x).
  { apply sees_unwrap. by intros ? [= <-]. }
  cbn beta. intros ? ? [-> ->].
  eapply sees_bind with (P1 := λ _ y, y = mkAbs (ab_view x) (ab_tx x) (bank packet) (ab_flags x)).
  { apply sees_modify. by intros s <-. }
  cbn beta. intros _ ? ->. by apply sees_ret.
Qed.

(** ** The connection exchange *)

(** The release of a response, from the driver's last readings. *)
Definition released (x : Abs) : Abs :=
  mkAbs (mkView (Some LLE_MODE_TX) (vw_releases (ab_view x) ++ [(vw_crc (ab_view x), vw_len (ab_view x))])
           (vw_crc (ab_view x)) (vw_len (ab_view x)) (vw_erased (ab_view x)))
    (ab_tx x) (ab_response x) (ab_flags x).

Lemma after_release x : after x (Own (RWrite lle_mode LLE_MODE_TX)) = released x.
Proof. unfold after, released. cbn [view_step]. by destruct x as [[] ? ? ?]. Qed.

Lemma sees_exchange_release {R} x channel n m (Q : R → Abs → Prop) :
  sees x (exchange_release (D := D) channel n m) (λ _ y, y = released x) Q.
Proof.
  unfold exchange_release. do 4 (apply sees_then; [silence|]; intros _).
  apply sees_then; [apply silent_transmit_phy|]. intros _.
  apply sees_then; [apply silent_synth|]. intros _.
  do 2 (apply sees_then; [silence|]; intros _).
  apply sees_rwrite_bind. rewrite u32_small by (unfold_ints; by split). rewrite after_release.
  apply sees_silent; [silence|done].
Qed.

(** What the loop maintains: at most one release, of a packet whose CRC flag the
    driver had read as clear and whose length was within the limit. *)
Definition one_release (v : View) (len : Z) : Prop :=
  vw_releases v = [(Some true, Some len)] ∧ is_u8 len ∧ len ≤ CONNECTION_RX_MAX_WIRE_PAYLOAD_LEN.

Definition exchange_inv (tx resp : list Z) (flags : bool * bool) (z : ExchangeState) (y : Abs) : Prop :=
  let '(timestamp_us, turnaround, transmitted) := z in
  ab_tx y = tx ∧ ab_response y = resp ∧ ab_flags y = flags ∧ vw_erased (ab_view y) = false ∧
  (if (turnaround : bool) then (∃ len, one_release (ab_view y) len) ∧ timestamp_us ≠ None
   else vw_releases (ab_view y) = [] ∧ transmitted = false).

Lemma after_dma_one x v :
  after x (Own (RDma 1 v)) = mkAbs ((ab_view x) <| vw_len := Some v |>) (ab_tx x) (ab_response x) (ab_flags x).
Proof. by destruct x as [[] ? ? ?]. Qed.

Lemma after_status_read x v :
  after x (Own (RRead bb_interrupt_status v)) =
  mkAbs ((ab_view x) <| vw_crc := Some (negb (any_bit v CRC_FLAG)) |>) (ab_tx x) (ab_response x) (ab_flags x).
Proof. by destruct x as [[] ? ? ?]. Qed.

Lemma sees_exchange_pass {R} tx resp flags channel n deadline z y (Q : R → Abs → Prop) :
  exchange_inv tx resp flags z y →
  sees y (exchange_pass (D := D) channel n deadline z)
    (λ next, match next with inl z | inr z => exchange_inv tx resp flags z end) Q.
Proof.
  destruct z as [[timestamp_us turnaround] transmitted]. intros Hz. unfold exchange_pass.
  apply sees_rread_bind. intros status _. rewrite after_quiet_read by done.
  destruct (any_bit status LLE_STATUS_RX_TO_TX && negb turnaround) eqn:Eturn.
  - apply andb_true_iff in Eturn as [_ ->%negb_true_iff].
    destruct Hz as (Ht & Hr & Hf & He & Hrel & ->).
    apply sees_dma_bind. intros len Hlen. rewrite after_dma_one.
    apply sees_then; [silence|]. intros t.
    apply sees_rread_bind. intros bb _. rewrite after_status_read. cbn [ab_view ab_tx ab_response ab_flags].
    destruct (any_bit bb (Z.shiftl 1 5) || _) eqn:Ebad.
    + apply sees_ret. by repeat split.
    + apply orb_false_iff in Ebad as [Ecrc Elen%Z.ltb_ge].
      eapply sees_bind; [apply sees_exchange_release|]. cbn beta. intros _ ? ->.
      apply sees_ret. unfold exchange_inv, released. cbn. rewrite Hrel.
      split; [done|]. split; [done|]. split; [done|]. split; [done|]. split; [|done].
      exists len. unfold one_release. cbn. unfold CRC_FLAG. rewrite Ecrc. by split.
  - destruct (turnaround && any_bit status LLE_STATUS_RX_COMPLETE) eqn:Edone.
    + apply andb_true_iff in Edone as [-> _].
      apply sees_then; [silence|]. intros _. apply sees_ret. exact Hz.
    + apply sees_then; [silence|]. intros countdown.
      destruct (countdown =? 0); [by apply sees_ret|].
      destruct turnaround; [by apply sees_ret|].
      apply sees_then; [silence|]. intros t. destruct (negb (instant_ltb t deadline)); by apply sees_ret.
Qed.

Lemma sees_exchange_loop {R} tx resp flags fuel channel n receive_deadline operation_deadline z y
    (Q : R → Abs → Prop) :
  exchange_inv tx resp flags z y →
  sees y (exchange_loop (D := D) fuel channel n receive_deadline operation_deadline z)
    (exchange_inv tx resp flags) Q.
Proof.
  revert z y. induction fuel as [|fuel IH]; intros z y Hz; cbn [exchange_loop]; [by intros s Hs|].
  apply sees_then; [silence|]. intros t.
  destruct (negb (instant_ltb t operation_deadline)); [by apply sees_ret|].
  eapply sees_bind; [by apply sees_exchange_pass|]. cbn beta. intros [z'|z'] y' Hz'.
  - by apply IH.
  - by apply sees_ret.
Qed.

(** What one exchange promises. *)
Definition exchange_post (flags : bool * bool) (transmit : list Z) (r : result Error ExchangeResult) (y : Abs) : Prop :=
  vw_mode (ab_view y) = Some LLE_MODE_IDLE ∧ vw_erased (ab_view y) = false ∧
  ab_tx y = bank transmit ∧ ab_flags y = flags ∧
  (vw_releases (ab_view y) = [] ∨ ∃ len, one_release (ab_view y) len) ∧
  match r with
  | Ok e =>
      let p := rp_payload (ex_received e) in
      bytes_ok p ∧ (2 ≤ length p ≤ 29)%nat ∧
      vw_crc (ab_view y) = Some (rp_crc_ok (ex_received e)) ∧
      (ex_transmitted e = true → ∃ len, one_release (ab_view y) len)
  | Err e => e = ErrorTimeout ∨ e = ErrorInvalidPacket
  end.

Lemma sees_exchange_finish flags transmit resp output z y :
  exchange_inv (bank transmit) resp flags z y →
  sees y (exchange_finish (D := D) output z) (exchange_post flags transmit)
    (exchange_post flags transmit).
Proof.
  destruct z as [[timestamp_us turnaround] transmitted]. intros (Ht & Hr & Hf & He & Hrel).
  unfold exchange_finish.
  assert (vw_releases (ab_view y) = [] ∨ ∃ len, one_release (ab_view y) len) as Hone.
  { destruct turnaround; [right; apply Hrel|left; apply Hrel]. }
  assert (transmitted = true → ∃ len, one_release (ab_view y) len) as Htrans.
  { intros ->. destruct turnaround; [apply Hrel|by destruct Hrel]. }
  apply sees_rread_bind. intros status _. rewrite after_status_read.
  eapply sees_bind; [by apply sees_call, sees_copy|]. cbn beta.
  intros [len out] ? ([Hlen Hcopied] & l & ->). cbn [fst snd ab_view ab_tx ab_response ab_flags] in *.
  apply sees_then; [apply silent_rssi|]. intros rssi.
  eapply sees_bind with (P1 := λ _ z, z = idled _); [by apply sees_shut_down|].
  cbn beta. intros _ ? ->.
  set (final := idled _).
  assert (∀ r, match r with
    | Ok e => bytes_ok (rp_payload (ex_received e)) ∧ (2 ≤ length (rp_payload (ex_received e)) ≤ 29)%nat ∧
        rp_crc_ok (ex_received e) = negb (any_bit status (Z.shiftl 1 5)) ∧
        ex_transmitted e = transmitted
    | Err e => e = ErrorTimeout ∨ e = ErrorInvalidPacket
    end → exchange_post flags transmit r final) as Hpost.
  { intros r Hx. split; [done|]. split; [exact He|]. split; [exact Ht|]. split; [exact Hf|].
    split; [exact Hone|].
    destruct r as [e|e]; [|done]. destruct Hx as (Hb & Hl & Hcrc & ->).
    split; [done|]. split; [done|]. split; [by rewrite Hcrc|done]. }
  destruct timestamp_us as [timestamp_us|]; cbn [ok_or].
  2: { eapply sees_bind with (P1 := λ _ _, False); [|done]. intros s <-. cbn. apply Hpost. by left. }
  eapply sees_bind with (P1 := λ a z, a = timestamp_us ∧ z = final); [by intros s <-|].
  cbn beta. intros ? ? [-> ->].
  destruct (Nat.ltb_spec len 2) as [Hlt|Hge]; cbn [when_].
  - eapply sees_bind with (P1 := λ _ _, False); [|done]. apply sees_return, Hpost. by right.
  - apply sees_then; [silence|]. intros _. apply sees_ret, Hpost. cbn [rp_payload ex_received rp_crc_ok ex_transmitted].
    destruct Hcopied as [->|([Hge2 Hle] & Hmax & Hb)]; [lia|].
    split; [done|]. split; [|done]. rewrite length_take.
    unfold max_wire, MAX_DATA_WIRE_LEN, LL_HEADER_LEN, MAX_LL_DATA_PAYLOAD_LEN in Hmax. lia.
Qed.

Lemma sees_exchange fuel channel deadline timeout transmit output x :
  (29 ≤ length output)%nat → stage_refusal (ready (ab_flags x)) transmit = None →
  sees_op x (exchange (D := D) fuel channel deadline timeout transmit output)
    (exchange_post (ab_flags x) transmit).
Proof.
  intros Hout Hstage. apply sees_run. unfold exchange.
  assert ((length output <? Z.to_nat CONNECTION_EVENT_RX_BUFFER_LEN)%nat = false) as ->
    by (by apply Nat.ltb_ge).
  apply sees_then; [silence|]. intros _.
  eapply sees_bind; [by apply sees_call, stage_accepted|]. cbn beta. intros ? y0 [-> ->].
  apply sees_try_ok.
  set (x0 := mkAbs _ _ _ _).
  apply sees_then; [apply silent_fill|]. intros _.
  apply sees_then; [silence|]. intros _.
  apply sees_then; [apply silent_set_receive_channel|]. intros _.
  eapply sees_bind; [by apply (sees_prepare LLE_MODE_RX x0)|]. cbn beta. intros _ x1 H1.
  apply sees_then; [silence|]. intros _.
  apply sees_then; [apply silent_clear_lle|]. intros _.
  eapply sees_bind; [by apply sees_clear_bb|]. cbn beta. intros _ x2 H2.
  apply sees_then; [apply silent_receive_phy|]. intros _.
  apply sees_then; [apply silent_capture_countdown|]. intros _.
  apply sees_then; [silence|]. intros _.
  apply sees_rwrite_bind. rewrite (after_start LLE_MODE_RX x0); [|by left|done].
  apply sees_then; [silence|]. intros start.
  eapply sees_bind; [apply (sees_exchange_loop (bank transmit) (ab_response x) (ab_flags x))|].
  { by repeat split. }
  cbn beta. intros z y Hz. by eapply sees_exchange_finish.
Qed.

(** ** The advertising exchange *)

Definition advertiser (transmit advertiser_address : list Z) : DeviceAddress :=
  mkDeviceAddress advertiser_address
    (if any_bit (transmit !!! 0%nat) (Z.shiftl 1 6) then Random else Public).

(** A captured packet that is handed over. *)
Definition captured_ok (output : list Z) (received : nat * bool * Z) : Prop :=
  let '(len, _, _) := received in
  (2 ≤ len ≤ 39)%nat ∧ (len ≤ length output)%nat ∧ bytes_ok (take len output).

Definition answered (address : DeviceAddress) (a : AdvState) (v : View) : Prop :=
  ∃ len timestamp_us l, as_received a = Some (len, true, timestamp_us) ∧
    vw_releases v = [(Some true, l)] ∧
    is_scan_request (take len (as_output a)) address = true.

(** [fin] allows a packet that ends the exchange without an answer. *)
Definition adv_inv (fin : bool) (tx resp : list Z) (size : nat) (address : DeviceAddress)
    (a : AdvState) (y : Abs) : Prop :=
  ab_tx y = tx ∧ ab_response y = resp ∧ vw_erased (ab_view y) = false ∧
  length (as_output a) = size ∧
  (∀ p, as_received a = Some p → captured_ok (as_output a) p) ∧
  if as_responding a then answered address a (ab_view y)
  else vw_releases (ab_view y) = [] ∧ (fin = false → as_received a = None).

Definition adv_next tx resp size address (next : AdvState + AdvState) (y : Abs) : Prop :=
  match next with
  | inl a => adv_inv false tx resp size address a y
  | inr a => adv_inv true tx resp size address a y
  end.

Lemma adv_inv_fin tx resp size address a y :
  adv_inv false tx resp size address a y → adv_inv true tx resp size address a y.
Proof.
  intros (? & ? & ? & ? & ? & Hx). repeat (split; [done|]).
  destruct (as_responding a); [done|]. by destruct Hx.
Qed.

(** The view parts an answer does not depend on. *)
Lemma adv_inv_view fin tx resp size address a a' y y' :
  adv_inv fin tx resp size address a y →
  as_output a' = as_output a → as_received a' = as_received a → as_responding a' = as_responding a →
  ab_tx y' = ab_tx y → ab_response y' = ab_response y →
  vw_erased (ab_view y') = vw_erased (ab_view y) →
  vw_releases (ab_view y') = vw_releases (ab_view y) →
  adv_inv fin tx resp size address a' y'.
Proof.
  unfold adv_inv, answered. intros H Eo Er Es E1 E2 E3 E4. by rewrite Eo, Er, Es, E1, E2, E3, E4.
Qed.

Lemma sees_release {R} x channel n m k (Q : R → Abs → Prop) :
  sees x (release_receive_to_transmit_1m (D := D) channel n m k) (λ _ y, y = released x) Q.
Proof.
  unfold release_receive_to_transmit_1m. do 4 (apply sees_then; [silence|]; intros _).
  apply sees_then; [apply silent_synth|]. intros _.
  apply sees_then; [apply silent_transmit_phy|]. intros _.
  do 2 (apply sees_then; [silence|]; intros _).
  apply sees_rwrite_bind. rewrite u32_small by (unfold_ints; by split). rewrite after_release.
  apply sees_silent; [silence|done].
Qed.

Lemma sees_dma_then {R A} i fin tx resp size address a y (k : Z → st R A) P Q :
  adv_inv fin tx resp size address a y →
  (∀ v y', adv_inv fin tx resp size address a y' → sees y' (k v) P Q) →
  sees y (read_dma_byte i ≫= k) P Q.
Proof.
  intros Ha Hk. apply sees_dma_bind. intros v _. apply Hk.
  eapply adv_inv_view; [exact Ha|done..| | | |]; destruct y as [[] ? ? ?], i as [|[|]]; done.
Qed.

Lemma sees_arm {R} tx resp size address channel timeout status a y (Q : R → Abs → Prop) :
  adv_inv false tx resp size address a y →
  sees y (advertising_arm (D := D) channel timeout status a)
    (λ '(a', _, _) y', adv_inv false tx resp size address a' y') Q.
Proof.
  intros Ha. unfold advertising_arm.
  eapply sees_bind with (P1 := λ a' y', adv_inv false tx resp size address a' y').
  { destruct (negb (as_armed a) && _); [|by apply sees_ret].
    apply sees_then; [apply silent_continue|]. intros _.
    apply sees_then; [silence|]. intros t. apply sees_ret. by eapply adv_inv_view. }
  cbn beta. intros a1 y1 H1.
  eapply sees_dma_then; [exact H1|]. intros type_byte y2 H2.
  eapply sees_dma_then; [exact H2|]. intros length_byte y3 H3.
  eapply sees_bind with (P1 := λ a' y', adv_inv false tx resp size address a' y').
  { destruct (as_armed a1 && _ && _); [|by apply sees_ret].
    apply sees_then; [silence|]. intros t. apply sees_ret. by eapply adv_inv_view. }
  cbn beta. intros a4 y4 H4. by apply sees_ret.
Qed.

Lemma sees_packet {R} tx resp size channel transmit n m address_bytes_ k a y (Q : R → Abs → Prop) :
  let address := advertiser transmit address_bytes_ in
  adv_inv false tx resp size address a y → as_responding a = false →
  sees y (advertising_packet (D := D) channel transmit n m address_bytes_ k a)
    (λ '(next, a') y', match next with
       | Some next => adv_next tx resp size address next y'
       | None => adv_inv false tx resp size address a' y' ∧ as_responding a' = false end) Q.
Proof.
  intros address (Ht & Hr & He & Hsize & _ & Hidle) Hresp. rewrite Hresp in Hidle.
  destruct Hidle as [Hrel Hnone]. specialize (Hnone eq_refl). unfold advertising_packet.
  apply sees_rread_bind. intros bb _. rewrite after_status_read.
  eapply sees_bind; [apply sees_call, sees_copy|]. cbn beta.
  intros [len out] ? ([Hlen Hcopied] & l & ->). cbn [fst snd ab_view ab_tx ab_response ab_flags] in *.
  set (y1 := mkAbs _ _ _ _).
  assert (adv_inv false tx resp size address (a <| as_output := out |>) y1) as H1.
  { unfold adv_inv. cbn. rewrite Hresp, Hnone. repeat (split; [done || congruence|]). done. }
  eapply sees_bind with (P1 := λ _ z, ∃ l, z = mkAbs ((ab_view y1) <| vw_len := l |>) (ab_tx y1) (ab_response y1) (ab_flags y1)).
  { destruct (2 <=? len)%nat.
    - apply sees_read_dma. intros v. exists (vw_len (ab_view y1)). by destruct y as [[] ? ? ?].
    - apply sees_ret. exists (vw_len (ab_view y1)). done. }
  cbn beta. intros first ? [l' ->]. subst y1.
  cbn [ab_view ab_tx ab_response ab_flags vw_len vw_crc vw_mode vw_releases vw_erased set_field] in *.
  destruct ((2 <=? len)%nat && negb (first =? 0xff)) eqn:Efirst.
  2: { apply sees_ret. split; [|done]. unfold adv_inv. cbn. rewrite Hresp, Hnone.
       repeat (split; [done || congruence|]). done. }
  apply andb_true_iff in Efirst as [Hge%Nat.leb_le _].
  destruct Hcopied as [->|([_ Hle] & Hmax & Hb)]; [lia|].
  unfold max_wire, MAX_LEGACY_ADV_WIRE_LEN, LL_HEADER_LEN, MAX_LEGACY_ADV_PAYLOAD_LEN in Hmax.
  apply sees_then; [silence|]. intros t.
  eapply sees_unwrap_bind. intros header Hheader.
  assert (mkDeviceAddress address_bytes_ (if any_bit header (Z.shiftl 1 6) then Random else Public) = address) as ->.
  { unfold address, advertiser. by rewrite (list_lookup_total_correct _ _ _ Hheader). }
  destruct (negb (any_bit bb (Z.shiftl 1 5)) && _) eqn:Escan.
  - apply andb_true_iff in Escan as [Ecrc Escan].
    eapply sees_bind; [apply sees_release|]. cbn beta. intros _ ? ->.
    apply sees_then; [silence|]. intros t2. apply sees_ret. unfold adv_next, adv_inv, released, answered.
    cbn. split; [done|]. split; [done|]. split; [done|]. split; [congruence|].
    split; [intros ? [= <-]; cbn; split; [lia|]; split; [lia|done]|].
    eexists len, _, _. split; [by rewrite Ecrc|]. split; [|exact Escan].
    rewrite Hrel. unfold CRC_FLAG. by rewrite Ecrc.
  - apply sees_ret. unfold adv_next, adv_inv. cbn. rewrite Hresp.
    split; [done|]. split; [done|]. split; [done|]. split; [congruence|].
    split; [|done]. intros ? [= <-]; cbn. split; [lia|]; split; [lia|done].
Qed.

Lemma sees_adv_pass {R} tx resp size channel timeout transmit n m address_bytes_ a y
    (Q : R → Abs → Prop) :
  let address := advertiser transmit address_bytes_ in
  adv_inv false tx resp size address a y →
  sees y (advertising_pass (D := D) channel timeout transmit n m address_bytes_ a)
    (adv_next tx resp size address) Q.
Proof.
  intros address Ha. unfold advertising_pass.
  apply sees_rread_bind. intros status _. rewrite after_quiet_read by done.
  eapply sees_bind; [by apply sees_arm|]. cbn beta. intros [[a1 pdu_type] length_] y1 H1.
  apply sees_then; [destruct (pdu_type =? 3); [apply silent_reached|silence]|]. intros scan.
  apply sees_then; [apply silent_captured|]. intros captured.
  eapply sees_bind with (P1 := λ '(next, a') y', match next with
       | Some next => adv_next tx resp size address next y'
       | None => adv_inv false tx resp size address a' y' end).
  - destruct (as_armed a1 && negb (as_responding a1) && _) eqn:E; [|by apply sees_ret].
    apply andb_true_iff in E as [[_ E%negb_true_iff]%andb_true_iff _].
    eapply sees_weaken; [by apply sees_packet| |done]. cbn beta. intros [[next|] a2] y2 H2; [done|].
    by destruct H2.
  - cbn beta. intros [[next|] a2] y2 H2; [by apply sees_ret|].
    destruct (as_responding a2 && _); apply sees_ret; [by apply adv_inv_fin|done].
Qed.

Lemma sees_adv_loop {R} tx resp size fuel channel timeout transmit n m address_bytes_ a y
    (Q : R → Abs → Prop) :
  let address := advertiser transmit address_bytes_ in
  adv_inv false tx resp size address a y →
  sees y (advertising_loop (D := D) fuel channel timeout transmit n m address_bytes_ a)
    (adv_inv true tx resp size address) Q.
Proof.
  intros address. revert a y. induction fuel as [|fuel IH]; intros a y Ha; cbn [advertising_loop];
    [by intros s Hs|].
  apply sees_then; [silence|]. intros t.
  destruct (negb (instant_ltb t (as_deadline a))); [apply sees_ret; by apply adv_inv_fin|].
  eapply sees_bind; [by apply sees_adv_pass|]. cbn beta. intros [a'|a'] y' H'.
  - by apply IH.
  - by apply sees_ret.
Qed.

(** What one advertising exchange promises once both packets are staged: either
    the settle countdown never expired and nothing was started (the engine is then
    left in transmit mode), or the engine is idle and a response was released at
    most once, and only to the scan request handed over. *)
Definition advertising_post (transmit scan_response address_bytes_ : list Z)
    (r : result Error ReceivedPacket) (y : Abs) : Prop :=
  ab_tx y = bank transmit ∧ ab_response y = bank scan_response ∧
  ((vw_mode (ab_view y) = Some LLE_MODE_TX ∧ r = Err ErrorTimeout) ∨
   (vw_mode (ab_view y) = Some LLE_MODE_IDLE ∧ vw_erased (ab_view y) = false ∧
    match r with
    | Ok p => bytes_ok (rp_payload p) ∧ (2 ≤ length (rp_payload p) ≤ 39)%nat ∧
        (vw_releases (ab_view y) = [] ∨
         (∃ l, vw_releases (ab_view y) = [(Some true, l)]) ∧ rp_crc_ok p = true ∧
         is_scan_request (rp_payload p) (advertiser transmit address_bytes_) = true)
    | Err e => e = ErrorTimeout ∧ vw_releases (ab_view y) = []
    end)).

(** The set-up of the advertising exchange, up to the settle countdown: [x0] is the
    state with both packets staged and [x2] the one before the wait. *)
Ltac advertising_setup x0 x2 H2 :=
  eapply sees_bind; [by apply sees_call, stage_accepted|]; cbn beta; intros ? ? [-> ->];
  apply sees_try_ok;
  eapply sees_bind; [by apply sees_call, stage_response_accepted|]; cbn beta; intros ? ? [-> ->];
  cbn [ab_view ab_tx ab_response ab_flags];
  apply sees_try_ok; set (x0 := mkAbs _ _ _ _);
  apply sees_then; [apply silent_fill|]; intros _;
  apply sees_then; [silence|]; intros _;
  eapply sees_bind; [by apply (sees_prepare LLE_MODE_TX x0)|]; cbn beta; intros _ ? ?;
  apply sees_then; [silence|]; intros _;
  apply sees_then; [apply silent_clear_lle|]; intros _;
  eapply sees_bind; [by eapply sees_clear_bb|]; cbn beta; intros _ x2 H2;
  apply sees_then; [silence|]; intros _.

Lemma sees_advertising fuel channel timeout transmit scan_response address_bytes_ output x :
  stage_refusal (ready (ab_flags x)) transmit = None → packet_fits scan_response = true →
  sees_op x (advertising_exchange (D := D) fuel channel timeout transmit scan_response
               address_bytes_ output)
    (advertising_post transmit scan_response address_bytes_).
Proof.
  intros Hstage Hfits. apply sees_run. unfold advertising_exchange.
  advertising_setup x0 x2 H2.
  eapply sees_bind; [apply sees_call, sees_settle|]. cbn beta. intros r ? [-> Hr].
  destruct H2 as (Hmode & Ht & Hresp & Hready).
  destruct Hr as [-> | ->].
  2: { apply sees_try_err. split; [done|]. split; [done|]. by left. }
  apply sees_try_ok.
  apply sees_then; [apply silent_transmit_phy|]. intros _.
  apply sees_then; [apply silent_capture_countdown|]. intros _.
  apply sees_then; [apply silent_capture_seen|]. intros _.
  eapply sees_bind with (P1 := λ _ z, z = started LLE_MODE_TX x0).
  { unfold start_transmit_operation. do 2 (apply sees_then; [silence|]; intros _).
    apply sees_rwrite. apply (after_start LLE_MODE_TX x0); [by right|done]. }
  cbn beta. intros _ ? ->.
  apply sees_then; [silence|]. intros start.
  eapply sees_bind; [apply (sees_adv_loop (bank transmit) (bank scan_response) (length output))|].
  { unfold adv_inv. cbn. by repeat split. }
  cbn beta. intros a y9 (Ht' & Hr' & He & _ & Hp & Ha).
  apply sees_then; [apply silent_rssi|]. intros rssi.
  eapply sees_bind with (P1 := λ _ z, z = idled y9); [by apply sees_shut_down|].
  cbn beta. intros _ ? ->.
  destruct (as_received a) as [[[len crc_ok] timestamp_us]|] eqn:Erec; cbn [ok_or].
  - apply sees_try_ok. apply sees_ret.
    split; [exact Ht'|]. split; [exact Hr'|]. right. split; [done|]. split; [exact He|].
    destruct (Hp _ eq_refl) as ([Hlo Hhi] & Hle & Hb). cbn [rp_payload rp_crc_ok].
    split; [done|]. split; [rewrite length_take; lia|].
    destruct (as_responding a); [right|left; apply Ha].
    destruct Ha as (len' & ts & l & Hrec & Hrel & Hscan). rewrite Erec in Hrec.
    injection Hrec as -> -> ->. split; [by exists l|]. by split.
  - apply sees_try_err.
    split; [exact Ht'|]. split; [exact Hr'|]. right. split; [done|]. split; [exact He|].
    split; [done|]. destruct (as_responding a); [|apply Ha].
    destruct Ha as (len' & ts & l & Hrec & _). by rewrite Erec in Hrec.
Qed.

(** ** The theorems *)

(** The exchange as the controller's runner sees it: a function of its arguments
    in the state the radio is in. *)
Definition on_air (fuel : nat) (s : Machine D)
    (channel : Channel) (deadline : Instant) (timeout : Duration) (frame : list Z)
  : result Error ExchangeResult :=
  match exchange fuel channel deadline timeout frame
          (replicate (Z.to_nat CONNECTION_EVENT_RX_BUFFER_LEN) 0) s with
  | Some (r, _) => r
  | None => Err ErrorTimeout
  end.

Lemma exchange_short fuel channel deadline timeout transmit output (s : Machine D) :
  (length output < 29)%nat →
  exchange fuel channel deadline timeout transmit output s = Some (Err ErrorInvalidPacket, s).
Proof.
  intros Hlt. unfold exchange.
  assert ((length output <? Z.to_nat CONNECTION_EVENT_RX_BUFFER_LEN)%nat = true) as ->
    by (by apply Nat.ltb_lt). done.
Qed.

Lemma exchange_refused fuel channel deadline timeout transmit output (s : Machine D) e :
  (29 ≤ length output)%nat →
  stage_refusal (m_digital_initialized s && m_frontend_calibrated s) transmit = Some e →
  exchange fuel channel deadline timeout transmit output s = Some (Err e, s).
Proof.
  intros Hout He. unfold exchange.
  assert ((length output <? Z.to_nat CONNECTION_EVENT_RX_BUFFER_LEN)%nat = false) as ->
    by (by apply Nat.ltb_ge).
  cbn [when_]. unfold run, mbind, M_bind, call, mret, M_ret. cbv beta iota.
  by rewrite (stage_refused _ _ _ _ He).
Qed.

Lemma exchange_accepted fuel channel deadline timeout transmit output (s : Machine D) :
  (29 ≤ length output)%nat →
  stage_refusal (m_digital_initialized s && m_frontend_calibrated s) transmit = None →
  match exchange fuel channel deadline timeout transmit output s with
  | Some (r, s') =>
      exchange_post (m_digital_initialized s, m_frontend_calibrated s) transmit r (abs s')
  | None => True
  end.
Proof.
  intros Hout E. by apply (sees_exchange fuel channel deadline timeout transmit output (abs s)).
Qed.

Lemma on_air_ok fuel s : radio_ok (on_air fuel s).
Proof.
  intros ch dl tmo frame r Hr. unfold on_air in Hr.
  set (out := replicate _ 0) in Hr.
  assert (29 ≤ length out)%nat as Hout by (unfold out; by rewrite length_replicate).
  destruct (stage_refusal (m_digital_initialized s && m_frontend_calibrated s) frame) as [e|] eqn:E.
  - by rewrite (exchange_refused _ _ _ _ _ _ _ _ Hout E) in Hr.
  - pose proof (exchange_accepted fuel ch dl tmo frame out s Hout E) as Hx.
    destruct (exchange fuel ch dl tmo frame out s) as [[r' s']|]; [|done]. subst r'.
    by destruct Hx as (_ & _ & _ & _ & _ & ? & _).
Qed.

(** C10: The connection exchange refuses a short buffer, an uncalibrated radio and
    an unfit packet without an access. Otherwise, on any hardware and with the
    baseband interrupt taken anywhere: the packet is staged with the rest of the
    DMA bank zeroed; the response is released at most once, and only after the
    driver read a clear CRC flag and a length of at most 27 octets; nobody clears
    the CRC flag in between, and the flag handed over is the one read last; the
    packet handed over has 2 to 29 octets; transmitted is only claimed after a
    release; the engine is idle at the end, on success and on error. So the
    exchange satisfies what the Link Layer theorems assume of the radio. *)
Theorem exchange_safe fuel channel deadline timeout transmit output (s : Machine D) :
  (if (length output <? 29)%nat then
     exchange fuel channel deadline timeout transmit output s = Some (Err ErrorInvalidPacket, s)
   else
     match stage_refusal (m_digital_initialized s && m_frontend_calibrated s) transmit with
     | Some e => exchange fuel channel deadline timeout transmit output s = Some (Err e, s)
     | None =>
         match exchange fuel channel deadline timeout transmit output s with
         | Some (r, s') => exchange_post (m_digital_initialized s, m_frontend_calibrated s) transmit r (abs s')
         | None => True
         end
     end) ∧
  radio_ok (on_air fuel s).
Proof.
  split; [|apply on_air_ok].
  destruct (Nat.ltb_spec (length output) 29) as [Hlt|Hge]; [by apply exchange_short|].
  destruct (stage_refusal _ transmit) eqn:E; [by apply exchange_refused|].
  by apply exchange_accepted.
Qed.

(** C34: When the settle countdown never expires, the advertising exchange
    returns Timeout without its shutdown: the link-layer engine is left in transmit
    mode. *)
Theorem settle_timeout_not_idle fuel channel timeout transmit scan_response address_ output
    (s : Machine D) :
  (∀ d, u32 (rd_read lle_operation_countdown d).1 ≠ 0) →
  stage_refusal (m_digital_initialized s && m_frontend_calibrated s) transmit = None →
  packet_fits scan_response = true →
  match advertising_exchange fuel channel timeout transmit scan_response address_ output s with
  | Some (r, s') => r = Err ErrorTimeout ∧ vw_mode (view_of (m_trace s')) = Some LLE_MODE_TX
  | None => True
  end.
Proof.
  intros Hstuck Hstage Hfits.
  assert (sees_op (abs s) (advertising_exchange (D := D) fuel channel timeout transmit scan_response address_ output)
    (λ r y, r = Err ErrorTimeout ∧ vw_mode (ab_view y) = Some LLE_MODE_TX)) as H.
  { apply sees_run. unfold advertising_exchange. advertising_setup x0 x2 H2.
    eapply sees_bind; [by apply sees_call, sees_settle_stuck|]. cbn beta. intros r ? [-> ->].
    apply sees_try_err. split; [done|]. by destruct H2. }
  pose proof (H s eq_refl) as Hx.
  by destruct (advertising_exchange fuel channel timeout transmit scan_response address_ output s) as [[r s']|].
Qed.

Lemma response_refused channel timeout transmit scan_response address_ output x fuel :
  stage_refusal (ready (ab_flags x)) transmit = None → packet_fits scan_response = false →
  sees_op x (advertising_exchange (D := D) fuel channel timeout transmit scan_response address_ output)
    (λ r y, r = Err ErrorInvalidPacket ∧ ab_view y = ab_view x).
Proof.
  intros Hstage Hfits. apply sees_run. unfold advertising_exchange.
  eapply sees_bind; [by apply sees_call, stage_accepted|]. cbn beta. intros ? y0 [-> ->].
  apply sees_try_ok.
  eapply sees_bind with (P1 := λ r y, r = Err ErrorInvalidPacket ∧ ab_view y = ab_view x).
  - apply sees_call, sees_run. unfold stage_response. rewrite unfit_guard, Hfits. cbn [negb when_].
    eapply sees_bind with (P1 := λ _ _, False); [by apply sees_return|done].
  - cbn beta. intros ? y [-> Hy]. by apply sees_try_err.
Qed.

Lemma advertising_refused fuel channel timeout transmit scan_response address_ output
    (s : Machine D) e :
  stage_refusal (m_digital_initialized s && m_frontend_calibrated s) transmit = Some e →
  advertising_exchange fuel channel timeout transmit scan_response address_ output s =
    Some (Err e, s).
Proof.
  intros E. unfold advertising_exchange, run, mbind, M_bind, call. by rewrite (stage_refused _ _ _ _ E).
Qed.


End exchanges.
