(* ===== verification/RadioTime.v ===== *)
(** * The exchanges return

    The loops of both exchanges are bounded by the clock alone.  With a clock that
    keeps running, an explicit amount of fuel is enough for them to return on any
    hardware, and the other operations never panic. *)

From S2P Require Import Prelude.
From S2P Require Import Effects.
From S2P Require Import Time.
From S2P Require Import Channel.
From S2P Require Import Runner.
From S2P Require Import RadioMachine.
From S2P Require Import Radio.
From S2P Require Import RadioLogic.
From S2P Require Import RadioProps.

(** ** The clock of a device

    [clock d] is the time in microseconds; between two ticks the driver can read
    it at most [stall d] more times, and never more than [stall_max] times.  The
    time of [embassy_time] is exact as long as its 64-bit count does not overflow,
    which is the assumption here. *)
Class RunningClock `{!EmbassyTime} (D : Type) `{!RadioDevice D} : Type := {
  clock : D → Z;
  stall : D → nat;
  stall_max : nat;
}.

Definition later `{RunningClock D} (d d' : D) : Prop :=
  clock d < clock d' ∨ clock d = clock d' ∧ (stall d' ≤ stall d)%nat.
Definition strictly_later `{RunningClock D} (d d' : D) : Prop :=
  clock d < clock d' ∨ clock d = clock d' ∧ (stall d' < stall d)%nat.

Class RunningClockLaws `{RunningClock D} : Prop := {
  stall_bounded d : (stall d ≤ stall_max)%nat;
  now_reads d i d' : rd_now d = (i, d') → instant_as_micros i = clock d' ∧ strictly_later d d';
  read_later a d : later d (rd_read a d).2;
  write_later a v d : later d (rd_write a v d);
  write16_later a v d : later d (rd_write16 a v d);
  dma_later i d : later d (rd_dma i d).2;
  fill_later v d : later d (rd_fill v d);
  irq_later d : later d (rd_irq d).2;
  exact_ltb i j : instant_ltb i j = (instant_as_micros i <? instant_as_micros j);
  exact_add i t : instant_as_micros (instant_add i t) = instant_as_micros i + duration_as_micros t;
  exact_from us : 0 ≤ us ≤ U32_MAX → duration_as_micros (duration_from_micros us) = us;
}.

Section time.
Context {time : EmbassyTime} {D : Type} {device : RadioDevice D}.
Context {running : RunningClock D} {laws : RunningClockLaws (D := D)}.
Abbreviation st R A := (M (Machine D) R A).
Abbreviation op A := (Machine D → option (A * Machine D)).

#[local] Instance later_preorder : PreOrder later.
Proof. unfold later. split; [intros d; lia|intros d1 d2 d3; lia]. Qed.

Lemma later_strictly d1 d2 d3 : later d1 d2 → strictly_later d2 d3 → strictly_later d1 d3.
Proof. unfold later, strictly_later. lia. Qed.

Lemma strictly_is_later d1 d2 : strictly_later d1 d2 → later d1 d2.
Proof. unfold later, strictly_later. lia. Qed.

(** ** Code that returns, later *)

Definition goes (may : bool) {R A} (m : st R A) : Prop :=
  ∀ s, holds m s (λ _ s', later (m_dev s) (m_dev s'))
                 (λ _ s', may = true ∧ later (m_dev s) (m_dev s')).
Definition goes_op {A} (f : op A) : Prop :=
  ∀ s, ∃ a s', f s = Some (a, s') ∧ later (m_dev s) (m_dev s').

Lemma goes_bind may {R A B} (m : st R A) (k : A → st R B) :
  goes may m → (∀ a, goes may (k a)) → goes may (m ≫= k).
Proof.
  intros Hm Hk s. eapply holds_bind with (P' := λ _ s', later (m_dev s) (m_dev s')); [apply Hm|].
  cbn beta. intros a s' Hl. eapply holds_weaken; [apply Hk| |]; cbn beta.
  - intros b s2 ?. by etrans.
  - intros r s2 [? ?]. split; [done|by etrans].
Qed.

Lemma goes_ret may {R A} (a : A) : goes may (R := R) (mret a).
Proof. intros s. apply holds_ret. done. Qed.

Lemma goes_return {R A} (r : R) : goes true (A := A) (return_ r).
Proof. intros s. apply holds_return. done. Qed.

Lemma goes_when may {R} b (m : st R ()) : goes may m → goes may (when_ b m).
Proof. intros Hm. destruct b; [done|apply goes_ret]. Qed.

Lemma goes_gets may {R A} (f : Machine D → A) : goes may (R := R) (gets f).
Proof. intros s. apply holds_gets. done. Qed.

Lemma goes_modify may {R} (f : Machine D → Machine D) :
  (∀ s, later (m_dev s) (m_dev (f s))) → goes may (R := R) (modify f).
Proof. intros Hf s. apply holds_modify, Hf. Qed.

Lemma goes_try {R E A} (f : E → R) (r : result E A) : goes true (try f r).
Proof. intros s. apply holds_try; done. Qed.

Lemma goes_unwrap may {R A} (o : option A) : is_Some o → goes may (R := R) (unwrap o).
Proof. intros [a ->] s. by eapply holds_unwrap. Qed.

Lemma goes_call may {R A} (f : op A) : goes_op f → goes may (R := R) (call f).
Proof. intros Hf s. unfold holds, call. by destruct (Hf s) as (a & s' & -> & ?). Qed.

Lemma goes_run {R} (m : st R R) : goes true m → goes_op (run m).
Proof.
  intros Hm s. destruct (run_holds m s (λ _ s', later (m_dev s) (m_dev s'))) as (r & s' & ? & ?); [|eauto].
  eapply holds_weaken; [apply Hm|done|]. by intros ? ? [_ ?].
Qed.

Lemma goes_repeat may {R} n (body : st R ()) : goes may body → goes may (repeat_ n body).
Proof.
  intros Hb. induction n as [|n IH]; cbn [repeat_]; [apply goes_ret|]. by apply goes_bind.
Qed.

Lemma goes_for_each may {R A} (l : list A) (body : A → st R ()) :
  (∀ a, goes may (body a)) → goes may (for_each l body).
Proof.
  intros Hb. induction l as [|a l IH]; cbn [for_each]; [apply goes_ret|]. by apply goes_bind.
Qed.

Lemma goes_raw_read may {R} who address : goes may (R := R) (raw_read who address).
Proof.
  intros s. unfold holds, raw_read. pose proof (read_later address (m_dev s)) as Hl.
  by destruct (rd_read address (m_dev s)).
Qed.

Lemma goes_raw_write may {R} who address v : goes may (R := R) (raw_write who address v).
Proof. intros s. apply write_later. Qed.

Lemma goes_preempt may {R} : goes may (R := R) preempt.
Proof.
  unfold preempt. apply goes_bind; [apply goes_gets|]. intros enabled. apply goes_when, goes_bind.
  { intros s. unfold holds, raw_irq. pose proof (irq_later (m_dev s)) as Hl.
    by destruct (rd_irq (m_dev s)). }
  intros taken. apply goes_when. unfold BLEB.
  apply goes_bind; [apply goes_raw_read|]. intros status. apply goes_bind.
  - apply goes_when, goes_bind; [apply goes_raw_write|]. intros _.
    apply goes_bind; [apply goes_gets|]. intros countdown. apply goes_when.
    apply goes_bind; [apply goes_raw_write|]. intros _.
    apply goes_bind; [apply goes_raw_write|]. intros _. by apply goes_modify.
  - intros _. apply goes_bind; [apply goes_raw_read|]. intros remaining. apply goes_raw_write.
Qed.

Lemma goes_rread may {R} address : goes may (R := R) (rread address).
Proof. apply goes_bind; [apply goes_preempt|]. intros _. apply goes_raw_read. Qed.

Lemma goes_rwrite may {R} address v : goes may (R := R) (rwrite address v).
Proof. apply goes_bind; [apply goes_preempt|]. intros _. apply goes_raw_write. Qed.

Lemma goes_rmodify may {R} address f : goes may (R := R) (rmodify address f).
Proof. apply goes_bind; [apply goes_rread|]. intros v. apply goes_rwrite. Qed.

Lemma goes_rwrite16 may {R} address v : goes may (R := R) (rwrite16 address v).
Proof. apply goes_bind; [apply goes_preempt|]. intros _ s. apply write16_later. Qed.

Lemma goes_dma may {R} i : goes may (R := R) (read_dma_byte i).
Proof.
  apply goes_bind; [apply goes_preempt|]. intros _ s. unfold holds, raw_dma.
  pose proof (dma_later i (m_dev s)) as Hl. by destruct (rd_dma i (m_dev s)).
Qed.

Lemma goes_fill may {R} v : goes may (R := R) (fill_rx v).
Proof. apply goes_modify. intros s. apply fill_later. Qed.

Lemma goes_capture_seen may {R} : goes may (R := R) load_capture_seen.
Proof. apply goes_bind; [apply goes_preempt|]. intros _. apply goes_gets. Qed.

(** Sequencing after code of which only the time matters. *)
Lemma holds_goes {R A B} (m : st R A) (k : A → st R B) s P Q :
  goes false m → (∀ a s', later (m_dev s) (m_dev s') → holds (k a) s' P Q) →
  holds (m ≫= k) s P Q.
Proof.
  intros Hm Hk. eapply holds_bind with (P' := λ _ s', later (m_dev s) (m_dev s')).
  - eapply holds_weaken; [apply Hm|done|]. by intros r s' [? _].
  - cbn beta. intros a s' Hl. by apply Hk.
Qed.

(** Reading the clock: the value is the time, and time has moved. *)
Lemma now_ok {R} (s : Machine D) (Q : R → Machine D → Prop) :
  holds now s (λ i s', instant_as_micros i = clock (m_dev s') ∧
    strictly_later (m_dev s) (m_dev s')) Q.
Proof.
  unfold now. apply holds_goes; [apply goes_preempt|]. intros _ s1 Hl. unfold holds, raw_now.
  destruct (rd_now (m_dev s1)) as [i d] eqn:E. destruct (now_reads _ _ _ E) as [Ei Es].
  split; [exact Ei|]. by eapply later_strictly.
Qed.

Lemma goes_now may {R} : goes may (R := R) now.
Proof.
  intros s. eapply holds_weaken; [apply (now_ok s (λ _ _, False))| |done].
  intros i s' [_ Hs]. by apply strictly_is_later.
Qed.

(** Straight-line code. *)
Ltac go := repeat first
  [ progress intros
  | apply goes_ret | apply goes_return | apply goes_rwrite16 | apply goes_now
  | apply goes_rmodify | apply goes_rwrite | apply goes_rread | apply goes_gets | apply goes_try
  | apply goes_dma | apply goes_fill | apply goes_capture_seen
  | apply goes_modify; done
  | apply goes_unwrap; done
  | match goal with |- goes _ (if ?b then _ else _) => destruct b end
  | apply goes_when | apply goes_repeat | apply goes_for_each | apply goes_call
  | apply goes_run | apply goes_bind ].

Lemma goes_settle : goes_op (wait_for_settle_countdown (D := D)).
Proof. unfold wait_for_settle_countdown. go. Qed.

Lemma goes_synth may {R} channel receive : is_Some (frequency_mhz channel) →
  goes may (R := R) (configure_ch585_synth (D := D) channel receive).
Proof. intros Hf. unfold configure_ch585_synth. go. Qed.

Lemma goes_shut_down may {R} : goes may (R := R) (shut_down_operation (D := D)).
Proof. unfold shut_down_operation, store_capture_countdown. go. Qed.

Lemma goes_copy_bytes may {R} i n output : goes may (R := R) (copy_dma_bytes (D := D) i n output).
Proof. revert i output. induction n as [|n IH]; intros; cbn [copy_dma_bytes]; go. apply IH. Qed.

Lemma goes_copy output advertising : goes_op (copy_received_packet (D := D) output advertising).
Proof.
  unfold copy_received_packet, count_limit. apply goes_run, goes_bind; [go|]. intros claimed.
  destruct (classify_received_length _ _); [|go..].
  destruct (_ <? _)%nat; go. apply goes_copy_bytes.
Qed.

Lemma goes_stage channel packet : is_Some (frequency_mhz channel) →
  goes_op (stage_transmit (D := D) channel packet).
Proof.
  intros Hf. unfold stage_transmit, set_channel. apply goes_run.
  apply goes_bind; [go|]. intros digital. apply goes_bind; [go|]. intros calibrated.
  apply goes_bind; [go|]. intros _. rewrite unfit_guard.
  destruct (packet_fits packet) eqn:E; cbn [negb when_].
  - rewrite encode_bank by done. go.
  - intros s. by apply holds_return.
Qed.

Lemma goes_stage_response packet : goes_op (stage_response (D := D) packet).
Proof.
  unfold stage_response. apply goes_run. rewrite unfit_guard.
  destruct (packet_fits packet) eqn:E; cbn [negb when_].
  - rewrite encode_bank by done. go.
  - intros s. by apply holds_return.
Qed.

(** ** Budgets

    How often the driver can still read a time before [t]. *)
Definition ticks (w : Z) : nat := Z.to_nat (w * (Z.of_nat stall_max + 1)).
Definition budget (t : Z) (d : D) : nat := (ticks (t - clock d) + stall d)%nat.

(** The most that a deadline [w] away is worth, from any later moment. *)
Definition cost (w : Z) : nat := (ticks w + stall_max)%nat.

Lemma ticks_mono v w : v ≤ w → (ticks v ≤ ticks w)%nat.
Proof.
  intros H. unfold ticks.
  assert (v * (Z.of_nat stall_max + 1) ≤ w * (Z.of_nat stall_max + 1)) by nia. lia.
Qed.

Lemma ticks_step w : 1 ≤ w → (ticks (w - 1) + stall_max < ticks w)%nat.
Proof.
  intros H. unfold ticks.
  assert (w * (Z.of_nat stall_max + 1) = (w - 1) * (Z.of_nat stall_max + 1) + Z.of_nat stall_max + 1)
    as -> by ring.
  assert (0 ≤ (w - 1) * (Z.of_nat stall_max + 1)) by nia. lia.
Qed.

(** A reading before [t] uses some budget up; passing time never adds any. *)
Lemma budget_read t d d' : strictly_later d d' → clock d' < t → (budget t d' < budget t d)%nat.
Proof.
  intros [Hlt|[Heq Hst]] Ht; unfold budget; [|rewrite Heq; lia].
  pose proof (stall_bounded d').
  assert (ticks (t - clock d - 1) + stall_max < ticks (t - clock d))%nat by (apply ticks_step; lia).
  assert (ticks (t - clock d') ≤ ticks (t - clock d - 1))%nat by (apply ticks_mono; lia). lia.
Qed.

Lemma budget_later t d d' : later d d' → clock d < t → (budget t d' ≤ budget t d)%nat.
Proof.
  intros [Hlt|[Heq Hst]] Ht; unfold budget; [|rewrite Heq; lia].
  pose proof (stall_bounded d').
  assert (ticks (t - clock d - 1) + stall_max < ticks (t - clock d))%nat by (apply ticks_step; lia).
  assert (ticks (t - clock d') ≤ ticks (t - clock d - 1))%nat by (apply ticks_mono; lia). lia.
Qed.

Lemma budget_cost w t d d' : later d d' → t ≤ clock d + w → (budget t d' ≤ cost w)%nat.
Proof.
  intros Hl Ht. unfold budget, cost. pose proof (stall_bounded d').
  assert (ticks (t - clock d') ≤ ticks w)%nat by (apply ticks_mono; unfold later in Hl; lia). lia.
Qed.

(** ** The connection exchange *)

Lemma goes_release may {R} channel n m : is_Some (frequency_mhz channel) →
  goes may (R := R) (exchange_release (D := D) channel n m).
Proof. intros Hf. unfold exchange_release, configure_transmit_phy_1m. go. Qed.

Lemma goes_exchange_pass may {R} channel n deadline x : is_Some (frequency_mhz channel) →
  goes may (R := R) (exchange_pass (D := D) channel n deadline x).
Proof.
  intros Hf. unfold exchange_pass. destruct x as [[timestamp_us turnaround] transmitted].
  go.
Qed.

Lemma exchange_loop_returns {R} fuel channel n receive_deadline operation_deadline x (s : Machine D)
    (Q : R → Machine D → Prop) : is_Some (frequency_mhz channel) →
  (budget (instant_as_micros operation_deadline) (m_dev s) < fuel)%nat →
  holds (exchange_loop fuel channel n receive_deadline operation_deadline x) s
    (λ _ s', later (m_dev s) (m_dev s')) Q.
Proof.
  intros Hf. revert x s. induction fuel as [|fuel IH]; intros x s Hb; cbn [exchange_loop]; [lia|].
  eapply holds_bind; [apply now_ok|]. cbn beta. intros t s1 [Ht Hs].
  rewrite exact_ltb, Ht. destruct (Z.ltb_spec (clock (m_dev s1)) (instant_as_micros operation_deadline)) as [Hlt|Hge]; cbn [negb].
  - apply holds_goes; [by apply goes_exchange_pass|]. intros next s2 Hl.
    pose proof (budget_read _ _ _ Hs Hlt). pose proof (budget_later _ _ _ Hl Hlt).
    assert (later (m_dev s) (m_dev s2)) as Hl2 by (etrans; [by apply strictly_is_later|done]).
    destruct next as [x'|x']; [|by apply holds_ret].
    eapply holds_weaken; [apply IH; lia| |done]. cbn beta. intros ? s3 ?. by etrans.
  - apply holds_ret. by apply strictly_is_later.
Qed.

(** The set-up of an exchange. *)
Lemma goes_receive_setup may {R} channel : is_Some (frequency_mhz channel) →
  goes may (R := R) (set_receive_channel (D := D) channel).
Proof. intros Hf. unfold set_receive_channel. go. Qed.

Lemma goes_prepare may {R} mode : goes may (R := R) (prepare_common_operation (D := D) mode).
Proof. unfold prepare_common_operation. go. Qed.

Lemma goes_transmit_phy may {R} n : goes may (R := R) (configure_transmit_phy_1m (D := D) n).
Proof. unfold configure_transmit_phy_1m. go. Qed.

Lemma goes_receive_phy may {R} : goes may (R := R) (configure_receive_phy_1m (D := D)).
Proof. unfold configure_receive_phy_1m. go. Qed.

Lemma goes_rssi may {R} : goes may (R := R) (read_rssi (D := D)).
Proof. unfold read_rssi. go. Qed.

Lemma goes_clear_bb may {R} : goes may (R := R) (clear_bb_interrupt_status (D := D)).
Proof. unfold clear_bb_interrupt_status. go. Qed.

(** Running to the end, with a last part of which only the time matters. *)
Lemma returns_goes {R} (m : st R R) (s : Machine D) : goes true m →
  holds m s (λ _ _, True) (λ _ _, True).
Proof. intros Hm. by eapply holds_weaken; [apply Hm| |]. Qed.

Lemma returns_bind {R A} (m : st R A) (k : A → st R R) (s : Machine D) :
  goes true m → (∀ a s', holds (k a) s' (λ _ _, True) (λ _ _, True)) →
  holds (m ≫= k) s (λ _ _, True) (λ _ _, True).
Proof.
  intros Hm Hk. eapply holds_bind with (P' := λ _ _, True); [|by intros; apply Hk].
  by eapply holds_weaken; [apply Hm| |].
Qed.

Lemma run_returns {R} (m : st R R) (s : Machine D) :
  holds m s (λ _ _, True) (λ _ _, True) → is_Some (run m s).
Proof. intros Hm. destruct (run_holds m s _ Hm) as (r & s' & -> & _). by eexists. Qed.

Definition exchange_fuel (timeout : Duration) : nat := cost (duration_as_micros timeout + 1000).

Lemma exchange_deadline_cost start deadline timeout (d d' : D) :
  instant_as_micros start = clock d → later d d' →
  (budget (instant_as_micros (instant_add (instant_min (instant_add start timeout) deadline)
             (duration_from_micros 1000))) d' ≤ exchange_fuel timeout)%nat.
Proof.
  intros Hstart Hl. apply budget_cost with (d := d); [done|].
  rewrite exact_add, exact_from by (unfold U32_MAX; lia).
  assert (instant_as_micros (instant_min (instant_add start timeout) deadline) ≤
          instant_as_micros (instant_add start timeout)) as Hmin.
  { unfold instant_min. rewrite exact_ltb.
    destruct (Z.ltb_spec (instant_as_micros deadline) (instant_as_micros (instant_add start timeout))); lia. }
  rewrite exact_add in Hmin. lia.
Qed.

Lemma exchange_runs fuel channel deadline timeout transmit output (s : Machine D) :
  is_Some (frequency_mhz channel) → (exchange_fuel timeout < fuel)%nat →
  is_Some (exchange fuel channel deadline timeout transmit output s).
Proof.
  intros Hf Hfuel. unfold exchange.
  apply run_returns.
  apply returns_bind; [go|]. intros _ s1.
  apply returns_bind; [by apply goes_call, goes_stage|]. intros staged s2.
  apply returns_bind; [go|]. intros _ s3.
  apply returns_bind; [go|]. intros _ s4.
  apply returns_bind; [go|]. intros _ s5.
  apply returns_bind; [by apply goes_receive_setup|]. intros _ s6.
  apply returns_bind; [apply goes_prepare|]. intros _ s7.
  apply returns_bind; [go|]. intros _ s8.
  apply returns_bind; [unfold clear_lle_status; go|]. intros _ s9.
  apply returns_bind; [apply goes_clear_bb|]. intros _ s10.
  apply returns_bind; [apply goes_receive_phy|]. intros _ s11.
  apply returns_bind; [unfold store_capture_countdown; go|]. intros _ s12.
  apply returns_bind; [go|]. intros _ s13.
  apply returns_bind; [go|]. intros _ s14.
  eapply holds_bind; [apply now_ok|]. cbn beta. intros start s15 [Hstart _].
  eapply holds_bind; [apply exchange_loop_returns; [done|]|].
  { eapply Nat.le_lt_trans; [by eapply exchange_deadline_cost|done]. }
  cbn beta. intros [[timestamp_us turnaround] transmitted] s16 _. unfold exchange_finish.
  apply returns_bind; [go|]. intros status s17.
  apply returns_bind; [apply goes_call, goes_copy|]. intros [len out] s18.
  apply returns_bind; [apply goes_rssi|]. intros rssi s19.
  apply returns_bind; [apply goes_shut_down|]. intros _ s20.
  apply returns_goes. go.
Qed.

(** ** The direct operations

    Their loops have a bound of their own, whatever the clock does. *)

Lemma goes_wait mask : goes_op (wait_for_operation (D := D) mask).
Proof. unfold wait_for_operation. go. Qed.

Lemma goes_polls n deadline captured : goes true (receive_polls (D := D) n deadline captured).
Proof.
  revert captured. induction n as [|n IH]; intros captured; cbn [receive_polls]; [go|].
  apply goes_bind; [unfold receive_pass; go|done].
Qed.

Lemma transmit_returns channel packet : is_Some (frequency_mhz channel) →
  goes_op (transmit_blocking (D := D) channel packet).
Proof.
  intros Hf. unfold transmit_blocking, clear_lle_status, start_transmit_operation. apply goes_run.
  apply goes_bind; [by apply goes_call, goes_stage|]. intros staged.
  apply goes_bind; [go|]. intros _. apply goes_bind; [apply goes_prepare|]. intros _.
  do 2 (apply goes_bind; [go|]; intros _). apply goes_bind; [apply goes_clear_bb|]. intros _.
  apply goes_bind; [go|]. intros _. apply goes_bind; [apply goes_call, goes_settle|]. intros settled.
  apply goes_bind; [go|]. intros _. apply goes_bind; [apply goes_transmit_phy|]. intros _.
  apply goes_bind; [go|]. intros _. apply goes_bind; [apply goes_call, goes_wait|]. intros result_.
  apply goes_bind; [apply goes_shut_down|]. intros _. go.
Qed.

Lemma receive_returns channel timeout output : is_Some (frequency_mhz channel) →
  goes_op (receive_blocking (D := D) channel timeout output).
Proof.
  intros Hf. unfold receive_blocking, clear_lle_status, enable_interrupt, prepare_receive_operation.
  apply goes_run. do 6 (apply goes_bind; [go|]; intros ?).
  apply goes_bind; [by apply goes_receive_setup|]. intros _.
  do 2 (apply goes_bind; [go|]; intros _). apply goes_bind; [apply goes_clear_bb|]. intros _.
  apply goes_bind; [apply goes_receive_phy|]. intros _. do 5 (apply goes_bind; [go|]; intros ?).
  apply goes_bind.
  { apply goes_call. unfold wait_for_polled_receive_operation. apply goes_run.
    apply goes_bind; [apply goes_polls|]. intros _. go. }
  intros wait. do 2 (apply goes_bind; [go|]; intros ?).
  apply goes_bind; [apply goes_call, goes_copy|]. intros [copy_len out].
  apply goes_bind; [apply goes_rssi|]. intros rssi.
  apply goes_bind; [apply goes_shut_down|]. intros _. go.
Qed.

(** ** The advertising exchange *)

Definition response_window (timeout : Duration) : Z :=
  Z.max (duration_as_micros timeout) LEGACY_ADV_RESPONSE_WINDOW_US.

(** The windows that may still be opened, and the budget they bring. *)
Definition windows_left (timeout : Duration) (a : AdvState) : nat :=
  ((if as_armed a then 0 else cost (response_window timeout)) +
   (if as_responding a then 0 else cost 1000))%nat.

Definition within (timeout : Duration) (p : nat) (a : AdvState) (d : D) : Prop :=
  ∀ d', later d d' → (budget (instant_as_micros (as_deadline a)) d' + windows_left timeout a ≤ p)%nat.

Lemma within_later timeout p a d d' : within timeout p a d → later d d' → within timeout p a d'.
Proof. intros Hw Hl d2 H2. apply Hw. by etrans. Qed.

Lemma within_now timeout p a d d' : within timeout p a d → strictly_later d d' →
  clock d' < instant_as_micros (as_deadline a) →
  (0 < p)%nat ∧ within timeout (p - 1) a d'.
Proof.
  intros Hw Hs Hlt. pose proof (Hw d (reflexivity d)) as H0.
  pose proof (budget_read _ _ _ Hs Hlt). split; [lia|].
  intros d2 H2. pose proof (budget_later _ _ _ H2 Hlt). lia.
Qed.

(** Opening a window spends its share. *)
Lemma within_window timeout p a a' w d d1 : within timeout p a d → later d d1 →
  instant_as_micros (as_deadline a') ≤ clock d1 + w →
  (cost w + windows_left timeout a' ≤ windows_left timeout a)%nat → within timeout p a' d1.
Proof.
  intros Hw Hl Hd Hr d2 H2. pose proof (Hw d1 Hl). pose proof (budget_cost w _ _ _ H2 Hd). lia.
Qed.

Lemma arm_ok {R} channel timeout status a p (s : Machine D) (Q : R → Machine D → Prop) :
  is_Some (frequency_mhz channel) → duration_as_micros timeout ≤ U32_MAX →
  within timeout p a (m_dev s) →
  holds (advertising_arm channel timeout status a) s
    (λ '(a', _, _) s', within timeout p a' (m_dev s')) Q.
Proof.
  intros Hf Htimeout Hw. unfold advertising_arm.
  assert (0 ≤ response_window timeout ≤ U32_MAX) as Hwin
    by (unfold response_window, LEGACY_ADV_RESPONSE_WINDOW_US, U32_MAX in *; lia).
  eapply holds_bind with (P' := λ a' s', within timeout p a' (m_dev s')).
  { destruct (as_armed a) eqn:Earmed; cbn [negb andb]; [by apply holds_ret|].
    destruct (any_bit status _); [|by apply holds_ret].
    apply holds_goes; [unfold continue_tx_to_rx_1m, configure_receive_phy_1m; go|]. intros _ s1 Hl.
    eapply holds_bind; [apply now_ok|]. cbn beta. intros t s2 [Ht Hs2].
    apply holds_ret. eapply (within_window timeout p a _ (response_window timeout)); [done|..].
    - etrans; [done|by apply strictly_is_later].
    - cbn. fold (response_window timeout). rewrite exact_add, exact_from, Ht by done. lia.
    - unfold windows_left. cbn. rewrite Earmed. lia. }
  cbn beta. intros a1 s1 H1.
  apply holds_goes; [go|]. intros type_byte s2 H2.
  apply holds_goes; [go|]. intros length_byte s3 H3.
  pose proof (within_later _ _ _ _ _ (within_later _ _ _ _ _ H1 H2) H3) as Hw3.
  eapply holds_bind with (P' := λ a' s', within timeout p a' (m_dev s')).
  { destruct (as_armed a1 && _ && _); [|by apply holds_ret].
    apply holds_goes; [go|]. intros t s4 Hl. apply holds_ret.
    by apply (within_later _ _ _ _ _ Hw3). }
  cbn beta. intros a4 s4 H4. by apply holds_ret.
Qed.

Lemma capture_ok {R} channel transmit n m address k timeout a p (s : Machine D)
    (Q : R → Machine D → Prop) :
  is_Some (frequency_mhz channel) → is_Some (transmit !! 0%nat) → as_responding a = false →
  within timeout p a (m_dev s) →
  holds (advertising_packet channel transmit n m address k a) s
    (λ '(next, a') s', match next with
       | Some (inl a') => within timeout p a' (m_dev s')
       | Some (inr _) => True
       | None => within timeout p a' (m_dev s') end) Q.
Proof.
  intros Hf Htransmit Hresp Hw. unfold advertising_packet.
  apply holds_goes; [go|]. intros bb s1 H1.
  apply holds_goes; [apply goes_call, goes_copy|]. intros [len out] s2 H2.
  apply holds_goes; [go|]. intros first s3 H3.
  pose proof (within_later _ _ _ _ _ (within_later _ _ _ _ _ (within_later _ _ _ _ _ Hw H1) H2) H3) as Hw3.
  destruct ((2 <=? len)%nat && _); [|by apply holds_ret].
  apply holds_goes; [go|]. intros t s4 H4. pose proof (within_later _ _ _ _ _ Hw3 H4) as Hw4.
  destruct Htransmit as [header ->]. change (unwrap (Some header)) with (mret header : st R Z).
  apply holds_ret_bind. destruct (negb _ && _); [|by apply holds_ret].
  apply holds_goes; [unfold release_receive_to_transmit_1m, configure_transmit_phy_1m; go|].
  intros _ s5 H5.
  eapply holds_bind; [apply now_ok|]. cbn beta. intros t2 s6 [Ht2 Hs6]. apply holds_ret.
  eapply (within_window timeout p a _ 1000); [exact (within_later _ _ _ _ _ Hw4 H5)|..].
  - by apply strictly_is_later.
  - cbn. rewrite exact_add, exact_from, Ht2 by (unfold U32_MAX; lia). lia.
  - unfold windows_left. cbn. rewrite Hresp. lia.
Qed.

Lemma adv_pass_ok {R} channel timeout transmit n m address a p (s : Machine D)
    (Q : R → Machine D → Prop) :
  is_Some (frequency_mhz channel) → is_Some (transmit !! 0%nat) →
  duration_as_micros timeout ≤ U32_MAX → within timeout p a (m_dev s) →
  holds (advertising_pass channel timeout transmit n m address a) s
    (λ next s', match next with inl a' => within timeout p a' (m_dev s') | inr _ => True end) Q.
Proof.
  intros Hf Htransmit Htimeout Hw. unfold advertising_pass.
  apply holds_goes; [go|]. intros status s1 H1.
  eapply holds_bind; [apply arm_ok; [done..|by eapply within_later]|]. cbn beta.
  intros [[a1 pdu_type] length_] s2 H2.
  apply holds_goes; [destruct (pdu_type =? 3); [unfold reached; destruct (as_buffered_end a1)|]; go|].
  intros scan s3 H3.
  apply holds_goes; [unfold advertising_captured; go|]. intros captured s4 H4.
  pose proof (within_later _ _ _ _ _ (within_later _ _ _ _ _ H2 H3) H4) as Hw4.
  eapply holds_bind with (P' := λ '(next, a') s', match next with
       | Some (inl a') => within timeout p a' (m_dev s')
       | Some (inr _) => True
       | None => within timeout p a' (m_dev s') end).
  - destruct (as_armed a1 && negb (as_responding a1) && _) eqn:E; [|by apply holds_ret].
    apply andb_true_iff in E as [[_ E%negb_true_iff]%andb_true_iff _]. by apply capture_ok.
  - cbn beta. intros [[[a2|a2]|] a3] s5 H5; [by apply holds_ret..|].
    destruct (as_responding a3 && _); by apply holds_ret.
Qed.

Lemma adv_loop_returns {R} fuel channel timeout transmit n m address a p (s : Machine D)
    (Q : R → Machine D → Prop) :
  is_Some (frequency_mhz channel) → is_Some (transmit !! 0%nat) →
  duration_as_micros timeout ≤ U32_MAX → within timeout p a (m_dev s) → (p < fuel)%nat →
  holds (advertising_loop fuel channel timeout transmit n m address a) s (λ _ _, True) Q.
Proof.
  intros Hf Htransmit Htimeout. revert a p s.
  induction fuel as [|fuel IH]; intros a p s Hw Hp; cbn [advertising_loop]; [lia|].
  eapply holds_bind; [apply now_ok|]. cbn beta. intros t s1 [Ht Hs].
  rewrite exact_ltb, Ht. destruct (Z.ltb_spec (clock (m_dev s1)) (instant_as_micros (as_deadline a)))
    as [Hlt|Hge]; cbn [negb]; [|by apply holds_ret].
  destruct (within_now _ _ _ _ _ Hw Hs Hlt) as [H0 Hw1].
  eapply holds_bind; [by apply adv_pass_ok|]. cbn beta. intros [a'|a'] s2 H2; [|by apply holds_ret].
  eapply IH; [done|lia].
Qed.

Definition advertising_fuel (timeout : Duration) : nat :=
  (cost 2000 + cost (response_window timeout) + cost 1000)%nat.

Lemma advertising_runs fuel channel timeout transmit scan_response address output (s : Machine D) :
  is_Some (frequency_mhz channel) → is_Some (transmit !! 0%nat) →
  duration_as_micros timeout ≤ U32_MAX → (advertising_fuel timeout < fuel)%nat →
  is_Some (advertising_exchange fuel channel timeout transmit scan_response address output s).
Proof.
  intros Hf Htransmit Htimeout Hfuel. unfold advertising_exchange. apply run_returns.
  apply returns_bind; [by apply goes_call, goes_stage|]. intros staged s1.
  apply returns_bind; [go|]. intros _ s2.
  apply returns_bind; [apply goes_call, goes_stage_response|]. intros response s3.
  apply returns_bind; [go|]. intros response_address s4.
  apply returns_bind; [go|]. intros _ s5.
  apply returns_bind; [go|]. intros _ s6.
  apply returns_bind; [apply goes_prepare|]. intros _ s7.
  apply returns_bind; [go|]. intros _ s8.
  apply returns_bind; [unfold clear_lle_status; go|]. intros _ s9.
  apply returns_bind; [apply goes_clear_bb|]. intros _ s10.
  apply returns_bind; [go|]. intros _ s11.
  apply returns_bind; [apply goes_call, goes_settle|]. intros settled s12.
  apply returns_bind; [go|]. intros _ s13.
  apply returns_bind; [apply goes_transmit_phy|]. intros _ s14.
  apply returns_bind; [unfold store_capture_countdown; go|]. intros _ s15.
  apply returns_bind; [unfold store_capture_seen; go|]. intros _ s16.
  apply returns_bind; [unfold start_transmit_operation; go|]. intros _ s17.
  eapply holds_bind; [apply now_ok|]. cbn beta. intros start s18 [Hstart _].
  eapply holds_bind; [apply (adv_loop_returns _ _ _ _ _ _ _ _ (advertising_fuel timeout)); [done..| |done]|].
  { intros d' Hl. unfold advertising_fuel, windows_left. cbn.
    pose proof (budget_cost 2000 (instant_as_micros (instant_add start (duration_from_micros 2000))) _ _ Hl) as Hb.
    rewrite exact_add, exact_from, Hstart in Hb |- * by (unfold U32_MAX; lia).
    specialize (Hb ltac:(lia)). lia. }
  cbn beta. intros a s19 _.
  apply returns_bind; [apply goes_rssi|]. intros rssi s20.
  apply returns_bind; [apply goes_shut_down|]. intros _ s21.
  apply returns_bind; [go|]. intros [[len crc_ok] timestamp_us] s22. apply returns_goes. go.
Qed.


End time.

(** ** A running device

    Time counts microseconds from zero without bound; every reading of the clock takes one.
    A packet of two octets without CRC error is there at once, and its answer is
    transmitted at the next reading of the status. *)
Definition ideal_time : EmbassyTime := {|
  Instant := Z;
  Duration := Z;
  instant_from_micros us := us;
  instant_as_micros i := Z.max i 0;
  duration_from_micros us := us;
  duration_as_micros d := Z.max d 0;
  instant_add i d := Z.max i 0 + Z.max d 0;
  instant_sub i d := if Z.max d 0 <=? Z.max i 0 then Some (Z.max i 0 - Z.max d 0) else None;
  saturating_duration_since i j := Z.max (Z.max i 0 - Z.max j 0) 0;
  instant_ltb i j := Z.max i 0 <? Z.max j 0;
|}.

(** The time and how often the link-layer status has been read. *)
Definition ready_device : @RadioDevice ideal_time (Z * Z) := {|
  rd_read a '(t, n) :=
    if a =? lle_status then ((if n =? 0 then 4 else 1), (t, n + 1))
    else if a =? bb_interrupt_status then (0, (t, n)) else (100, (t, n));
  rd_write _ _ d := d;
  rd_write16 _ _ d := d;
  rd_dma i d := (if (i =? 0)%nat then 1 else 0, d);
  rd_fill _ d := d;
  rd_now := (λ '(t, n), (Z.max t 0 + 1, (Z.max t 0 + 1, n))) : Z * Z → @Instant ideal_time * (Z * Z);
  rd_irq d := (true, d);
  tx_buffer_address := 0x20000000;
  response_buffer_address := 0x20000040;
  rx_buffer_address := 0x20000080;
|}.

Definition ready_clock : @RunningClock ideal_time (Z * Z) ready_device :=
  {| clock d := Z.max d.1 0; stall _ := O; stall_max := O |}.

Lemma ready_clock_laws : @RunningClockLaws ideal_time (Z * Z) ready_device ready_clock.
Proof.
  split; unfold later, strictly_later; cbn.
  - done.
  - intros [t n] i d' [= <- <-]. cbn. lia.
  - intros a [t n]. cbn. destruct (a =? lle_status), (a =? bb_interrupt_status); cbn; lia.
  - intros; lia.
  - intros; lia.
  - intros; lia.
  - intros; lia.
  - intros; lia.
  - done.
  - intros. lia.
  - intros. lia.
Qed.

Definition ready_machine : Machine (Z * Z) :=
  (radio_new (D := Z * Z) (0, 0) [] [] true)
    <| m_digital_initialized := true |> <| m_frontend_calibrated := true |>.

(** An exchange that hears a packet and answers it. *)
Example ready_exchange :
  (λ r, fst r) <$> @exchange ideal_time (Z * Z) ready_device 10 (mkChannel 5) 1000 (500 : Z) [1; 0]
    (replicate 29 0) ready_machine =
  Some (Ok (mkExchangeResult (mkReceivedPacket [1; 0] 0 true 3) true)).
Proof. vm_compute. reflexivity. Qed.


Lemma settle_timeout_not_idle_witness :
  match @advertising_exchange ideal_time (Z * Z) ready_device 10 (mkChannel 37) (500 : Z)
          [0x40; 6; 1; 2; 3; 4; 5; 6] [0x44; 6; 1; 2; 3; 4; 5; 6] [1; 2; 3; 4; 5; 6]
          (replicate 64 0) ready_machine with
  | Some (r, s') => r = Err ErrorTimeout ∧ vw_mode (view_of (m_trace s')) = Some LLE_MODE_TX
  | None => True
  end.
Proof.
  refine (@settle_timeout_not_idle ideal_time (Z * Z) ready_device 10 (mkChannel 37) (500 : Z)
    [0x40; 6; 1; 2; 3; 4; 5; 6] [0x44; 6; 1; 2; 3; 4; 5; 6] [1; 2; 3; 4; 5; 6]
    (replicate 64 0) ready_machine _ _ _).
  - intros [t n]. discriminate.
  - reflexivity.
  - reflexivity.
Defined.
