(* ===== verification/RadioInit.v ===== *)
(** * Bringing the radio up

    Initialization ends idle on every path, and the radio may be used afterwards
    exactly when calibration succeeded. *)

From S2P Require Import Prelude.
From S2P Require Import Effects.
From S2P Require Import Time.
From S2P Require Import Channel.
From S2P Require Import Hci.
From S2P Require Import Runner.
From S2P Require Import RadioMachine.
From S2P Require Import FrontEnd.
From S2P Require Import Radio.
From S2P Require Import RadioLogic.
From S2P Require Import RadioProps.

Section init.
Context {time : EmbassyTime} {D : Type} {device : RadioDevice D}.
Abbreviation st R A := (M (Machine D) R A).
Abbreviation op A := (Machine D → option (A * Machine D)).

(** ** Calibration touches the analog front end only *)

Lemma silent_for_each_in may {R A} (l : list A) (body : A → st R ()) :
  (∀ a, a ∈ l → silent may (body a)) → silent may (for_each l body).
Proof.
  induction l as [|a l IH]; intros Hb; cbn [for_each]; [apply silent_ret|].
  apply silent_bind; [apply Hb; set_solver|]. intros _. apply IH. intros b Hin. apply Hb. set_solver.
Qed.

Lemma tune_table_quiet r : r ∈ tune_table → quiet r = true.
Proof.
  intros Hr. assert (Forall (λ r, quiet r = true) tune_table) as Hall
    by (unfold tune_table; cbn [fmap list_fmap]; repeat apply Forall_cons_2; done).
  by rewrite list.Forall_forall in Hall; apply Hall.
Qed.

Lemma silent_wait_tune : silent_op (wait_tune (D := D)).
Proof. unfold wait_tune. silence. Qed.

Lemma silent_measure tune : silent_op (measure_ctune (D := D) tune).
Proof. unfold measure_ctune. silence. Qed.

Lemma silent_measurements : silent_op (ctune_measurements (D := D)).
Proof. unfold ctune_measurements. silence. Qed.

Lemma silent_ctune : silent_op (tx_ctune (D := D)).
Proof.
  unfold tx_ctune. apply silent_run.
  do 5 (apply silent_bind; [silence|]; intros _).
  apply silent_bind; [apply silent_call, silent_measurements|]. intros measurements.
  do 3 (apply silent_bind; [silence|]; intros _).
  apply silent_bind; [silence|]. intros [[m1 m2] m3].
  apply silent_bind; [silence|]. intros _.
  apply silent_bind; [silence|]. intros table.
  apply silent_bind; [|intros _; silence].
  apply silent_for_each_in. intros [index [register value]] Hin.
  apply elem_of_zip_r, elem_of_zip_l, tune_table_quiet in Hin.
  destruct (index + 1 =? TABLE_WORDS)%nat; [by apply silent_rmodify|by apply silent_rwrite].
Qed.

Lemma silent_filter_wait : silent_op (rx_filter_wait (D := D)).
Proof. unfold rx_filter_wait. silence. Qed.

Lemma silent_calibrate : silent_op (calibrate (D := D)).
Proof.
  unfold calibrate. apply silent_run.
  apply silent_bind; [silence|]. intros _.
  apply silent_bind; [apply silent_call, silent_ctune|]. intros tuned.
  apply silent_bind; [silence|]. intros _.
  apply silent_bind; [unfold tx_ftune; silence|]. intros _.
  apply silent_bind; [unfold rx_filter; silence; apply silent_filter_wait|]. intros _.
  apply silent_bind; [unfold rx_adc; silence|]. intros _. silence.
Qed.

(** ** Initialization *)

Lemma silent_init_lle may {R} : silent may (R := R) (init_lle (D := D)).
Proof.
  unfold init_lle. do 2 (apply silent_bind; [silence|]; intros _).
  apply silent_bind.
  { apply silent_for_each_in. intros [offset value] Hin. apply silent_rwrite.
    assert (Forall (λ p : Z * Z, quiet (LLE_BASE + p.1) = true)
      [(0x14, 0x8c); (0x1c, 0x76); (0x24, 0x8c); (0x2c, 0x6e);
       (0x34, 0x8c); (0x3c, 0x6e); (0x44, 0x8c); (0x4c, 0x76)]) as Hall
      by (repeat apply Forall_cons_2; done).
    rewrite list.Forall_forall in Hall. exact (Hall _ Hin). }
  intros _. silence.
Qed.

(** Accesses leave the buffers and the readiness alone. *)
Definition kept (x y : Abs) : Prop :=
  ab_tx y = ab_tx x ∧ ab_response y = ab_response x ∧ ab_flags y = ab_flags x.

Lemma kept_then {R A B} x y (m : st R A) (k : A → st R B) P Q :
  kept x y → (∀ z, sees z m (λ _ w, kept z w) (λ _ _, False)) →
  (∀ a z, kept x z → sees z (k a) P Q) → sees y (m ≫= k) P Q.
Proof.
  intros Hy Hm Hk. eapply sees_bind with (P1 := λ _ z, kept x z).
  - eapply sees_weaken; [apply Hm| |done]. unfold kept in *. cbn beta. intros a z Hz.
    intuition congruence.
  - cbn beta. intros a z Hz. by apply Hk.
Qed.

Lemma kept_silent {R A} (m : st R A) z : silent false m →
  sees z m (λ _ w, kept z w) (λ _ _, False).
Proof. intros Hm. by apply sees_silent. Qed.

Lemma kept_rwrite {R} address v z :
  sees (R := R) z (rwrite address v) (λ _ w, kept z w) (λ _ _, False).
Proof. by apply sees_rwrite. Qed.

Lemma kept_rmodify {R} address f z :
  sees (R := R) z (rmodify address f) (λ _ w, kept z w) (λ _ _, False).
Proof. apply sees_rread_bind. intros v _. by apply sees_rwrite. Qed.

Lemma silent_access_address may {R} v : silent may (R := R) (radio_set_access_address (D := D) v).
Proof. unfold radio_set_access_address. apply silent_bind; [by apply silent_modify|]. intros _. silence. Qed.

Lemma silent_crc_init may {R} v : silent may (R := R) (radio_set_crc_init (D := D) v).
Proof. unfold radio_set_crc_init. apply silent_bind; [by apply silent_modify|]. intros _. silence. Qed.

Lemma sees_init_baseband {R} x (Q : R → Abs → Prop) :
  sees x (init_baseband (D := D)) (λ _ y, kept x y ∧ vw_mode (ab_view y) = Some LLE_MODE_IDLE) Q.
Proof.
  unfold init_baseband.
  eapply (kept_then x x); [done|apply kept_rmodify|]. intros _ y1 H1.
  eapply (kept_then x y1); [done|apply kept_rwrite|]. intros _ y2 H2.
  do 5 (apply sees_then; [silence|]; intros _).
  apply sees_rwrite_bind. rewrite u32_small by (unfold_ints; by split). rewrite after_mode by done.
  apply sees_then; [silence|]. intros address.
  apply sees_then; [apply silent_access_address|]. intros _.
  apply sees_then; [silence|]. intros crc. apply sees_silent; [apply silent_crc_init|]. by intros _.
Qed.

Lemma sees_initialize x :
  sees_op x (initialize (D := D))
    (λ r y, vw_mode (ab_view y) = Some LLE_MODE_IDLE ∧ ab_flags y = (true, is_ok r)).
Proof.
  apply sees_run. unfold initialize.
  apply sees_then; [apply silent_init_lle|]. intros _.
  apply sees_then; [unfold initialize_baseline; silence|]. intros _.
  eapply sees_bind; [apply sees_init_baseband|]. cbn beta. intros _ x0 _.
  eapply sees_bind with (P1 := λ _ y, ab_flags y = (true, false)); [by apply sees_modify|].
  cbn beta. intros _ x1 Hx1.
  eapply (kept_then x1 x1); [done|apply kept_rmodify|]. intros _ y1 H1.
  eapply (kept_then x1 y1); [done|apply kept_rmodify|]. intros _ y2 H2.
  do 2 (apply sees_then; [silence|]; intros _).
  eapply (kept_then x1 y2); [done|apply kept_rwrite|]. intros _ y3 (_ & _ & H3).
  apply sees_then; [apply silent_call, silent_calibrate|]. intros r.
  do 2 (apply sees_then; [silence|]; intros _).
  apply sees_then; [unfold leave_calibration; silence|]. intros _.
  apply sees_rwrite_bind. rewrite u32_small by (unfold_ints; by split). rewrite after_mode by done.
  eapply sees_bind with (P1 := λ _ y, vw_mode (ab_view y) = Some LLE_MODE_IDLE ∧
    ab_flags y = (true, is_ok r)).
  { apply sees_modify. intros s Hs. unfold abs in *. injection Hs as Hv _ _ Hd.
    split; [change (vw_mode (view_of (m_trace s)) = Some LLE_MODE_IDLE); by rewrite Hv|].
    change ((m_digital_initialized s, is_ok r) = (true, is_ok r)).
    cbn [ab_flags] in Hd. rewrite H3, Hx1 in Hd. by injection Hd as -> _. }
  cbn beta. intros _ y Hy.
  apply sees_then; [apply silent_when, silent_enable_interrupt|]. intros _. by apply sees_ret.
Qed.

Lemma initialize_ready (s : Machine D) :
  match initialize s with
  | Some (r, s') =>
      vw_mode (view_of (m_trace s')) = Some LLE_MODE_IDLE ∧
      m_digital_initialized s' = true ∧ m_frontend_calibrated s' = is_ok r
  | None => True
  end.
Proof.
  pose proof (sees_initialize (abs s) s eq_refl) as H.
  destruct (initialize s) as [[r s']|]; [|done]. by destruct H as [Hmode [= Hd Hc]].
Qed.

(** C19: Bringing the radio up leaves the engine idle on every path, a timeout or a
    degenerate measurement of the calibration included; the radio is ready exactly
    when the result is Ok, and until then every exchange is refused with Hardware
    without an access. *)
Theorem initialize_recoverable (s : Machine D) :
  match initialize s with
  | Some (r, s') =>
      vw_mode (view_of (m_trace s')) = Some LLE_MODE_IDLE ∧
      (m_digital_initialized s' && m_frontend_calibrated s') = is_ok r ∧
      (is_ok r = false → ∀ fuel channel deadline timeout transmit scan_response address output,
         (29 ≤ length output)%nat →
         exchange fuel channel deadline timeout transmit output s' = Some (Err ErrorHardware, s') ∧
         advertising_exchange fuel channel timeout transmit scan_response address output s' =
           Some (Err ErrorHardware, s'))
  | None => True
  end.
Proof.
  pose proof (initialize_ready s) as H.
  destruct (initialize s) as [[r s']|]; [|done]. destruct H as (Hmode & Hd & Hc).
  split; [done|]. rewrite Hd, Hc. split; [done|].
  intros Hr fuel channel deadline timeout transmit scan_response address output Hout.
  split; [apply exchange_refused; [done|]|apply advertising_refused];
    unfold stage_refusal; by rewrite Hd, Hc, Hr.
Qed.

End init.
