(* ===== verification/RadioTuning.v ===== *)
(** * What the radio is tuned to

    The access address and the CRC initialization live in two registers that only
    [set_access_address] and [set_crc_init] write.  Every operation of the radio,
    with the interrupt handler anywhere in it, leaves them, the settings they came
    from and the state of the calibration alone. *)

From S2P Require Import Prelude Effects Time Channel Timing Advertising Hci Runner.
From S2P Require Import RadioMachine FrontEnd Radio.

(** The last value that the driver or the handler wrote to a register. *)
Definition write_step (address : Z) (o : option Z) (x : Access) : option Z :=
  match x with
  | Own (RWrite a v) | Irq (RWrite a v) => if a =? address then Some v else o
  | _ => o
  end.
Definition last_write (address : Z) (t : list Access) : option Z :=
  foldl (write_step address) None t.

Arguments last_write : simpl never.

Lemma last_write_snoc address t x :
  last_write address (t ++ [x]) = write_step address (last_write address t) x.
Proof. unfold last_write. by rewrite foldl_app. Qed.

Section tuning.
Context {time : EmbassyTime} {D : Type} {device : RadioDevice D}.
Abbreviation st R A := (M (Machine D) R A).
Abbreviation op A := (Machine D → option (A * Machine D)).

Record Tuning : Type := mkTuning {
  tn_access_address : Z;
  tn_crc_init : Z;
  tn_phy : Phy;
  tn_digital : bool;
  tn_calibrated : bool;
  tn_address_register : option Z;
  tn_crc_register : option Z;
}.

Definition tuning (s : Machine D) : Tuning :=
  mkTuning (m_access_address s) (m_crc_init s) (m_phy s) (m_digital_initialized s)
    (m_frontend_calibrated s) (last_write bb_tx_access_address (m_trace s))
    (last_write bb_tx_crc_init (m_trace s)).

(** The registers that may be written. *)
Definition untuned (address : Z) : bool :=
  negb (address =? bb_tx_access_address) && negb (address =? bb_tx_crc_init).

Definition keeps_tuning {R A} (m : st R A) : Prop := ∀ s,
  match m s with Next _ s' | Return _ s' => tuning s' = tuning s | Panic => True end.
Definition keeps_tuning_op {A} (f : op A) : Prop := ∀ s,
  match f s with Some (_, s') => tuning s' = tuning s | None => True end.

(** ** Statements *)

Lemma tuned_bind {R A B} (m : st R A) (k : A → st R B) :
  keeps_tuning m → (∀ a, keeps_tuning (k a)) → keeps_tuning (m ≫= k).
Proof.
  intros Hm Hk s. specialize (Hm s). unfold mbind, M_bind.
  destruct (m s) as [a s1|r s1|]; [|done..]. specialize (Hk a s1). rewrite Hm in Hk.
  by destruct (k a s1).
Qed.

Lemma tuned_ret {R A} (a : A) : keeps_tuning (R := R) (mret a).
Proof. done. Qed.
Lemma tuned_return {R A} (r : R) : keeps_tuning (A := A) (return_ r).
Proof. done. Qed.
Lemma tuned_gets {R A} (f : Machine D → A) : keeps_tuning (R := R) (gets f).
Proof. done. Qed.
Lemma tuned_modify {R} (f : Machine D → Machine D) :
  (∀ s, tuning (f s) = tuning s) → keeps_tuning (R := R) (modify f).
Proof. intros Hf s. apply Hf. Qed.
Lemma tuned_try {R E A} (f : E → R) (r : result E A) : keeps_tuning (try f r).
Proof. intros s. unfold try. by destruct r. Qed.
Lemma tuned_unwrap {R A} (o : option A) : keeps_tuning (R := R) (unwrap o).
Proof. intros s. unfold unwrap. by destruct o. Qed.
Lemma tuned_when {R} b (m : st R ()) : keeps_tuning m → keeps_tuning (when_ b m).
Proof. by destruct b. Qed.
Lemma tuned_call {R A} (f : op A) : keeps_tuning_op f → keeps_tuning (R := R) (call f).
Proof. intros Hf s. specialize (Hf s). unfold call. by destruct (f s) as [[]|]. Qed.
Lemma tuned_run {R} (m : st R R) : keeps_tuning m → keeps_tuning_op (run m).
Proof. intros Hm s. specialize (Hm s). unfold run. by destruct (m s). Qed.
Lemma tuned_fuel {R A} : keeps_tuning (out_of_fuel (D := D) (R := R) (A := A)).
Proof. done. Qed.

Lemma tuned_repeat {R} n (body : st R ()) : keeps_tuning body → keeps_tuning (repeat_ n body).
Proof. intros Hb. induction n as [|n IH]; cbn [repeat_]; [done|]. by apply tuned_bind. Qed.

(** ** Accesses *)

Lemma tuned_raw_read {R} who address :
  (∀ v, ∃ e, who (RRead address v) = e ∧ ∀ a o, write_step a o e = o) →
  keeps_tuning (R := R) (raw_read who address).
Proof.
  intros Hwho s. unfold raw_read. destruct (rd_read address (m_dev s)) as [v d].
  destruct (Hwho (u32 v)) as (e & E & He). unfold tuning. cbn. rewrite E, !last_write_snoc, !He. done.
Qed.

Lemma tuned_raw_write {R} (who : RadioEvent → Access) address v :
  who = Own ∨ who = Irq → untuned address = true → keeps_tuning (R := R) (raw_write who address v).
Proof.
  intros Hwho [Ha Hc]%andb_true_iff s. apply negb_true_iff in Ha, Hc.
  unfold raw_write, tuning. cbn. rewrite !last_write_snoc.
  destruct Hwho as [-> | ->]; cbn; by rewrite Ha, Hc.
Qed.

Lemma tuned_bleb {R} : keeps_tuning (R := R) BLEB.
Proof.
  assert (∀ address, keeps_tuning (R := R) (raw_read Irq address)) as Hr.
  { intros address. apply tuned_raw_read. intros v. by eexists. }
  assert (∀ address v, untuned address = true →
    keeps_tuning (R := R) (raw_write Irq address v)) as Hw.
  { intros address v. apply tuned_raw_write. by right. }
  unfold BLEB. apply tuned_bind; [apply Hr|]. intros status.
  apply tuned_bind; [|intros _; apply tuned_bind; [apply Hr|intros; by apply Hw]].
  apply tuned_when, tuned_bind; [by apply Hw|]. intros _.
  apply tuned_bind; [apply tuned_gets|]. intros countdown. apply tuned_when.
  do 2 (apply tuned_bind; [by apply Hw|]; intros _). by apply tuned_modify.
Qed.

Lemma tuned_preempt {R} : keeps_tuning (R := R) preempt.
Proof.
  unfold preempt. apply tuned_bind; [apply tuned_gets|]. intros enabled. apply tuned_when, tuned_bind.
  - intros s. unfold raw_irq. by destruct (rd_irq (m_dev s)).
  - intros taken. apply tuned_when, tuned_bleb.
Qed.

Lemma tuned_rread {R} address : keeps_tuning (R := R) (rread address).
Proof. apply tuned_bind; [apply tuned_preempt|]. intros _. apply tuned_raw_read. intros v. by eexists. Qed.

Lemma tuned_rwrite {R} address v : untuned address = true → keeps_tuning (R := R) (rwrite address v).
Proof.
  intros Ha. apply tuned_bind; [apply tuned_preempt|]. intros _. apply tuned_raw_write; [by left|done].
Qed.

Lemma tuned_rmodify {R} address f : untuned address = true →
  keeps_tuning (R := R) (rmodify address f).
Proof. intros Ha. apply tuned_bind; [apply tuned_rread|]. intros v. by apply tuned_rwrite. Qed.

Lemma tuned_rwrite16 {R} address v : keeps_tuning (R := R) (rwrite16 address v).
Proof.
  apply tuned_bind; [apply tuned_preempt|]. intros _ s. unfold raw_write16, tuning. cbn.
  by rewrite !last_write_snoc.
Qed.

Lemma tuned_dma {R} i : keeps_tuning (R := R) (read_dma_byte i).
Proof.
  apply tuned_bind; [apply tuned_preempt|]. intros _ s. unfold raw_dma.
  destruct (rd_dma i (m_dev s)) as [v d]. unfold tuning. cbn. by rewrite !last_write_snoc.
Qed.

Lemma tuned_now {R} : keeps_tuning (R := R) now.
Proof.
  apply tuned_bind; [apply tuned_preempt|]. intros _ s. unfold raw_now.
  destruct (rd_now (m_dev s)) as [v d]. unfold tuning. cbn. by rewrite !last_write_snoc.
Qed.

Lemma tuned_capture_seen {R} : keeps_tuning (R := R) load_capture_seen.
Proof. apply tuned_bind; [apply tuned_preempt|]. intros _. apply tuned_gets. Qed.

Lemma tuned_fill {R} v : keeps_tuning (R := R) (fill_rx v).
Proof. by apply tuned_modify. Qed.

Lemma tuned_countdown {R} v : keeps_tuning (R := R) (store_capture_countdown v).
Proof. by apply tuned_modify. Qed.
Lemma tuned_seen {R} b : keeps_tuning (R := R) (store_capture_seen b).
Proof. by apply tuned_modify. Qed.

(** ** Operations *)

Create HintDb tuned.
#[local] Hint Resolve tuned_fuel tuned_rread tuned_rwrite16 tuned_dma tuned_now tuned_capture_seen
  tuned_fill tuned_countdown tuned_seen tuned_ret tuned_return tuned_gets tuned_try tuned_unwrap : tuned.
#[local] Hint Extern 2 (keeps_tuning (rwrite _ _)) => apply tuned_rwrite; done : tuned.
#[local] Hint Extern 2 (keeps_tuning (rmodify _ _)) => apply tuned_rmodify; done : tuned.
#[local] Hint Extern 2 (keeps_tuning (modify _)) => apply tuned_modify; done : tuned.

(** The walk through a body, by its syntax. *)
Ltac tune :=
  intros;
  lazymatch goal with
  | |- keeps_tuning_op (run _) => apply tuned_run; tune
  | |- keeps_tuning (_ ≫= _) => apply tuned_bind; [tune|tune]
  | |- keeps_tuning (when_ _ _) => apply tuned_when; tune
  | |- keeps_tuning (call _) => apply tuned_call; tune
  | |- keeps_tuning (repeat_ _ _) => apply tuned_repeat; tune
  | |- keeps_tuning (if ?b then _ else _) => destruct b; tune
  | |- keeps_tuning (let '_ := ?p in _) => destruct p; tune
  | |- keeps_tuning (match ?x with _ => _ end) => destruct x; tune
  | |- _ => cbv beta zeta; try solve [auto with tuned]
  end.

Lemma tuned_synth {R} channel receive : keeps_tuning (R := R) (configure_ch585_synth channel receive).
Proof. unfold configure_ch585_synth. tune. Qed.
#[local] Hint Resolve tuned_synth : tuned.

Lemma tuned_set_channel {R} channel : keeps_tuning (R := R) (set_channel channel).
Proof. unfold set_channel. tune. Qed.
Lemma tuned_receive_channel {R} channel : keeps_tuning (R := R) (set_receive_channel channel).
Proof. unfold set_receive_channel. tune. Qed.
#[local] Hint Resolve tuned_set_channel tuned_receive_channel : tuned.

Lemma tuned_stage channel packet : keeps_tuning_op (stage_transmit channel packet).
Proof. unfold stage_transmit. tune. Qed.
Lemma tuned_response packet : keeps_tuning_op (stage_response packet).
Proof. unfold stage_response. tune. Qed.
Lemma tuned_prepare {R} mode : keeps_tuning (R := R) (prepare_common_operation mode).
Proof. unfold prepare_common_operation. tune. Qed.
Lemma tuned_prepare_receive {R} : keeps_tuning (R := R) prepare_receive_operation.
Proof. unfold prepare_receive_operation. tune. Qed.
Lemma tuned_settle : keeps_tuning_op wait_for_settle_countdown.
Proof. unfold wait_for_settle_countdown. tune. Qed.
Lemma tuned_transmit_phy {R} n : keeps_tuning (R := R) (configure_transmit_phy_1m n).
Proof. unfold configure_transmit_phy_1m. tune. Qed.
Lemma tuned_receive_phy {R} : keeps_tuning (R := R) configure_receive_phy_1m.
Proof. unfold configure_receive_phy_1m. tune. Qed.
#[local] Hint Resolve tuned_stage tuned_response tuned_prepare tuned_prepare_receive tuned_settle
  tuned_transmit_phy tuned_receive_phy : tuned.

Lemma tuned_continue {R} channel : keeps_tuning (R := R) (continue_tx_to_rx_1m channel).
Proof. unfold continue_tx_to_rx_1m. tune. Qed.
Lemma tuned_release {R} channel a n m :
  keeps_tuning (R := R) (release_receive_to_transmit_1m channel a n m).
Proof. unfold release_receive_to_transmit_1m. tune. Qed.
Lemma tuned_start {R} : keeps_tuning (R := R) start_transmit_operation.
Proof. unfold start_transmit_operation. tune. Qed.
Lemma tuned_shut_down {R} : keeps_tuning (R := R) shut_down_operation.
Proof. unfold shut_down_operation. tune. Qed.
Lemma tuned_wait mask : keeps_tuning_op (wait_for_operation mask).
Proof. unfold wait_for_operation. tune. Qed.
Lemma tuned_clear_bb {R} : keeps_tuning (R := R) clear_bb_interrupt_status.
Proof. unfold clear_bb_interrupt_status. tune. Qed.
Lemma tuned_clear_lle {R} : keeps_tuning (R := R) clear_lle_status.
Proof. unfold clear_lle_status. tune. Qed.
Lemma tuned_rssi {R} : keeps_tuning (R := R) read_rssi.
Proof. unfold read_rssi. tune. Qed.
#[local] Hint Resolve tuned_continue tuned_release tuned_start tuned_shut_down tuned_wait
  tuned_clear_bb tuned_clear_lle tuned_rssi : tuned.

Lemma tuned_receive_pass deadline captured : keeps_tuning (receive_pass deadline captured).
Proof. unfold receive_pass. tune. Qed.

Lemma tuned_receive_polls n deadline captured : keeps_tuning (receive_polls n deadline captured).
Proof.
  revert captured. induction n as [|n IH]; intros captured; cbn [receive_polls]; [done|].
  apply tuned_bind; [apply tuned_receive_pass|done].
Qed.
#[local] Hint Resolve tuned_receive_polls : tuned.

Lemma tuned_polled deadline : keeps_tuning_op (wait_for_polled_receive_operation deadline).
Proof. unfold wait_for_polled_receive_operation. tune. Qed.

Lemma tuned_copy_bytes {R} i n output : keeps_tuning (R := R) (copy_dma_bytes i n output).
Proof. revert i output. induction n as [|n IH]; intros; cbn [copy_dma_bytes]; tune. Qed.
#[local] Hint Resolve tuned_copy_bytes tuned_polled : tuned.

Lemma tuned_copy output advertising : keeps_tuning_op (copy_received_packet output advertising).
Proof. unfold copy_received_packet. tune; unfold count_limit; tune. Qed.
#[local] Hint Resolve tuned_copy : tuned.

(** ** The exchanges *)

Lemma tuned_exchange_release {R} channel n m : keeps_tuning (R := R) (exchange_release channel n m).
Proof. unfold exchange_release. tune. Qed.
#[local] Hint Resolve tuned_exchange_release : tuned.

Lemma tuned_exchange_pass {R} channel n deadline x :
  keeps_tuning (R := R) (exchange_pass channel n deadline x).
Proof. unfold exchange_pass. tune. Qed.

Lemma tuned_exchange_loop {R} fuel channel n deadline last x :
  keeps_tuning (R := R) (exchange_loop fuel channel n deadline last x).
Proof.
  revert x. induction fuel as [|fuel IH]; intros x; cbn [exchange_loop]; [done|].
  apply tuned_bind; [apply tuned_now|]. intros t. destruct (negb _); [done|].
  apply tuned_bind; [apply tuned_exchange_pass|]. intros [x'|x']; [apply IH|done].
Qed.

Lemma tuned_exchange_finish output x : keeps_tuning (exchange_finish output x).
Proof. unfold exchange_finish. tune. Qed.
#[local] Hint Resolve tuned_exchange_loop tuned_exchange_finish : tuned.

Lemma tuned_reached {R} end_ : keeps_tuning (R := R) (reached end_).
Proof. unfold reached. tune. Qed.
#[local] Hint Resolve tuned_reached : tuned.

Lemma tuned_arm {R} channel timeout status a :
  keeps_tuning (R := R) (advertising_arm channel timeout status a).
Proof. unfold advertising_arm. tune. Qed.

Lemma tuned_captured {R} : keeps_tuning (R := R) advertising_captured.
Proof. unfold advertising_captured. tune. Qed.

Lemma tuned_packet {R} channel transmit address n own length_ a :
  keeps_tuning (R := R) (advertising_packet channel transmit address n own length_ a).
Proof. unfold advertising_packet. tune. Qed.
#[local] Hint Resolve tuned_arm tuned_captured tuned_packet : tuned.

Lemma tuned_adv_pass {R} channel timeout transmit address n own a :
  keeps_tuning (R := R) (advertising_pass channel timeout transmit address n own a).
Proof. unfold advertising_pass. tune. Qed.

Lemma tuned_adv_loop {R} fuel channel timeout transmit address n own a :
  keeps_tuning (R := R) (advertising_loop fuel channel timeout transmit address n own a).
Proof.
  revert a. induction fuel as [|fuel IH]; intros a; cbn [advertising_loop]; [done|].
  apply tuned_bind; [apply tuned_now|]. intros t. destruct (negb _); [done|].
  apply tuned_bind; [apply tuned_adv_pass|]. intros [a'|a']; [apply IH|done].
Qed.
#[local] Hint Resolve tuned_adv_loop : tuned.

Lemma tuned_exchange fuel channel deadline timeout transmit output :
  keeps_tuning_op (exchange fuel channel deadline timeout transmit output).
Proof. unfold exchange. tune. Qed.

Lemma tuned_advertising fuel channel timeout transmit scan_response own output :
  keeps_tuning_op (advertising_exchange fuel channel timeout transmit scan_response own output).
Proof. unfold advertising_exchange. tune. Qed.

Lemma tuned_transmit_blocking channel packet : keeps_tuning_op (transmit_blocking channel packet).
Proof. unfold transmit_blocking. tune. Qed.

Lemma tuned_receive_blocking channel timeout output :
  keeps_tuning_op (receive_blocking channel timeout output).
Proof. unfold receive_blocking, enable_interrupt. tune. Qed.

(** ** Tuning, and bringing the radio up *)

(** The registers hold what the two settings say, and the second has 24 bits. *)
Definition programmed (s : Machine D) : Prop :=
  last_write bb_tx_access_address (m_trace s) = Some (u32 (m_access_address s)) ∧
  last_write bb_tx_crc_init (m_trace s) = Some (u32 (m_crc_init s)) ∧
  Z.land (m_crc_init s) 0x00ffffff = m_crc_init s.

(** However the body ends, the registers hold the settings; [programs] also when
    they did not before. *)
Definition keeps_programmed {R A} (m : st R A) : Prop := ∀ s, programmed s →
  match m s with Next _ s' | Return _ s' => programmed s' | Panic => True end.
Definition programs {R A} (m : st R A) : Prop := ∀ s,
  match m s with Next _ s' | Return _ s' => programmed s' | Panic => True end.

Lemma programmed_tuning s s' : tuning s' = tuning s → programmed s → programmed s'.
Proof. unfold programmed. intros [= -> -> _ _ _ -> ->]. done. Qed.

Lemma tuned_programmed {R A} (m : st R A) : keeps_tuning m → keeps_programmed m.
Proof.
  intros Hm s Hs. specialize (Hm s). by destruct (m s); [eapply programmed_tuning..|].
Qed.

Lemma programmed_bind {R A B} (m : st R A) (k : A → st R B) :
  keeps_programmed m → (∀ a, keeps_programmed (k a)) → keeps_programmed (m ≫= k).
Proof.
  intros Hm Hk s Hs. specialize (Hm s Hs). unfold mbind, M_bind. destruct (m s); [|done..]. by apply Hk.
Qed.

Lemma programs_bind {R A B} (m : st R A) (k : A → st R B) :
  programs m → (∀ a, keeps_programmed (k a)) → programs (m ≫= k).
Proof.
  intros Hm Hk s. specialize (Hm s). unfold mbind, M_bind. destruct (m s); [|done..]. by apply Hk.
Qed.

Lemma programmed_modify {R} (f : Machine D → Machine D) :
  (∀ s, m_access_address (f s) = m_access_address s ∧ m_crc_init (f s) = m_crc_init s ∧
        m_trace (f s) = m_trace s) → keeps_programmed (R := R) (modify f).
Proof. intros Hf s Hs. unfold programmed in *. cbn. destruct (Hf s) as (-> & -> & ->). done. Qed.

(** A body that always goes on. *)
Definition straight {R A} (m : st R A) : Prop := ∀ s, ∃ a s', m s = Next a s'.

Lemma straight_bind {R A B} (m : st R A) (k : A → st R B) :
  straight m → (∀ a, straight (k a)) → straight (m ≫= k).
Proof. intros Hm Hk s. unfold mbind, M_bind. destruct (Hm s) as (a & s' & ->). apply Hk. Qed.

Lemma straight_preempt {R} : straight (R := R) preempt.
Proof.
  intros s. unfold preempt, BLEB, when_, raw_irq, raw_read, raw_write, store_capture_seen, gets,
    modify, mbind, M_bind, mret, M_ret.
  repeat (case_match; simplify_eq/=; try by eexists _, _).
Qed.

Lemma straight_rread {R} address : straight (R := R) (rread address).
Proof.
  apply straight_bind; [apply straight_preempt|]. intros _ s. unfold raw_read.
  destruct (rd_read address (m_dev s)). by eexists _, _.
Qed.

Lemma straight_rwrite {R} address v : straight (R := R) (rwrite address v).
Proof. apply straight_bind; [apply straight_preempt|]. intros _ s. by eexists _, _. Qed.

Lemma straight_rmodify {R} address f : straight (R := R) (rmodify address f).
Proof. apply straight_bind; [apply straight_rread|]. intros v. apply straight_rwrite. Qed.

Lemma straight_rwrite16 {R} address v : straight (R := R) (rwrite16 address v).
Proof. apply straight_bind; [apply straight_preempt|]. intros _ s. by eexists _, _. Qed.

Lemma straight_for_each {R A} (l : list A) (body : A → st R ()) :
  (∀ a, straight (body a)) → straight (for_each l body).
Proof.
  intros Hb. induction l as [|a l IH]; cbn [for_each]; [by eexists _, _|]. by apply straight_bind.
Qed.

Lemma programs_after {R A B} (m : st R A) (k : A → st R B) :
  straight m → (∀ a, programs (k a)) → programs (m ≫= k).
Proof. intros Hm Hk s. unfold mbind, M_bind. destruct (Hm s) as (a & s' & ->). apply Hk. Qed.

Lemma rwrite_register {R} address v (s : Machine D) : ∃ s1,
  tuning s1 = tuning s ∧
  (rwrite address v : st R ()) s = Next () (s1 <| m_dev := rd_write address (u32 v) (m_dev s1) |>
    <| m_trace := m_trace s1 ++ [Own (RWrite address (u32 v))] |>).
Proof.
  destruct (straight_preempt (R := R) s) as ([] & s1 & E). exists s1. split.
  - pose proof (tuned_preempt (R := R) s) as Ht. by rewrite E in Ht.
  - unfold rwrite, raw_write, mbind, M_bind. by rewrite E.
Qed.

(** [set_access_address] and [set_crc_init]: the whole effect on the tuning. *)
Lemma set_access_address_tunes {R} v (s : Machine D) : ∃ s',
  (radio_set_access_address v : st R ()) s = Next () s' ∧
  tuning s' = mkTuning v (m_crc_init s) (m_phy s) (m_digital_initialized s)
    (m_frontend_calibrated s) (Some (u32 v)) (last_write bb_tx_crc_init (m_trace s)).
Proof.
  unfold radio_set_access_address, modify, mbind, M_bind.
  destruct (rwrite_register (R := R) bb_tx_access_address v (s <| m_access_address := v |>))
    as (s1 & Ht & ->). eexists. split; [done|]. injection Ht as Ha Hc Hp Hd Hf _ Hr.
  unfold tuning. cbn. rewrite !last_write_snoc. cbn in *. by rewrite Ha, Hc, Hp, Hd, Hf, Hr.
Qed.

Lemma set_crc_init_tunes {R} v (s : Machine D) : ∃ s',
  (radio_set_crc_init v : st R ()) s = Next () s' ∧
  tuning s' = mkTuning (m_access_address s) (Z.land v 0x00ffffff) (m_phy s)
    (m_digital_initialized s) (m_frontend_calibrated s)
    (last_write bb_tx_access_address (m_trace s)) (Some (u32 (Z.land v 0x00ffffff))).
Proof.
  unfold radio_set_crc_init, modify, gets, mbind, M_bind. cbn [m_crc_init set_field].
  destruct (rwrite_register (R := R) bb_tx_crc_init (Z.land v 0x00ffffff)
    (s <| m_crc_init := Z.land v 0x00ffffff |>)) as (s1 & Ht & E).
  cbn in E |- *. rewrite E. eexists. split; [done|]. injection Ht as Ha Hc Hp Hd Hf Hr _.
  unfold tuning. cbn. rewrite !last_write_snoc. cbn in *. by rewrite Ha, Hc, Hp, Hd, Hf, Hr.
Qed.

Lemma programs_baseband {R} : programs (R := R) init_baseband.
Proof.
  unfold init_baseband.
  repeat (apply programs_after; [apply straight_rmodify || apply straight_rwrite|]; intros _).
  intros s. unfold gets, mbind, M_bind.
  destruct (set_access_address_tunes (R := R) (m_access_address s) s) as (s1 & -> & H1).
  destruct (set_crc_init_tunes (R := R) (m_crc_init s1) s1) as (s2 & -> & H2).
  unfold tuning in H1, H2. injection H1 as Ha1 Hc1 _ _ _ Hr1 _.
  injection H2 as Ha2 Hc2 _ _ _ Hr2 Hs2. unfold programmed.
  rewrite Ha2, Hc2, Hr2, Hs2, Ha1, Hr1. split_and!; [done..|].
  by rewrite <- Z.land_assoc, Z.land_diag.
Qed.

Lemma straight_init_lle {R} : straight (R := R) init_lle.
Proof.
  unfold init_lle. do 2 (apply straight_bind; [apply straight_rwrite|]; intros _).
  apply straight_bind; [apply straight_for_each; intros [offset v]; apply straight_rwrite|]. intros _.
  apply straight_bind; [apply straight_rmodify|]. intros _.
  apply straight_bind; [apply straight_rwrite16|]. intros _.
  do 2 (apply straight_bind; [apply straight_rwrite|]; intros _). apply straight_rwrite.
Qed.

Lemma straight_baseline {R} : straight (R := R) initialize_baseline.
Proof.
  unfold initialize_baseline. apply straight_bind; [apply straight_rwrite|]. intros _.
  repeat (apply straight_bind; [apply straight_rmodify|]; intros _). apply straight_rmodify.
Qed.

(** *** Calibration *)

Lemma tuned_wait_tune : keeps_tuning_op wait_tune.
Proof. unfold wait_tune. tune. Qed.
#[local] Hint Resolve tuned_wait_tune : tuned.

Lemma tuned_measure v : keeps_tuning_op (measure_ctune v).
Proof. unfold measure_ctune. tune. Qed.
#[local] Hint Resolve tuned_measure : tuned.

Lemma tuned_measurements : keeps_tuning_op ctune_measurements.
Proof. unfold ctune_measurements. tune. Qed.
#[local] Hint Resolve tuned_measurements : tuned.

Lemma tuned_for_each_in {R A} (l : list A) (body : A → st R ()) :
  (∀ a, a ∈ l → keeps_tuning (body a)) → keeps_tuning (for_each l body).
Proof.
  intros Hb. induction l as [|a l IH]; cbn [for_each]; [done|].
  apply tuned_bind; [apply Hb; set_solver|]. intros _. apply IH. intros b Hin. apply Hb. set_solver.
Qed.

Lemma untuned_table r : r ∈ tune_table → untuned r = true.
Proof.
  intros Hr. assert (Forall (λ r, untuned r = true) tune_table) as Hall
    by (unfold tune_table; cbn [fmap list_fmap]; repeat apply Forall_cons_2; done).
  by rewrite list.Forall_forall in Hall; apply Hall.
Qed.

Lemma tuned_ctune : keeps_tuning_op tx_ctune.
Proof.
  unfold tx_ctune. tune. apply tuned_for_each_in. intros [index [register value]] Hin.
  apply elem_of_zip_r, elem_of_zip_l, untuned_table in Hin.
  destruct (index + 1 =? TABLE_WORDS)%nat; [by apply tuned_rmodify|by apply tuned_rwrite].
Qed.

Lemma tuned_filter_wait : keeps_tuning_op rx_filter_wait.
Proof. unfold rx_filter_wait. tune. Qed.
#[local] Hint Resolve tuned_ctune tuned_filter_wait : tuned.

Lemma tuned_calibrate : keeps_tuning_op calibrate.
Proof. unfold calibrate, tx_ftune, rx_filter, rx_adc. tune. Qed.
#[local] Hint Resolve tuned_calibrate : tuned.

Lemma programs_run {R} (m : st R R) : programs m → ∀ s,
  match run m s with Some (_, s') => programmed s' | None => True end.
Proof. intros Hm s. specialize (Hm s). unfold run. by destruct (m s). Qed.

Lemma initialize_programs (s : Machine D) :
  match initialize s with Some (_, s') => programmed s' | None => True end.
Proof.
  revert s. unfold initialize. apply programs_run.
  apply programs_after; [apply straight_init_lle|]. intros _.
  apply programs_after; [apply straight_baseline|]. intros _.
  apply programs_bind; [apply programs_baseband|]. intros _.
  apply programmed_bind; [by apply programmed_modify|]. intros _.
  do 5 (apply programmed_bind; [apply tuned_programmed; tune|]; intros _).
  apply programmed_bind; [apply tuned_programmed; tune|]. intros r.
  do 2 (apply programmed_bind; [apply tuned_programmed; tune|]; intros _).
  apply programmed_bind; [apply tuned_programmed; unfold leave_calibration; tune|]. intros _.
  apply programmed_bind; [apply tuned_programmed; tune|]. intros _.
  apply programmed_bind; [by apply programmed_modify|]. intros _.
  apply tuned_programmed. unfold enable_interrupt. tune.
Qed.

(** Initialization programs the settings that the driver already has. *)
Definition set_to (s : Machine D) : Z * Z :=
  (m_access_address s, Z.land (m_crc_init s) 0x00ffffff).

Definition keeps_set {R A} (m : st R A) : Prop := ∀ s,
  match m s with Next _ s' | Return _ s' => set_to s' = set_to s | Panic => True end.

Lemma set_bind {R A B} (m : st R A) (k : A → st R B) :
  keeps_set m → (∀ a, keeps_set (k a)) → keeps_set (m ≫= k).
Proof.
  intros Hm Hk s. specialize (Hm s). unfold mbind, M_bind.
  destruct (m s) as [a s1|r s1|]; [|done..]. specialize (Hk a s1). rewrite Hm in Hk.
  by destruct (k a s1).
Qed.

Lemma set_tuned {R A} (m : st R A) : keeps_tuning m → keeps_set m.
Proof.
  intros Hm s. specialize (Hm s). unfold set_to.
  destruct (m s) as [a s1|r s1|]; [| |done]; injection Hm as -> ->; done.
Qed.

Lemma set_modify {R} (f : Machine D → Machine D) :
  (∀ s, set_to (f s) = set_to s) → keeps_set (R := R) (modify f).
Proof. intros Hf s. apply Hf. Qed.

Lemma set_baseband {R} : keeps_set (R := R) init_baseband.
Proof.
  unfold init_baseband. repeat (apply set_bind; [apply set_tuned; solve [tune]|]; intros _).
  intros s. unfold gets, mbind, M_bind.
  destruct (set_access_address_tunes (R := R) (m_access_address s) s) as (s1 & -> & H1).
  destruct (set_crc_init_tunes (R := R) (m_crc_init s1) s1) as (s2 & -> & H2).
  unfold tuning in H1, H2. injection H1 as Ha1 Hc1 _ _ _ _ _. injection H2 as Ha2 Hc2 _ _ _ _ _.
  unfold set_to. by rewrite Ha2, Hc2, Ha1, Hc1, <- Z.land_assoc, Z.land_diag.
Qed.

Lemma tuned_init_lle {R} : keeps_tuning (R := R) init_lle.
Proof.
  unfold init_lle. do 2 (apply tuned_bind; [tune|]; intros _).
  apply tuned_bind; [cbn [for_each]; repeat (apply tuned_bind; [tune|]; intros _); tune|]. tune.
Qed.

Lemma set_run {R} (m : st R R) : keeps_set m → ∀ s,
  match run m s with Some (_, s') => set_to s' = set_to s | None => True end.
Proof. intros Hm s. specialize (Hm s). unfold run. by destruct (m s). Qed.

Lemma initialize_keeps_set (s : Machine D) :
  match initialize s with Some (_, s') => set_to s' = set_to s | None => True end.
Proof.
  revert s. unfold initialize. apply set_run.
  apply set_bind; [apply set_tuned, tuned_init_lle|]. intros _.
  apply set_bind; [apply set_tuned; unfold initialize_baseline; tune|]. intros _.
  apply set_bind; [apply set_baseband|]. intros _.
  apply set_bind; [by apply set_modify|]. intros _.
  do 5 (apply set_bind; [apply set_tuned; tune|]; intros _).
  apply set_bind; [apply set_tuned; tune|]. intros r.
  do 2 (apply set_bind; [apply set_tuned; tune|]; intros _).
  apply set_bind; [apply set_tuned; unfold leave_calibration; tune|]. intros _.
  apply set_bind; [apply set_tuned; tune|]. intros _.
  apply set_bind; [by apply set_modify|]. intros _.
  apply set_tuned. unfold enable_interrupt. tune.
Qed.

End tuning.
