(* ===== verification/RadioDirect.v ===== *)
(** * The direct operations of the radio

    [transmit_blocking] and [receive_blocking] of [radio.rs], which are the radio
    interface of the portable core: whatever the hardware does, and whenever the
    interrupt is taken, they return, what is handed over is bounded by the kind of
    channel, its CRC flag is the one read, and the engine is left idle. *)

From S2P Require Import Prelude Effects Time Channel Timing Advertising Runner.
From S2P Require Import RadioMachine Radio RadioLogic RadioProps RadioTime RadioTuning.

Section interface.
Context {time : EmbassyTime} {D : Type} {device : RadioDevice D}.
Abbreviation op A := (Machine D → option (A * Machine D)).

(** The [BleRadio] of the core; neither future ever waits. *)
(*! crates/ch58x-ble/src/radio.rs 1020-1022 Radio::transmit *)
Definition transmit (channel : Channel) (packet : list Z) : op (result Error ()) :=
  transmit_blocking channel packet.

(*! crates/ch58x-ble/src/radio.rs 1024-1031 Radio::receive *)
Definition receive (channel : Channel) (timeout : Duration) (buffer : list Z)
  : op (result Error ReceivedPacket) :=
  receive_blocking channel timeout buffer.

End interface.

Section direct.
Context {time : EmbassyTime} {D : Type} {device : RadioDevice D}.
Abbreviation st R A := (M (Machine D) R A).
Abbreviation op A := (Machine D → option (A * Machine D)).

(** ** Transmission *)

(** How the waits of the operations end. *)
Definition waited (r : result Error ()) : Prop := r = Ok () ∨ r = Err ErrorTimeout.

(** Either the settle countdown never expired: the engine was put into transmit mode
    and never started, as a start would have cleared [vw_releases].  Or the packet,
    with nothing but zeros behind it in the DMA bank, was started, and the engine
    is idle. *)
Definition transmit_post (x : Abs) (packet : list Z) (r : result Error ()) (y : Abs) : Prop :=
  ab_tx y = bank packet ∧ ab_response y = ab_response x ∧ ab_flags y = ab_flags x ∧
  waited r ∧
  ((vw_mode (ab_view y) = Some LLE_MODE_TX ∧ r = Err ErrorTimeout ∧
    ∃ p, vw_releases (ab_view y) = vw_releases (ab_view x) ++ [p]) ∨
   ab_view y = mkView (Some LLE_MODE_IDLE) [] None None false).

Lemma transmit_refused channel packet (s : Machine D) e :
  stage_refusal (m_digital_initialized s && m_frontend_calibrated s) packet = Some e →
  transmit_blocking channel packet s = Some (Err e, s).
Proof.
  intros E. unfold transmit_blocking, run, mbind, M_bind, call.
  by rewrite (stage_refused _ _ _ _ E).
Qed.

Lemma sees_wait x mask :
  sees_op x (wait_for_operation (D := D) mask)
    (λ r y, y = x ∧ waited r).
Proof.
  apply sees_run. eapply sees_bind.
  - apply (sees_repeat (λ y, y = x)); [done|]. intros ? ->.
    apply sees_then; [silence|]. intros status.
    eapply sees_bind with (P1 := λ _ y, y = x).
    { apply sees_when; intros _; [|done]. apply sees_return. by split; [|left]. }
    cbn beta. intros _ ? ->. apply sees_then; [silence|]. intros countdown.
    apply sees_when; intros _; [|done]. apply sees_return. by split; [|right].
  - cbn beta. intros _ ? ->. apply sees_ret. by split; [|right].
Qed.

Lemma sees_prepare_transmit {R} x (Q : R → Abs → Prop) :
  sees x (prepare_common_operation (D := D) LLE_MODE_TX) (λ _ y, y = released x) Q.
Proof.
  unfold prepare_common_operation. do 4 (apply sees_then; [silence|]; intros _).
  apply sees_rwrite. rewrite u32_small by (unfold_ints; by split). apply after_release.
Qed.

Lemma sees_transmit channel packet x :
  stage_refusal (ready (ab_flags x)) packet = None →
  sees_op x (transmit_blocking (D := D) channel packet) (transmit_post x packet).
Proof.
  intros Hstage. apply sees_run. unfold transmit_blocking.
  eapply sees_bind; [by apply sees_call, stage_accepted|]. cbn beta. intros ? ? [-> ->].
  apply sees_try_ok. set (x0 := mkAbs _ _ _ _).
  eapply sees_bind; [apply sees_prepare_transmit|]. cbn beta. intros _ ? ->.
  apply sees_then; [silence|]. intros _.
  apply sees_then; [apply silent_clear_lle|]. intros _.
  eapply sees_bind; [apply sees_clear_bb_unmoved|]. cbn beta. intros ? x2 (Hm & Hrel & Ht & Hresp & Hf).
  apply sees_then; [silence|]. intros _.
  eapply sees_bind; [apply sees_call, sees_settle|]. cbn beta. intros r ? [-> Hr].
  assert (moded LLE_MODE_TX x0 x2) as H2 by done.
  destruct Hr as [-> | ->].
  2: { apply sees_try_err. repeat (split; [done|]). split; [by right|]. left. repeat (split; [done|]).
       rewrite Hrel. by eexists. }
  apply sees_try_ok.
  apply sees_then; [apply silent_transmit_phy|]. intros _.
  eapply sees_bind with (P1 := λ _ z, z = started LLE_MODE_TX x0).
  { unfold start_transmit_operation. do 2 (apply sees_then; [silence|]; intros _).
    apply sees_rwrite. apply (after_start LLE_MODE_TX x0); [by right|done]. }
  cbn beta. intros _ ? ->.
  eapply sees_bind; [apply sees_call, sees_wait|]. cbn beta. intros r ? [-> Hr].
  eapply sees_bind with (P1 := λ _ z, z = idled _); [by apply sees_shut_down|].
  cbn beta. intros _ ? ->. apply sees_ret.
  repeat (split; [done|]). by right.
Qed.

(** ** Reception *)

(** The refusals touch nothing. *)
Definition receive_refusal (ready : bool) (output : list Z) : option Error :=
  if negb ready then Some ErrorHardware
  else if (length output =? 0)%nat then Some ErrorInvalidPacket else None.

Lemma receive_refused channel timeout output (s : Machine D) e :
  receive_refusal (m_digital_initialized s && m_frontend_calibrated s) output = Some e →
  receive_blocking channel timeout output s = Some (Err e, s).
Proof.
  unfold receive_refusal, receive_blocking. intros E.
  unfold run, mbind, M_bind, gets. rewrite <- negb_andb.
  destruct (m_digital_initialized s && m_frontend_calibrated s); cbn [negb when_] in *.
  - destruct (length output =? 0)%nat; [|done]. by injection E as <-.
  - by injection E as <-.
Qed.

(** The triple from a state with a known access address, up to where it is read. *)
Definition sees_at {R A} (a : Z) (x : Abs) (m : st R A) (P : A → Abs → Prop) (Q : R → Abs → Prop)
  : Prop :=
  ∀ s, abs s = x → m_access_address s = a →
  match m s with
  | Next v s' => P v (abs s')
  | Return r s' => Q r (abs s')
  | Panic => True
  end.

Lemma at_run {R} a x (m : st R R) P (s : Machine D) :
  sees_at a x m P P → abs s = x → m_access_address s = a →
  match run m s with Some (r, s') => P r (abs s') | None => True end.
Proof. intros Hm Hs Ha. specialize (Hm s Hs Ha). unfold run. by destruct (m s). Qed.

Lemma at_bind {R A B} a x (m : st R A) (k : A → st R B) P1 P Q :
  sees x m P1 Q → keeps_tuning m → (∀ v y, P1 v y → sees_at a y (k v) P Q) →
  sees_at a x (m ≫= k) P Q.
Proof.
  intros Hm Ht Hk s Hx Ha. specialize (Hm s Hx). specialize (Ht s). unfold mbind, M_bind.
  destruct (m s) as [v s'|r s'|]; [|done..].
  apply (Hk v (abs s') Hm s' eq_refl). rewrite <- Ha. by injection Ht.
Qed.

Lemma at_then {R A B} a x (m : st R A) (k : A → st R B) P Q :
  silent false m → keeps_tuning m → (∀ v, sees_at a x (k v) P Q) → sees_at a x (m ≫= k) P Q.
Proof.
  intros Hm Ht Hk. eapply at_bind with (P1 := λ _ y, y = x); [by apply sees_silent|done|].
  by intros v ? ->.
Qed.

Lemma at_address {R A} a x (k : Z → st R A) P Q :
  sees x (k a) P Q → sees_at a x (gets m_access_address ≫= k) P Q.
Proof. intros Hk s Hx <-. exact (Hk s Hx). Qed.

(** What is handed over; [advertising] is the kind of channel, [crc] the last
    reading of the CRC flag. *)
Definition received_ok (advertising : bool) (output : list Z) (r : result Error ReceivedPacket)
    (crc : option bool) : Prop :=
  match r with
  | Ok p =>
      bytes_ok (rp_payload p) ∧
      (2 ≤ length (rp_payload p) ≤ if advertising then 39 else 29)%nat ∧
      (length (rp_payload p) ≤ length output)%nat ∧ crc = Some (rp_crc_ok p)
  | Err e => e = ErrorTimeout
  end.

Definition receive_post (advertising : bool) (x : Abs) (output : list Z)
    (r : result Error ReceivedPacket) (y : Abs) : Prop :=
  vw_mode (ab_view y) = Some LLE_MODE_IDLE ∧ vw_releases (ab_view y) = [] ∧
  vw_erased (ab_view y) = false ∧
  ab_tx y = ab_tx x ∧ ab_response y = ab_response x ∧ ab_flags y = ab_flags x ∧
  received_ok advertising output r (vw_crc (ab_view y)).

(** The state while the engine listens: only the CRC flag has been read. *)
Definition listening (x y : Abs) : Prop :=
  ∃ crc, y = mkAbs (mkView (Some LLE_MODE_RX) [] crc None false)
                (ab_tx x) (ab_response x) (ab_flags x).

Lemma sees_receive_pass x y deadline captured : listening x y →
  sees y (receive_pass (D := D) deadline captured) (λ _, listening x)
    (λ r y, listening x y ∧ waited r).
Proof.
  intros [crc ->]. unfold receive_pass.
  apply sees_rread_bind. intros bb _. rewrite after_status_read.
  cbn [ab_view ab_tx ab_response ab_flags].
  set (y := mkAbs _ _ _ _). assert (listening x y) as Hy by (by eexists).
  eapply sees_bind with (P1 := λ _ z, z = y).
  { apply sees_when; intros _; [|done]. apply sees_rwrite_bind.
    rewrite after_status_write; [|by left|by apply any_bit_masked].
    by apply sees_silent; [silence|]. }
  cbn beta. intros _ ? ->.
  eapply sees_bind with (P1 := λ _ z, z = y).
  { apply sees_when; intros _; [|done]. apply sees_then; [silence|]. intros status.
    apply sees_when; intros _; [|done]. apply sees_return. by split; [|left]. }
  cbn beta. intros _ ? ->. apply sees_then; [silence|]. intros countdown.
  eapply sees_bind with (P1 := λ _ z, z = y).
  { apply sees_when; intros _; [apply sees_return; by split; [|right]|done]. }
  cbn beta. intros _ ? ->.
  eapply sees_bind with (P1 := λ _ z, z = y).
  { apply sees_when; intros _; [|done]. apply sees_then; [silence|]. intros t.
    apply sees_when; intros _; [apply sees_return; by split; [|right]|done]. }
  cbn beta. intros _ ? ->. by apply sees_ret.
Qed.

Lemma sees_polled x y deadline : listening x y →
  sees_op y (wait_for_polled_receive_operation (D := D) deadline)
    (λ r y, listening x y ∧ waited r).
Proof.
  intros Hy. apply sees_run. unfold wait_for_polled_receive_operation.
  eapply sees_bind with (P1 := λ _, listening x); [|intros; apply sees_ret; by split; [|right]].
  generalize false as captured, (Z.to_nat MAX_OPERATION_POLLS) as n.
  intros captured n. revert captured y Hy.
  induction n as [|n IH]; intros captured y Hy; cbn [receive_polls]; [by apply sees_ret|].
  eapply sees_bind; [by apply sees_receive_pass|]. intros captured' y' Hy'. by apply IH.
Qed.

(** Up to the start command, on every statement the address stays as it is. *)
Lemma sees_prepare_receive {R} x y (Q : R → Abs → Prop) :
  ab_tx y = ab_tx x → ab_response y = ab_response x → ab_flags y = ab_flags x →
  sees y (prepare_receive_operation (D := D)) (λ _ z, moded LLE_MODE_RX x z) Q.
Proof.
  intros Ht Hr Hf. unfold prepare_receive_operation.
  do 3 (apply sees_then; [silence|]; intros _).
  apply sees_rwrite. rewrite u32_small by (unfold_ints; by split).
  destruct (after_mode_moded y LLE_MODE_RX) as (? & ? & ? & ?). unfold moded. intuition congruence.
Qed.

Lemma copied_received advertising output len out rssi crc_ok timestamp :
  copied_ok advertising output (len, out) → len ≠ O →
  received_ok advertising output (Ok (mkReceivedPacket (take len out) rssi crc_ok timestamp))
    (Some crc_ok).
Proof.
  intros [Hlen [?|([Hge Hle] & Hmax & Hb)]] Hne; [done|]. cbn [fst snd] in *.
  cbn [received_ok rp_payload rp_crc_ok]. rewrite length_take. unfold max_wire in Hmax.
  split; [done|].
  destruct advertising; unfold MAX_LEGACY_ADV_WIRE_LEN, MAX_DATA_WIRE_LEN, LL_HEADER_LEN,
    MAX_LEGACY_ADV_PAYLOAD_LEN, MAX_LL_DATA_PAYLOAD_LEN in Hmax;
    (split; [lia|]; split; [lia|done]).
Qed.

(** Silent statements that keep the tuning. *)
Ltac at_silent := apply at_then;
  [ first [ apply silent_fill | apply silent_set_receive_channel | apply silent_clear_lle
          | apply silent_receive_phy | apply silent_enable_interrupt | apply silent_rssi | silence ]
  | first [ apply tuned_receive_channel | apply tuned_clear_lle | apply tuned_receive_phy
          | apply tuned_now | apply tuned_rwrite; done | apply tuned_rmodify; done
          | apply tuned_fill | apply tuned_modify; done | apply tuned_ret ] | ].

Lemma at_ready {R A} a x (k : bool → bool → st R A) P Q :
  ready (ab_flags x) = true → sees_at a x (k true true) P Q →
  sees_at a x (digital ← gets m_digital_initialized; calibrated ← gets m_frontend_calibrated;
    k digital calibrated) P Q.
Proof.
  intros Er Hk s <- Ha. apply andb_true_iff in Er as [E1 E2].
  change (m_digital_initialized s = true) in E1. change (m_frontend_calibrated s = true) in E2.
  unfold mbind, M_bind, gets. rewrite E1, E2. by apply Hk.
Qed.

Lemma receive_accepted channel timeout output (s : Machine D) :
  receive_refusal (m_digital_initialized s && m_frontend_calibrated s) output = None →
  match receive_blocking channel timeout output s with
  | Some (r, s') =>
      receive_post (m_access_address s =? ADV_ACCESS_ADDRESS) (abs s) output r (abs s')
  | None => True
  end.
Proof.
  unfold receive_refusal. intros E.
  destruct (m_digital_initialized s && m_frontend_calibrated s) eqn:Er; cbn [negb] in E; [|done].
  destruct (length output =? 0)%nat eqn:Eo; [done|].
  set (advertising := m_access_address s =? ADV_ACCESS_ADDRESS).
  unfold receive_blocking. rewrite Eo. eapply at_run; [|done..].
  apply at_ready; [done|]. cbn [negb orb when_]. do 7 (at_silent; intros _).
  eapply at_bind; [apply sees_clear_bb_unmoved|apply tuned_clear_bb|].
  intros _ y (_ & _ & Ht & Hr & Hf).
  do 3 (at_silent; intros _).
  eapply at_bind; [by apply (sees_prepare_receive (abs s))|apply tuned_prepare_receive|].
  intros ? y1 H1.
  at_silent. intros start.
  eapply at_bind with (P1 := λ _, listening (abs s)); [|by apply tuned_rwrite|].
  { apply sees_rwrite. rewrite u32_small by (by split).
    rewrite (after_start LLE_MODE_RX (abs s)); [by exists None|by left|done]. }
  intros ? y2 H2.
  eapply at_bind; [by apply sees_call, sees_polled|apply tuned_call, tuned_polled|].
  intros wait y3 [[crc ->] Hwait].
  eapply at_bind with (P1 := λ status y, listening (abs s) y ∧
    vw_crc (ab_view y) = Some (negb (any_bit status CRC_FLAG))); [|by apply tuned_rread|].
  { apply sees_rread. intros w. rewrite after_status_read. split; [by eexists|done]. }
  cbn beta. intros status y4 [H4 Hcrc]. apply at_address.
  eapply sees_bind; [apply sees_call, sees_copy|]. cbn beta.
  intros [len out] ? [Hcopied [l ->]].
  apply sees_then; [apply silent_rssi|]. intros rssi.
  eapply sees_bind with (P1 := λ _ z, z = idled _); [by apply sees_shut_down|].
  cbn beta. intros _ ? ->. set (final := idled _).
  assert (∀ r, received_ok advertising output r (vw_crc (ab_view y4)) →
    receive_post advertising (abs s) output r final) as Hend.
  { destruct H4 as [c ->]. intros r Hok. by repeat (split; [done|]). }
  apply sees_then; [apply silent_enable_interrupt|]. intros _.
  destruct Hwait as [-> | ->]; [apply sees_try_ok|by apply sees_try_err, Hend].
  destruct (Nat.eqb_spec len 0) as [->|Hne]; cbn [when_].
  { eapply sees_bind with (P1 := λ _ _, False); [|done]. by apply sees_return, Hend. }
  do 2 (apply sees_then; [silence|]; intros ?).
  apply sees_ret, Hend. rewrite Hcrc. by apply copied_received.
Qed.


End direct.

(** A device that captures an empty packet, and finishes whatever it is told. *)
Definition capturing_device : @RadioDevice ideal_time Z := {|
  rd_read a t :=
    (if a =? lle_operation_countdown then 0
     else if a =? bb_interrupt_status then Z.shiftl 1 6 else U32_MAX, t);
  rd_write _ _ d := d;
  rd_write16 _ _ d := d;
  rd_dma i d := (if (i =? 0)%nat then 1 else 0, d);
  rd_fill _ d := d;
  rd_now := (λ t, (Z.max t 0 + 1, Z.max t 0 + 1)) : Z → @Instant ideal_time * Z;
  rd_irq d := (true, d);
  tx_buffer_address := 0x20000000;
  response_buffer_address := 0x20000040;
  rx_buffer_address := 0x20000080;
|}.

Definition capturing_clock : @RunningClock ideal_time Z capturing_device :=
  {| clock d := Z.max d 0; stall _ := O; stall_max := O |}.

Lemma capturing_clock_laws : @RunningClockLaws ideal_time Z capturing_device capturing_clock.
Proof.
  split; unfold later, strictly_later; cbn; try (intros; done || lia).
  intros t i d' [= <- <-]. lia.
Qed.

Definition capturing_machine : Machine Z :=
  (radio_new (D := Z) 0 [] [] true)
    <| m_digital_initialized := true |> <| m_frontend_calibrated := true |>.

Example captured_packet :
  fst <$> @receive ideal_time Z capturing_device (mkChannel 37) (500 : Z) (replicate 64 0)
            capturing_machine =
  Some (Ok (mkReceivedPacket [1; 0] 1 true 2)).
Proof. vm_compute. reflexivity. Qed.

Example sent_packet :
  fst <$> @transmit ideal_time Z capturing_device (mkChannel 37) [0x42; 0] capturing_machine =
  Some (Ok ()).
Proof. vm_compute. reflexivity. Qed.

