(* ===== verification/Gpio.v ===== *)
(** * GPIO pins

    [src/gpio.rs]: pin identities and the reconfigurable pin [Flex] that the other
    drivers build on.  Every operation reads, changes one bit and writes back, in a
    critical section. *)

From S2P Require Import Prelude.
From S2P Require Import Effects.
From S2P Require Import Mmio.

(*! src/gpio.rs 12-15 Level *)
Inductive Level : Type := Low | High.
(*! src/gpio.rs 19-23 Pull *)
Inductive Pull : Type := PullNone | PullUp | PullDown.
(*! src/gpio.rs 27-31 Drive *)
Inductive Drive : Type := MilliAmps5 | MilliAmps20.

(** The const-generic [Pin<PORT, N>] and its erasure are the same data. *)
(*! src/gpio.rs 55-58 AnyPin *)
Record AnyPin : Type := mkAnyPin { pin_port : Z; pin_number : Z }.
#[export] Instance AnyPin_eq_dec : EqDecision AnyPin.
Proof. solve_decision. Defined.

(** [None] is a failed assertion. *)
(*! src/gpio.rs 67-71 AnyPin::steal *)
Definition steal (port number : Z) : option AnyPin :=
  if negb (port <=? 1) then None
  else if negb (number <? (if port =? 0 then 16 else 24)) then None
  else Some (mkAnyPin port number).

(*! src/gpio.rs 88-91 PinId::pa *)
Definition pa (number : Z) : option AnyPin :=
  if number <? 16 then Some (mkAnyPin 0 number) else None.
(*! src/gpio.rs 93-96 PinId::pb *)
Definition pb (number : Z) : option AnyPin :=
  if number <? 24 then Some (mkAnyPin 1 number) else None.

(** The pins of the package, as [pins!] lists them. *)
(*! src/gpio.rs 300-311 pins *)
Definition all_pins : list AnyPin :=
  (mkAnyPin 0 <$> seqZ 0 16) ++ (mkAnyPin 1 <$> seqZ 0 24).

Section flex.
  Context {D : Type} {device : Device D}.
  Abbreviation op A := (Hal D → option (A * Hal D)).
  Abbreviation st R A := (M (Hal D) R A).

(** The register block of the port; [None] is [unreachable!()]. *)
(*! src/gpio.rs 123-129 block *)
Definition block (pin : AnyPin) : option (GpioReg → Reg) :=
  if pin_port pin =? 0 then Some (Gpio 0)
  else if pin_port pin =? 1 then Some (Gpio 1)
  else None.

(*! src/gpio.rs 143-143 mask *)
Definition pin_mask (pin : AnyPin) : Z := Z.shiftl 1 (pin_number pin).

(*! src/gpio.rs 141-161 Flex::set_as_input *)
Definition set_as_input (pin : AnyPin) (pull : Pull) : op () := run (
  registers ← unwrap (block pin);
  let mask := pin_mask pin in
  call (critical (run (
    update 32 (registers Dir) (λ v, Z.ldiff v mask);;
    match pull with
    | PullNone =>
        update 32 (registers Pu) (λ v, Z.ldiff v mask);;
        update 32 (registers PdDrv) (λ v, Z.ldiff v mask)
    | PullUp =>
        update 32 (registers Pu) (λ v, Z.lor v mask);;
        update 32 (registers PdDrv) (λ v, Z.ldiff v mask)
    | PullDown =>
        update 32 (registers Pu) (λ v, Z.ldiff v mask);;
        update 32 (registers PdDrv) (λ v, Z.lor v mask)
    end)))).

(*! src/gpio.rs 163-176 Flex::set_as_output *)
Definition set_as_output (pin : AnyPin) (drive : Drive) : op () := run (
  registers ← unwrap (block pin);
  let mask := pin_mask pin in
  call (critical (run (
    update 32 (registers PdDrv) (λ v,
      match drive with MilliAmps5 => Z.ldiff v mask | MilliAmps20 => Z.lor v mask end);;
    update 32 (registers Dir) (λ v, Z.lor v mask))))).

(*! src/gpio.rs 179-181 Flex::is_high *)
Definition is_high (pin : AnyPin) : op bool := run (
  registers ← unwrap (block pin);
  v ← read 32 (registers PinIn);
  mret (negb (Z.land v (pin_mask pin) =? 0))).

(*! src/gpio.rs 184-186 Flex::is_set_high *)
Definition is_set_high (pin : AnyPin) : op bool := run (
  registers ← unwrap (block pin);
  v ← read 32 (registers Out);
  mret (negb (Z.land v (pin_mask pin) =? 0))).

(*! src/gpio.rs 188-197 Flex::set_level *)
Definition set_level (pin : AnyPin) (level : Level) : op () := run (
  registers ← unwrap (block pin);
  let mask := pin_mask pin in
  call (critical (run (
    match level with
    | Low => write 32 (registers Clr) mask
    | High => update 32 (registers Out) (λ v, Z.lor v mask)
    end)))).

(*! src/gpio.rs 204-208 Input::new *)
Definition input_new (pin : AnyPin) (pull : Pull) : op AnyPin := run (
  call (set_as_input pin pull);; mret pin).
(*! src/gpio.rs 223-225 Input::is_high *)
Definition input_is_high (pin : AnyPin) : op bool := is_high pin.
(*! src/gpio.rs 227-229 Input::is_low *)
Definition input_is_low (pin : AnyPin) : op bool := run (
  b ← call (is_high pin); mret (negb b)).

(*! src/gpio.rs 236-241 Output::new *)
Definition output_new (pin : AnyPin) (initial : Level) (drive : Drive) : op AnyPin := run (
  call (set_level pin initial);;
  call (set_as_output pin drive);;
  mret pin).
(*! src/gpio.rs 256-259 Output::set_low *)
Definition set_low (pin : AnyPin) : op () := set_level pin Low.
(*! src/gpio.rs 261-264 Output::set_high *)
Definition set_high (pin : AnyPin) : op () := set_level pin High.
(*! src/gpio.rs 268-270 Output::is_set_high *)
Definition output_is_set_high (pin : AnyPin) : op bool := is_set_high pin.
(*! src/gpio.rs 272-274 Output::is_set_low *)
Definition output_is_set_low (pin : AnyPin) : op bool := run (
  b ← call (is_set_high pin); mret (negb b)).

End flex.

(** ** One bit at a time *)

(** A pin of the package. *)
Definition pin_ok (pin : AnyPin) : bool :=
  bool_decide (pin_port pin = 0 ∧ 0 ≤ pin_number pin < 16) ||
  bool_decide (pin_port pin = 1 ∧ 0 ≤ pin_number pin < 24).

(** [w] is the word [v] with bit [n] set to [b]. *)
Definition bit_put (n : Z) (b : bool) (v w : Z) : Prop :=
  Z.testbit w n = b ∧ ∀ i, 0 ≤ i → i ≠ n → Z.testbit w i = Z.testbit v i.

(** A read of the register and the write of the same word with one bit put. *)
Definition puts (r : Reg) (n : Z) (b : bool) (t : list Event) : Prop :=
  ∃ v w, t = [Rd r v; Wr r w] ∧ bit_put n b v w.

Lemma testbit_mask n i : 0 ≤ n → 0 ≤ i → Z.testbit (Z.shiftl 1 n) i = bool_decide (i = n).
Proof.
  intros Hn Hi. rewrite Z.shiftl_1_l, Z.pow2_bits_eqb by lia.
  destruct (Z.eqb_spec n i); case_bool_decide; congruence.
Qed.

Lemma bit_put_set n v : 0 ≤ n → bit_put n true v (Z.lor v (Z.shiftl 1 n)).
Proof.
  intros Hn. split; [|intros i Hi Hne]; rewrite Z.lor_spec, testbit_mask by lia.
  - rewrite bool_decide_true by done. apply orb_true_r.
  - rewrite bool_decide_false by done. apply orb_false_r.
Qed.

Lemma bit_put_clear n v : 0 ≤ n → bit_put n false v (Z.ldiff v (Z.shiftl 1 n)).
Proof.
  intros Hn. split; [|intros i Hi Hne]; rewrite Z.ldiff_spec, testbit_mask by lia.
  - rewrite bool_decide_true by done. apply andb_false_r.
  - rewrite bool_decide_false by done. apply andb_true_r.
Qed.

Lemma bit_put_wrap w n b v x : 0 ≤ n < w → fits w v → bit_put n b v x →
  bit_put n b v (wrap w x).
Proof.
  intros Hn Hv [Hb Hi]. unfold wrap. split; [by rewrite Z.mod_pow2_bits_low by lia|].
  intros i Hi0 Hne. destruct (decide (i < w)).
  - rewrite Z.mod_pow2_bits_low by lia. by apply Hi.
  - rewrite Z.mod_pow2_bits_high by lia. symmetry. by apply (testbit_high w); [|lia].
Qed.

Section pins.
  Context {D : Type} {device : Device D}.
  Abbreviation emits_ := (emits (hal_trace (D := D))).
  Abbreviation yields_ := (yields (hal_trace (D := D))).

Lemma update_puts {R B} t r n b (f : Z → Z) (k : () → M (Hal D) R B) P Q :
  0 ≤ n < 32 → (∀ v, bit_put n b v (f v)) →
  (∀ u, puts r n b u → emits_ (t ++ u) (k ()) P Q) → emits_ t (update 32 r f ≫= k) P Q.
Proof.
  intros Hn Hf Hk. unfold update.
  eapply emits_bind with (P1 := λ _ u, ∃ v, u = t ++ v ∧ puts r n b v).
  - apply emits_read_bind. intros v. apply emits_write.
    exists [Rd r (wrap 32 v); Wr r (wrap 32 (f (wrap 32 v)))]. rewrite <- app_assoc.
    split; [done|]. eexists _, _. split; [done|].
    apply bit_put_wrap; [done|by apply wrap_fits|done].
  - cbn beta. intros [] u (v & -> & Hv). by apply Hk.
Qed.

Lemma update_puts_last {R} t r n b (f : Z → Z) (P : () → list Event → Prop) (Q : R → list Event → Prop) :
  0 ≤ n < 32 → (∀ v, bit_put n b v (f v)) →
  (∀ u, puts r n b u → P () (t ++ u)) → emits_ t (update 32 r f) P Q.
Proof.
  intros Hn Hf HP. unfold update. apply emits_read_bind. intros v. apply emits_write.
  rewrite <- app_assoc. apply HP. eexists _, _. split; [done|].
  apply bit_put_wrap; [done|by apply wrap_fits|done].
Qed.

Lemma pin_ok_block pin : pin_ok pin = true →
  block pin = Some (Gpio (pin_port pin)) ∧ 0 ≤ pin_number pin < 32.
Proof.
  unfold pin_ok, block. intros [H%bool_decide_eq_true|H%bool_decide_eq_true]%orb_true_iff.
  - destruct H as [-> H]. split; [done|lia].
  - destruct H as [-> H]. split; [done|lia].
Qed.

Lemma yields_block {A} pin (k : (GpioReg → Reg) → M (Hal D) A A) P : pin_ok pin = true →
  emits_ [] (k (Gpio (pin_port pin))) P P →
  yields_ (run (registers ← unwrap (block pin); k registers)) P.
Proof. intros Hp Hk. apply yields_run. by rewrite (proj1 (pin_ok_block pin Hp)). Qed.

Lemma yields_call_last {A R} t (f : Hal D → option (A * Hal D)) P (Q : R → list Event → Prop) :
  yields_ f P → emits_ t (call f) (λ a u, ∃ v, u = t ++ v ∧ P a v) Q.
Proof. intros Hf. eapply emits_call; [done|]. eauto. Qed.

(** Three changes in a row. *)
Definition puts_input (pin : AnyPin) (pull : Pull) (t : list Event) : Prop :=
  let r := Gpio (pin_port pin) in let n := pin_number pin in
  ∃ d u p, t = d ++ u ++ p ∧ puts (r Dir) n false d ∧
    puts (r Pu) n (match pull with PullUp => true | _ => false end) u ∧
    puts (r PdDrv) n (match pull with PullDown => true | _ => false end) p.

Definition puts_output (pin : AnyPin) (drive : Drive) (t : list Event) : Prop :=
  let r := Gpio (pin_port pin) in let n := pin_number pin in
  ∃ p d, t = p ++ d ∧
    puts (r PdDrv) n (match drive with MilliAmps20 => true | MilliAmps5 => false end) p ∧
    puts (r Dir) n true d.

(** Configuring or driving a pin of the package never panics and is done with
    interrupts masked: as an input the direction bit is cleared and the pull bits
    set or cleared as asked, as an output the drive bit is put before the direction
    bit is set, a high level sets the output bit; every one of these is a read of
    the port's register and a write of the same word with the pin's own bit put, so
    no other pin changes, and a low level is one write of the pin's mask to the
    clear register. *)
Theorem gpio_own_bit pin : pin_ok pin = true →
  (∀ pull, yields_ (set_as_input pin pull) (masked (λ _, puts_input pin pull))) ∧
  (∀ drive, yields_ (set_as_output pin drive) (masked (λ _, puts_output pin drive))) ∧
  yields_ (set_level pin Low)
    (masked (λ _ t, t = [Wr (Gpio (pin_port pin) Clr) (2 ^ pin_number pin)])) ∧
  yields_ (set_level pin High)
    (masked (λ _ t, puts (Gpio (pin_port pin) Out) (pin_number pin) true t)).
Proof.
  intros Hp. destruct (pin_ok_block pin Hp) as [_ Hn].
  assert (∀ v, bit_put (pin_number pin) true v (Z.lor v (pin_mask pin))) as Hset
    by (intros; apply bit_put_set; lia).
  assert (∀ v, bit_put (pin_number pin) false v (Z.ldiff v (pin_mask pin))) as Hclear
    by (intros; apply bit_put_clear; lia).
  split; [|split; [|split]].
  - intros pull. apply yields_block; [done|]. eapply emits_call; [|intros a u H; exact H].
    apply yields_critical, yields_run.
    eapply update_puts; [done|exact Hclear|]. intros d Hd. cbn [app].
    destruct pull; (eapply update_puts; [done|first [exact Hclear|exact Hset]|]; intros u Hu;
      eapply update_puts_last; [done|first [exact Hclear|exact Hset]|]; intros p Hp';
      exists d, u, p; rewrite <- app_assoc; by split).
  - intros drive. apply yields_block; [done|]. eapply emits_call; [|intros a u H; exact H].
    apply yields_critical, yields_run.
    eapply update_puts with (b := match drive with MilliAmps20 => true | MilliAmps5 => false end);
      [done|by destruct drive|]. intros p Hp'. cbn [app].
    eapply update_puts_last; [done|exact Hset|]. intros d Hd. by exists p, d.
  - apply yields_block; [done|]. eapply emits_call; [|intros a u H; exact H].
    apply yields_critical, yields_run. apply emits_write. cbn [app].
    do 2 f_equal. unfold pin_mask. rewrite Z.shiftl_1_l. apply wrap_small. unfold fits.
    pose proof (Z.pow_lt_mono_r 2 (pin_number pin) 32). lia.
  - apply yields_block; [done|]. eapply emits_call; [|intros a u H; exact H].
    apply yields_critical, yields_run. eapply update_puts_last; [done|exact Hset|].
    by intros u Hu.
Qed.

End pins.

(** Every pin the package has is one of them, and [steal], [pa] and [pb] produce no
    other. *)
Lemma all_pins_ok : forallb pin_ok all_pins = true.
Proof. reflexivity. Qed.

Lemma steal_ok port number pin : 0 ≤ port → 0 ≤ number → steal port number = Some pin → pin_ok pin = true.
Proof.
  unfold steal. intros Hp Hn. destruct (Z.leb_spec port 1); [|done].
  destruct (Z.ltb_spec number (if port =? 0 then 16 else 24)) as [Hlt|]; [|done]. intros [= <-].
  unfold pin_ok. cbn. apply orb_true_iff.
  destruct (Z.eqb_spec port 0); [left|right]; apply bool_decide_eq_true; lia.
Qed.

Lemma gpio_own_bit_witness :
  yields hal_trace (set_level (device := {| dev_read _ (d : ()) := (0, d); dev_write _ _ d := d |})
      (mkAnyPin 1 7) Low)
    (masked (λ _ t, t = [Wr (Gpio 1 Clr) 128])).
Proof.
  refine (proj1 (proj2 (proj2 (gpio_own_bit (mkAnyPin 1 7) _)))). reflexivity.
Defined.
