(* ===== verification/Uart.v ===== *)
(** * The UART driver

    [src/uart.rs]: the divider search, configuration and the FIFO transfers.  The
    type parameters of [Uart<T, TX, RX>] are arguments: the instance's index, the
    pins and their [REMAPPED] constants.  The blocking loops take fuel; running out
    of it is the panic outcome. *)

From S2P Require Import Prelude.
From S2P Require Import Effects.
From S2P Require Import Mmio.
From S2P Require Import Gpio.

(*! src/uart.rs 12-12 FIFO_CAPACITY *)
Definition FIFO_CAPACITY : Z := 8.

(*! src/uart.rs 17-22 DataBits *)
Inductive DataBits : Type := Five | Six | Seven | Eight.
Definition data_bits_u8 (d : DataBits) : Z :=
  match d with Five => 0 | Six => 1 | Seven => 2 | Eight => 3 end.
(*! src/uart.rs 26-29 StopBits *)
Inductive StopBits : Type := One | Two.
(*! src/uart.rs 33-39 Parity *)
Inductive Parity : Type := ParityNone | Odd | Even | Mark | Space.

(*! src/uart.rs 43-50 Config *)
Record Config : Type := mkConfig {
  cfg_baudrate : Z;
  cfg_data_bits : DataBits;
  cfg_stop_bits : StopBits;
  cfg_parity : Parity;
  cfg_max_error_ppm : Z;
}.

(*! src/uart.rs 53-61 Config::default *)
Definition config_default : Config := mkConfig 115200 Eight One ParityNone 20000.

(*! src/uart.rs 66-71 ConfigError *)
Inductive ConfigError : Type :=
| BaudrateZero
| BaudrateOutOfRange
| BaudrateErrorTooHigh (actual error_ppm : Z)
| MismatchedPinRemap.

(*! src/uart.rs 75-80 Error *)
Inductive UartError : Type := Overrun | ErrParity | Framing | Break.

(** [embedded_io::ErrorKind], the kinds used. *)
Inductive ErrorKind : Type := InvalidData | OtherKind.

(*! src/uart.rs 83-89 Error::kind *)
Definition uart_error_kind (e : UartError) : ErrorKind :=
  match e with
  | Overrun => OtherKind
  | ErrParity => InvalidData
  | Framing | Break => InvalidData
  end.

(*! src/uart.rs 93-98 BaudDividers *)
Record BaudDividers : Type := mkBaudDividers {
  bd_predivider : Z;
  bd_latch : Z;
  bd_actual : Z;
  bd_error_ppm : Z;
}.

(** ** The divider search *)

(** The body of the loop for one predivider; [u32] and [u64] arithmetic. *)
(*! src/uart.rs 109-128 select_baud *)
Definition baud_step (clock_hz baudrate predivider : Z) (best : option BaudDividers)
  : option BaudDividers :=
  let denominator := u64 (u64 (8 * predivider) * baudrate) in
  let rounded_latch := u64 (clock_hz + denominator / 2) / denominator in
  if (1 <=? rounded_latch) && (rounded_latch <=? U16_MAX) then
    let actual := u32 (clock_hz / u64 (u64 (8 * predivider) * rounded_latch)) in
    let difference := Z.abs (actual - baudrate) in
    let error_ppm := u32 (u64 (difference * 1000000) / baudrate) in
    let candidate := mkBaudDividers
      (if predivider =? 128 then 0 else u8 predivider) (u16 rounded_latch) actual error_ppm in
    match best with
    | None => Some candidate
    | Some b => if error_ppm <? bd_error_ppm b then Some candidate else best
    end
  else best.

(*! src/uart.rs 101-132 select_baud *)
Definition select_baud (clock_hz baudrate : Z) : option BaudDividers :=
  if (clock_hz =? 0) || (baudrate =? 0) then None
  else foldl (λ best predivider, baud_step clock_hz baudrate predivider best) None (seqZ 1 128).

(** The compile-time checks. *)
(*! src/uart.rs 136-143 select_baud_assertions *)
Definition select_baud_assertions : bool :=
  match select_baud 60000000 115200, select_baud 60000000 300, select_baud 60000000 0 with
  | Some standard, Some slow, None =>
      (bd_actual standard =? 115384) && (bd_error_ppm standard <? 2000) &&
      (bd_error_ppm slow <? 2000)
  | _, _, _ => false
  end.

Example select_baud_checked : select_baud_assertions = true.
Proof. vm_compute. reflexivity. Qed.

(** ** Pins *)

Inductive PinRole : Type := TxPin | RxPin.
#[export] Instance PinRole_eq_dec : EqDecision PinRole.
Proof. solve_decision. Defined.

(** Which pins an instance accepts, and whether they are the remapped ones. *)
(*! src/uart.rs 202-220 impl_pin *)
Definition uart_pins : list (PinRole * Z * AnyPin * bool) :=
  [(TxPin, 0, mkAnyPin 1 7, false); (RxPin, 0, mkAnyPin 1 4, false);
   (TxPin, 0, mkAnyPin 0 14, true); (RxPin, 0, mkAnyPin 0 15, true);
   (TxPin, 1, mkAnyPin 0 9, false); (RxPin, 1, mkAnyPin 0 8, false);
   (TxPin, 1, mkAnyPin 1 13, true); (RxPin, 1, mkAnyPin 1 12, true);
   (TxPin, 2, mkAnyPin 0 7, false); (RxPin, 2, mkAnyPin 0 6, false);
   (TxPin, 2, mkAnyPin 1 23, true); (RxPin, 2, mkAnyPin 1 22, true);
   (TxPin, 3, mkAnyPin 0 5, false); (RxPin, 3, mkAnyPin 0 4, false);
   (TxPin, 3, mkAnyPin 1 21, true); (RxPin, 3, mkAnyPin 1 20, true)].

Section uart.
  Context {D : Type} {device : Device D} {pac : Pac}.
  Abbreviation op A := (Hal D → option (A * Hal D)).
  Abbreviation st R A := (M (Hal D) R A).

Definition uart_out_of_fuel {R A} : st R A := λ _, Panic.

(*! src/uart.rs 222-235 configure_remap *)
Definition configure_remap (index : Z) (remapped : bool) : op () :=
  let mask := u16 (Z.shiftl 1 (4 + index)) in
  critical (run (update 16 PinAlternate (λ v, if remapped then Z.lor v mask else Z.ldiff v mask))).

(*! src/uart.rs 237-284 configure *)
Definition configure (index : Z) (config : Config) : op (result ConfigError BaudDividers) := run (
  when_ (cfg_baudrate config =? 0) (return_ (Err BaudrateZero));;
  hclk_hz ← gets hal_hclk;
  baud ← try Err (ok_or (select_baud hclk_hz (cfg_baudrate config)) BaudrateOutOfRange);
  when_ (cfg_max_error_ppm config <? bd_error_ppm baud)
    (return_ (Err (BaudrateErrorTooHigh (bd_actual baud) (bd_error_ppm baud))));;
  let parity_bits :=
    match cfg_parity config with
    | ParityNone => 0
    | Odd => Z.shiftl 1 3
    | Even => Z.lor (Z.shiftl 1 3) (Z.shiftl 1 4)
    | Mark => Z.lor (Z.shiftl 1 3) (Z.shiftl 2 4)
    | Space => Z.lor (Z.shiftl 1 3) (Z.shiftl 3 4)
    end in
  let line_control :=
    Z.lor (Z.lor (data_bits_u8 (cfg_data_bits config))
             (match cfg_stop_bits config with Two => Z.shiftl 1 2 | One => 0 end)) parity_bits in
  let regs := UartR index in
  write 8 (regs Ier) (set_bit IerReset (pac_reset (regs Ier)));;
  write 8 (regs Fcr)
    (pac_put FcrFifoTrig 0
       (set_bit FcrTxFifoClr (set_bit FcrRxFifoClr (set_bit FcrFifoEn (pac_reset (regs Fcr))))));;
  write 8 (regs Lcr) line_control;;
  write 8 (regs Div) (bd_predivider baud);;
  write 16 (regs Dl) (bd_latch baud);;
  write 8 (regs Ier) (set_bit IerTxdEn (pac_reset (regs Ier)));;
  write 8 (regs Mcr) (set_bit McrOut2 (pac_reset (regs Mcr)));;
  mret (Ok baud)).

(** The value of [actual_baudrate] is what construction keeps. *)
(*! src/uart.rs 300-319 Uart::new *)
Definition uart_new (index : Z) (tx rx : AnyPin) (tx_remapped rx_remapped : bool) (config : Config)
  : op (result ConfigError Z) := run (
  when_ (negb (bool_decide (tx_remapped = rx_remapped))) (return_ (Err MismatchedPinRemap));;
  call (set_level tx High);;
  call (set_as_output tx MilliAmps5);;
  call (set_as_input rx PullUp);;
  call (configure_remap index tx_remapped);;
  configured ← call (configure index config);
  baud ← try Err configured;
  mret (Ok (bd_actual baud))).

(** ** Receiving *)

(*! src/uart.rs 354-364 receive_error *)
Definition receive_error (status : Z) : option UartError :=
  if bit_is_set LsrOverErr status then Some Overrun
  else if bit_is_set LsrParErr status then Some ErrParity
  else if bit_is_set LsrFrameErr status then Some Framing
  else if bit_is_set LsrBreakErr status then Some Break
  else None.

(*! src/uart.rs 351-378 Uart::receive_byte *)
Definition receive_byte (index : Z) : op (result UartError (option Z)) := run (
  status ← read 8 (UartR index Lsr);
  match receive_error status with
  | Some error =>
      when_ (bit_is_set LsrDataRdy status) (read 8 (UartR index Rbr);; mret ());;
      mret (Err error)
  | None =>
      if bit_is_set LsrDataRdy status then
        byte ← read 8 (UartR index Rbr); mret (Ok (Some byte))
      else mret (Ok None)
  end).

(** The loop stores at most one byte for each free place, which bounds it. *)
(*! src/uart.rs 381-391 read_available_loop *)
Fixpoint read_loop (index : Z) (places count : nat) (buffer : list Z)
  : st (result UartError nat * list Z) (nat * list Z) :=
  match places with
  | O => mret (count, buffer)
  | S places =>
      if (count <? length buffer)%nat then
        received ← call (receive_byte index);
        next ← try (λ e, (Err e, buffer)) received;
        match next with
        | Some byte => read_loop index places (S count) (<[count := byte]> buffer)
        | None => mret (count, buffer)
        end
      else mret (count, buffer)
  end.

(*! src/uart.rs 380-392 Uart::read_available *)
Definition read_available (index : Z) (buffer : list Z) : op (result UartError nat * list Z) := run (
  finished ← read_loop index (length buffer) 0 buffer;
  let '(count, buffer) := finished in
  mret (Ok count, buffer)).

(*! src/uart.rs 329-331 Uart::try_read *)
Definition try_read (index : Z) (buffer : list Z) : op (result UartError nat * list Z) :=
  read_available index buffer.

Fixpoint blocking_read_loop (fuel : nat) (index : Z) (buffer : list Z)
  : st (result UartError nat * list Z) (result UartError nat * list Z) :=
  match fuel with
  | O => uart_out_of_fuel
  | S fuel =>
      r ← call (read_available index buffer);
      let '(r, buffer) := r in
      count ← try (λ e, (Err e, buffer)) r;
      if negb (count =? 0)%nat then mret (Ok count, buffer)
      else blocking_read_loop fuel index buffer
  end.

(*! src/uart.rs 395-405 Uart::blocking_read *)
Definition blocking_read (fuel : nat) (index : Z) (buffer : list Z)
  : op (result UartError nat * list Z) := run (
  when_ (length buffer =? 0)%nat (return_ (Ok 0%nat, buffer));;
  blocking_read_loop fuel index buffer).

(** ** Transmitting *)

(*! src/uart.rs 336-344 Uart::try_write *)
Definition try_write (index : Z) (buffer : list Z) : op (result UartError nat) := run (
  filled ← read 8 (UartR index Tfc);
  let available := Z.max (FIFO_CAPACITY - filled) 0 in
  let count := Z.to_nat (Z.min available (Z.of_nat (length buffer))) in
  for_each (take count buffer) (λ byte, write 8 (UartR index Thr) byte);;
  mret (Ok count)).

(*! src/uart.rs 347-349 Uart::is_tx_idle *)
Definition is_tx_idle (index : Z) : op bool := run (
  status ← read 8 (UartR index Lsr);
  mret (bit_is_set LsrTxAllEmp status)).

(** [while tfc >= FIFO_CAPACITY {}]. *)
Fixpoint wait_for_room {R} (fuel : nat) (index : Z) : st R () :=
  match fuel with
  | O => uart_out_of_fuel
  | S fuel => filled ← read 8 (UartR index Tfc);
              if FIFO_CAPACITY <=? filled then wait_for_room fuel index else mret ()
  end.

(*! src/uart.rs 408-414 Uart::blocking_write_all *)
Definition blocking_write_all (fuel : nat) (index : Z) (buffer : list Z) : op (result UartError ()) := run (
  for_each buffer (λ byte,
    wait_for_room fuel index;;
    write 8 (UartR index Thr) byte);;
  mret (Ok ())).

Fixpoint wait_for_idle {R} (fuel : nat) (index : Z) : st R () :=
  match fuel with
  | O => uart_out_of_fuel
  | S fuel => status ← read 8 (UartR index Lsr);
              if bit_is_set LsrTxAllEmp status then mret () else wait_for_idle fuel index
  end.

(*! src/uart.rs 417-420 Uart::blocking_flush *)
Definition blocking_flush (fuel : nat) (index : Z) : op (result UartError ()) := run (
  wait_for_idle fuel index;; mret (Ok ())).

(*! src/uart.rs 429-431 Uart::drop *)
Definition uart_drop (index : Z) : op () := run (write 8 (UartR index Ier) 0).

(*! src/uart.rs 449-451 Read::read *)
Definition io_read (fuel : nat) (index : Z) (buffer : list Z) := blocking_read fuel index buffer.

(*! src/uart.rs 460-463 Write::write *)
Definition io_write (fuel : nat) (index : Z) (buffer : list Z) : op (result UartError nat) := run (
  written ← call (blocking_write_all fuel index buffer);
  try Err written;;
  mret (Ok (length buffer))).

(*! src/uart.rs 465-467 Write::flush *)
Definition io_flush (fuel : nat) (index : Z) := blocking_flush fuel index.

(*! src/uart.rs 476-479 fmt::Write::write_str *)
Definition write_str (fuel : nat) (index : Z) (bytes : list Z) : op (result () ()) := run (
  written ← call (blocking_write_all fuel index bytes);
  mret (map_err (λ _, ()) written)).

End uart.

(** Every pin of the table is a pin of the package, and no pin is listed twice for
    an instance. *)
Lemma uart_pins_ok :
  forallb (λ '(_, _, pin, _), pin_ok pin) uart_pins = true ∧ NoDup uart_pins.*1.
Proof. split; [reflexivity|]. apply (bool_decide_unpack _). vm_compute. exact I. Qed.
