(* ===== verification/UartProps.v ===== *)
(** * What the UART driver promises

    The divider search finds the best candidate of an exact specification, without
    overflow; reading the receive FIFO keeps the bytes in order on every device. *)

From S2P Require Import Prelude.
From S2P Require Import Effects.
From S2P Require Import Mmio.
From S2P Require Import Gpio.
From S2P Require Import Uart.

(** ** The divider search against its specification *)

(** The candidate of one predivider, in exact arithmetic: the latch nearest to
    clock / (8 * DIV * baud), and the relative error of the rate it gives. *)
Definition ideal_latch (clock_hz baudrate predivider : Z) : Z :=
  (clock_hz + 8 * predivider * baudrate / 2) / (8 * predivider * baudrate).
Definition rate (clock_hz predivider latch : Z) : Z := clock_hz / (8 * predivider * latch).
Definition error_of (baudrate actual : Z) : Z := Z.abs (actual - baudrate) * 1000000 / baudrate.

Definition candidate (clock_hz baudrate predivider : Z) : option BaudDividers :=
  let latch := ideal_latch clock_hz baudrate predivider in
  if (1 <=? latch) && (latch <=? U16_MAX) then
    let actual := rate clock_hz predivider latch in
    Some (mkBaudDividers (if predivider =? 128 then 0 else predivider) latch actual
            (error_of baudrate actual))
  else None.

(** The nearest latch keeps the rate within a factor: no error exceeds 10^6 ppm. *)
Lemma rate_error clock_hz baudrate predivider : 0 < clock_hz → 0 < baudrate → 0 < predivider →
  let latch := ideal_latch clock_hz baudrate predivider in
  1 ≤ latch → 0 ≤ rate clock_hz predivider latch ≤ clock_hz ∧
  Z.abs (rate clock_hz predivider latch - baudrate) ≤ baudrate.
Proof.
  intros Hc Hb Hp latch Hl. unfold rate.
  assert (0 < predivider * latch) as Hpl by (apply Z.mul_pos_pos; lia).
  set (d := 8 * predivider * baudrate) in *.
  assert (d = 8 * predivider * baudrate) as Hd by done.
  assert (0 < d) by nia.
  assert (clock_hz + d / 2 < d * (latch + 1)) as Hhi.
  { unfold latch, ideal_latch. fold d. pose proof (Z.mul_succ_div_gt (clock_hz + d / 2) d ltac:(lia)). lia. }
  assert (0 ≤ d / 2) by (apply Z.div_pos; lia).
  assert (0 ≤ clock_hz / (8 * predivider * latch)) as Hq0 by (apply Z.div_pos; lia).
  assert (clock_hz / (8 * predivider * latch) ≤ clock_hz) as Hq1.
  { apply Z.div_le_upper_bound; nia. }
  assert (clock_hz / (8 * predivider * latch) < 2 * baudrate + 1) as Hq2.
  { apply Z.div_lt_upper_bound; [lia|].
    assert (d * 1 ≤ d * latch) as Hdl by (apply Z.mul_le_mono_nonneg_l; lia).
    assert (8 * predivider * latch * (2 * baudrate + 1) = 2 * (d * latch) + 8 * predivider * latch) as ->
      by (rewrite Hd; ring).
    lia. }
  split; [lia|]. lia.
Qed.

Lemma baud_step_candidate clock_hz baudrate predivider best :
  0 < clock_hz ≤ U32_MAX → 0 < baudrate ≤ U32_MAX → 1 ≤ predivider ≤ 128 →
  baud_step clock_hz baudrate predivider best =
  match candidate clock_hz baudrate predivider with
  | Some c => match best with
              | None => Some c
              | Some b => if bd_error_ppm c <? bd_error_ppm b then Some c else best
              end
  | None => best
  end.
Proof.
  intros Hc Hb Hp. unfold baud_step, candidate.
  assert (8 * predivider * baudrate < 2 ^ 43) as Hden by (unfold U32_MAX in *; nia).
  assert (u64 (8 * predivider) = 8 * predivider) as -> by (apply wrap_small; unfold fits; lia).
  assert (u64 (8 * predivider * baudrate) = 8 * predivider * baudrate) as ->
    by (apply wrap_small; unfold fits; nia).
  assert (u64 (clock_hz + 8 * predivider * baudrate / 2) = clock_hz + 8 * predivider * baudrate / 2) as ->.
  { apply wrap_small. unfold fits, U32_MAX in *.
    assert (0 ≤ 8 * predivider * baudrate / 2 ≤ 8 * predivider * baudrate)
      by (split; [apply Z.div_pos; nia|apply Z.div_le_upper_bound; nia]). lia. }
  fold (ideal_latch clock_hz baudrate predivider).
  set (latch := ideal_latch clock_hz baudrate predivider).
  destruct ((1 <=? latch) && (latch <=? U16_MAX)) eqn:El; [|done].
  apply andb_true_iff in El as [El1%Z.leb_le El2%Z.leb_le].
  destruct (rate_error clock_hz baudrate predivider ltac:(lia) ltac:(lia) ltac:(lia) El1) as [Hr He].
  fold latch in Hr, He. fold latch.
  assert (u64 (8 * predivider * latch) = 8 * predivider * latch) as ->
    by (apply wrap_small; unfold fits, U16_MAX in *; nia).
  fold (rate clock_hz predivider latch).
  assert (u32 (rate clock_hz predivider latch) = rate clock_hz predivider latch) as ->
    by (apply wrap_small; unfold fits, U32_MAX in *; lia).
  set (actual := rate clock_hz predivider latch) in *.
  assert (u64 (Z.abs (actual - baudrate) * 1000000) = Z.abs (actual - baudrate) * 1000000) as ->
    by (apply wrap_small; unfold fits, U32_MAX in *; lia).
  assert (0 ≤ error_of baudrate actual ≤ 1000000) as Hppm.
  { unfold error_of. split; [apply Z.div_pos; lia|apply Z.div_le_upper_bound; lia]. }
  fold (error_of baudrate actual).
  assert (u32 (error_of baudrate actual) = error_of baudrate actual) as ->
    by (apply wrap_small; unfold fits; lia).
  assert (u16 latch = latch) as -> by (apply wrap_small; unfold fits, U16_MAX in *; lia).
  assert (u8 predivider = predivider) as -> by (apply wrap_small; unfold fits; lia).
  done.
Qed.

(** The first of the best candidates. *)
Definition best_of (clock_hz baudrate : Z) (ps : list Z) (best : option BaudDividers) : Prop :=
  match best with
  | None => ∀ p, p ∈ ps → candidate clock_hz baudrate p = None
  | Some b => ∃ before p after, ps = before ++ p :: after ∧
      candidate clock_hz baudrate p = Some b ∧
      (∀ q c, q ∈ before → candidate clock_hz baudrate q = Some c → bd_error_ppm b < bd_error_ppm c) ∧
      (∀ q c, q ∈ after → candidate clock_hz baudrate q = Some c → bd_error_ppm b ≤ bd_error_ppm c)
  end.

Lemma best_of_snoc clock_hz baudrate ps best p : best_of clock_hz baudrate ps best →
  best_of clock_hz baudrate (ps ++ [p])
    match candidate clock_hz baudrate p with
    | Some c => match best with
                | None => Some c
                | Some b => if bd_error_ppm c <? bd_error_ppm b then Some c else best
                end
    | None => best
    end.
Proof.
  destruct (candidate clock_hz baudrate p) as [c|] eqn:Ec.
  - destruct best as [b|]; cbn [best_of].
    + intros (before & q & after & -> & Hq & Hbefore & Hafter).
      destruct (Z.ltb_spec (bd_error_ppm c) (bd_error_ppm b)) as [Hlt|Hge]; cbn [best_of].
      * exists (before ++ q :: after), p, []. split; [done|]. split; [done|].
        split; [|by intros ? ? ?%list.not_elem_of_nil].
        intros q' c' [Hin|[->|Hin]%elem_of_cons]%elem_of_app Hc'.
        -- specialize (Hbefore _ _ Hin Hc'). lia.
        -- rewrite Hq in Hc'. by injection Hc' as <-.
        -- specialize (Hafter _ _ Hin Hc'). lia.
      * exists before, q, (after ++ [p]). split; [by rewrite <- app_assoc|]. split; [done|].
        split; [done|]. intros q' c' [Hin|Hin%list_elem_of_singleton]%elem_of_app Hc'; [by eapply Hafter|].
        subst. rewrite Ec in Hc'. injection Hc' as <-. lia.
    + intros Hnone. exists ps, p, []. split; [done|]. split; [done|].
      split; [|by intros ? ? ?%list.not_elem_of_nil]. intros q c' Hin Hc'. by rewrite (Hnone _ Hin) in Hc'.
  - destruct best as [b|]; cbn [best_of].
    + intros (before & q & after & -> & Hq & Hbefore & Hafter).
      exists before, q, (after ++ [p]). split; [by rewrite <- app_assoc|]. split; [done|].
      split; [done|]. intros q' c' [Hin|Hin%list_elem_of_singleton]%elem_of_app Hc'; [by eapply Hafter|].
      subst. by rewrite Ec in Hc'.
    + intros Hnone q [Hin|Hin%list_elem_of_singleton]%elem_of_app; [by apply Hnone|by subst].
Qed.

(** C36: The divider search finds, among the 128 predividers, the first whose nearest
    latch fits in 16 bits and gives the least error, computed without any overflow
    or truncation of the fixed-width arithmetic: the result is that candidate with
    DIV 128 encoded as zero, an error of at most 10^6 ppm and a rate the clock can
    give, and there is no result exactly when the clock or the rate is zero or no
    predivider has a latch that fits. *)
Theorem select_baud_best clock_hz baudrate : is_u32 clock_hz → is_u32 baudrate →
  if (clock_hz =? 0) || (baudrate =? 0) then select_baud clock_hz baudrate = None
  else best_of clock_hz baudrate (seqZ 1 128) (select_baud clock_hz baudrate) ∧
    ∀ b, select_baud clock_hz baudrate = Some b →
      0 ≤ bd_error_ppm b ≤ 1000000 ∧ 1 ≤ bd_latch b ≤ U16_MAX ∧ 0 ≤ bd_predivider b ≤ 127 ∧
      0 ≤ bd_actual b ≤ clock_hz.
Proof.
  intros Hc Hb. unfold select_baud.
  destruct ((clock_hz =? 0) || (baudrate =? 0)) eqn:E0; [done|].
  apply orb_false_iff in E0 as [Hc0%Z.eqb_neq Hb0%Z.eqb_neq].
  assert (0 < clock_hz ≤ U32_MAX) as Hc1 by (unfold_ints; lia).
  assert (0 < baudrate ≤ U32_MAX) as Hb1 by (unfold_ints; lia).
  assert (best_of clock_hz baudrate (seqZ 1 128)
    (foldl (λ best predivider, baud_step clock_hz baudrate predivider best) None (seqZ 1 128))) as Hbest.
  { assert (∀ l, Forall (λ p, 1 ≤ p ≤ 128) l → best_of clock_hz baudrate l
      (foldl (λ best predivider, baud_step clock_hz baudrate predivider best) None l)) as H.
    { intros l. induction l as [|p l IH] using rev_ind; intros Hl; [by intros ? ?%list.not_elem_of_nil|].
      apply list.Forall_app in Hl as [Hl [Hp _]%list.Forall_cons]. rewrite foldl_app. cbn [foldl].
      rewrite baud_step_candidate by done. by apply best_of_snoc, IH. }
    apply H. apply list.Forall_forall. intros p Hp%elem_of_seqZ. lia. }
  split; [done|]. intros b Eb. rewrite Eb in Hbest.
  destruct Hbest as (before & p & after & Hps & Hcand & _).
  assert (1 ≤ p ≤ 128) as Hp.
  { assert (p ∈ seqZ 1 128) as Hin%elem_of_seqZ by (rewrite Hps; set_solver). lia. }
  unfold candidate in Hcand. destruct (_ && _) eqn:El in Hcand; [|done].
  apply andb_true_iff in El as [El1%Z.leb_le El2%Z.leb_le].
  destruct (rate_error clock_hz baudrate p ltac:(lia) ltac:(lia) ltac:(lia) El1) as [Hr He].
  injection Hcand as <-. cbn. split.
  - unfold error_of. split; [apply Z.div_pos; lia|apply Z.div_le_upper_bound; lia].
  - split; [lia|]. split; [|lia]. destruct (Z.eqb_spec p 128); lia.
Qed.

Lemma select_baud_best_witness :
  best_of 60000000 115200 (seqZ 1 128) (Some (mkBaudDividers 1 65 115384 1597)).
Proof.
  refine (proj1 (select_baud_best 60000000 115200 _ _)); split; reflexivity || discriminate.
Defined.

(** ** Receiving *)

(** A byte taken from the FIFO: a clean status with data ready, then the data. *)
Definition one_byte `{Pac} (index b : Z) (t : list Event) : Prop :=
  ∃ status, receive_error status = None ∧ bit_is_set LsrDataRdy status = true ∧
    t = [Rd (UartR index Lsr) status; Rd (UartR index Rbr) b].

Inductive bytes_read `{Pac} (index : Z) : list Z → list Event → Prop :=
| bytes_read_nil : bytes_read index [] []
| bytes_read_snoc bs b t u :
    bytes_read index bs t → one_byte index b u → bytes_read index (bs ++ [b]) (t ++ u).

(** How a read ends: a full buffer, an empty FIFO, or a bad status, whose byte is
    dropped from the FIFO. *)
Definition stops `{Pac} (index : Z) (full : bool) (n : nat) (r : result UartError nat)
    (t : list Event) : Prop :=
  match r with
  | Ok count => count = n ∧
      if full then t = []
      else ∃ status, receive_error status = None ∧ bit_is_set LsrDataRdy status = false ∧
             t = [Rd (UartR index Lsr) status]
  | Err e => full = false ∧ ∃ status dropped, receive_error status = Some e ∧
      t = Rd (UartR index Lsr) status ::
          if bit_is_set LsrDataRdy status then [Rd (UartR index Rbr) dropped] else []
  end.

Definition reads `{Pac} (index : Z) (buffer : list Z) (a : result UartError nat * list Z)
    (t : list Event) : Prop :=
  ∃ bytes u v, t = u ++ v ∧ bytes_read index bytes u ∧
    a.2 = bytes ++ drop (length bytes) buffer ∧ (length bytes ≤ length buffer)%nat ∧
    stops index (length bytes =? length buffer)%nat (length bytes) a.1 v.

Section receive.
  Context {D : Type} {device : Device D} {pac : Pac}.
  Abbreviation emits_ := (emits (hal_trace (D := D))).
  Abbreviation yields_ := (yields (hal_trace (D := D))).

Lemma receive_byte_ok index :
  yields_ (receive_byte index) (λ r t,
    match r with
    | Ok (Some b) => one_byte index b t
    | Ok None => stops index false 0 (Ok 0%nat) t
    | Err e => stops index false 0 (Err e) t
    end).
Proof.
  apply yields_run. unfold receive_byte. apply emits_read_bind. intros v. cbn [app].
  set (status := wrap 8 v).
  destruct (receive_error status) as [e|] eqn:Ee.
  - destruct (bit_is_set LsrDataRdy status) eqn:Er; cbn [when_].
    + eapply emits_bind with
        (P1 := λ _ u, ∃ b, u = [Rd (UartR index Lsr) status; Rd (UartR index Rbr) b]).
      * apply emits_read_bind. intros b. apply emits_ret. by eexists.
      * cbn beta. intros _ u (b & ->). apply emits_ret. split; [done|].
        exists status, b. by rewrite Er.
    + eapply emits_bind with (P1 := λ _ u, u = [Rd (UartR index Lsr) status]);
        [by apply emits_ret|]. cbn beta. intros _ u ->. apply emits_ret. split; [done|].
      exists status, 0. by rewrite Er.
  - destruct (bit_is_set LsrDataRdy status) eqn:Er.
    + apply emits_read_bind. intros b. apply emits_ret. by exists status.
    + apply emits_ret. split; [done|]. by exists status.
Qed.

Lemma uart_read_loop_ok index buffer places bytes t :
  bytes_read index bytes t → (length bytes + places = length buffer)%nat →
  emits_ t (read_loop index places (length bytes) (bytes ++ drop (length bytes) buffer))
    (λ '(count, out) u, reads index buffer (Ok count, out) u) (reads index buffer).
Proof.
  revert bytes t. induction places as [|places IH]; intros bytes t Ht Hlen; cbn [read_loop].
  - apply emits_ret. exists bytes, t, []. rewrite app_nil_r. split; [done|]. split; [done|].
    split; [done|]. split; [lia|]. rewrite (proj2 (Nat.eqb_eq _ _)) by lia. done.
  - assert (length (bytes ++ drop (length bytes) buffer) = length buffer) as ->
      by (rewrite length_app, length_drop; lia).
    rewrite (proj2 (Nat.ltb_lt _ _)) by lia.
    assert ((length bytes =? length buffer)%nat = false) as Hfull by (apply Nat.eqb_neq; lia).
    eapply emits_call_bind; [apply receive_byte_ok|]. intros r u Hr. cbn beta in Hr.
    assert (∀ r', stops index false (length bytes) r' u →
              reads index buffer (r', bytes ++ drop (length bytes) buffer) (t ++ u)) as Hstop.
    { intros r' H. exists bytes, t, u. split; [done|]. split; [done|]. split; [done|].
      split; [lia|]. by rewrite Hfull. }
    apply emits_try_bind.
    + intros [b|] ->.
      * destruct (drop (length bytes) buffer) as [|x rest] eqn:Ed;
          [apply (f_equal length) in Ed; rewrite length_drop in Ed; cbn in Ed; lia|].
        replace (<[length bytes:=b]> (bytes ++ x :: rest)) with ((bytes ++ [b]) ++ rest)
          by (rewrite <- app_assoc, insert_app_r_alt, Nat.sub_diag by done; done).
        replace rest with (drop (length (bytes ++ [b])) buffer)
          by (rewrite length_app, <- drop_drop, Ed; done).
        replace (S (length bytes)) with (length (bytes ++ [b])) by (rewrite length_app; cbn; lia).
        apply IH; [by constructor|rewrite length_app; cbn; lia].
      * apply emits_ret. apply Hstop. destruct Hr as [_ Hr]. by split.
    + intros e ->. by apply Hstop.
Qed.

(** C38: Reading what the receive FIFO holds returns on every device, for every
    buffer: the bytes it took, each after a status with data ready and none of the
    four errors, are the front of the buffer in the order they were taken and the
    rest of the buffer is as it was.  It stops when the buffer is full, when the
    FIFO is empty, with the count of those bytes, or at the first bad status, whose
    byte is removed from the FIFO; the error then takes the place of the count. *)
Theorem uart_read_in_order index buffer :
  yields_ (read_available index buffer) (reads index buffer).
Proof.
  apply yields_run. unfold read_available. eapply emits_bind.
  - apply (uart_read_loop_ok index buffer (length buffer) [] []); [constructor|done].
  - cbn beta. intros [count out] u H. by apply emits_ret.
Qed.

End receive.

(** ** Transmitting: the FIFO takes every byte once, in order, and never overruns *)

(** A byte is written after a reading that shows room, and readings that do not. *)
Definition polled_byte (index : Z) (b : Z) (t : list Event) : Prop :=
  ∃ full room, Forall (λ v, FIFO_CAPACITY ≤ v) full ∧ room < FIFO_CAPACITY ∧
    t = (Rd (UartR index Tfc) <$> full) ++ [Rd (UartR index Tfc) room; Wr (UartR index Thr) b].

Inductive bytes_written (index : Z) : list Z → list Event → Prop :=
| bytes_written_nil : bytes_written index [] []
| bytes_written_snoc bs b t u :
    bytes_written index bs t → polled_byte index b u → bytes_written index (bs ++ [b]) (t ++ u).

(** One reading, and the bytes that fit at once. *)
Definition burst (index : Z) (buffer : list Z) (r : result UartError nat) (t : list Event) : Prop :=
  ∃ filled n, r = Ok n ∧ (n ≤ length buffer)%nat ∧ Z.of_nat n ≤ Z.max (FIFO_CAPACITY - filled) 0 ∧
    ((n < length buffer)%nat → Z.of_nat n = Z.max (FIFO_CAPACITY - filled) 0) ∧
    t = Rd (UartR index Tfc) filled :: (Wr (UartR index Thr) <$> take n buffer).

Section transmit.
  Context {D : Type} {device : Device D} {pac : Pac}.
  Abbreviation emits_ := (emits (hal_trace (D := D))).
  Abbreviation yields_ := (yields (hal_trace (D := D))).

(** The transmit FIFO of the device shows room within [n] readings. *)
Fixpoint shows_room (index : Z) (n : nat) (d : D) : bool :=
  match n with
  | O => false
  | S n => let '(v, d) := dev_read (UartR index Tfc) d in
           (u8 v <? FIFO_CAPACITY) || shows_room index n d
  end.

Lemma wait_for_room_ok {R} index fuel (s : Hal D) (Q : R → Hal D → Prop) :
  shows_room index fuel (hal_dev s) = true →
  holds (wait_for_room fuel index) s (λ _ s', ∃ full room,
    Forall (λ v, FIFO_CAPACITY ≤ v) full ∧ room < FIFO_CAPACITY ∧
    hal_trace s' = hal_trace s ++ (Rd (UartR index Tfc) <$> full) ++ [Rd (UartR index Tfc) room]) Q.
Proof.
  revert s. induction fuel as [|fuel IH]; intros s; cbn [shows_room wait_for_room]; [done|].
  unfold read at 1, mbind, M_bind, holds. destruct (dev_read (UartR index Tfc) (hal_dev s)) as [v d].
  destruct (Z.ltb_spec (u8 v) FIFO_CAPACITY) as [Hv|Hv]; cbn [orb].
  - intros _. rewrite (proj2 (Z.leb_gt _ _)) by done. exists [], (u8 v). by split_and!.
  - rewrite (proj2 (Z.leb_le _ _)) by done. set (s1 := s <| hal_dev := d |> <| hal_trace := _ |>).
    intros Hd. specialize (IH s1 Hd). unfold holds in IH.
    destruct (wait_for_room fuel index s1); [|done..].
    destruct IH as (full & room & Hf & Hr & E). exists (u8 v :: full), room.
    split; [by constructor|]. split; [done|]. rewrite E. cbn. by rewrite <- app_assoc.
Qed.

Lemma write_polled_ok {R} index fuel b t (P : () → list Event → Prop) (Q : R → list Event → Prop) :
  (∀ d : D, shows_room index fuel d = true) → is_u8 b →
  (∀ u, polled_byte index b u → P () (t ++ u)) →
  emits_ t (wait_for_room fuel index;; write 8 (UartR index Thr) b) P Q.
Proof.
  intros Hroom Hb HP s. eapply holds_bind; [by apply wait_for_room_ok|].
  intros [] s1 (full & room & Hf & Hr & E). unfold holds, write, extends. cbn.
  eexists. split; [rewrite E, <- !app_assoc; cbn; reflexivity|]. apply HP.
  exists full, room. rewrite wrap_small by done. by split_and!.
Qed.

(** C37: Writing to the transmit FIFO never overruns it and never loses, repeats or reorders
    a byte. [try_write] reads the fill level once and writes exactly the front of the
    buffer that fits, all of it or as many bytes as there is room for, and returns their
    number. [blocking_write_all], on every device whose FIFO shows room within the number
    of readings that the fuel allows, returns, and writes every byte of the buffer in
    order, each one directly after a reading of the fill level that shows room. *)
Theorem uart_write_in_order index fuel buffer : bytes_ok buffer →
  (∀ d : D, shows_room index fuel d = true) →
  yields_ (try_write index buffer) (burst index buffer) ∧
  yields_ (blocking_write_all fuel index buffer) (λ r t, r = Ok () ∧ bytes_written index buffer t).
Proof.
  intros Hb Hroom. split; apply yields_run.
  - unfold try_write. apply emits_read_bind. intros v. set (filled := u8 v). cbn [app].
    set (n := Z.to_nat _).
    eapply emits_bind with (P1 := λ _ u,
      u = Rd (UartR index Tfc) filled :: (Wr (UartR index Thr) <$> take n buffer)).
    + apply (emits_for_each hal_trace (λ bs u,
        u = Rd (UartR index Tfc) filled :: (Wr (UartR index Thr) <$> bs))); [done|].
      intros bs b rest u E ->. apply emits_write. rewrite fmap_app. cbn. do 3 f_equal.
      symmetry. rewrite wrap_small; [done|].
      assert (b ∈ take n buffer) as Hin by (rewrite E; set_solver).
      apply elem_of_take in Hin as (i & Hi & _). by eapply Forall_lookup_1.
    + cbn beta. intros _ u ->. apply emits_ret. exists filled, n.
      split; [done|]. split_and!; [unfold n; lia..|done].
  - unfold blocking_write_all. eapply emits_bind with (P1 := λ _ u, bytes_written index buffer u).
    + apply emits_for_each; [constructor|]. intros bs b rest u E Hu.
      apply write_polled_ok; [done| |].
      * apply (Forall_lookup_1 _ _ (length bs) _ Hb). by rewrite E, list_lookup_middle.
      * intros w Hw. by constructor.
    + cbn beta. intros _ u Hu. by apply emits_ret.
Qed.

End transmit.

(** A FIFO that drains by one byte between two readings. *)
Definition draining_device : Device Z := {|
  dev_read r d := match r with UartR _ Tfc => (Z.min (Z.max d 0) 8, Z.min (Z.max d 0) 8 - 1) | _ => (0, d) end;
  dev_write r _ d := match r with UartR _ Thr => d + 1 | _ => d end;
|}.

Lemma draining_room (d : Z) : @shows_room Z draining_device 0 2 d = true.
Proof.
  cbn. apply orb_true_iff. rewrite orb_false_r, !Z.ltb_lt. unfold FIFO_CAPACITY.
  rewrite !wrap_small by (unfold_ints; lia). lia.
Qed.

Definition draining_start : Hal Z := mkHal 5 0 60000000 false [].

Lemma uart_write_in_order_witness : ∃ t s',
    @blocking_write_all Z draining_device 2 0 [0x68; 0x69] draining_start = Some (Ok (), s') ∧
    hal_trace s' = t ∧ bytes_written 0 [0x68; 0x69] t.
Proof.
  destruct (proj2 (uart_write_in_order (device := draining_device) 0 2 [0x68; 0x69]
    ltac:(solve_forall; unfold fits; lia) draining_room) draining_start)
    as (r & s' & E & t & Ht & -> & Hw).
  exists t, s'. exact (conj E (conj Ht Hw)).
Defined.
