(* ===== verification/Adc.v ===== *)
(** * The ADC driver

    [src/adc.rs]: the configuration word, one bounded conversion, and what a
    conversion promises on every device.  The positions of the register fields are
    those of the generated [pac] crate. *)

From S2P Require Import Prelude.
From S2P Require Import Effects.
From S2P Require Import Mmio.

(*! src/adc.rs 13-19 SamplingClock *)
Inductive SamplingClock : Type := Mhz3_2 | Mhz2_67 | Mhz5_33 | Mhz4.
Definition sampling_clock_u8 (c : SamplingClock) : Z :=
  match c with Mhz3_2 => 0 | Mhz2_67 => 1 | Mhz5_33 => 2 | Mhz4 => 3 end.

(*! src/adc.rs 24-30 Gain *)
Inductive Gain : Type := Minus12Db | Minus6Db | ZeroDb | Plus6Db.
Definition gain_u8 (g : Gain) : Z :=
  match g with Minus12Db => 0 | Minus6Db => 1 | ZeroDb => 2 | Plus6Db => 3 end.

(*! src/adc.rs 35-51 Channel *)
Inductive AdcInput : Type :=
| Pa4 | Pa5 | Pa12 | Pa13 | Pa14 | Pa15 | Pa3 | Pa2 | Pa1 | Pa0 | Pa6 | Pa7 | Pa8 | Pa9
| Internal.
Definition adc_input_u8 (c : AdcInput) : Z :=
  match c with
  | Pa4 => 0 | Pa5 => 1 | Pa12 => 2 | Pa13 => 3 | Pa14 => 4 | Pa15 => 5 | Pa3 => 6
  | Pa2 => 7 | Pa1 => 8 | Pa0 => 9 | Pa6 => 10 | Pa7 => 11 | Pa8 => 12 | Pa9 => 13
  | Internal => 15
  end.

(*! src/adc.rs 54-60 Config *)
Record AdcConfig : Type := mkAdcConfig {
  adc_clock : SamplingClock;
  adc_gain : Gain;
  adc_differential : bool;
  adc_buffer_enabled : bool;
  adc_offset_test : bool;
}.

(*! src/adc.rs 62-72 Config::default *)
Definition adc_config_default : AdcConfig := mkAdcConfig Mhz3_2 Minus6Db false true false.

(*! src/adc.rs 75-83 Config::temperature *)
Definition adc_config_temperature : AdcConfig := mkAdcConfig Mhz3_2 Plus6Db true false false.

(*! src/adc.rs 85-93 Config::offset_noise *)
Definition adc_config_offset_noise : AdcConfig := mkAdcConfig Mhz3_2 Minus6Db false false true.

(*! src/adc.rs 97-99 Error *)
Inductive AdcError : Type := AdcTimeout.

(*! src/adc.rs 144-144 Adc::read::MAX_POLLS *)
Definition MAX_POLLS : nat := 4096.

Section adc.
  Context {D : Type} {device : Device D} {pac : Pac}.
  Abbreviation op A := (Hal D → option (A * Hal D)).
  Abbreviation st R A := (M (Hal D) R A).

(*! src/adc.rs 112-128 Adc::set_config *)
Definition set_config (config : AdcConfig) : op () := run (
  update 32 (AdcR AdcCfg) (λ v,
    put_bit CfgOfsTest (adc_offset_test config)
      (pac_put CfgPgaGain (gain_u8 (adc_gain config))
        (put_bit CfgBufEn (adc_buffer_enabled config)
          (pac_put CfgClkDiv (sampling_clock_u8 (adc_clock config))
            (put_bit CfgDiffEn (adc_differential config) (set_bit CfgPowerOn v))))))).

(*! src/adc.rs 106-110 Adc::new *)
Definition adc_new (config : AdcConfig) : op () := set_config config.

(*! src/adc.rs 130-133 Adc::enable_temperature *)
Definition enable_temperature : op () := run (
  update 32 (AdcR TemSensor) (set_bit TemPowerOn)).

(*! src/adc.rs 135-140 Adc::disable_temperature *)
Definition disable_temperature : op () := run (
  update 32 (AdcR TemSensor) (clear_bit TemPowerOn)).

(*! src/adc.rs 150-155 adc_poll *)
Definition adc_poll : st (result AdcError Z) () :=
  convert ← read 32 (AdcR AdcConvert);
  when_ (negb (bit_is_set ConvertStart convert))
    (data ← read 32 (AdcR AdcData); return_ (Ok (pac_get AdcDataField data))).

(*! src/adc.rs 143-157 Adc::read *)
Definition adc_read (channel : AdcInput) : op (result AdcError Z) := run (
  write 32 (AdcR AdcChannel)
    (pac_put ChannelIdx (adc_input_u8 channel) (pac_reset (AdcR AdcChannel)));;
  update 32 (AdcR AdcConvert) (set_bit ConvertStart);;
  repeat_ MAX_POLLS adc_poll;;
  mret (Err AdcTimeout)).

(*! src/adc.rs 161-167 Adc::drop *)
Definition adc_drop : op () := run (
  update 32 (AdcR TemSensor) (clear_bit TemPowerOn);;
  update 32 (AdcR AdcCfg) (clear_bit CfgPowerOn)).

End adc.

(** ** A conversion *)

(** Readings of the conversion register with the start bit still set. *)
Definition busy `{Pac} (e : Event) : Prop :=
  ∃ v, bit_is_set ConvertStart v = true ∧ e = Rd (AdcR AdcConvert) v.

Definition started `{Pac} (channel : AdcInput) (t : list Event) : Prop :=
  ∃ v, t = [Wr (AdcR AdcChannel)
              (wrap 32 (pac_put ChannelIdx (adc_input_u8 channel) (pac_reset (AdcR AdcChannel))));
            Rd (AdcR AdcConvert) v;
            Wr (AdcR AdcConvert) (wrap 32 (set_bit ConvertStart v))].

Definition converted `{Pac} (channel : AdcInput) (r : result AdcError Z) (t : list Event) : Prop :=
  ∃ start polls last, t = start ++ polls ++ last ∧ started channel start ∧ Forall busy polls ∧
    match r with
    | Ok sample => (length polls < 4096)%nat ∧ ∃ v data, bit_is_set ConvertStart v = false ∧
        last = [Rd (AdcR AdcConvert) v; Rd (AdcR AdcData) data] ∧
        sample = pac_get AdcDataField data
    | Err AdcTimeout => length polls = 4096%nat ∧ last = []
    end.

Section conversion.
  Context {D : Type} {device : Device D} {pac : Pac}.
  Abbreviation emits_ := (emits (hal_trace (D := D))).
  Abbreviation yields_ := (yields (hal_trace (D := D))).

Lemma adc_poll_ok t :
  emits_ t adc_poll (λ _ u, ∃ e, u = t ++ [e] ∧ busy e)
    (λ r u, ∃ v data, bit_is_set ConvertStart v = false ∧
       u = t ++ [Rd (AdcR AdcConvert) v; Rd (AdcR AdcData) data] ∧
       r = Ok (pac_get AdcDataField data)).
Proof.
  unfold adc_poll. apply emits_read_bind. intros v. apply emits_when; intros Hb.
  - apply emits_read_bind. intros data. apply emits_return. rewrite <- app_assoc.
    exists (wrap 32 v), (wrap 32 data). apply negb_true_iff in Hb. by split.
  - apply negb_false_iff in Hb. eexists. split; [done|]. by eexists.
Qed.

Lemma adc_polls_ok channel start n polls : started channel start → Forall busy polls →
  (length polls + n ≤ 4096)%nat →
  emits_ (start ++ polls) (repeat_ n adc_poll)
    (λ _ u, ∃ more, u = start ++ more ∧ Forall busy more ∧ length more = (length polls + n)%nat)
    (converted channel).
Proof.
  intros Hs. revert polls. induction n as [|n IH]; intros polls Hp Hn; cbn [repeat_].
  - apply emits_ret. exists polls. rewrite Nat.add_0_r. by split.
  - eapply emits_bind.
    + eapply emits_weaken; [apply adc_poll_ok|intros a u H; exact H|].
      cbn beta. intros r u (v & data & Hv & -> & ->). exists start, polls, [Rd (AdcR AdcConvert) v; Rd (AdcR AdcData) data].
      rewrite app_assoc. split; [done|]. split; [done|]. split; [done|]. split; [lia|].
      by exists v, data.
    + cbn beta. intros _ u (e & -> & He). rewrite <- app_assoc.
      assert (length (polls ++ [e]) = S (length polls)) as Hl by (rewrite length_app; cbn; lia).
      eapply emits_weaken; [apply IH| |].
      * apply list.Forall_app. by repeat constructor.
      * lia.
      * cbn beta. intros _ w (more & -> & Hm & Hlen). exists more. split; [done|].
        split; [done|]. lia.
      * done.
Qed.

(** A conversion returns on every device: it selects the channel, sets the
    start bit keeping the rest of the register, and polls at most 4096 times; a
    sample is the data read right after the first poll that finds the start bit
    clear, and Timeout means that all 4096 polls found it set. *)
Theorem adc_read_bounded channel : yields_ (adc_read channel) (converted channel).
Proof.
  apply yields_run. unfold adc_read. apply emits_write_bind. cbn [app]. unfold update.
  eapply emits_bind with (P1 := λ _ u, started channel u).
  - apply emits_read_bind. intros v. apply emits_write. by eexists.
  - cbn beta. intros _ start Hs.
    pose proof (adc_polls_ok channel start MAX_POLLS [] Hs) as Hpolls.
    rewrite app_nil_r in Hpolls. eapply emits_bind.
    + by apply Hpolls.
    + cbn beta. intros _ u (polls & -> & Hp & Hlen). apply emits_ret.
      exists start, polls, []. by rewrite app_nil_r.
Qed.

End conversion.
