(* ===== verification/Rtc.v ===== *)
(** * The real-time counter

    [src/rtc.rs]: the torn-free reading of the two halves of the 32 kHz counter,
    and what it promises for a counter that runs while it is read. *)

From S2P Require Import Prelude.
From S2P Require Import Effects.
From S2P Require Import Mmio.

(*! src/rtc.rs 8-8 TICKS_PER_SECOND *)
Definition TICKS_PER_SECOND : Z := 32768.

Section rtc.
  Context {D : Type} {device : Device D} {pac : Pac}.
  Abbreviation op A := (Hal D → option (A * Hal D)).

(** The loop, with fuel; running out of it is the panic outcome. *)
(*! src/rtc.rs 22-29 counter_ticks_loop *)
Fixpoint counter_loop {R} (fuel : nat) : M (Hal D) R Z :=
  match fuel with
  | O => λ _, Panic
  | S fuel =>
      high_before ← read 16 (RtcR Cnt2s);
      low ← read 16 (RtcR Cnt32k);
      high_after ← read 16 (RtcR Cnt2s);
      if high_before =? high_after then mret (Z.lor (u32 (Z.shiftl high_before 16)) low)
      else counter_loop fuel
  end.

(*! src/rtc.rs 20-30 Rtc::counter_ticks *)
Definition counter_ticks (fuel : nat) : op Z := run (counter_loop fuel).

(*! src/rtc.rs 32-35 Rtc::day *)
Definition day : op Z := run (v ← read 32 (RtcR CntDay); mret (pac_get CntDayField v)).

End rtc.

(*! src/rtc.rs 37-39 Rtc::elapsed_ticks *)
Definition elapsed_ticks (start end_ : Z) : Z := u32 (end_ - start).

(** ** A running counter

    The counter of a device: [ticks] counts at 32 kHz without end, and the two
    registers show its low and high halves as of a moment within the access, the
    high one up to the [period] at which the day counter takes over.  An access
    takes less than a quarter of a second. *)
Class RunningCounter (D : Type) `{!Device D} : Type := {
  rtc_ticks : D → Z;
  rtc_period : Z;
}.

Class RunningCounterLaws (D : Type) `{!Device D} `{!RunningCounter D} : Prop := {
  rtc_period_ok : 2 ≤ rtc_period (D := D) ≤ 65536;
  rtc_ticks_nonneg d : 0 ≤ rtc_ticks (D := D) d;
  rtc_read_high d : let '(v, d') := dev_read (RtcR Cnt2s) d in
    rtc_ticks (D := D) d ≤ rtc_ticks (D := D) d' ≤ rtc_ticks (D := D) d + 8192 ∧
    ∃ t, rtc_ticks d ≤ t ≤ rtc_ticks d' ∧ v = t / 65536 mod rtc_period (D := D);
  rtc_read_low d : let '(v, d') := dev_read (RtcR Cnt32k) d in
    rtc_ticks (D := D) d ≤ rtc_ticks (D := D) d' ≤ rtc_ticks (D := D) d + 8192 ∧
    ∃ t, rtc_ticks d ≤ t ≤ rtc_ticks d' ∧ v = t mod 65536;
}.

(** Close moments with the same high half have no rollover between them, and a
    rollover is followed by none for a while. *)
Lemma same_high p t1 t3 : 2 ≤ p → 0 ≤ t1 ≤ t3 → t3 - t1 < 65536 →
  t1 / 65536 mod p = t3 / 65536 mod p → t1 / 65536 = t3 / 65536.
Proof.
  intros Hp H0 H Heq.
  assert (t1 / 65536 ≤ t3 / 65536 ≤ t1 / 65536 + 1) as Hq
    by (clear Heq; Z.to_euclidean_division_equations; lia).
  destruct (decide (t3 / 65536 = t1 / 65536)) as [|Hne]; [done|].
  replace (t3 / 65536) with (t1 / 65536 + 1) in Heq by lia. exfalso.
  assert ((t1 / 65536 + 1 - t1 / 65536) mod p = 0) as Hd
    by (rewrite Zminus_mod, <- Heq, Z.sub_diag; apply Zmod_0_l).
  replace (t1 / 65536 + 1 - t1 / 65536) with 1 in Hd by lia.
  rewrite Z.mod_small in Hd; lia.
Qed.

Lemma joined_halves p t : 2 ≤ p ≤ 65536 →
  Z.lor (u32 (Z.shiftl (t / 65536 mod p) 16)) (t mod 65536) = t mod (65536 * p).
Proof.
  intros Hp. pose proof (Z.mod_pos_bound (t / 65536) p). pose proof (Z.mod_pos_bound t 65536).
  assert (u32 (Z.shiftl (t / 65536 mod p) 16) = Z.shiftl (t / 65536 mod p) 16) as ->.
  { apply wrap_small. rewrite Z.shiftl_mul_pow2 by lia. unfold fits. lia. }
  rewrite Z.lor_comm, lor_shift_add by (unfold fits; lia).
  rewrite Z.rem_mul_r by lia. lia.
Qed.

Section counter.
  Context {D : Type} {device : Device D} {pac : Pac} {counter : RunningCounter D}
    {laws : RunningCounterLaws D}.

(** One pass: a value of a moment during it, or a rollover during it. *)
Definition passed (s s' : Hal D) (r : option Z) : Prop :=
  let from := rtc_ticks (hal_dev s) in
  let to := rtc_ticks (hal_dev s') in
  from ≤ to ≤ from + 3 * 8192 ∧
  match r with
  | Some v => ∃ t, from ≤ t ≤ to ∧ v = t mod (65536 * rtc_period (D := D))
  | None => from / 65536 < to / 65536
  end.

Lemma counter_pass {R} fuel (s : Hal D) (P : Z → Hal D → Prop) (Q : R → Hal D → Prop) :
  (∀ v s', passed s s' (Some v) → P v s') →
  (∀ s', passed s s' None → holds (counter_loop fuel) s' P Q) →
  holds (counter_loop (S fuel)) s P Q.
Proof.
  intros HP HN. cbn [counter_loop]. pose proof (rtc_period_ok (D := D)) as Hper.
  pose proof (rtc_ticks_nonneg (hal_dev s)) as H0.
  unfold holds, mbind, M_bind, read. cbn beta.
  pose proof (rtc_read_high (hal_dev s)) as H1.
  destruct (dev_read (RtcR Cnt2s) (hal_dev s)) as [v1 d1]. destruct H1 as [Hd1 (t1 & Ht1 & ->)].
  cbn [hal_dev]. pose proof (rtc_read_low d1) as H2. cbn.
  destruct (dev_read (RtcR Cnt32k) d1) as [v2 d2]. destruct H2 as [Hd2 (t2 & Ht2 & ->)].
  pose proof (rtc_read_high d2) as H3. cbn.
  destruct (dev_read (RtcR Cnt2s) d2) as [v3 d3]. destruct H3 as [Hd3 (t3 & Ht3 & ->)].
  cbn.
  assert (0 < rtc_period (D := D)) as Hpos by lia.
  pose proof (Z.mod_pos_bound (t1 / 65536) _ Hpos).
  pose proof (Z.mod_pos_bound (t3 / 65536) _ Hpos).
  pose proof (Z.mod_pos_bound t2 65536 ltac:(lia)).
  rewrite !(wrap_small 16) by (unfold fits; lia).
  destruct (Z.eqb_spec (t1 / 65536 mod rtc_period) (t3 / 65536 mod rtc_period)) as [Heq|Hne].
  - apply HP. split; cbn; [lia|]. exists t2. split; [lia|].
    apply same_high in Heq; [|lia..].
    rewrite <- (joined_halves _ t2 Hper). replace (t2 / 65536) with (t1 / 65536); [done|].
    assert (t1 / 65536 ≤ t2 / 65536 ≤ t3 / 65536) by (split; apply Z.div_le_mono; lia). lia.
  - apply HN. split; cbn; [lia|].
    assert (t1 / 65536 ≠ t3 / 65536) by congruence.
    assert (rtc_ticks (hal_dev s) / 65536 ≤ t1 / 65536) by (apply Z.div_le_mono; lia).
    assert (t1 / 65536 ≤ t3 / 65536) by (apply Z.div_le_mono; lia).
    assert (t3 / 65536 ≤ rtc_ticks d3 / 65536) by (apply Z.div_le_mono; lia). lia.
Qed.

End counter.

(** C32: For a counter that runs while its halves are read, the reading returns
    after at most two passes, and its value is the whole counter as it was at one
    moment of the call, never halves from both sides of a rollover. *)
Theorem counter_ticks_consistent {D} `{!Device D} `{!RunningCounter D}
    (laws : RunningCounterLaws D) fuel (s : Hal D) :
  (2 ≤ fuel)%nat →
  ∃ v s' t, counter_ticks fuel s = Some (v, s') ∧
    rtc_ticks (hal_dev s) ≤ t ≤ rtc_ticks (hal_dev s') ∧
    v = t mod (65536 * rtc_period (D := D)).
Proof.
  intros Hf. destruct fuel as [|[|fuel]]; [lia..|].
  assert (holds (counter_loop (S (S fuel))) s
    (λ v s', ∃ t, rtc_ticks (hal_dev s) ≤ t ≤ rtc_ticks (hal_dev s') ∧
       v = t mod (65536 * rtc_period (D := D)))
    (λ v s', ∃ t, rtc_ticks (hal_dev s) ≤ t ≤ rtc_ticks (hal_dev s') ∧
       v = t mod (65536 * rtc_period (D := D)))) as H.
  { apply counter_pass.
    - by intros v s' [_ H].
    - intros s1 [H1 Hroll]. apply counter_pass.
      + intros v s' [Hle (t & Ht & Hv)]. exists t. split; [lia|done].
      + intros s2 [H2 Hroll2]. exfalso. clear -H1 Hroll H2 Hroll2.
        Z.to_euclidean_division_equations; lia. }
  apply run_holds in H as (v & s' & E & t & Ht & Hv). by exists v, s', t.
Qed.

(** A counter of one tick per access. *)
#[export] Instance ticking : Device N := {|
  dev_read r d := (match r with
                   | RtcR Cnt2s => Z.of_N d / 65536 mod 43200
                   | RtcR Cnt32k => Z.of_N d mod 65536
                   | _ => 0
                   end, N.succ d);
  dev_write _ _ d := d;
|}.
#[export] Instance ticking_counter : RunningCounter N :=
  {| rtc_ticks := Z.of_N; rtc_period := 43200 |}.
#[export] Instance ticking_laws : RunningCounterLaws N.
Proof.
  split; cbn; intros; rewrite ?N2Z.inj_succ; try lia.
  all: split; [lia|]; exists (Z.of_N d); split; [lia|done].
Qed.

(** About to roll over: the first pass is torn and the second is not. *)
Example rollover : run (counter_loop 2) (mkHal 65535%N 0x88 6400000 false []) =
  Some (65539, mkHal 65541%N 0x88 6400000 false
    [Rd (RtcR Cnt2s) 0; Rd (RtcR Cnt32k) 0; Rd (RtcR Cnt2s) 1;
     Rd (RtcR Cnt2s) 1; Rd (RtcR Cnt32k) 3; Rd (RtcR Cnt2s) 1]).
Proof. vm_compute. reflexivity. Qed.

Lemma counter_ticks_consistent_witness : ∃ v s' t,
  counter_ticks 2 (mkHal 65535%N 0x88 6400000 false []) = Some (v, s') ∧
  65535 ≤ t ≤ rtc_ticks (hal_dev s') ∧ v = t mod (65536 * 43200).
Proof.
  refine (counter_ticks_consistent ticking_laws 2 (mkHal 65535%N 0x88 6400000 false []) _). lia.
Defined.
