(* ===== verification/Sysctl.v ===== *)
(** * Clock setup and the peripheral singleton

    [src/sysctl.rs] and [src/lib.rs], for both chip features: the protected
    transactions, the clock sequences, and taking the peripherals once. *)

From S2P Require Import Prelude.
From S2P Require Import Effects.
From S2P Require Import Mmio.

(** The cargo feature that selects the chip. *)
Inductive Chip : Type := Ch582 | Ch585.

(*! src/sysctl.rs 51-59 Config *)
Record SysConfig : Type := mkSysConfig {
  sys_hclk_hz : Z;
  sys_enable_hse : bool;
  sys_enable_lse : bool;
}.

(*! src/sysctl.rs 61-72 Config::default *)
Definition sys_config_default (chip : Chip) : SysConfig :=
  mkSysConfig (match chip with Ch582 => 60000000 | Ch585 => 62400000 end) true false.

(** [!mask] of an 8-bit and of a 32-bit word, as used with [&]. *)
Definition clear_mask (v mask : Z) : Z := Z.ldiff v mask.

Section sysctl.
  Context {D : Type} {device : Device D} {pac : Pac}.
  Abbreviation op A := (Hal D → option (A * Hal D)).
  Abbreviation st R A := (M (Hal D) R A).

Definition assert_ {R} (b : bool) : st R () := if b then mret () else λ _, Panic.

(*! src/sysctl.rs 45-47 hclk_hz *)
Definition hclk_hz : op Z := run (gets hal_hclk).

(*! src/lib.rs 31-43 with_safe_access *)
Definition with_safe_access {A} (f : op A) : op A := critical (run (
  let SAFE_ACCESS := Addr 0x40001040 in
  write 8 SAFE_ACCESS 0x57;;
  write 8 SAFE_ACCESS 0xa8;;
  result ← call f;
  write 8 SAFE_ACCESS 0;;
  mret result)).

(*! src/sysctl.rs 13-42 with_ch585_safe_access *)
Definition with_ch585_safe_access {A} (f : op A) : op A := critical (run (
  let SAFE_MODE_CTRL := Addr 0x40001010 in
  let SAFE_ACCESS := Addr 0x40001040 in
  let SAFE_AUTO_EN := 0x01 in
  update 8 SAFE_MODE_CTRL (λ v, clear_mask v SAFE_AUTO_EN);;
  write 8 SAFE_ACCESS 0x57;;
  write 8 SAFE_ACCESS 0xa8;;
  result ← call f;
  update 8 SAFE_MODE_CTRL (λ v, Z.lor v SAFE_AUTO_EN);;
  write 8 SAFE_ACCESS 0;;
  mret result)).

(** ** CH582 *)

(** A protected read-modify-write. *)
Definition protected_update (w : Z) (r : SysReg) (f : Z → Z) : op () :=
  with_safe_access (run (update w (SysR r) f)).

(*! src/sysctl.rs 92-108 freeze_lse *)
Definition freeze_lse (enable_lse : bool) : op () := run (
  if (enable_lse : bool) then
    call (protected_update 8 Ck32kConfig (set_bit ClkXt32kPon));;
    delay 640000;;
    write 8 (SysR WdogCount) 0;;
    call (protected_update 8 Ck32kConfig (set_bit ClkOsc32kXt))
  else
    call (protected_update 8 Ck32kConfig (λ v, set_bit ClkInt32kPon (clear_bit ClkOsc32kXt v)))).

(** The accesses of [freeze], up to the store of the frequency. *)
(*! src/sysctl.rs 90-148 freeze_clocks *)
Definition clocks_582 (config : SysConfig) : op () := run (
  write 8 (SysR WdogCount) 0;;
  call (freeze_lse (sys_enable_lse config));;
  power ← read 8 (SysR HfckPwrCtrl);
  when_ (negb (bit_is_set ClkXt32mPon power))
    (call (protected_update 8 HfckPwrCtrl (set_bit ClkXt32mPon));;
     delay 2400);;
  call (protected_update 8 PllConfig (λ v, clear_mask v (Z.shiftl 1 5)));;
  power ← read 8 (SysR HfckPwrCtrl);
  when_ (negb (bit_is_set ClkPllPon power))
    (call (protected_update 8 HfckPwrCtrl (set_bit ClkPllPon));;
     delay 4000);;
  call (with_safe_access (run (
    write 16 (SysR ClkSysCfg)
      (pac_put ClkPllDiv 8 (pac_put ClkSysMod 1 (pac_reset (SysR ClkSysCfg)))))));;
  call (with_safe_access (run (write 8 (SysR FlashCfg) 0x52)));;
  call (protected_update 8 PllConfig (λ v, Z.lor v (Z.shiftl 1 7)))).

(*! src/sysctl.rs 76-150 Config::freeze *)
Definition freeze_582 (config : SysConfig) : op () := run (
  assert_ (sys_hclk_hz config =? 60000000);;
  assert_ (sys_enable_hse config);;
  call (clocks_582 config);;
  modify (λ s, s <| hal_hclk := sys_hclk_hz config |>)).

(** ** CH585 *)

(*! src/sysctl.rs 158-158 CLK_SYS_CFG *)
Definition CLK_SYS_CFG : Reg := Addr 0x40001008.
(*! src/sysctl.rs 159-159 HFCK_PWR_CTRL *)
Definition HFCK_PWR_CTRL : Reg := Addr 0x4000100a.
(*! src/sysctl.rs 160-160 SAFE_MODE_CTRL *)
Definition SAFE_MODE_CTRL : Reg := Addr 0x40001010.
(*! src/sysctl.rs 161-161 CK32K_CONFIG *)
Definition CK32K_CONFIG : Reg := Addr 0x4000102f.
(*! src/sysctl.rs 162-162 WATCHDOG_COUNT *)
Definition WATCHDOG_COUNT : Reg := Addr 0x40001043.
(*! src/sysctl.rs 163-163 MISC_CTRL *)
Definition MISC_CTRL : Reg := Addr 0x40001048.
(*! src/sysctl.rs 164-164 PLL_CONFIG *)
Definition PLL_CONFIG : Reg := Addr 0x4000104b.
(*! src/sysctl.rs 165-165 XT32M_TUNE *)
Definition XT32M_TUNE : Reg := Addr 0x4000104e.
(*! src/sysctl.rs 166-166 FLASH_SCK *)
Definition FLASH_SCK : Reg := Addr 0x40001805.
(*! src/sysctl.rs 167-167 FLASH_CFG *)
Definition FLASH_CFG : Reg := Addr 0x40001807.
(*! src/sysctl.rs 169-169 CLK_RC16M_PON *)
Definition CLK_RC16M_PON : Z := 0x02.
(*! src/sysctl.rs 170-170 CLK_XT32M_PON *)
Definition CLK_XT32M_PON : Z := 0x04.
(*! src/sysctl.rs 171-171 CLK_PLL_PON *)
Definition CLK_PLL_PON : Z := 0x10.
(*! src/sysctl.rs 172-172 CLK_XT32K_PON *)
Definition CLK_XT32K_PON : Z := 0x01.
(*! src/sysctl.rs 173-173 CLK_INT32K_PON *)
Definition CLK_INT32K_PON : Z := 0x02.
(*! src/sysctl.rs 174-174 CLK_OSC32K_XT *)
Definition CLK_OSC32K_XT : Z := 0x04.
(*! src/sysctl.rs 176-176 HSI_PLL_62M4 *)
Definition HSI_PLL_62M4 : Z := 0x0145.
(*! src/sysctl.rs 178-178 HSE_PLL_62M4 *)
Definition HSE_PLL_62M4 : Z := 0x0345.

(*! src/sysctl.rs 190-203 freeze_highcode_init *)
Definition highcode_init : op () := with_ch585_safe_access (run (
  update 32 SAFE_MODE_CTRL (λ v, Z.lor v 0x10);;
  update 32 MISC_CTRL (λ v, Z.lor (Z.lor v 5) (Z.shiftl 3 25));;
  update 8 PLL_CONFIG (λ v, clear_mask v (Z.shiftl 1 5));;
  update 8 HFCK_PWR_CTRL (λ v, Z.lor (Z.lor v CLK_RC16M_PON) CLK_PLL_PON);;
  write 16 CLK_SYS_CFG HSI_PLL_62M4;;
  update 8 FLASH_SCK (λ v, clear_mask v (Z.shiftl 1 4));;
  write 8 FLASH_CFG 0x02;;
  update 8 XT32M_TUNE (λ v, Z.lor (clear_mask v 0x03) 0x01);;
  update 8 CK32K_CONFIG (λ v, Z.lor v CLK_INT32K_PON))).

(*! src/sysctl.rs 204-218 freeze_585_lse *)
Definition freeze_585_lse (enable_lse : bool) : op () := run (
  if (enable_lse : bool) then
    call (with_ch585_safe_access (run (update 8 CK32K_CONFIG (λ v, Z.lor v CLK_XT32K_PON))));;
    delay 640000;;
    write 8 WATCHDOG_COUNT 0;;
    call (with_ch585_safe_access (run (update 8 CK32K_CONFIG (λ v, Z.lor v CLK_OSC32K_XT))))
  else
    call (with_ch585_safe_access (run (
      update 8 CK32K_CONFIG (λ v, Z.lor (clear_mask v CLK_OSC32K_XT) CLK_INT32K_PON))))).

(*! src/sysctl.rs 221-242 freeze_set_sys_clock *)
Definition set_sys_clock : op () := with_ch585_safe_access (run (
  update 32 SAFE_MODE_CTRL (λ v, Z.lor v 0x10);;
  power ← read 8 HFCK_PWR_CTRL;
  when_ (Z.land power CLK_XT32M_PON =? 0)
    (tune ← read 8 XT32M_TUNE;
     write 8 XT32M_TUNE (Z.lor tune 0x03);;
     update 8 HFCK_PWR_CTRL (λ v, Z.lor v CLK_XT32M_PON);;
     previous ← read 16 CLK_SYS_CFG;
     write 16 CLK_SYS_CFG (Z.lor previous 0x00c0);;
     write 16 CLK_SYS_CFG previous;;
     write 8 XT32M_TUNE tune);;
  update 8 HFCK_PWR_CTRL (λ v, Z.lor v CLK_PLL_PON);;
  update 8 FLASH_SCK (λ v, clear_mask v (Z.shiftl 1 4));;
  write 8 FLASH_CFG 0x01;;
  write 16 CLK_SYS_CFG (Z.lor HSE_PLL_62M4 0x00c0);;
  write 16 CLK_SYS_CFG HSE_PLL_62M4)).

(*! src/sysctl.rs 185-242 freeze_585_clocks *)
Definition clocks_585 (config : SysConfig) : op () := run (
  write 8 WATCHDOG_COUNT 0;;
  call highcode_init;;
  call (freeze_585_lse (sys_enable_lse config));;
  call set_sys_clock).

(*! src/sysctl.rs 155-244 Config::freeze *)
Definition freeze_585 (config : SysConfig) : op () := run (
  assert_ (sys_hclk_hz config =? 62400000);;
  assert_ (sys_enable_hse config);;
  call (clocks_585 config);;
  modify (λ s, s <| hal_hclk := sys_hclk_hz config |>)).

(** The [cfg] attributes select one of the two. *)
Definition freeze (chip : Chip) (config : SysConfig) : op () :=
  match chip with Ch582 => freeze_582 config | Ch585 => freeze_585 config end.

(** ** The singleton

    The peripheral tokens are zero-sized, so the value of [Peripherals] carries
    nothing; what matters is how often it is handed out. *)

(*! src/peripherals.rs 43-65 Peripherals *)
Inductive Peripherals : Type := from_pac.

(** [compare_exchange(false, true)], one atomic step. *)
(*! src/lib.rs 45-49 claim_peripherals *)
Definition claim_peripherals : op bool := run (
  taken ← gets hal_taken;
  when_ (negb taken) (modify (λ s, s <| hal_taken := true |>));;
  mret (negb taken)).

(*! src/lib.rs 52-58 init *)
Definition init (chip : Chip) (config : SysConfig) : op Peripherals := run (
  claimed ← call claim_peripherals;
  assert_ claimed;;
  call (freeze chip config);;
  mret from_pac).

(*! src/lib.rs 61-68 take *)
Definition take : op (option Peripherals) := run (
  claimed ← call claim_peripherals;
  when_ (negb claimed) (return_ None);;
  mret (Some from_pac)).

End sysctl.
