(* ===== verification/SysctlProps.v ===== *)
(** * What clock setup and the singleton promise

    Every protected register is written only inside an open safe-access window
    with interrupts masked, in at most a fixed number of accesses per window, on
    every device; and the peripherals are handed out at most once. *)

From S2P Require Import Prelude.
From S2P Require Import Effects.
From S2P Require Import Mmio.
From S2P Require Import Sysctl.

(** ** Safe-access windows as an automaton over the accesses

    [Closed masked]: no window is open.  [Keyed]: the first key has been written.
    [Open n]: the window is open for [n] more accesses. *)
Inductive window : Type := Closed (masked : bool) | Keyed | Open (accesses : nat).

(** The registers that take a write only inside a window. *)
Definition protected (chip : Chip) (r : Reg) : bool :=
  match chip with
  | Ch582 => match r with SysR WdogCount => false | SysR _ => true | _ => false end
  | Ch585 => bool_decide (r ∈ [CLK_SYS_CFG; HFCK_PWR_CTRL; CK32K_CONFIG; MISC_CTRL; PLL_CONFIG;
                               XT32M_TUNE; FLASH_SCK; FLASH_CFG])
  end.

(** Accesses one window may hold: a read-modify-write where the hardware closes it
    by itself after some cycles, and the longest hand-over where it does not. *)
Definition budget (chip : Chip) : nat := match chip with Ch582 => 2 | Ch585 => 22 end.

Definition window_step (chip : Chip) (w : window) (e : Event) : option window :=
  match w, e with
  | Closed _, Csrc _ => Some (Closed true)
  | Closed _, Csrs _ => Some (Closed false)
  | Closed masked, Wr r v =>
      if bool_decide (r = Addr 0x40001040) then
        if masked && (v =? 0x57) then Some Keyed else None
      else if protected chip r then None else Some w
  | Closed _, (Rd _ _ | Delay _) => Some w
  | Keyed, Wr r v =>
      if bool_decide (r = Addr 0x40001040) && (v =? 0xa8) then Some (Open (budget chip)) else None
  | Keyed, _ => None
  | Open n, Wr r v =>
      if bool_decide (r = Addr 0x40001040) then
        if v =? 0 then Some (Closed true) else None
      else match n with O => None | S n => Some (Open n) end
  | Open n, Rd _ _ => match n with O => None | S n => Some (Open n) end
  | Open _, _ => None
  end.

Fixpoint scan (chip : Chip) (w : window) (t : list Event) : option window :=
  match t with
  | [] => Some w
  | e :: t => window_step chip w e ≫= λ w, scan chip w t
  end.

Lemma scan_app chip w t u : scan chip w (t ++ u) = scan chip w t ≫= λ w, scan chip w u.
Proof.
  revert w. induction t as [|e t IH]; intros w; [done|]. cbn [scan app].
  destruct (window_step chip w e) as [w'|]; [apply IH|done].
Qed.

(** From closed to closed, and inside an open window. *)
Definition guarded (chip : Chip) (t : list Event) : Prop :=
  ∀ masked, ∃ masked', scan chip (Closed masked) t = Some (Closed masked').
Definition inside (chip : Chip) (t : list Event) : Prop :=
  ∃ n, scan chip (Open (budget chip)) t = Some (Open n) ∧ (chip = Ch585 → (2 ≤ n)%nat).

Lemma guarded_nil chip : guarded chip [].
Proof. intros m. by exists m. Qed.

Lemma guarded_app chip t u : guarded chip t → guarded chip u → guarded chip (t ++ u).
Proof.
  intros Ht Hu m. destruct (Ht m) as (m1 & E1). destruct (Hu m1) as (m2 & E2).
  exists m2. rewrite scan_app, E1. exact E2.
Qed.

Lemma guarded_snoc_write chip r v t : guarded chip t → r ≠ Addr 0x40001040 →
  protected chip r = false → guarded chip (t ++ [Wr r v]).
Proof.
  intros Ht Hr Hp. apply guarded_app; [done|]. intros m. exists m. cbn.
  by rewrite bool_decide_false, Hp.
Qed.

Lemma guarded_snoc_read chip r v t : guarded chip t → guarded chip (t ++ [Rd r v]).
Proof. intros Ht. apply guarded_app; [done|]. intros m. by exists m. Qed.

Lemma guarded_snoc_delay chip c t : guarded chip t → guarded chip (t ++ [Delay c]).
Proof. intros Ht. apply guarded_app; [done|]. intros m. by exists m. Qed.

Create HintDb sysctl discriminated.
#[export] Hint Resolve guarded_nil guarded_app guarded_snoc_read guarded_snoc_delay : sysctl.
#[export] Hint Extern 2 (guarded _ (_ ++ [Wr _ _])) =>
  apply guarded_snoc_write; [|discriminate|reflexivity] : sysctl.

Section freeze.
  Context {D : Type} {device : Device D} {pac : Pac}.
  Abbreviation emits_ := (emits (hal_trace (D := D))).
  Abbreviation yields_ := (yields (hal_trace (D := D))).

(** What runs with interrupts masked, opens the window and closes it. *)
Lemma masked_guarded {A} chip (a : A) t :
  masked (λ _ u, scan chip (Closed true) u = Some (Closed true)) a t → guarded chip t.
Proof.
  intros (u & was & -> & Hu) m. exists (negb was). cbn [scan window_step mbind option_bind].
  rewrite scan_app, Hu. by destruct was.
Qed.

(** The two keys open the window. *)
Lemma scan_keys chip t u : scan chip (Closed true) t = Some (Closed true) →
  scan chip (Closed true) (((t ++ [Wr (Addr 0x40001040) (wrap 8 0x57)]) ++
    [Wr (Addr 0x40001040) (wrap 8 0xa8)]) ++ u) = scan chip (Open (budget chip)) u.
Proof. intros Ht. rewrite !scan_app, Ht. reflexivity. Qed.

Lemma with_safe_access_ok {A} (f : Hal D → option (A * Hal D)) :
  yields_ f (λ _ u, inside Ch582 u) → yields_ (with_safe_access f) (λ _ u, guarded Ch582 u).
Proof.
  intros Hf. eapply yields_weaken; [apply yields_critical, yields_run|apply masked_guarded].
  cbv zeta. apply emits_write_bind, emits_write_bind.
  eapply emits_call_bind; [exact Hf|]. cbn beta. intros a u (n & Hn & _).
  apply emits_write_bind, emits_ret. rewrite scan_app, scan_keys, Hn by done. reflexivity.
Qed.

Lemma with_ch585_safe_access_ok {A} (f : Hal D → option (A * Hal D)) :
  yields_ f (λ _ u, inside Ch585 u) → yields_ (with_ch585_safe_access f) (λ _ u, guarded Ch585 u).
Proof.
  intros Hf. eapply yields_weaken; [apply yields_critical, yields_run|apply masked_guarded].
  cbv zeta. apply emits_update_bind. intros v0. apply emits_write_bind, emits_write_bind.
  eapply emits_call_bind; [exact Hf|]. cbn beta. intros a u (n & Hn & Hn2).
  specialize (Hn2 eq_refl). destruct n as [|[|n]]; [lia..|].
  accesses. rewrite scan_app, scan_app, scan_keys, Hn by done. reflexivity.
Qed.

Lemma protected_update_ok w r f : yields_ (protected_update w r f) (λ _ u, guarded Ch582 u).
Proof. apply with_safe_access_ok, yields_run. accesses. eexists. split; [reflexivity|done]. Qed.

Lemma highcode_init_ok : yields_ highcode_init (λ _ u, guarded Ch585 u).
Proof. apply with_ch585_safe_access_ok, yields_run. accesses. eexists. split; [reflexivity|lia]. Qed.

Lemma set_sys_clock_ok : yields_ set_sys_clock (λ _ u, guarded Ch585 u).
Proof.
  apply with_ch585_safe_access_ok, yields_run. accesses.
  eapply emits_bind with (P1 := λ _ u, ∃ n, scan Ch585 (Open (budget Ch585)) u = Some (Open n) ∧ (11 ≤ n)%nat).
  - apply emits_when; intros _; accesses; eexists; (split; [reflexivity|lia]).
  - cbn beta. intros _ t (k & Hk & Hkle). do 11 (destruct k as [|k]; [lia|]).
    accesses. eexists. rewrite !scan_app, Hk. split; [reflexivity|lia].
Qed.

Lemma freeze_lse_ok enable_lse : yields_ (freeze_lse enable_lse) (λ _ u, guarded Ch582 u).
Proof.
  apply yields_run. destruct enable_lse.
  - eapply emits_call_bind; [apply protected_update_ok|]. cbn beta. intros _ u Hu. accesses.
    eapply emits_call; [apply protected_update_ok|]. cbn beta. intros _ v Hv. auto 6 with sysctl.
  - eapply emits_call; [apply protected_update_ok|]. cbn beta. auto with sysctl.
Qed.

Lemma freeze_585_lse_ok enable_lse : yields_ (freeze_585_lse enable_lse) (λ _ u, guarded Ch585 u).
Proof.
  assert (∀ f, yields_ (with_ch585_safe_access (run (update 8 CK32K_CONFIG f))) (λ _ u, guarded Ch585 u)) as H.
  { intros f. apply with_ch585_safe_access_ok, yields_run. accesses. eexists.
    split; [reflexivity|lia]. }
  apply yields_run. destruct enable_lse.
  - eapply emits_call_bind; [apply H|]. cbn beta. intros _ u Hu. accesses.
    eapply emits_call; [apply H|]. cbn beta. intros _ v Hv. auto 6 with sysctl.
  - eapply emits_call; [apply H|]. cbn beta. auto with sysctl.
Qed.

Lemma clocks_582_ok config : yields_ (clocks_582 config) (λ _ u, guarded Ch582 u).
Proof.
  apply yields_run. accesses. eapply emits_call_bind; [apply freeze_lse_ok|]. cbn beta.
  intros _ u1 H1. accesses.
  eapply emits_bind with (P1 := λ _ u, guarded Ch582 u).
  { apply emits_when; intros _; [|auto 8 with sysctl].
    eapply emits_call_bind; [apply protected_update_ok|]. cbn beta. intros _ u2 H2.
    intros s. eexists. split; [reflexivity|]. auto 9 with sysctl. }
  cbn beta. intros _ u2 H2. eapply emits_call_bind; [apply protected_update_ok|]. cbn beta.
  intros _ u3 H3. accesses.
  eapply emits_bind with (P1 := λ _ u, guarded Ch582 u).
  { apply emits_when; intros _; [|auto 8 with sysctl].
    eapply emits_call_bind; [apply protected_update_ok|]. cbn beta. intros _ u4 H4.
    intros s. eexists. split; [reflexivity|]. auto 9 with sysctl. }
  cbn beta. intros _ u4 H4. eapply emits_call_bind.
  { apply with_safe_access_ok, yields_run. accesses. eexists. split; [reflexivity|done]. }
  cbn beta. intros _ u5 H5. eapply emits_call_bind.
  { apply with_safe_access_ok, yields_run. accesses. eexists. split; [reflexivity|done]. }
  cbn beta. intros _ u6 H6. eapply emits_call; [apply protected_update_ok|]. cbn beta.
  intros _ u7 H7. auto 8 with sysctl.
Qed.

Lemma clocks_585_ok config : yields_ (clocks_585 config) (λ _ u, guarded Ch585 u).
Proof.
  apply yields_run. accesses. eapply emits_call_bind; [apply highcode_init_ok|]. cbn beta.
  intros _ u1 H1. eapply emits_call_bind; [apply freeze_585_lse_ok|]. cbn beta.
  intros _ u2 H2. eapply emits_call; [apply set_sys_clock_ok|]. cbn beta.
  intros _ u3 H3. auto 8 with sysctl.
Qed.

(** C22: Clock setup panics, before any access, unless asked for the one supported
    frequency of the chip with the external crystal.  Otherwise it returns on every
    device and records that frequency, and in the accesses it makes every clock,
    PLL, crystal and Flash timing register is written only with interrupts masked
    and after both keys have opened a safe-access window; each window is closed
    before interrupts are restored, holds no more accesses than one
    read-modify-write on the CH582 (22 on the CH585, whose timeout is switched off
    around it), and no delay loop runs inside one. *)
Theorem freeze_guarded chip config :
  if (sys_hclk_hz config =? sys_hclk_hz (sys_config_default chip)) && sys_enable_hse config then
    ∀ s : Hal D, ∃ s', freeze chip config s = Some ((), s') ∧
      hal_hclk s' = sys_hclk_hz config ∧
      ∃ u, hal_trace s' = hal_trace s ++ u ∧ guarded chip u
  else ∀ s : Hal D, freeze chip config s = None.
Proof.
  assert (∀ f : Hal D → option (() * Hal D), yields_ f (λ _ u, guarded chip u) → ∀ s, ∃ s',
    run (call f;; modify (λ s, s <| hal_hclk := sys_hclk_hz config |>)) s = Some ((), s') ∧
    hal_hclk s' = sys_hclk_hz config ∧ ∃ u, hal_trace s' = hal_trace s ++ u ∧ guarded chip u) as Hrun.
  { intros f Hf s. destruct (Hf s) as ([] & s1 & E & u & Hu & Hg).
    exists (s1 <| hal_hclk := sys_hclk_hz config |>).
    unfold run, mbind, M_bind, call. rewrite E. cbn. eauto. }
  destruct chip; cbn [sys_config_default sys_hclk_hz freeze];
    unfold freeze_582, freeze_585, assert_; destruct (sys_hclk_hz config =? _);
    destruct (sys_enable_hse config); cbn [andb]; try (intros s; reflexivity).
  - apply (Hrun (clocks_582 config)), clocks_582_ok.
  - apply (Hrun (clocks_585 config)), clocks_585_ok.
Qed.

(** ** The singleton

    Nothing but [claim_peripherals] writes the flag. *)
Definition keeps {R A} (m : M (Hal D) R A) : Prop := ∀ s,
  match m s with Next _ s' | Return _ s' => hal_taken s' = hal_taken s | Panic => True end.

Lemma keeps_bind {R A B} (m : M (Hal D) R A) (k : A → M (Hal D) R B) :
  keeps m → (∀ a, keeps (k a)) → keeps (m ≫= k).
Proof.
  intros Hm Hk s. specialize (Hm s). unfold mbind, M_bind.
  destruct (m s) as [a s'|r s'|]; [|done..]. specialize (Hk a s').
  destruct (k a s'); congruence.
Qed.

Lemma keeps_call {R A} (m : M (Hal D) A A) : keeps m → keeps (R := R) (call (run m)).
Proof. intros Hm s. specialize (Hm s). unfold call, run. by destruct (m s). Qed.

Lemma keeps_read {R} w r : keeps (R := R) (read w r).
Proof. intros s. unfold read. by destruct (dev_read r (hal_dev s)). Qed.

Ltac keep := repeat first
  [ done | apply keeps_read | apply keeps_bind; [|intros ?] | apply keeps_call
  | progress unfold update, critical, protected_update, with_safe_access, with_ch585_safe_access,
      assert_, CriticalSection.release, highcode_init, set_sys_clock, freeze_lse, freeze_585_lse, clocks_582, clocks_585
  | match goal with |- keeps (match ?b with _ => _ end) => destruct b end
  | match goal with |- keeps (when_ ?b _) => destruct b end ].

Lemma freeze_keeps chip config s s' : freeze chip config s = Some ((), s') →
  hal_taken s' = hal_taken s.
Proof.
  assert (∀ m : M (Hal D) () (), keeps m → run m s = Some ((), s') → hal_taken s' = hal_taken s) as H.
  { intros m Hm. specialize (Hm s). unfold run. destruct (m s) as [[] ?|[] ?|]; congruence. }
  destruct chip; apply H; keep.
Qed.

(** Calls of [init] and [take], in any order; [init] returns only with a token. *)
Inductive acquisition : Type := ByInit (chip : Chip) (config : SysConfig) | ByTake.

Definition acquire_once (a : acquisition) (s : Hal D) : option (option Peripherals * Hal D) :=
  match a with
  | ByInit chip config => p_s ← init chip config s; Some (Some p_s.1, p_s.2)
  | ByTake => take s
  end.

(** What a run of calls hands out, up to a panic. *)
Fixpoint acquire_all (calls : list acquisition) (s : Hal D) : list Peripherals :=
  match calls with
  | [] => []
  | c :: calls => match acquire_once c s with
                  | Some (p, s) => option_list p ++ acquire_all calls s
                  | None => []
                  end
  end.

Lemma claim_spec (s : Hal D) : claim_peripherals s =
  Some (negb (hal_taken s), if hal_taken s then s else s <| hal_taken := true |>).
Proof. unfold claim_peripherals, run, mbind, M_bind, gets. by destruct (hal_taken s). Qed.

Lemma acquire_taken calls (s : Hal D) : hal_taken s = true → acquire_all calls s = [].
Proof.
  revert s. induction calls as [|c calls IH]; intros s Ht; [done|]. cbn [acquire_all].
  destruct c as [chip config|]; cbn [acquire_once]; unfold init, take, run, mbind, M_bind,
    option_bind, call; rewrite claim_spec, Ht; [done|]. cbn. by apply IH.
Qed.

Lemma acquire_free c calls (s : Hal D) : hal_taken s = false →
  acquire_all (c :: calls) s = match acquire_once c s with Some _ => [from_pac] | None => [] end.
Proof.
  intros Ht. cbn [acquire_all].
  destruct (acquire_once c s) as [[p s']|] eqn:E; [|done].
  enough (p = Some from_pac ∧ hal_taken s' = true) as [-> Ht'] by (by rewrite acquire_taken).
  destruct c as [chip config|]; cbn [acquire_once] in E; unfold init, take, run, mbind, M_bind,
    option_bind, call in E; rewrite claim_spec, Ht in E.
  - cbn in E. destruct (freeze chip config _) as [[[] s1]|] eqn:Ef; [|done].
    apply freeze_keeps in Ef. by injection E as <- <-.
  - by injection E as <- <-.
Qed.

(** C33: However [init] and [take] are called, in any order and on any device, the
    peripherals are handed out at most once: nothing more once they are taken,
    then [take] says so and [init] panics; [take] on free ones hands them out, and
    so does an [init] whose clock setup does not panic. *)
Theorem peripherals_once c calls (s : Hal D) :
  acquire_all (c :: calls) s =
    (if hal_taken s then []
     else match acquire_once c s with Some _ => [from_pac] | None => [] end) ∧
  (hal_taken s = false → acquire_once ByTake s ≠ None) ∧
  (hal_taken s = true → acquire_once ByTake s = Some (None, s) ∧
     ∀ chip config, acquire_once (ByInit chip config) s = None).
Proof.
  split; [destruct (hal_taken s) eqn:Ht; [by apply acquire_taken|by apply acquire_free]|].
  cbn [acquire_once]. unfold init, take, run, mbind, M_bind, option_bind, call.
  rewrite claim_spec. split; intros ->; [done|]. by split.
Qed.

End freeze.
