(* ===== verification/System.v ===== *)
(** * The runner on the radio

    The composition of the two halves of the controller: connection events whose
    radio exchange is the register-level one, on any hardware with a running
    clock.  The promises of the radio are the assumptions of the connection, and
    the frames of the connection are what the radio accepts. *)

From S2P Require Import Prelude Effects Time Channel Timing Sequence ControlPdu Llcp Advertising.
From S2P Require Import Hci Controller Connection Commands Runner Loops ConnectionInv EventInv HostProps ConnectionSafety.
From S2P Require Import Instants DataPlane RadioMachine FrontEnd Radio RadioLogic RadioProps RadioTime.

Section system.
Context {time : EmbassyTime} {rng : RngCore} {rng_laws : RngCoreLaws}.
Context {D : Type} {device : RadioDevice D} {running : RunningClock D}
  {clock_laws : RunningClockLaws (D := D)}.

(** The exchange of [connection_event]: its fuel is enough for its timeout. *)
Definition radio_exchange (s : Machine D) (channel : Channel) (deadline : Instant)
    (timeout : Duration) (frame : list Z) : option (result Error ExchangeResult * Machine D) :=
  exchange (S (exchange_fuel timeout)) channel deadline timeout frame
    (replicate (Z.to_nat CONNECTION_EVENT_RX_BUFFER_LEN) 0) s.

Definition radio_answer (s : Machine D) (channel : Channel) (deadline : Instant)
    (timeout : Duration) (frame : list Z) : result Error ExchangeResult :=
  on_air (S (exchange_fuel timeout)) s channel deadline timeout frame.

(** The radio after the event: after the one exchange of the event, if it came to
    that. *)
Definition radio_after (clock : EventClock) (w : World) (s : Machine D) : Machine D :=
  match event_setup clock w with
  | Next (channel, deadline, timeout, frame, _) _ =>
      match radio_exchange s channel deadline timeout frame with
      | Some (_, s') => s'
      | None => s
      end
  | _ => s
  end.

(** A connection event of the whole controller. *)
Definition system_event (clock : EventClock) (w : World) (s : Machine D)
  : option (option Z * World * Machine D) :=
  match connection_event clock (radio_answer s) w with
  | Some (reason, w') => Some (reason, w', radio_after clock w s)
  | None => None
  end.

Definition radio_ready (s : Machine D) : bool := ready (m_digital_initialized s, m_frontend_calibrated s).

(** The life of a connection on a radio: it starts with a CONNECT_IND on a
    calibrated radio and goes on with Host steps, missed events, events on the
    radio, and changes of the hardware in between. *)
Inductive live : World → Machine D → Prop :=
| live_start w s : conn_start w → radio_ready s = true → live w s
| live_host w w' s : live w s → host_step w w' → live w' s
| live_missed w s now notify c :
    live w s → skip_event now (w_conn w) = Some (Ok notify, c) → live (w <| w_conn := c |>) s
| live_event w s clock w' s' :
    live w s → system_event clock w s = Some (None, w', s') →
    live (w' <| w_conn := schedule_following_event (w_conn w') |>) s'
| live_hardware w s d : live w s → live w (s <| m_dev := d |>).

(** ** What the connection gives the radio *)

Lemma data_channel_frequency map u channel :
  wf_map map → data_channel_map_is_valid map = true → 0 ≤ u < 37 →
  index channel = csa1_remap map u → is_Some (frequency_mhz channel).
Proof.
  intros Hwf Hv Hu E. pose proof (csa1_remap_enabled map u Hwf Hv Hu) as Hin.
  rewrite <- E in Hin. apply elem_of_enabled in Hin as [Hlo _]. unfold frequency_mhz.
  destruct (Z.eqb_spec (index channel) 37); [by eexists|].
  destruct (Z.eqb_spec (index channel) 38); [by eexists|].
  destruct (Z.eqb_spec (index channel) 39); [by eexists|].
  destruct (Z.leb_spec 0 (index channel)), (Z.leb_spec (index channel) 10),
    (Z.leb_spec 11 (index channel)), (Z.leb_spec (index channel) 36); cbn; first [by eexists|lia].
Qed.

Lemma event_setup_fits clock w : conn_ok (w_conn w) → holds (event_setup clock) w
  (λ '(channel, _, _, frame, _) _,
     is_Some (frequency_mhz channel) ∧ (2 ≤ length frame ≤ 29)%nat) (λ _ _, True).
Proof.
  intros Hc. eapply holds_weaken;
    [exact (holds_and _ _ _ _ _ _ (event_setup_ok clock w Hc) (event_setup_data clock w Hc))| |done].
  intros [[[[channel deadline] timeout] frame] outstanding] w'; cbn beta iota.
  intros [(Hc' & _ & _ & _ & _ & _ & _ & Hch & _) [(_ & _ & _ & _ & -> & _) _]].
  split.
  - eapply data_channel_frequency; [..|exact Hch]; apply (ok_channels _ Hc').
  - destruct (selected_pdu_ok _ Hc') as (_ & _ & Hl). cbn [length].
    unfold MAX_DATA_PDU_PAYLOAD, ACL_PAYLOAD_LEN in Hl. lia.
Qed.

(** ** What the radio gives the connection *)

Lemma radio_answer_ok s : radio_ok (radio_answer s).
Proof. intros ch dl tmo frame r Hr. by eapply (on_air_ok (S (exchange_fuel tmo)) s). Qed.

(** An exchange of a frame that fits, on a ready radio: it returns, is not refused,
    and leaves the radio ready. *)
Definition exchanged_frame (s : Machine D) channel deadline timeout frame (s' : Machine D) : Prop :=
  radio_exchange s channel deadline timeout frame =
    Some (radio_answer s channel deadline timeout frame, s') ∧
  exchange_post (m_digital_initialized s, m_frontend_calibrated s) frame
    (radio_answer s channel deadline timeout frame) (abs s').

Lemma exchange_frame s channel deadline timeout frame :
  radio_ready s = true → is_Some (frequency_mhz channel) → (2 ≤ length frame ≤ 29)%nat →
  ∃ s', exchanged_frame s channel deadline timeout frame s'.
Proof.
  intros Hs Hf Hl. unfold exchanged_frame, radio_answer, on_air, radio_exchange.
  set (out := replicate _ 0).
  destruct (exchange_runs (S (exchange_fuel timeout)) channel deadline timeout frame out s Hf
              ltac:(lia)) as [[r s'] E].
  exists s'. rewrite E. split; [done|].
  assert (stage_refusal (m_digital_initialized s && m_frontend_calibrated s) frame = None) as Hfit.
  { unfold stage_refusal. change (m_digital_initialized s && m_frontend_calibrated s) with (radio_ready s).
    rewrite Hs. cbn [negb]. unfold packet_fits.
    rewrite (proj2 (Nat.leb_le 2 _)), (proj2 (Nat.leb_le _ (Z.to_nat RF_DMA_BUFFER_LEN)))
      by (unfold RF_DMA_BUFFER_LEN; lia). done. }
  pose proof (exchange_accepted (S (exchange_fuel timeout)) channel deadline timeout frame out s
    ltac:(unfold out; by rewrite length_replicate) Hfit) as Hx.
  by rewrite E in Hx.
Qed.

Lemma exchange_keeps_ready s channel deadline timeout frame s' :
  exchanged_frame s channel deadline timeout frame s' → radio_ready s' = radio_ready s.
Proof.
  intros [_ (_ & _ & _ & Hf & _)]. unfold radio_ready. change (ab_flags (abs s')) with
    (m_digital_initialized s', m_frontend_calibrated s') in Hf. by rewrite Hf.
Qed.

(** What an event does to a ready radio. *)
Lemma radio_after_spec clock w s : conn_ok (w_conn w) → radio_ready s = true →
  radio_ready (radio_after clock w s) = true ∧
  match event_setup clock w with
  | Next (channel, deadline, timeout, frame, _) _ =>
      exchanged_frame s channel deadline timeout frame (radio_after clock w s)
  | _ => radio_after clock w s = s
  end.
Proof.
  intros Hc Hs. pose proof (event_setup_fits clock w Hc) as Hfits. unfold holds in Hfits.
  unfold radio_after. destruct (event_setup clock w) as [[[[[ch dl] tmo] frame] ?] w1|r w1|]; [|done..].
  destruct Hfits as [Hf Hl]. destruct (exchange_frame s ch dl tmo frame Hs Hf Hl) as (s' & Hx).
  pose proof Hx as [E _]. rewrite E. split; [|done].
  by rewrite (exchange_keeps_ready _ _ _ _ _ _ Hx).
Qed.

Lemma live_ok w s : live w s → conn_ok (w_conn w) ∧ radio_ready s = true.
Proof.
  induction 1 as [w s Hs Hr|w w' s _ [Hc Hr] Hstep|w s now notify c _ [Hc Hr] E|w s clock w' s' _ [Hc Hr] E|w s d _ [Hc Hr]].
  - split; [|done]. by apply reachable_ok, reach_start.
  - split; [|done]. by eapply host_step_ok.
  - split; [|done]. by eapply (event_step_ok w); [eapply event_missed|].
  - unfold system_event in E. destruct (connection_event clock (radio_answer s) w) as [[r w1]|] eqn:E1; [|done].
    injection E as -> -> <-. split; [|by apply radio_after_spec].
    eapply (event_step_ok w); [eapply event_served; [apply radio_answer_ok|exact E1]|done].
  - by split.
Qed.

End system.

(** C9: The controller runs on the radio. However a connection lives on a calibrated
    radio, on any hardware whose clock runs, its next event returns without a panic:
    the radio is called at most once, on a data channel, with a frame that it takes,
    and its exchange returns, leaves the radio calibrated and the engine idle, puts
    exactly that frame into the transmit bank, answers at most once and only to a
    packet without CRC error, and hands over at most 29 octets; the connection is
    left in its invariant or disconnected with a one-octet reason. *)
Theorem controller_runs_on_radio {time : EmbassyTime} {rng : RngCore} {rng_laws : RngCoreLaws}
    {D : Type} {device : RadioDevice D} {running : RunningClock D}
    {clock_laws : RunningClockLaws (D := D)} (w : World) (s : Machine D) (clock : EventClock) :
  live w s →
  ∃ reason w' s', system_event clock w s = Some (reason, w', s') ∧
    radio_ready s' = true ∧ opt_ok is_u8 reason ∧ (reason = None → conn_ok (w_conn w')) ∧
    match event_setup clock w with
    | Next (channel, deadline, timeout, frame, _) _ =>
        is_Some (frequency_mhz channel) ∧
        exchanged_frame s channel deadline timeout frame s'
    | _ => s' = s
    end.
Proof.
  intros Hlive. destruct (live_ok w s Hlive) as [Hc Hs].
  destruct (connection_event_ok clock (radio_answer s) w Hc (radio_answer_ok s))
    as (reason & w' & E & Hb & _ & Hpost).
  destruct (radio_after_spec clock w s Hc Hs) as [Hready Hafter].
  pose proof (event_setup_fits clock w Hc) as Hfits.
  exists reason, w', (radio_after clock w s). unfold system_event. rewrite E.
  split; [done|]. split; [done|]. split; [done|].
  split; [intros ->; by apply Hpost|].
  unfold holds in Hfits. destruct (event_setup clock w) as [[[[[ch dl] tmo] frame] ?] w1|r w1|]; [|done..].
  split; [apply Hfits|done].
Qed.

(** ** A live connection

    The sample CONNECT_IND on a device that answers at once. *)
Definition live_runner : @Runner ideal_time _ :=
  @mkRunner ideal_time _ ADV_ACCESS_ADDRESS ADV_CRC_INIT (0 : Rng)
    (@mkAdvertiser ideal_time sample_advertiser (200000 : Z) [true; true; true] ad_new ad_new true)
    true transport_init.
Definition live_conn : @ActiveConnection ideal_time :=
  get_ok (@connection_new ideal_time sample_connect_ind 1000 (1000 : Z)) eq_refl.
Definition live_world : @World ideal_time _ := @mkWorld ideal_time _ live_runner live_conn.

Lemma live_world_live : @live ideal_time _ (Z * Z) ready_device ready_clock live_world ready_machine.
Proof.
  apply live_start; [|reflexivity].
  eapply (@start_connect ideal_time _ sample_packet sample_advertiser sample_connect_ind 1000 (1000 : Z));
    [apply sample_packet_ok|vm_compute; reflexivity|apply get_ok_spec].
Qed.

Definition live_clock : @EventClock ideal_time := @mkEventClock ideal_time 0 0 0 0.

(** The event answers the packet it hears and the connection goes on. *)
Example sample_event :
  (λ x, fst (fst x)) <$>
    @system_event ideal_time _ (Z * Z) ready_device ready_clock live_clock live_world ready_machine
  = Some None.
Proof. vm_compute. reflexivity. Qed.

Lemma controller_runs_on_radio_witness : ∃ reason w' s',
  @system_event ideal_time _ (Z * Z) ready_device ready_clock live_clock live_world ready_machine
    = Some (reason, w', s') ∧ radio_ready s' = true.
Proof.
  destruct (@controller_runs_on_radio ideal_time _ _ (Z * Z) ready_device ready_clock ready_clock_laws
    live_world ready_machine live_clock live_world_live) as (reason & w' & s' & E & Hready & _).
  exact (ex_intro _ reason (ex_intro _ w' (ex_intro _ s' (conj E Hready)))).
Defined.
