(* ===== verification/Firmware.v ===== *)
(** * The whole controller as a running system

    The [Runner] task of [crates/ch58x-ble/src/link_layer.rs] with its radio, the
    two bounded channels of [controller.rs], and a Host on the other side of them,
    as a labelled transition system.  A turn of the task runs to its next wait and
    appends what it sends to the log of its transport; the packets of the log go
    into the channel one by one, and the task goes on only when all of them are in
    it.  The turns are those of [Loops], with the radio of [Radio] in place of an
    arbitrary exchange. *)

From S2P Require Import Prelude Effects Time Channel Timing Sequence ControlPdu Llcp Advertising.
From S2P Require Import Hci Controller Connection Commands Runner Loops Channels.
From S2P Require Import ConnectionInv EventInv HostProps ConnectionSafety HostLog AdvertiserProps.
From S2P Require Import Instants DataPlane.
From S2P Require Import RadioMachine FrontEnd Radio RadioLogic RadioProps RadioTime System.

Section firmware.
Context {time : EmbassyTime} {rng : RngCore}.
Context {D : Type} {device : RadioDevice D} {running : RunningClock D}.
Context {channels : BoundedChannel}.

(** ** State *)

(** Where the task waits: in the outer loop, before the Host queue is drained at
    the head of the connection loop, in the [select] of the connection loop. *)
Inductive Phase : Type :=
| Idle
| Draining (c : ActiveConnection)
| Waiting (c : ActiveConnection).

(** [fw_sent] counts the packets of the log that the channel has taken. *)
Record Firmware : Type := mkFirmware {
  fw_phase : Phase;
  fw_runner : Runner;
  fw_radio : Machine D;
  fw_sent : nat;
  fw_queues : Queues;
}.
#[global] Instance Firmware_eta : Eta Firmware := λ f,
  mkFirmware (fw_phase f) (fw_runner f) (fw_radio f) (fw_sent f) (fw_queues f).

Definition fw_log (f : Firmware) : list Packet := tr_to_host (rn_transport (fw_runner f)).

(** The packets whose [send] the task still awaits. *)
Definition pending (f : Firmware) : list Packet := drop (fw_sent f) (fw_log f).

(** What the application reads: the flag, set and cleared around the connection. *)
(*! crates/ch58x-ble/src/link_layer.rs 89-95 is_connected *)
Definition is_connected (r : Runner) : bool := rn_connected r.

(** ** Start *)

(*! crates/ch58x-ble/src/link_layer.rs 667-678 Runner::new *)
Definition runner_new (random : Rng) (radio : Machine D) : option (result Error (Runner * Machine D)) :=
  match initialize radio with
  | None => None
  | Some (Err e, _) => Some (Err e)
  | Some (Ok _, radio) =>
      match advertiser_default with
      | None => None
      | Some advertiser =>
          Some (Ok (mkRunner (m_access_address radio) (m_crc_init radio) random advertiser false
                      transport_init, radio))
      end
  end.

(** On a device [d] after reset, with whatever the DMA banks hold. *)
Definition boot (d : D) (tx response : list Z) (irq : bool) (random : Rng) : option Firmware :=
  match runner_new random (radio_new d tx response irq) with
  | Some (Ok (r, radio)) => Some (mkFirmware Idle r radio 0 queues_new)
  | _ => None
  end.

(** ** The radio of the runner *)

(** [self.radio.set_access_address(...)] and [set_crc_init(...)], always together
    and in this order. *)
(*! crates/ch58x-ble/src/link_layer.rs 789-790 Runner::advertising_event *)
Definition tune (r : Runner) : Machine D → option (() * Machine D) := run (
  radio_set_access_address (rn_access_address r);;
  radio_set_crc_init (rn_crc_init r)).

(** The reset command tunes the radio in its handler. *)
Definition tune_if (b : bool) (r : Runner) (s : Machine D) : option (Machine D) :=
  if b then snd <$> tune r s else Some s.

(** [self.radio.advertising_exchange(...)] with its receive buffer. *)
(*! crates/ch58x-ble/src/link_layer.rs 732-743 Runner::advertising_event *)
Definition radio_advertising (channel : Channel) (pdu scan_response own : list Z) (s : Machine D)
  : option (result Error ReceivedPacket * Machine D) :=
  let timeout := duration_from_micros 500 in
  advertising_exchange (S (advertising_fuel timeout)) channel timeout pdu scan_response own
    (replicate MAX_LEGACY_ADV_PDU_LEN 0) s.

(** The channel loop of an advertising event, up to a CONNECT_IND. *)
(*! crates/ch58x-ble/src/link_layer.rs 714-767 Runner::advertising_event *)
Fixpoint broadcast (slots : list (nat * Channel)) (a : Advertiser) (s : Machine D)
  : option (option (ConnectInd * Z) * Machine D) :=
  match slots with
  | [] => Some (None, s)
  | (slot, channel) :: slots =>
      match slot_plan slot a with
      | SlotSkipped => broadcast slots a s
      | SlotAborted => Some (None, s)
      | SlotAdvertised pdu scan_response =>
          match radio_advertising channel pdu scan_response (addr_bytes (av_address a)) s with
          | None => None
          | Some (received, s) =>
              match slot_received received a with
              | Some connect => Some (Some connect, s)
              | None => broadcast slots a s
              end
          end
      end
  end.

Definition adv_slots : list (nat * Channel) := [(0%nat, ADV_37); (1%nat, ADV_38); (2%nat, ADV_39)].

(** ** Turns of the task *)

(** The task waits in a connection again, or the connection is over. *)
Definition stay (phase : ActiveConnection → Phase) (w : World) (s : Machine D) (f : Firmware)
  : Firmware :=
  f <| fw_phase := phase (w_conn w) |> <| fw_runner := w_runner w |> <| fw_radio := s |>.

(*! crates/ch58x-ble/src/link_layer.rs 787-792 Runner::advertising_event *)
Definition leave (w : World) (s : Machine D) (f : Firmware) : option Firmware :=
  let r := close_connection w in
  match tune r s with
  | Some (_, s) => Some (f <| fw_phase := Idle |> <| fw_runner := r |> <| fw_radio := s |>)
  | None => None
  end.

(** A turn of a connection: how its body ends. *)
Definition settle (phase : ActiveConnection → Phase) (o : outcome World bool ()) (s : Machine D)
    (f : Firmware) : option Firmware :=
  match o with
  | Next _ w => Some (stay phase w s f)
  | Return _ w => leave w s f
  | Panic => None
  end.

(** A Host packet, in the outer loop, while draining, or in the [select]. *)
(*! crates/ch58x-ble/src/link_layer.rs 680-709 Runner::run *)
Definition take_packet (p : Packet) (f : Firmware) : option Firmware :=
  match fw_phase f with
  | Idle =>
      match handle_host_packet p (fw_runner f) with
      | None => None
      | Some (_, r) =>
          match tune_if (is_reset p) r (fw_radio f) with
          | Some s => Some (f <| fw_runner := r |> <| fw_radio := s |>)
          | None => None
          end
      end
  | Draining c | Waiting c =>
      let o := drain_host_packets [p] (mkWorld (fw_runner f) c) in
      match o with
      | Next _ w | Return _ w =>
          match tune_if (is_reset p) (w_runner w) (fw_radio f) with
          | Some s => settle Draining o s f
          | None => None
          end
      | Panic => None
      end
  end.

(** The advertising timer of the outer loop.  [now] is the reading of the clock
    when the connection is created. *)
(*! crates/ch58x-ble/src/link_layer.rs 711-795 Runner::advertising_event *)
Definition advertise (now : Instant) (f : Firmware) : option Firmware :=
  match broadcast adv_slots (rn_advertiser (fw_runner f)) (fw_radio f) with
  | None => None
  | Some (None, s) => Some (f <| fw_radio := s |>)
  | Some (Some (request, timestamp_us), s) =>
      match open_connection request timestamp_us now (fw_runner f) with
      | None => Some (f <| fw_radio := s |>)
      | Some w =>
          match tune (w_runner w) s with
          | Some (_, s) => Some (stay Draining w s f)
          | None => None
          end
      end
  end.

(** The Host queue is empty: the deadlines are checked and missed events are
    caught up with. *)
(*! crates/ch58x-ble/src/link_layer.rs 829-853 Runner::run_connection *)
Definition check_connection (now : Instant) (clock : Z → Instant) (c : ActiveConnection)
    (f : Firmware) : option Firmware :=
  match run_checks now clock (mkWorld (fw_runner f) c) with
  | Next waiting w => Some (stay (if (waiting : bool) then Waiting else Draining) w (fw_radio f) f)
  | Return _ w => leave w (fw_radio f) f
  | Panic => None
  end.

(** The receive window opens: the connection event, on the radio. *)
(*! crates/ch58x-ble/src/link_layer.rs 861-893 Runner::run_connection *)
Definition open_window (now : Instant) (skip_clock : Z → Instant) (clock : EventClock)
    (c : ActiveConnection) (f : Firmware) : option Firmware :=
  let s := fw_radio f in
  match catch_up now skip_clock (mkWorld (fw_runner f) c) with
  | Panic => None
  | Return _ w => leave w s f
  | Next skipped w =>
      if negb (skipped =? 0) then Some (stay Draining w s f)
      else
        match system_event clock w s with
        | None => None
        | Some (Some reason, w, s) =>
            leave (w <| w_runner := emit_disconnection (w_conn w) reason (w_runner w) |>) s f
        | Some (None, w, s) =>
            Some (stay Draining (w <| w_conn := schedule_following_event (w_conn w) |>) s f)
        end
  end.

(** ** The system *)

Inductive Label : Type :=
| HostWrites (p : Packet)
| HostReads (p : Packet)
| Takes (p : Packet)
| Internal.

(** A Host writes with [HciTransport::write], whose [write_hci] fills exactly the
    [size] it announces, and reads with [HciTransport::read]. *)
Inductive step : Firmware → Label → Firmware → Prop :=
| step_write f kind written p q :
    bytes_ok written →
    transport_write kind (length written) (Some written) = Ok p →
    try_send_host_packet p (fw_queues f) = Some q →
    step f (HostWrites p) (f <| fw_queues := q |>)
| step_read f p q :
    try_receive_controller_packet (fw_queues f) = Some (p, q) →
    step f (HostReads p) (f <| fw_queues := q |>)
| step_send f p rest q :
    pending f = p :: rest → try_send_controller_packet p (fw_queues f) = Some q →
    step f Internal (f <| fw_sent := S (fw_sent f) |> <| fw_queues := q |>)
| step_take f p q f' :
    pending f = [] → try_receive_host_packet (fw_queues f) = Some (p, q) →
    take_packet p f = Some f' →
    step f (Takes p) (f' <| fw_queues := q |>)
| step_advertise f now f' :
    pending f = [] → fw_phase f = Idle → av_enabled (rn_advertiser (fw_runner f)) = true →
    advertise now f = Some f' →
    step f Internal f'
| step_check f now clock c f' :
    pending f = [] → fw_phase f = Draining c → try_receive_host_packet (fw_queues f) = None →
    check_connection now clock c f = Some f' →
    step f Internal f'
| step_window f now skip_clock clock c f' :
    pending f = [] → fw_phase f = Waiting c →
    open_window now skip_clock clock c f = Some f' →
    step f Internal f'
| step_hardware f d :
    step f Internal (f <| fw_radio := (fw_radio f) <| m_dev := d |> |>).

Inductive runs : Firmware → list Label → Firmware → Prop :=
| runs_nil f : runs f [] f
| runs_cons f1 l f2 ls f3 : step f1 l f2 → runs f2 ls f3 → runs f1 (l :: ls) f3.

Lemma runs_app f1 ls1 f2 ls2 f3 : runs f1 ls1 f2 → runs f2 ls2 f3 → runs f1 (ls1 ++ ls2) f3.
Proof. induction 1; [done|]. intros. cbn. econstructor; eauto. Qed.

Definition written (ls : list Label) : list Packet :=
  omap (λ l, match l with HostWrites p => Some p | _ => None end) ls.
Definition taken (ls : list Label) : list Packet :=
  omap (λ l, match l with Takes p => Some p | _ => None end) ls.
Definition received (ls : list Label) : list Packet :=
  omap (λ l, match l with HostReads p => Some p | _ => None end) ls.

End firmware.
