(* ===== verification/FirmwareInv.v ===== *)
(** * The invariant of the running controller

    Every turn of the task, from any state of the invariant and on any input, runs
    to its end, keeps the invariant and says to the Host what it owes it: one reply
    per command, and none otherwise.  The radio stays calibrated and tuned to what
    the runner asked for. *)

From S2P Require Import Prelude Effects Time Channel Timing Sequence ControlPdu Llcp Advertising.
From S2P Require Import Hci Controller Connection Commands Runner Loops Channels.
From S2P Require Import ConnectionInv EventInv HostProps ConnectionSafety Link HostLog AdvertiserProps.
From S2P Require Import Instants DataPlane Window LoopProps.
From S2P Require Import RadioMachine FrontEnd Radio RadioLogic RadioProps RadioTime RadioTuning System.
From S2P Require Import Firmware.

Section invariant.
Context {time : EmbassyTime} {endless : EndlessTime} {rng : RngCore} {rng_laws : RngCoreLaws}.
Context {D : Type} {device : RadioDevice D} {running : RunningClock D}
  {clock_laws : RunningClockLaws (D := D)}.
Context {channels : BoundedChannel}.

Abbreviation firmware := (Firmware (D := D)).

(** ** The radio of an advertising event *)

Lemma slot_pdus slot a pdu scan_response : advertiser_ok a →
  slot_plan slot a = SlotAdvertised pdu scan_response →
  packet_fits pdu = true ∧ packet_fits scan_response = true.
Proof.
  intros (Ha & Hd & Hs & _). unfold slot_plan. case_match; [done|].
  unfold build_adv_ind, build_scan_rsp.
  rewrite !build_adv_pdu_bytes by (done || by rewrite length_replicate). intros [= <- <-].
  assert (∀ header d, ad_ok d →
    packet_fits ([header; Z.of_nat (6 + ad_len d)] ++ addr_bytes (av_address a) ++ as_bytes d) = true)
    as Hfits; [|by split; apply Hfits].
  intros header d Hok. pose proof (as_bytes_length d Hok) as Hl. destruct Hok as [_ Hmax], Ha as [Ha _].
  unfold packet_fits. rewrite !length_app, Hl, Ha. unfold MAX_LEGACY_ADV_DATA_LEN in Hmax. cbn [length].
  apply andb_true_iff; split; apply Nat.leb_le; unfold RF_DMA_BUFFER_LEN; lia.
Qed.

(** One slot on a ready radio returns, changes no setting, and hands over octets. *)
Lemma radio_advertising_ok channel pdu scan_response own (s : Machine D) :
  is_Some (frequency_mhz channel) → radio_ready s = true →
  packet_fits pdu = true → packet_fits scan_response = true →
  ∃ received s', radio_advertising channel pdu scan_response own s = Some (received, s') ∧
    tuning s' = tuning s ∧ (∀ p, received = Ok p → bytes_ok (rp_payload p)).
Proof.
  intros Hf Hready Hpdu Hresponse. unfold radio_advertising.
  set (t := duration_from_micros 500). set (out := replicate _ 0).
  assert (is_Some (pdu !! 0%nat)) as Hhead.
  { apply lookup_lt_is_Some. apply andb_true_iff in Hpdu as [Hlo%Nat.leb_le _]. lia. }
  destruct (advertising_runs (S (advertising_fuel t)) channel t pdu scan_response own out s Hf Hhead)
    as [[r s'] E]; [unfold t; rewrite exact_from; unfold U32_MAX; lia|lia|].
  exists r, s'. split; [exact E|]. split.
  - pose proof (tuned_advertising (S (advertising_fuel t)) channel t pdu scan_response own out s) as Ht.
    by rewrite E in Ht.
  - pose proof (sees_advertising (S (advertising_fuel t)) channel t pdu scan_response own out
      (abs s)) as Hpost. unfold stage_refusal in Hpost.
    change (ready (ab_flags (abs s))) with (radio_ready s) in Hpost. rewrite Hready, Hpdu in Hpost.
    specialize (Hpost eq_refl Hresponse s eq_refl). rewrite E in Hpost.
    intros p ->. by destruct Hpost as (_ & _ & [[_ ?]|(_ & _ & Hb & _)]).
Qed.

Lemma tuning_ready (s s' : Machine D) : tuning s' = tuning s → radio_ready s' = radio_ready s.
Proof. unfold radio_ready. by intros [= _ _ _ -> -> _ _]. Qed.

(** A CONNECT_IND of an advertising event is parsed out of octets. *)
Definition heard_connect (a : Advertiser) (o : option (ConnectInd * Z)) : Prop :=
  match o with
  | Some (request, _) => ∃ packet, bytes_ok packet ∧
      parse_connect_ind_detailed packet (av_address a) = Ok request
  | None => True
  end.

Lemma slot_received_heard received a :
  (∀ p, received = Ok p → bytes_ok (rp_payload p)) → heard_connect a (slot_received received a).
Proof.
  intros Hb. unfold slot_received. destruct received as [p|]; [|done]. specialize (Hb p eq_refl).
  case_match; [done|]. destruct (rp_payload p) as [|header rest] eqn:Ep; [done|].
  case_match; [done|]. case_match; [done|].
  destruct (parse_connect_ind_detailed _ _) as [c|] eqn:E; [|done]. by exists (header :: rest).
Qed.

Lemma broadcast_ok slots a (s : Machine D) : advertiser_ok a → radio_ready s = true →
  Forall (λ slot, is_Some (frequency_mhz slot.2)) slots →
  ∃ o s', broadcast slots a s = Some (o, s') ∧ tuning s' = tuning s ∧ heard_connect a o.
Proof.
  intros Ha Hready Hslots. revert s Hready.
  induction Hslots as [|[slot channel] slots Hf Hslots IH]; intros s Hready; cbn [broadcast].
  { by exists None, s. }
  destruct (slot_plan slot a) as [| |pdu scan_response] eqn:Ep; [by apply IH|by exists None, s|].
  destruct (slot_pdus _ _ _ _ Ha Ep) as [Hpdu Hresponse].
  destruct (radio_advertising_ok channel pdu scan_response (addr_bytes (av_address a)) s Hf Hready
    Hpdu Hresponse) as (received & s1 & -> & Ht & Hb).
  pose proof (slot_received_heard received a Hb) as Hh.
  destruct (slot_received received a) as [c|]; [by exists (Some c), s1|].
  destruct (IH s1) as (o & s2 & -> & Ht2 & Ho); [by rewrite (tuning_ready _ _ Ht)|].
  exists o, s2. split; [done|]. split; [by rewrite Ht2|done].
Qed.

Lemma adv_slots_frequencies : Forall (λ slot, is_Some (frequency_mhz slot.2)) adv_slots.
Proof. repeat constructor; by eexists. Qed.

(** ** Tuning *)

(** The radio is tuned to what the runner asked for, registers included. *)
Definition tuned_to (r : Runner) (s : Machine D) : Prop :=
  settings r = (m_access_address s, m_crc_init s) ∧ programmed s.

Definition masked (r : Runner) : Prop := Z.land (rn_crc_init r) 0x00ffffff = rn_crc_init r.

Lemma tuned_to_tuning r (s s' : Machine D) : tuning s' = tuning s → tuned_to r s → tuned_to r s'.
Proof.
  intros Ht [Hr Hp]. split; [|by eapply programmed_tuning].
  rewrite Hr. by injection Ht as -> -> _ _ _ _ _.
Qed.

Lemma tuned_to_settings r r' (s : Machine D) : settings r' = settings r → tuned_to r s → tuned_to r' s.
Proof. unfold tuned_to. by intros ->. Qed.

Lemma masked_settings r r' : settings r' = settings r → masked r → masked r'.
Proof. unfold masked. by intros [= _ ->]. Qed.

Lemma set_crc_masked x r : masked (set_crc_init x r).
Proof. unfold masked. cbn. by rewrite <- Z.land_assoc, Z.land_diag. Qed.

Lemma tune_ok r (s : Machine D) : masked r → ∃ s', tune r s = Some ((), s') ∧ tuned_to r s' ∧
  radio_ready s' = radio_ready s.
Proof.
  intros Hm. unfold tune, run, mbind, M_bind.
  destruct (set_access_address_tunes (R := ()) (rn_access_address r) s) as (s1 & -> & H1).
  destruct (set_crc_init_tunes (R := ()) (rn_crc_init r) s1) as (s2 & -> & H2).
  exists s2. split; [done|]. unfold tuning in H1, H2. rewrite Hm in H2.
  injection H1 as Ha1 Hc1 _ Hd1 Hf1 Hr1 _. injection H2 as Ha2 Hc2 _ Hd2 Hf2 Hr2 Hs2.
  split; [split|].
  - unfold settings. by rewrite Ha2, Hc2, Ha1.
  - unfold programmed. rewrite Ha2, Hc2, Hr2, Hs2, Ha1, Hr1. by split_and!.
  - unfold radio_ready. by rewrite Hd2, Hf2, Hd1, Hf1.
Qed.

Lemma tune_if_ok (b : bool) r (s : Machine D) : masked r → (b = false → tuned_to r s) →
  ∃ s', tune_if b r s = Some s' ∧ tuned_to r s' ∧ radio_ready s' = radio_ready s.
Proof.
  intros Hm Hs. destruct b; cbn [tune_if]; [|exists s; auto].
  destruct (tune_ok r s Hm) as (s' & -> & H'). by exists s'.
Qed.

(** ** The invariant *)

(** A runner that waits advertises, if at all, on the advertising channels' settings;
    one that serves a connection does not advertise and is on the link of the connection. *)
Definition phase_ok (phase : Phase) (r : Runner) : Prop :=
  match phase with
  | Idle => rn_connected r = false ∧ settings r = adv_settings
  | Draining c | Waiting c => paced c ∧ mute r ∧ settings r = link c
  end.

Record fw_inv (f : firmware) : Prop := mk_fw_inv {
  inv_phase : phase_ok (fw_phase f) (fw_runner f);
  inv_advertiser : advertiser_ok (rn_advertiser (fw_runner f));
  inv_masked : masked (fw_runner f);
  inv_ready : radio_ready (fw_radio f) = true;
  inv_tuned : tuned_to (fw_runner f) (fw_radio f);
  inv_sent : (fw_sent f ≤ length (fw_log f))%nat;
}.

(** What a turn leaves: it says [replies] to the Host and leaves the queues and
    their bookkeeping alone. *)
Definition turned (replies : list Z) (f : firmware) (o : option firmware) : Prop :=
  ∃ f', o = Some f' ∧ fw_inv f' ∧
    tells replies (rn_transport (fw_runner f)) (rn_transport (fw_runner f')) ∧
    fw_sent f' = fw_sent f ∧ fw_queues f' = fw_queues f.

Lemma tells_longer l t t' : tells l t t' → (length (tr_to_host t) ≤ length (tr_to_host t'))%nat.
Proof. intros (ps & -> & _). rewrite length_app. lia. Qed.

(** Any way for a turn to end. *)
Lemma turned_intro l f phase r s :
  phase_ok phase r → advertiser_ok (rn_advertiser r) → masked r → radio_ready s = true →
  tuned_to r s → tells l (rn_transport (fw_runner f)) (rn_transport r) →
  (fw_sent f ≤ length (fw_log f))%nat →
  turned l f (Some (f <| fw_phase := phase |> <| fw_runner := r |> <| fw_radio := s |>)).
Proof.
  intros Hp Ha Hm Hr Ht Htell Hsent. eexists. split; [done|]. split; [|done].
  split; try done. cbn. unfold fw_log in *. cbn. apply tells_longer in Htell. lia.
Qed.

(** The runner apart from its transport, with what was said in between. *)
Definition quiet_runner (replies : list Z) (r r' : Runner) : Prop :=
  runner_view r' = runner_view r ∧ tells replies (rn_transport r) (rn_transport r').

Lemma quiet_runner_trans l1 l2 r1 r2 r3 :
  quiet_runner l1 r1 r2 → quiet_runner l2 r2 r3 → quiet_runner (l1 ++ l2) r1 r3.
Proof.
  intros [V1 T1] [V2 T2]. split; [congruence|by eapply tells_trans].
Qed.

Lemma quiet_runner_settings l r r' : quiet_runner l r r' →
  settings r' = settings r ∧ rn_advertiser r' = rn_advertiser r.
Proof. intros [[= ? ? ? ? ?] _]. unfold settings. split; congruence. Qed.

Lemma quiet_runner_mute l r r' : quiet_runner l r r' → mute r → mute r'.
Proof. unfold mute. by intros [[= _ _ _ -> ->] _]. Qed.

(** The phases in which a connection is served. *)
Definition serving (phase : ActiveConnection → Phase) : Prop := phase = Draining ∨ phase = Waiting.

Lemma serving_ok phase c r : serving phase →
  phase_ok (phase c) r ↔ paced c ∧ mute r ∧ settings r = link c.
Proof. by intros [-> | ->]. Qed.

Lemma serving_waiting (waiting : bool) : serving (if waiting then Waiting else Draining).
Proof. destruct waiting; [by right|by left]. Qed.

(** A turn that leaves the runner quiet. *)
Lemma stay_ok l f c phase w s : fw_inv f → serving phase →
  mute (fw_runner f) → settings (fw_runner f) = link c → same_link c (w_conn w) →
  paced (w_conn w) → quiet_runner l (fw_runner f) (w_runner w) →
  radio_ready s = true → tuned_to (fw_runner f) s →
  turned l f (Some (stay phase w s f)).
Proof.
  intros [] Hphase Hsilent Hlink Hsame Hc Hq Hready Ht.
  destruct (quiet_runner_settings _ _ _ Hq) as [Hs Ha].
  apply turned_intro; try done.
  - apply serving_ok; [done|]. split; [done|]. split; [by eapply quiet_runner_mute|].
    rewrite Hs, Hlink. done.
  - by rewrite Ha.
  - by eapply masked_settings.
  - by eapply tuned_to_settings.
  - apply Hq.
Qed.

(** The end of a connection: the radio is tuned to advertising again. *)
Lemma leave_ok l f w s : fw_inv f → advertiser_ok (rn_advertiser (w_runner w)) →
  tells l (rn_transport (fw_runner f)) (rn_transport (w_runner w)) → radio_ready s = true →
  turned l f (leave w s f).
Proof.
  intros [] Ha Ht Hready. unfold leave.
  cbv zeta.
  destruct (tune_ok (close_connection w) s (set_crc_masked _ _)) as (s' & -> & Htuned & Hr).
  apply turned_intro; try done; by rewrite Hr.
Qed.

Lemma leave_quiet l f w s : fw_inv f → quiet_runner l (fw_runner f) (w_runner w) →
  radio_ready s = true → turned l f (leave w s f).
Proof.
  intros Hinv Hq Hready. apply leave_ok; [done| |apply Hq|done].
  destruct (quiet_runner_settings _ _ _ Hq) as [_ ->]. apply Hinv.
Qed.

(** ** Bodies of the connection loop *)

(** A body that goes on and only chatters. *)
Lemma body_quiet {A} (m : M World bool A) w :
  goes_on m w → (∀ Rel, Chatty Rel → chatter Rel m) →
  match m w with
  | Next _ w' => paced (w_conn w') ∧ same_link (w_conn w) (w_conn w') ∧
                 quiet_runner [] (w_runner w) (w_runner w')
  | Return _ w' => quiet_runner [] (w_runner w) (w_runner w')
  | Panic => False
  end.
Proof.
  intros Hgo Hchat. pose proof (Hchat _ chatty_tells w) as Ht. pose proof (Hchat _ chatty_view w) as Hv.
  pose proof (Hchat _ chatty_link w) as Hl.
  unfold goes_on, holds in Hgo. destruct (m w); [by split_and!..|done].
Qed.

(** The deadlines and catching up. *)
Lemma check_connection_ok now clock c f : fw_inv f → fw_phase f = Draining c →
  turned [] f (check_connection now clock c f).
Proof.
  intros Hinv Hphase. pose proof (inv_phase _ Hinv) as Hp. rewrite Hphase in Hp.
  destruct Hp as (Hc & Hsilent & Hlink).
  unfold check_connection. set (w := mkWorld (fw_runner f) c).
  pose proof (body_quiet (run_checks now clock) w (checks_go_on now clock w Hc)
    ltac:(intros; by apply chatter_checks)) as Hbody.
  destruct (run_checks now clock w) as [waiting w'|? w'|]; [|by apply leave_quiet; [..|apply Hinv]|done].
  destruct Hbody as (Hc' & Hl & Hq).
  apply (stay_ok [] f c); try done; [apply serving_waiting|apply Hinv..].
Qed.

(** ** The connection event *)

Lemma radio_after_tuning clock w (s : Machine D) : tuning (radio_after clock w s) = tuning s.
Proof.
  unfold radio_after. destruct (event_setup clock w) as [[[[[ch dl] tmo] frame] ?] w1|r w1|]; [|done..].
  unfold radio_exchange. set (out := replicate _ 0).
  pose proof (tuned_exchange (S (exchange_fuel tmo)) ch dl tmo frame out s) as Ht.
  by destruct (exchange _ ch dl tmo frame out s) as [[]|].
Qed.

Lemma system_event_ok clock w (s : Machine D) : conn_ok (w_conn w) → radio_ready s = true →
  ∃ reason w' s', system_event clock w s = Some (reason, w', s') ∧
    radio_ready s' = true ∧ tuning s' = tuning s ∧
    quiet_runner [] (w_runner w) (w_runner w') ∧ same_link (w_conn w) (w_conn w') ∧
    (reason = None → conn_ok (w_conn w') ∧ settled (w_conn w')).
Proof.
  intros Hc Hready.
  destruct (connection_event_ok clock (radio_answer s) w Hc (radio_answer_ok s))
    as (reason & w' & E & _ & Hview & Hpost).
  pose proof (chatter_connection_event (λ w w', tells [] (rn_transport (w_runner w))
    (rn_transport (w_runner w'))) clock (radio_answer s) w) as Ht. rewrite E in Ht.
  pose proof (chatter_connection_event (λ w w', same_link (w_conn w) (w_conn w')) clock
    (radio_answer s) w) as Hl. rewrite E in Hl.
  exists reason, w', (radio_after clock w s). unfold system_event. rewrite E. split; [done|].
  pose proof (radio_after_tuning clock w s) as Htune.
  split; [by rewrite (tuning_ready _ _ Htune)|]. split; [done|]. split; [by split|]. split; [done|].
  intros Hr. by destruct (Hpost Hr) as (? & ? & _).
Qed.

Lemma open_window_ok now skip_clock clock c f : fw_inv f → fw_phase f = Waiting c →
  turned [] f (open_window now skip_clock clock c f).
Proof.
  intros Hinv Hphase. pose proof (inv_phase _ Hinv) as Hp. rewrite Hphase in Hp.
  destruct Hp as (Hc & Hsilent & Hlink).
  unfold open_window; cbv zeta. set (w := mkWorld (fw_runner f) c).
  pose proof (body_quiet (catch_up now skip_clock) w (catch_up_goes_on now skip_clock w Hc)
    ltac:(intros; by apply chatter_catch_up)) as Hbody.
  destruct (catch_up now skip_clock w) as [skipped w1|? w1|]; [|by apply leave_quiet; [..|apply Hinv]|done].
  destruct Hbody as (Hc1 & Hl1 & Hq1).
  destruct (negb (skipped =? 0)); [by apply (stay_ok [] f c); try done; [by left|apply Hinv..]|].
  destruct (system_event_ok clock w1 (fw_radio f)) as (reason & w2 & s2 & -> & Hready & Ht & Hq2 & Hl2 & Hpost);
    [apply Hc1|apply Hinv|].
  pose proof (quiet_runner_trans _ _ _ _ _ Hq1 Hq2) as Hq. cbn in Hq.
  destruct reason as [reason|].
  - apply leave_quiet; [done| |done]. cbn. eapply (quiet_runner_trans [] []); [exact Hq|].
    split; [done|]. by apply event_chatter.
  - destruct (Hpost eq_refl) as [Hc2 Hs2].
    apply (stay_ok [] f c); try done; [by left| | |].
    + etransitivity; [exact (schedule_link (w_conn w2))|]. etransitivity; [exact Hl2|exact Hl1].
    + split; [by apply schedule_ok|]. apply schedule_anchor, Hc2.
    + eapply tuned_to_tuning; [exact Ht|apply Hinv].
Qed.

(** ** Host packets *)

(** The reply a packet is owed. *)
Definition owed (p : Packet) : list Z := option_list (asked_opcode p).

Lemma commanded_masked b r r' : commanded b r r' → masked r → masked r'.
Proof.
  intros (_ & Hs & _) Hm. destruct b; [|by eapply masked_settings].
  unfold masked. injection Hs as _ ->. reflexivity.
Qed.

Lemma commanded_tuned b r r' (s : Machine D) : commanded b r r' → tuned_to r s →
  b = false → tuned_to r' s.
Proof. intros (_ & Hs & _) Ht ->. by eapply tuned_to_settings. Qed.

Lemma take_idle_ok p f : fw_inv f → fw_phase f = Idle → packet_ok p →
  turned (owed p) f (take_packet p f).
Proof.
  intros Hinv Hphase Hp. unfold take_packet. rewrite Hphase.
  assert (∃ r', handle_host_packet p (fw_runner f) = Some ((), r')) as [r' E].
  { unfold handle_host_packet. destruct (pk_kind p); try by eexists.
    destruct (handle_command_reply (contents p) (fw_runner f)) as (r' & -> & _); [|by eexists].
    destruct Hp as (_ & Hb & _). by apply Forall_take. }
  rewrite E. pose proof (handle_packet_commanded p _ r' Hp E) as Hcmd.
  pose proof (handle_packet_tells p _ r' Hp E) as Ht.
  destruct (tune_if_ok (is_reset p) r' (fw_radio f)) as (s' & -> & Htuned & Hr).
  { eapply commanded_masked; [exact Hcmd|apply Hinv]. }
  { intros Hb. eapply commanded_tuned; [exact Hcmd|apply Hinv|done]. }
  assert (turned (owed p) f (Some (f <| fw_phase := Idle |> <| fw_runner := r' |> <| fw_radio := s' |>)))
    as Hturned.
  { apply turned_intro; try done.
    - pose proof (inv_phase _ Hinv) as Hp'. rewrite Hphase in Hp'. destruct Hp' as [Hoff Hset].
      destruct Hcmd as (_ & Hs & Hon & _). split; [by etransitivity|].
      etransitivity; [exact Hs|]. by destruct (is_reset p).
    - apply Hcmd, Hinv.
    - eapply commanded_masked; [exact Hcmd|apply Hinv].
    - rewrite Hr. apply Hinv.
    - apply Hinv. }
  destruct f as [phase ? ? ? ?]. cbn in Hphase. by subst phase.
Qed.

(** A packet in a connection: what it does to the connection and the runner. *)
Lemma drain_one p w : paced (w_conn w) → packet_ok p →
  ∃ w', (drain_host_packets [p] w = Next () w' ∧ paced (w_conn w') ∧
           same_link (w_conn w) (w_conn w') ∧ is_reset p = false ∨
         drain_host_packets [p] w = Return true w') ∧
    commanded (is_reset p) (w_runner w) (w_runner w') ∧
    tells (owed p) (rn_transport (w_runner w)) (rn_transport (w_runner w')).
Proof.
  intros Hc Hp. destruct (process_packet_paced p w Hc Hp) as (stop & w1 & E & Hc1).
  pose proof (process_packet_commanded p w stop w1 Hp E) as Hcmd.
  pose proof (process_packet_tells p w stop w1 ltac:(apply Hc) Hp E) as Ht.
  pose proof (process_packet_link p w stop w1 E) as Hl.
  unfold drain_host_packets, mbind, M_bind. rewrite E. destruct stop.
  - eexists. split; [by right|]. split.
    + eapply commanded_then; [exact Hcmd|]. done.
    + rewrite <- (app_nil_r (owed p)). eapply tells_trans; [exact Ht|]. by apply event_chatter.
  - exists w1. split; [|by split]. left. split_and!; try done.
    destruct (is_reset p) eqn:Hr; [|done]. by pose proof (reset_stops p w _ _ Hr E).
Qed.

Lemma take_connected_ok p c f : fw_inv f → packet_ok p →
  fw_phase f = Draining c ∨ fw_phase f = Waiting c → turned (owed p) f (take_packet p f).
Proof.
  intros Hinv Hp Hphase.
  assert (paced c ∧ mute (fw_runner f) ∧ settings (fw_runner f) = link c) as (Hc & Hsilent & Hlink).
  { pose proof (inv_phase _ Hinv) as H. by destruct Hphase as [E|E]; rewrite E in H. }
  destruct (drain_one p (mkWorld (fw_runner f) c) Hc Hp) as (w' & Hdrain & Hcmd & Ht). cbn in Hcmd, Ht.
  assert (∃ s', tune_if (is_reset p) (w_runner w') (fw_radio f) = Some s' ∧
    tuned_to (w_runner w') s' ∧ radio_ready s' = true) as (s' & Es & Htuned & Hready).
  { rewrite <- (inv_ready f Hinv). apply tune_if_ok.
    - eapply commanded_masked; [exact Hcmd|apply Hinv].
    - intros Hb. eapply commanded_tuned; [exact Hcmd|apply Hinv|done]. }
  assert (turned (owed p) f
    (settle Draining (drain_host_packets [p] (mkWorld (fw_runner f) c)) s' f)) as Hsettle.
  { destruct Hdrain as [(-> & Hc' & Hl & Hr)| ->]; cbn [settle].
    - apply turned_intro; try done; [|apply Hcmd, Hinv| |apply Hinv].
      + rewrite Hr in Hcmd. destruct Hcmd as (_ & Hs & _ & Hquiet). split; [done|].
        split; [by apply Hquiet|]. by rewrite Hs, Hlink.
      + eapply commanded_masked; [exact Hcmd|apply Hinv].
    - apply leave_ok; [done|apply Hcmd, Hinv|done..]. }
  unfold take_packet. destruct Hphase as [-> | ->]; destruct Hdrain as [(E & _)|E];
    rewrite E in Hsettle |- *; by rewrite Es.
Qed.

Lemma take_packet_ok p f : fw_inv f → packet_ok p → turned (owed p) f (take_packet p f).
Proof.
  intros Hinv Hp. destruct (fw_phase f) as [|c|c] eqn:E.
  - by apply take_idle_ok.
  - by eapply take_connected_ok; [..|left].
  - by eapply take_connected_ok; [..|right].
Qed.

(** ** Advertising *)

Lemma open_connection_ok request us now r w : open_connection request us now r = Some w →
  connection_new request us now = Ok (w_conn w) ∧
  quiet_runner [] (set_crc_init (ci_crc_init request) (set_access_address (ci_access_address request)
    (on_advertiser (λ a, a <| av_enabled := false |>) r)) <| rn_connected := true |>) (w_runner w).
Proof.
  unfold open_connection. destruct (connection_new request us now) as [c|] eqn:E; [|done].
  intros [= <-]. split; [done|].
  assert (ac_request c = request) as ->.
  { unfold connection_new, connection_new_for in E. by apply ok_bind_inv in E as (? & _ & [= <-]). }
  split; [done|]. by apply event_chatter.
Qed.

Lemma advertise_ok now f : fw_inv f → fw_phase f = Idle → turned [] f (advertise now f).
Proof.
  intros Hinv Hphase. unfold advertise.
  destruct (broadcast_ok adv_slots (rn_advertiser (fw_runner f)) (fw_radio f)) as (o & s & -> & Ht & Ho);
    [apply Hinv|apply Hinv|apply adv_slots_frequencies|].
  assert (radio_ready s = true) as Hready by (rewrite (tuning_ready _ _ Ht); apply Hinv).
  assert (turned [] f (Some (f <| fw_radio := s |>))) as Hsame.
  { eexists. split; [done|]. split; [|split; [apply tells_refl|done]].
    destruct Hinv. split; try done. by eapply tuned_to_tuning. }
  destruct o as [[request us]|]; [|done].
  destruct (open_connection request us now (fw_runner f)) as [w|] eqn:E; [|done].
  destruct Ho as (packet & Hb & Hparse).
  destruct (open_connection_ok _ _ _ _ _ E) as [Hnew Hq].
  destruct (quiet_runner_settings _ _ _ Hq) as [Hset Hadv].
  assert (masked (w_runner w)) as Hm.
  { eapply masked_settings; [exact Hset|]. apply set_crc_masked. }
  destruct (tune_ok (w_runner w) s Hm) as (s' & -> & Htuned & Hr).
  apply turned_intro; try done.
  - split; [by eapply connection_new_paced|]. split.
    + eapply quiet_runner_mute; [exact Hq|done].
    + rewrite Hset. by erewrite new_link.
  - rewrite Hadv. destruct (inv_advertiser _ Hinv) as (? & ? & ? & ?). by split_and!.
  - by rewrite Hr.
  - apply Hq.
  - apply Hinv.
Qed.

End invariant.
