(* ===== verification/FirmwareProps.v ===== *)
(** * The controller and its Host

    Over every run of the whole system: no turn panics, every packet crosses the
    bounded queues exactly once and in order, the replies are those to the commands
    in their order, and a Host that reads gets all of them. *)

From S2P Require Import Prelude Effects Time Channel Timing Sequence ControlPdu Llcp Advertising.
From S2P Require Import Hci Controller Connection Commands Runner Loops Channels.
From S2P Require Import ConnectionInv EventInv HostProps ConnectionSafety HostLog AdvertiserProps.
From S2P Require Import Instants DataPlane Window LoopProps.
From S2P Require Import RadioMachine FrontEnd Radio RadioLogic RadioProps RadioTime RadioTuning.
From S2P Require Import RadioInit System Firmware FirmwareInv.

Section firmware_props.
Context {time : EmbassyTime} {endless : EndlessTime} {rng : RngCore} {rng_laws : RngCoreLaws}.
Context {D : Type} {device : RadioDevice D} {running : RunningClock D}
  {clock_laws : RunningClockLaws (D := D)}.
Context {channels : BoundedChannel} {channel_laws : BoundedChannelLaws}.

Abbreviation firmware := (Firmware (D := D)).

(** ** Start *)

Lemma advertiser_default_ok a : advertiser_default = Some a → advertiser_ok a.
Proof.
  unfold advertiser_default. destruct (random_static _) as [address|] eqn:E; [|done].
  intros [= <-]. split; [|split; [apply ad_new_ok|split; [apply ad_new_ok|done]]].
  apply (random_static_ok [0x82; 0x58; 0x2a; 0x01; 0x00; 0xc0]); [|done|exact E].
  solve_forall; unfold fits; lia.
Qed.

Lemma boot_inv d tx response irq random (f : firmware) :
  boot d tx response irq random = Some f →
  fw_inv f ∧ fw_log f = [] ∧ fw_sent f = 0%nat ∧ fw_queues f = queues_new.
Proof.
  unfold boot, runner_new.
  pose proof (initialize_ready (radio_new d tx response irq)) as Hinit.
  pose proof (initialize_programs (radio_new d tx response irq)) as Hprog.
  pose proof (initialize_keeps_set (radio_new d tx response irq)) as Hset.
  destruct (initialize _) as [[[[]|e] s]|]; [|done..]. destruct Hinit as (_ & Hd & Hc).
  assert (m_digital_initialized s && m_frontend_calibrated s = true) as Hready by (by rewrite Hd, Hc).
  destruct advertiser_default as [a|] eqn:E; [|done]. intros [= <-].
  assert (Z.land (m_crc_init s) 0x00ffffff = m_crc_init s) as Hm by apply Hprog.
  split; [|done]. split; try done.
  - split; [done|]. unfold settings, set_to in *. cbn. rewrite Hm in Hset. exact Hset.
  - by apply advertiser_default_ok.
Qed.

(** ** Packets of the Host *)

Lemma transport_write_ok kind bytes p : bytes_ok bytes →
  transport_write kind (length bytes) (Some bytes) = Ok p → ConnectionSafety.packet_ok p.
Proof.
  intros Hb. unfold transport_write. destruct (Nat.ltb_spec HCI_PACKET_CAPACITY (length bytes)); [done|].
  intros [= <-]. split; [|split]; cbn [pk_bytes pk_len set_field packet_empty].
  - unfold HCI_PACKET_CAPACITY in *. rewrite length_splice; [done|]. by cbn [length replicate].
  - apply bytes_ok_splice; [done|]. apply (Forall_replicate is_u8 64 0). by unfold fits.
  - done.
Qed.

(** ** One step *)

Lemma sent_all (f : firmware) : fw_inv f → pending f = [] → fw_sent f = length (fw_log f).
Proof.
  intros Hinv Hp. pose proof (inv_sent _ Hinv) as Hs. unfold pending in Hp.
  apply (f_equal length) in Hp. rewrite length_drop in Hp. cbn in Hp. lia.
Qed.

(** The invariant does not speak of the channels. *)
Lemma inv_queues (f : firmware) q : fw_inv f → fw_inv (f <| fw_queues := q |>).
Proof. intros []. by split. Qed.

(** What the log, the channels and the labels have to do with each other. *)
Record history (ls : list Label) (f : firmware) : Prop := mk_history {
  hist_inv : fw_inv f;
  hist_written : written ls = taken ls ++ inbox (fw_queues f);
  hist_log : fw_log f = received ls ++ outbox (fw_queues f) ++ pending f;
  hist_replies : omap reply_opcode (fw_log f) = taken ls ≫= owed;
  hist_packets : Forall ConnectionSafety.packet_ok (written ls);
  hist_bounded : bounded (fw_queues f);
}.

Lemma history_start d tx response irq random (f : firmware) :
  boot d tx response irq random = Some f → history [] f.
Proof.
  intros (Hinv & Hlog & Hsent & Hq)%boot_inv. destruct queues_new_empty as [Hi Ho].
  split; try done.
  - by rewrite Hq, Hi.
  - unfold pending. by rewrite Hlog, Hsent, Hq, Ho.
  - by rewrite Hlog.
  - unfold bounded. rewrite Hq, Hi, Ho. cbn. lia.
Qed.

(** A turn after which the inbox may have lost its first packet. *)
Lemma history_turn ls l (f f' : firmware) replies q :
  history ls f → pending f = [] → turned replies f (Some f') →
  outbox q = outbox (fw_queues f) → written [l] = [] → received [l] = [] →
  inbox (fw_queues f) = taken [l] ++ inbox q → replies = taken [l] ≫= owed →
  history (ls ++ [l]) (f' <| fw_queues := q |>).
Proof.
  intros [] Hpend (f2 & [= <-] & Hinv' & (ps & Hlog & Hreplies) & Hsent & Hqueues) Ho Hw Hr Hi ->.
  pose proof (sent_all f hist_inv0 Hpend) as Hall.
  assert (fw_log f' = fw_log f ++ ps) as Hlog' by exact Hlog.
  split.
  - by apply inv_queues.
  - unfold written, taken in *. rewrite !omap_app, Hw, app_nil_r, hist_written0, Hi. cbn.
    by rewrite app_assoc.
  - unfold received in *. rewrite omap_app, Hr, app_nil_r.
    change (fw_queues (f' <| fw_queues := q |>)) with q. rewrite Ho.
    assert (pending (f' <| fw_queues := q |>) = ps) as ->.
    { unfold pending. change (drop (fw_sent f') (fw_log f') = ps).
      by rewrite Hsent, Hall, Hlog', drop_app_length. }
    change (fw_log (f' <| fw_queues := q |>)) with (fw_log f').
    rewrite Hlog', hist_log0, Hpend, app_nil_r. by rewrite <- app_assoc.
  - change (fw_log (f' <| fw_queues := q |>)) with (fw_log f').
    rewrite Hlog', omap_app, hist_replies0. unfold taken at 2. rewrite omap_app, bind_app.
    unfold taken in Hreplies. by rewrite Hreplies.
  - unfold written in *. rewrite omap_app, Hw. by rewrite app_nil_r.
  - destruct hist_bounded0 as [Hb1 Hb2]. unfold bounded. cbn. rewrite Ho.
    rewrite Hi, length_app in Hb1. split; [lia|done].
Qed.

(** The steps of the Host and of the channel. *)
Lemma history_write ls (f : firmware) p q :
  history ls f → ConnectionSafety.packet_ok p → try_send_host_packet p (fw_queues f) = Some q →
  history (ls ++ [HostWrites p]) (f <| fw_queues := q |>).
Proof.
  intros [] Hp (Hi & Ho & Hcap)%host_packet_sent.
  split; unfold written, taken, received in *; rewrite ?omap_app; cbn; rewrite ?app_nil_r;
    rewrite ?Hi, ?Ho; try done.
  - by apply inv_queues.
  - by rewrite hist_written0, app_assoc.
  - apply Forall_app. split; [done|by constructor].
  - destruct hist_bounded0. split; cbn; rewrite ?Hi, ?Ho, ?length_app; cbn; [lia|done].
Qed.

Lemma history_read ls (f : firmware) p q :
  history ls f → try_receive_controller_packet (fw_queues f) = Some (p, q) →
  history (ls ++ [HostReads p]) (f <| fw_queues := q |>).
Proof.
  intros [] (Ho & Hi)%controller_packet_received. rewrite Ho in hist_log0.
  split; unfold written, taken, received in *; rewrite ?omap_app; cbn; rewrite ?app_nil_r;
    rewrite ?Hi; try done.
  - by apply inv_queues.
  - rewrite <- app_assoc. exact hist_log0.
  - destruct hist_bounded0 as [Hb1 Hb2]. rewrite Ho in Hb2. split; cbn in *; rewrite ?Hi; lia.
Qed.

Lemma history_send ls (f : firmware) p rest q :
  history ls f → pending f = p :: rest → try_send_controller_packet p (fw_queues f) = Some q →
  history (ls ++ [Internal]) (f <| fw_sent := S (fw_sent f) |> <| fw_queues := q |>).
Proof.
  intros [] Hp (Ho & Hi & Hcap)%controller_packet_sent.
  assert (drop (S (fw_sent f)) (fw_log f) = rest ∧ (fw_sent f < length (fw_log f))%nat) as [Hrest Hlt].
  { unfold pending in Hp. split.
    - rewrite <- Nat.add_1_r, <- drop_drop, Hp. done.
    - apply (f_equal length) in Hp. rewrite length_drop in Hp. cbn in Hp. lia. }
  set (f' := f <| fw_sent := S (fw_sent f) |> <| fw_queues := q |>).
  assert (fw_inv f') as Hinv by by destruct hist_inv0.
  assert (fw_log f' = fw_log f ∧ fw_queues f' = q ∧ pending f' = rest) as (Hl & Hq & Hp')
    by (split_and!; [done|done|exact Hrest]).
  clearbody f'. split; rewrite ?Hl, ?Hq, ?Hp'; unfold written, taken, received in *;
    rewrite ?omap_app; cbn; rewrite ?app_nil_r, ?Hi; try done.
  - rewrite Ho, <- app_assoc. cbn. rewrite <- Hp. exact hist_log0.
  - destruct hist_bounded0. split; rewrite ?Hi, ?Ho, ?length_app; cbn; [done|lia].
Qed.

(** A turn of the task that takes no packet. *)
Lemma history_internal ls (f f' : firmware) :
  history ls f → pending f = [] → turned [] f (Some f') → history (ls ++ [Internal]) f'.
Proof.
  intros Hist Hp Ht. destruct f' as [? ? ? ? q].
  assert (q = fw_queues f) as -> by (destruct Ht as (f3 & [= <-] & _ & _ & _ & Hq); exact Hq).
  by apply (history_turn _ Internal f _ [] (fw_queues f) Hist Hp Ht).
Qed.

Lemma history_step ls l (f f' : firmware) : history ls f → step f l f' → history (ls ++ [l]) f'.
Proof.
  intros Hist Hstep. pose proof (hist_inv _ _ Hist) as Hinv.
  destruct Hstep as [f kind bytes p q Hb Hwrite Hsend|f p q Hrecv|f p rest q Hp Hsend
    |f p q f' Hp Hrecv E|f now f' Hp Hphase Hen E|f now clock c f' Hp Hphase Hnone E
    |f now sc clock c f' Hp Hphase E|f d].
  - eapply history_write; [done| |done]. by eapply transport_write_ok.
  - by eapply history_read.
  - by eapply history_send.
  - destruct (host_packet_received _ _ _ Hrecv) as (Hi & Ho).
    assert (ConnectionSafety.packet_ok p) as Hpk.
    { destruct Hist. rewrite hist_written0, Hi in hist_packets0.
      apply Forall_app in hist_packets0 as [_ H2]. by apply Forall_cons_1 in H2 as [? _]. }
    pose proof (take_packet_ok p f Hinv Hpk) as Ht. rewrite E in Ht.
    eapply history_turn; try done. cbn. by rewrite app_nil_r.
  - eapply history_internal; [done..|]. rewrite <- E. by apply advertise_ok.
  - eapply history_internal; [done..|]. rewrite <- E. by apply check_connection_ok.
  - eapply history_internal; [done..|]. rewrite <- E. by apply open_window_ok.
  - destruct Hist. split; unfold written, taken, received in *; rewrite ?omap_app; cbn;
      rewrite ?app_nil_r; try done. destruct Hinv. by split.
Qed.

Lemma history_runs ls ls' (f f' : firmware) : history ls f → runs f ls' f' → history (ls ++ ls') f'.
Proof.
  intros Hist Hruns. revert ls Hist. induction Hruns as [f|f1 l f2 ls2 f3 Hstep _ IH]; intros ls Hist.
  - by rewrite app_nil_r.
  - rewrite cons_middle, app_assoc. apply IH. by eapply history_step.
Qed.

(** ** A Host that reads *)

(** Steps left until everything that was said has been read. *)
Definition unread (f : firmware) : nat := 2 * length (pending f) + length (outbox (fw_queues f)).

Lemma pending_queues (f : firmware) q : pending (f <| fw_queues := q |>) = pending f.
Proof. done. Qed.

Lemma flush n ls (f : firmware) : history ls f → unread f = n →
  ∃ ls' f', runs f ls' f' ∧ length ls' = n ∧ written ls' = [] ∧ taken ls' = [] ∧
    unread f' = 0%nat ∧ inbox (fw_queues f') = inbox (fw_queues f).
Proof.
  revert ls f. induction n as [|n IH]; intros ls f Hist Hn.
  { exists [], f. split; [constructor|]. done. }
  unfold unread in Hn. destruct (outbox (fw_queues f)) as [|p rest] eqn:Eo.
  - destruct (pending f) as [|p rest] eqn:Ep; [cbn in Hn; lia|].
    destruct (controller_packet_sends p (fw_queues f)) as [q Eq];
      [rewrite Eo; unfold CONTROLLER_TO_HOST_CAPACITY; cbn; lia|].
    destruct (controller_packet_sent _ _ _ Eq) as (Ho & Hi & _).
    set (f1 := f <| fw_sent := S (fw_sent f) |> <| fw_queues := q |>).
    assert (pending f1 = rest) as Hp1.
    { change (drop (S (fw_sent f)) (fw_log f) = rest).
      rewrite <- Nat.add_1_r, <- drop_drop. unfold pending in Ep. by rewrite Ep. }
    destruct (IH (ls ++ [Internal]) f1) as (ls' & f' & Hruns & Hl & Hw & Ht & Hu & Hi').
    { by eapply history_send. }
    { unfold unread. rewrite Hp1. change (fw_queues f1) with q. rewrite Ho, Eo. cbn in *. lia. }
    exists (Internal :: ls'), f'. split; [by econstructor; [eapply step_send|]|].
    split; [cbn; lia|]. split; [done|]. split; [done|]. split; [done|]. by rewrite Hi', <- Hi.
  - destruct (try_receive_controller_packet (fw_queues f)) as [[p' q]|] eqn:Eq.
    2: { apply controller_packet_waits in Eq. by rewrite Eo in Eq. }
    destruct (controller_packet_received _ _ _ Eq) as (Ho & Hi). rewrite Eo in Ho.
    injection Ho as <- Ho.
    destruct (IH (ls ++ [HostReads p]) (f <| fw_queues := q |>))
      as (ls' & f' & Hruns & Hl & Hw & Ht & Hu & Hi').
    { by apply history_read. }
    { unfold unread. rewrite pending_queues. change (fw_queues (f <| fw_queues := q |>)) with q.
      rewrite <- Ho. cbn in *. lia. }
    exists (HostReads p :: ls'), f'. split; [by econstructor; [by eapply step_read|]|].
    split; [cbn; lia|]. split; [done|]. split; [done|]. split; [done|]. by rewrite Hi', <- Hi.
Qed.

Lemma unread_zero (f : firmware) : unread f = 0%nat →
  pending f = [] ∧ outbox (fw_queues f) = [].
Proof.
  unfold unread. intros Hn. split; apply nil_length_inv; lia.
Qed.

(** The packet in the inbox is taken as soon as nothing is pending. *)
Lemma take_next ls (f : firmware) : history ls f → pending f = [] → inbox (fw_queues f) ≠ [] →
  ∃ p f', step f (Takes p) f' ∧ inbox (fw_queues f') = [].
Proof.
  intros Hist Hp Hne. destruct (try_receive_host_packet (fw_queues f)) as [[p q]|] eqn:E.
  2: { apply host_packet_waits in E. done. }
  destruct (host_packet_received _ _ _ E) as (Hi & _). destruct Hist.
  assert (ConnectionSafety.packet_ok p) as Hpk.
  { rewrite hist_written0, Hi in hist_packets0.
    apply Forall_app in hist_packets0 as [_ H2]. by apply Forall_cons_1 in H2 as [? _]. }
  destruct (take_packet_ok p f hist_inv0 Hpk) as (f' & Ef & _).
  exists p, (f' <| fw_queues := q |>). split; [by eapply step_take|]. cbn.
  destruct hist_bounded0 as [Hb _]. rewrite Hi in Hb. unfold HOST_TO_CONTROLLER_CAPACITY in Hb.
  apply nil_length_inv. cbn in Hb. lia.
Qed.

Lemma written_app ls1 ls2 : written (ls1 ++ ls2) = written ls1 ++ written ls2.
Proof. apply omap_app. Qed.

(** A Host that only reads, from any moment on: everything it wrote is taken, and
    everything said has been read. *)
Lemma drained ls (f : firmware) : history ls f →
  ∃ ls' f', runs f ls' f' ∧ written ls' = [] ∧ inbox (fw_queues f') = [] ∧ unread f' = 0%nat.
Proof.
  intros Hist. destruct (flush _ ls f Hist eq_refl) as (l1 & f1 & R1 & _ & W1 & _ & U1 & I1).
  pose proof (history_runs _ _ _ _ Hist R1) as H1.
  destruct (decide (inbox (fw_queues f1) = [])) as [Hi|Hi]; [by exists l1, f1|].
  destruct (take_next _ _ H1 (proj1 (unread_zero _ U1)) Hi) as (p & f2 & S2 & I2).
  pose proof (history_step _ _ _ _ H1 S2) as H2.
  destruct (flush _ _ f2 H2 eq_refl) as (l3 & f3 & R3 & _ & W3 & _ & U3 & I3).
  exists (l1 ++ Takes p :: l3), f3. split.
  { eapply runs_app; [exact R1|]. by econstructor. }
  split; [by rewrite written_app, W1|]. split; [by rewrite I3|done].
Qed.

(** ** The properties *)

Lemma boot_history d tx response irq random (f0 f : firmware) ls :
  boot d tx response irq random = Some f0 → runs f0 ls f → history ls f.
Proof. intros Hboot Hruns. by apply (history_runs [] ls f0 f); [eapply history_start|]. Qed.

Lemma history_answers ls (f : firmware) : history ls f →
  omap reply_opcode (received ls ++ outbox (fw_queues f) ++ pending f) = omap asked_opcode (taken ls).
Proof.
  intros Hist. rewrite <- (hist_log _ _ Hist), (hist_replies _ _ Hist).
  induction (taken ls) as [|p ps IH]; [done|]. cbn. rewrite IH. unfold owed.
  by destruct (asked_opcode p).
Qed.

(** C3: The controller never panics and its radio is always tuned. Boot it on any hardware
    whose clock runs and whose calibration succeeds, and let it run with any Host, any
    received packets and any interleaving: in every state it reaches, whatever turn its
    task may take next (a command or packet of the Host, an advertising event on the
    radio, the checks of the connection loop, a connection event on the radio, at any
    times) that turn runs to its end; the radio is calibrated; and the access address and
    the CRC initialization in its registers are the ones the runner set last, for
    advertising or for the connection. *)
Theorem controller_safe d tx response irq random (f0 f : firmware) ls :
  boot d tx response irq random = Some f0 → runs f0 ls f →
  (∀ p q, try_receive_host_packet (fw_queues f) = Some (p, q) → is_Some (take_packet p f)) ∧
  match fw_phase f with
  | Idle => ∀ now, is_Some (advertise now f)
  | Draining c => conn_ok c ∧ ∀ now clock, is_Some (check_connection now clock c f)
  | Waiting c => conn_ok c ∧
      ∀ now skip_clock clock, is_Some (open_window now skip_clock clock c f)
  end ∧
  radio_ready (fw_radio f) = true ∧
  last_write bb_tx_access_address (m_trace (fw_radio f)) = Some (u32 (rn_access_address (fw_runner f))) ∧
  last_write bb_tx_crc_init (m_trace (fw_radio f)) = Some (u32 (rn_crc_init (fw_runner f))).
Proof.
  intros Hboot Hruns.
  pose proof (boot_history _ _ _ _ _ _ _ _ Hboot Hruns) as Hist.
  pose proof (hist_inv _ _ Hist) as Hinv.
  split; [|split; [|split; [apply Hinv|]]].
  - intros p q Hq. destruct (host_packet_received _ _ _ Hq) as (Hi & _).
    pose proof (hist_packets _ _ Hist) as Hp. rewrite (hist_written _ _ Hist), Hi in Hp.
    apply Forall_app in Hp as [_ Hp]. apply Forall_cons_1 in Hp as [Hp _].
    destruct (take_packet_ok p f Hinv Hp) as (f' & -> & _). by eexists.
  - pose proof (inv_phase _ Hinv) as Hphase.
    destruct (fw_phase f) as [|c|c] eqn:E; [|split; [apply Hphase|]..].
    + intros now. destruct (advertise_ok now f Hinv E) as (f' & -> & _). by eexists.
    + intros now clock. destruct (check_connection_ok now clock c f Hinv E) as (f' & -> & _).
      by eexists.
    + intros now sc clock. destruct (open_window_ok now sc clock c f Hinv E) as (f' & -> & _).
      by eexists.
  - destruct (inv_tuned _ Hinv) as [Hs (Ha & Hc & _)]. injection Hs as -> ->. done.
Qed.

(** C7: The bounded queues carry every packet exactly once and in order. In every state the
    booted system reaches with any Host, the packets the Host has written are those the
    controller has taken, in that order, followed by the at most one in the first queue;
    the packets the controller has sent are those the Host has read, in that order,
    followed by the at most two in the second queue and those whose send still waits.
    So nothing is lost, duplicated or reordered when a queue is full, and the unbounded
    log that the component models use is what the Host will read. *)
Theorem host_queues_exactly_once d tx response irq random (f0 f : firmware) ls :
  boot d tx response irq random = Some f0 → runs f0 ls f →
  written ls = taken ls ++ inbox (fw_queues f) ∧
  tr_to_host (rn_transport (fw_runner f)) = received ls ++ outbox (fw_queues f) ++ pending f ∧
  (length (inbox (fw_queues f)) ≤ 1)%nat ∧ (length (outbox (fw_queues f)) ≤ 2)%nat.
Proof.
  intros Hboot Hruns.
  pose proof (boot_history _ _ _ _ _ _ _ _ Hboot Hruns) as Hist.
  split; [apply Hist|]. split; [apply Hist|]. apply Hist.
Qed.

(** C6: Commands are answered one by one, in order, across the whole life of the controller.
    In every state the booted system reaches, the replies (Command Complete or Command
    Status) among all the packets sent to the Host so far name exactly the opcodes of the
    well-formed commands taken so far, in the same order and each once; no other packet
    of the controller, in advertising or in a connection, is a reply. So the n-th reply
    that the Host reads answers its n-th command. *)
Theorem commands_answered_in_order d tx response irq random (f0 f : firmware) ls :
  boot d tx response irq random = Some f0 → runs f0 ls f →
  omap reply_opcode (received ls ++ outbox (fw_queues f) ++ pending f) = omap asked_opcode (taken ls) ∧
  omap reply_opcode (received ls) `prefix_of` omap asked_opcode (written ls).
Proof.
  intros Hboot Hruns.
  pose proof (boot_history _ _ _ _ _ _ _ _ Hboot Hruns) as Hist.
  pose proof (history_answers _ _ Hist) as Hr. split; [exact Hr|].
  rewrite (hist_written _ _ Hist), omap_app, <- Hr, omap_app, <- app_assoc. by eexists.
Qed.

(** C8: A Host that keeps reading gets every reply. From every state that the booted system
    reaches, also with both queues full and the task waiting to send, the system can go
    on with the Host writing nothing, to a state where everything written has been taken
    and everything sent has been read; and then the Host has read exactly one reply per
    well-formed command it ever wrote, in the order of the commands. *)
Theorem reading_host_gets_all_replies d tx response irq random (f0 f : firmware) ls :
  boot d tx response irq random = Some f0 → runs f0 ls f →
  ∃ ls' f', runs f ls' f' ∧ written ls' = [] ∧
    inbox (fw_queues f') = [] ∧ outbox (fw_queues f') = [] ∧ pending f' = [] ∧
    omap reply_opcode (received (ls ++ ls')) = omap asked_opcode (written ls).
Proof.
  intros Hboot Hruns.
  pose proof (boot_history _ _ _ _ _ _ _ _ Hboot Hruns) as Hist.
  destruct (drained ls f Hist) as (ls' & f' & Hruns' & Hw & Hi & Hu).
  destruct (unread_zero _ Hu) as [Hp Ho]. exists ls', f'. do 5 (split; [done|]).
  pose proof (history_runs ls ls' f f' Hist Hruns') as Hist'.
  pose proof (history_answers _ _ Hist') as Hr. rewrite Ho, Hp, app_nil_r in Hr. rewrite Hr.
  pose proof (hist_written _ _ Hist') as Hw'. rewrite Hi, app_nil_r, written_app, Hw, app_nil_r in Hw'.
  by rewrite Hw'.
Qed.

End firmware_props.

(** ** A device that boots

    Time counts microseconds; each comparator reading of the calibration differs
    from the last, the receive filter settles at once, nothing is heard on air. *)
Definition boot_device : @RadioDevice ideal_time (Z * Z) := {|
  rd_read a '(t, n) :=
    if a =? tune_co_90 then (0x06000000 + n mod 64, (t, n + 1))
    else if a =? filter_status_9c then (0x100, (t, n))
    else (0, (t, n));
  rd_write _ _ d := d;
  rd_write16 _ _ d := d;
  rd_dma _ d := (0, d);
  rd_fill _ d := d;
  rd_now := (λ '(t, n), (Z.max t 0 + 500, (Z.max t 0 + 500, n))) : Z * Z → @Instant ideal_time * (Z * Z);
  rd_irq d := (true, d);
  tx_buffer_address := 0x20000000;
  response_buffer_address := 0x20000040;
  rx_buffer_address := 0x20000080;
|}.

Definition boot_clock : @RunningClock ideal_time (Z * Z) boot_device :=
  {| clock d := Z.max d.1 0; stall _ := O; stall_max := O |}.

Lemma boot_clock_laws : @RunningClockLaws ideal_time (Z * Z) boot_device boot_clock.
Proof.
  split; unfold later, strictly_later; cbn; try (intros; lia); try done.
  - intros [t n] i d' [= <- <-]. cbn. lia.
  - intros a [t n]. cbn. destruct (a =? tune_co_90), (a =? filter_status_9c); cbn; lia.
Qed.

Lemma ideal_endless : @EndlessTime ideal_time.
Proof.
  split; cbn; try (intros; lia).
  intros i d Hd. apply Z.leb_le in Hd. rewrite Hd. by eexists.
Qed.

Section samples.
#[local] Existing Instances ideal_time boot_device boot_clock boot_clock_laws ideal_endless fifo
  fifo_laws.

Abbreviation sample := (Firmware (D := Z * Z)).

(** The reset command, and the life of a controller that gets it: it is written,
    taken, answered, and the answer is sent and read. *)
Definition sample_command : list Z := [0x03; 0x0c; 0x00].
Definition sample_reset : Packet :=
  mkPacket Cmd 3 (splice 0 sample_command (replicate HCI_PACKET_CAPACITY 0)).
Definition sample_reply : Packet :=
  mkPacket Event 6 (splice 0 [0x0e; 4; 1; 0x03; 0x0c; 0] (replicate HCI_PACKET_CAPACITY 0)).

Definition sample_queues (inbox outbox : list Packet) : Queues := mkQueues inbox outbox.

Definition sample_f0 : sample :=
  default (mkFirmware Idle live_runner ready_machine 0 queues_new)
    (boot ((0, 0) : Z * Z) [] [] true (0 : Rng)).
Definition sample_f1 : sample := sample_f0 <| fw_queues := sample_queues [sample_reset] [] |>.
Definition sample_f2 : sample :=
  (default sample_f1 (take_packet sample_reset sample_f1)) <| fw_queues := sample_queues [] [] |>.
Definition sample_f3 : sample := sample_f2 <| fw_sent := S (fw_sent sample_f2) |> <| fw_queues := sample_queues [] [sample_reply] |>.
Definition sample_f4 : sample := sample_f3 <| fw_queues := sample_queues [] [] |>.

Definition sample_labels : list Label :=
  [HostWrites sample_reset; Takes sample_reset; Internal; HostReads sample_reply].

Lemma sample_boot : boot ((0, 0) : Z * Z) [] [] true (0 : Rng) = Some sample_f0.
Proof. vm_compute. reflexivity. Qed.

Lemma sample_runs : runs sample_f0 sample_labels sample_f4.
Proof.
  apply runs_cons with sample_f1.
  { apply (step_write sample_f0 Cmd sample_command sample_reset (sample_queues [sample_reset] [])).
    - unfold sample_command. solve_forall; unfold fits; lia.
    - reflexivity.
    - vm_compute. reflexivity. }
  apply runs_cons with sample_f2.
  { apply (step_take sample_f1 sample_reset (sample_queues [] []) (default sample_f1 (take_packet sample_reset sample_f1)));
      vm_compute; reflexivity. }
  apply runs_cons with sample_f3.
  { apply (step_send sample_f2 sample_reply [] (sample_queues [] [sample_reply])); vm_compute; reflexivity. }
  apply runs_cons with sample_f4; [|apply runs_nil].
  apply (step_read sample_f3 sample_reply (sample_queues [] [])). vm_compute. reflexivity.
Qed.

Lemma controller_safe_witness : radio_ready (fw_radio sample_f4) = true.
Proof.
  exact (proj1 (proj2 (proj2 (controller_safe _ _ _ _ _ sample_f0 sample_f4
    sample_labels sample_boot sample_runs)))).
Defined.

Lemma host_queues_exactly_once_witness :
  tr_to_host (rn_transport (fw_runner sample_f4)) =
    received sample_labels ++ outbox (fw_queues sample_f4) ++ pending sample_f4.
Proof.
  exact (proj1 (proj2 (host_queues_exactly_once _ _ _ _ _ sample_f0 sample_f4
    sample_labels sample_boot sample_runs))).
Defined.

Lemma commands_answered_in_order_witness :
  omap reply_opcode (received sample_labels) `prefix_of` omap asked_opcode (written sample_labels).
Proof.
  exact (proj2 (commands_answered_in_order _ _ _ _ _ sample_f0 sample_f4
    sample_labels sample_boot sample_runs)).
Defined.

Lemma reading_host_gets_all_replies_witness : ∃ ls' f',
  runs sample_f4 ls' f' ∧
  omap reply_opcode (received (sample_labels ++ ls')) = omap asked_opcode (written sample_labels).
Proof.
  destruct (reading_host_gets_all_replies _ _ _ _ _ sample_f0 sample_f4
    sample_labels sample_boot sample_runs) as (ls' & f' & Hruns & _ & _ & _ & _ & Hr).
  exact (ex_intro _ ls' (ex_intro _ f' (conj Hruns Hr))).
Defined.

(** The one command and its one reply. *)
Example sample_answers :
  (omap asked_opcode (written sample_labels), omap reply_opcode (received sample_labels)) =
    ([0x0c03], [0x0c03]).
Proof. vm_compute. reflexivity. Qed.

End samples.
