(* ===== verification/FirmwareLink.v ===== *)
(** * The radio and the link

    The running controller keeps its radio on the link that it serves, or on the
    advertising channels' settings when it serves none; the sample controller of
    this file advertises at the command of its Host, hears a CONNECT_IND and
    serves the connection. *)

From S2P Require Import Prelude Effects Time Channel Timing Sequence ControlPdu Llcp Advertising.
From S2P Require Import Hci Controller Connection Commands Runner Loops Channels.
From S2P Require Import ConnectionInv EventInv HostProps ConnectionSafety HostLog AdvertiserProps.
From S2P Require Import Instants DataPlane Window LoopProps.
From S2P Require Import RadioMachine FrontEnd Radio RadioLogic RadioProps RadioTime RadioTuning.
From S2P Require Import RadioInit System Firmware FirmwareInv.
From S2P Require Import FirmwareProps.

Section link.
Context {time : EmbassyTime} {endless : EndlessTime} {rng : RngCore} {rng_laws : RngCoreLaws}.
Context {D : Type} {device : RadioDevice D} {running : RunningClock D}
  {clock_laws : RunningClockLaws (D := D)}.
Context {channels : BoundedChannel} {channel_laws : BoundedChannelLaws}.
Abbreviation firmware := (Firmware (D := D)).

(** C4: The radio is always on the right link, and the application is told so. In every
    state that the booted controller reaches, while it waits, [is_connected] is false and
    the radio's registers hold the Access Address and the CRC initialization of
    advertising; while it serves a connection, [is_connected] is true, the controller does
    not advertise, whatever commands the Host sends, and the registers hold those of the
    CONNECT_IND that opened the connection, through every update of the connection. *)
Theorem radio_on_the_link d tx response irq random (f0 f : firmware) ls :
  boot d tx response irq random = Some f0 → runs f0 ls f →
  let registers := (last_write bb_tx_access_address (m_trace (fw_radio f)),
                    last_write bb_tx_crc_init (m_trace (fw_radio f))) in
  match fw_phase f with
  | Idle =>
      is_connected (fw_runner f) = false ∧
      registers = (Some ADV_ACCESS_ADDRESS, Some ADV_CRC_INIT)
  | Draining c | Waiting c =>
      is_connected (fw_runner f) = true ∧
      av_enabled (rn_advertiser (fw_runner f)) = false ∧
      registers = (Some (u32 (ci_access_address (ac_request c))),
                   Some (Z.land (ci_crc_init (ac_request c)) 0x00ffffff))
  end.
Proof.
  intros Hboot Hruns.
  pose proof (hist_inv _ _ (boot_history _ _ _ _ _ _ _ _ Hboot Hruns)) as Hinv.
  destruct (inv_tuned _ Hinv) as [Hs (Ha & Hc & _)]. cbv zeta. rewrite Ha, Hc.
  pose proof (inv_phase _ Hinv) as Hphase.
  assert (∀ x, u32 (Z.land x 0x00ffffff) = Z.land x 0x00ffffff) as Hland.
  { intros x. apply wrap_small, land_fits_r; [done|]. by unfold fits. }
  destruct (fw_phase f) as [|c|c]; unfold phase_ok in Hphase; rewrite Hs in Hphase.
  - destruct Hphase as [Hoff [= -> ->]]. by split.
  - destruct Hphase as (_ & [Hon Hmute] & [= -> ->]). by rewrite Hland.
  - destruct Hphase as (_ & [Hon Hmute] & [= -> ->]). by rewrite Hland.
Qed.

End link.

(** ** A controller that is connected to

    The device of [FirmwareProps], whose packets heard are a CONNECT_IND and whose
    operations complete at once. *)
Definition own_address : DeviceAddress := mkDeviceAddress [0x82; 0x58; 0x2a; 0x01; 0x00; 0xc0] Random.
Definition linking_packet : list Z := connect_ind_bytes sample_initiator own_address sample_connect_ind.
Definition linking_device : @RadioDevice ideal_time (Z * Z) := {|
  rd_read a '(t, n) :=
    if a =? lle_status then (U32_MAX, (t, n))
    else if a =? tune_co_90 then (0x06000000 + n mod 64, (t, n + 1))
    else if a =? filter_status_9c then (0x100, (t, n))
    else (0, (t, n));
  rd_write _ _ d := d;
  rd_write16 _ _ d := d;
  rd_dma i d := (linking_packet !!! i, d);
  rd_fill _ d := d;
  rd_now := (λ '(t, n), (Z.max t 0 + 100, (Z.max t 0 + 100, n))) : Z * Z → @Instant ideal_time * (Z * Z);
  rd_irq d := (false, d);
  tx_buffer_address := 0x20000000;
  response_buffer_address := 0x20000040;
  rx_buffer_address := 0x20000080;
|}.

Definition linking_clock : @RunningClock ideal_time (Z * Z) linking_device :=
  {| clock d := Z.max d.1 0; stall _ := O; stall_max := O |}.

Lemma linking_clock_laws : @RunningClockLaws ideal_time (Z * Z) linking_device linking_clock.
Proof.
  split; unfold later, strictly_later; cbn; try (intros; lia); try done.
  - intros [t n] i d' [= <- <-]. cbn. lia.
  - intros a [t n]. cbn. destruct (a =? lle_status), (a =? tune_co_90), (a =? filter_status_9c); cbn; lia.
Qed.

Section samples.
#[local] Existing Instances ideal_time linking_device linking_clock linking_clock_laws ideal_endless
  fifo fifo_laws.

Abbreviation linked := (Firmware (D := Z * Z)).

(** LE Set Advertising Enable, its life in the controller, and the connection. *)
Definition enable_command : list Z := [0x0a; 0x20; 0x01; 0x01].
Definition enable_packet : Packet :=
  mkPacket Cmd 4 (splice 0 enable_command (replicate HCI_PACKET_CAPACITY 0)).

Definition linked_queues (inbox outbox : list Packet) : Queues := mkQueues inbox outbox.

Definition linked_f0 : linked :=
  default (mkFirmware Idle live_runner ready_machine 0 queues_new)
    (boot ((0, 0) : Z * Z) [] [] false (0 : Rng)).
Definition linked_f1 : linked := linked_f0 <| fw_queues := linked_queues [enable_packet] [] |>.
Definition linked_f2 : linked :=
  (default linked_f1 (take_packet enable_packet linked_f1)) <| fw_queues := linked_queues [] [] |>.
Definition linked_reply : Packet := default enable_packet (head (fw_log linked_f2)).
Definition linked_f3 : linked :=
  linked_f2 <| fw_sent := S (fw_sent linked_f2) |> <| fw_queues := linked_queues [] [linked_reply] |>.
Definition linked_f4 : linked := default linked_f3 (advertise (0 : Z) linked_f3).

Definition linked_labels : list Label := [HostWrites enable_packet; Takes enable_packet; Internal; Internal].

Lemma linked_boot : boot ((0, 0) : Z * Z) [] [] false (0 : Rng) = Some linked_f0.
Proof. vm_compute. reflexivity. Qed.

Lemma linked_runs : runs linked_f0 linked_labels linked_f4.
Proof.
  apply runs_cons with linked_f1.
  { apply (step_write linked_f0 Cmd enable_command enable_packet (linked_queues [enable_packet] [])).
    - unfold enable_command. solve_forall; unfold fits; lia.
    - reflexivity.
    - vm_compute. reflexivity. }
  apply runs_cons with linked_f2.
  { refine (step_take linked_f1 enable_packet (linked_queues [] [])
      (default linked_f1 (take_packet enable_packet linked_f1)) _ _ _); vm_compute; reflexivity. }
  apply runs_cons with linked_f3.
  { refine (step_send linked_f2 linked_reply [] (linked_queues [] [linked_reply]) _ _);
      vm_compute; reflexivity. }
  apply runs_cons with linked_f4; [|apply runs_nil].
  refine (step_advertise linked_f3 (0 : Z) linked_f4 _ _ _ _); vm_compute; reflexivity.
Qed.

(** The sample controller is connected, and its radio on the link. *)
Definition on_sample_link : Prop :=
  match fw_phase linked_f4 with
  | Draining c => is_connected (fw_runner linked_f4) = true ∧
      ci_access_address (ac_request c) = ci_access_address sample_connect_ind ∧
      last_write bb_tx_access_address (m_trace (fw_radio linked_f4)) =
        Some (u32 (ci_access_address (ac_request c)))
  | _ => False
  end.

Example linked_to_sample :
  match fw_phase linked_f4 with
  | Draining c => ci_access_address (ac_request c) =? ci_access_address sample_connect_ind
  | _ => false
  end = true.
Proof. vm_compute. reflexivity. Qed.

Lemma radio_on_the_link_witness : on_sample_link.
Proof.
  pose proof (radio_on_the_link _ _ _ _ _ linked_f0 linked_f4 linked_labels linked_boot linked_runs) as H.
  pose proof linked_to_sample as Hc. unfold on_sample_link. revert H Hc.
  generalize (fw_phase linked_f4), (fw_runner linked_f4), (fw_radio linked_f4).
  intros [|c|c] r s H Hc; [discriminate Hc| |discriminate Hc].
  destruct H as (Hon & _ & [= Ha _]). apply Z.eqb_eq in Hc. exact (conj Hon (conj Hc Ha)).
Defined.

End samples.
