(* ===== verification/FirmwareRefines.v ===== *)
(** * The running controller refines the loops of the runner

    Turn by turn, a connection of the running system is an execution of
    [run_connection], on the packets that the task has taken and with the answers
    of the radio; and an advertising event, with the connection it leads to, is an
    execution of [advertising_event]. *)

From S2P Require Import Prelude Effects Time Channel Timing Sequence ControlPdu Llcp Advertising.
From S2P Require Import Hci Controller Connection Commands Runner Loops Channels.
From S2P Require Import RadioMachine FrontEnd Radio RadioLogic RadioProps RadioTime System Firmware FirmwareLink.

Section refines.
Context {time : EmbassyTime} {rng : RngCore}.
Context {D : Type} {device : RadioDevice D} {running : RunningClock D}.
Context {channels : BoundedChannel}.

Abbreviation firmware := (Firmware (D := D)).

(** ** Where in the loop a connection is *)

(** The packets that an iteration consumes. *)
Definition it_taken (it : Iteration) : list Packet :=
  it_packets it ++ match it_wake it with WakePacket p => [p] | WakeOpen _ _ _ _ => [] end.

(** After some iterations, and with some packets of the next one drained. *)
Definition at_drain (w0 : World) (ps : list Packet) (w : World) : Prop :=
  ∃ its drained w1, run_connection its w0 = Some (false, w1) ∧
    drain_host_packets drained w1 = Next () w ∧ ps = (its ≫= it_taken) ++ drained.

(** In the [select] of the next one. *)
Definition at_select (w0 : World) (ps : list Packet) (w : World) : Prop :=
  ∃ w2 now clock, at_drain w0 ps w2 ∧ run_checks now clock w2 = Next true w.

(** Out of the loop. *)
Definition at_end (w0 : World) (ps : list Packet) (w : World) : Prop :=
  ∃ its, run_connection its w0 = Some (true, w) ∧ ps = its ≫= it_taken.

Lemma run_connection_app its1 its2 w0 w1 : run_connection its1 w0 = Some (false, w1) →
  run_connection (its1 ++ its2) w0 = run_connection its2 w1.
Proof.
  revert w0. induction its1 as [|it its1 IH]; intros w0; cbn [run_connection app];
    [by intros [= <-]|]. destruct (run_iteration it w0) as [[[] w]|]; [done|by apply IH|done].
Qed.

Lemma run_connection_snoc its it w0 w1 r : run_connection its w0 = Some (false, w1) →
  run_iteration it w1 = Some r → run_connection (its ++ [it]) w0 = Some r.
Proof.
  intros E1 E2. rewrite (run_connection_app _ _ _ _ E1). cbn. rewrite E2. by destruct r as [[] w].
Qed.

Lemma drain_app ps1 ps2 w w1 : drain_host_packets ps1 w = Next () w1 →
  drain_host_packets (ps1 ++ ps2) w = drain_host_packets ps2 w1.
Proof.
  revert w. induction ps1 as [|p ps1 IH]; intros w; cbn [drain_host_packets app]; [by intros [= <-]|].
  unfold mbind, M_bind. destruct (process_connected_host_packet p w) as [[[] w']|]; [done|by apply IH|done].
Qed.

(** Nothing is left of an iteration whose body ends. *)
Lemma iteration_ends its ps w0 w1 w2 it ended w :
  run_connection its w0 = Some (false, w1) → drain_host_packets ps w1 = Next () w2 →
  it_packets it = ps →
  run (waiting ← run_checks (it_now it) (it_skip_clock it);
       if (waiting : bool) then run_wake (it_wake it) else mret false) w2 = Some (ended, w) →
  run_connection (its ++ [it]) w0 = Some (ended, w).
Proof.
  intros E1 E2 Hps E. eapply run_connection_snoc; [exact E1|].
  unfold run_iteration, run in *. unfold mbind, M_bind in *. by rewrite Hps, E2.
Qed.

(** A wake for iterations that do not come to their wait. *)
Definition no_wake (now : Instant) : Wake :=
  WakeOpen now (λ _, now) (mkEventClock now now now now) (λ _ _ _ _, Err ErrorTimeout).

Lemma taken_snoc its it : ((its ++ [it]) ≫= it_taken) = (its ≫= it_taken) ++ it_taken it.
Proof. rewrite bind_app. cbn. by rewrite app_nil_r. Qed.

(** ** The turns *)

Lemma loop_start w : at_drain w [] w.
Proof. by exists [], [], w. Qed.

Lemma drain_turn w0 ps w p : at_drain w0 ps w →
  match drain_host_packets [p] w with
  | Next _ w' => at_drain w0 (ps ++ [p]) w'
  | Return _ w' => at_end w0 (ps ++ [p]) w'
  | Panic => True
  end.
Proof.
  intros (its & drained & w1 & E1 & E2 & ->).
  destruct (drain_host_packets [p] w) as [[] w'|ended w'|] eqn:E; [| |done].
  - exists its, (drained ++ [p]), w1. split; [done|]. split; [by rewrite (drain_app _ _ _ _ E2)|].
    by rewrite <- app_assoc.
  - assert (ended = true) as ->.
    { revert E. unfold drain_host_packets, mbind, M_bind, disconnect, emit, modify, return_,
        mret, M_ret. destruct (process_connected_host_packet p w) as [[[] ?]|]; by intros [=]. }
    set (it := mkIteration (drained ++ [p]) (ac_supervision_deadline (w_conn w))
      (λ _, ac_supervision_deadline (w_conn w)) (no_wake (ac_supervision_deadline (w_conn w)))).
    exists (its ++ [it]). split.
    + eapply run_connection_snoc; [exact E1|]. unfold run_iteration, run, mbind, M_bind.
      cbn [it_packets it]. by rewrite (drain_app _ _ _ _ E2), E.
    + rewrite taken_snoc. unfold it_taken. cbn. by rewrite app_nil_r, <- app_assoc.
Qed.

Lemma check_turn w0 ps w now clock : at_drain w0 ps w →
  match run_checks now clock w with
  | Next waiting w' => if (waiting : bool) then at_select w0 ps w' else at_drain w0 ps w'
  | Return ended w' => ended = true → at_end w0 ps w'
  | Panic => True
  end.
Proof.
  intros Hat. pose proof Hat as (its & drained & w1 & E1 & E2 & ->).
  set (it := mkIteration drained now clock (no_wake now)).
  assert (∀ ended w', run (waiting ← run_checks now clock;
       if (waiting : bool) then run_wake (no_wake now) else mret false) w = Some (ended, w') →
    run_connection (its ++ [it]) w0 = Some (ended, w')) as Hends.
  { intros ended w' E. by eapply (iteration_ends its drained w0 w1 w it). }
  assert ((its ≫= it_taken) ++ drained = (its ++ [it]) ≫= it_taken) as Htaken.
  { rewrite taken_snoc. f_equal. unfold it_taken. cbn. by rewrite app_nil_r. }
  unfold run, mbind, M_bind in Hends.
  destruct (run_checks now clock w) as [[] w'|ended w'|] eqn:E; [| | |done].
  - by exists w, now, clock.
  - exists (its ++ [it]), [], w'. split; [by apply Hends|]. split; [done|]. by rewrite app_nil_r.
  - intros ->. exists (its ++ [it]). split; [by apply Hends|done].
Qed.

(** A wait that ends, with what it leads to. *)
Lemma select_turn w0 ps w wake w' ended : at_select w0 ps w →
  run (run_wake wake) w = Some (ended, w') →
  let ps' := ps ++ match wake with WakePacket p => [p] | WakeOpen _ _ _ _ => [] end in
  if ended then at_end w0 ps' w' else at_drain w0 ps' w'.
Proof.
  intros (w2 & now & clock & (its & drained & w1 & E1 & E2 & ->) & Ec) E ps'.
  set (it := mkIteration drained now clock wake).
  assert (run_connection (its ++ [it]) w0 = Some (ended, w')) as Hrun.
  { apply (iteration_ends its drained w0 w1 w2 it); [done..|].
    unfold run, mbind, M_bind in *. cbn [it_now it_skip_clock it_wake it]. by rewrite Ec. }
  assert (ps' = (its ++ [it]) ≫= it_taken) as ->.
  { unfold ps'. rewrite taken_snoc, <- app_assoc. done. }
  destruct ended; [by exists (its ++ [it])|].
  exists (its ++ [it]), [], w'. split; [done|]. split; [done|]. by rewrite app_nil_r.
Qed.

(** ** Connections of the running system *)

(** The packets taken so far, and where the loop is. *)
Definition follows (w0 : World) (ps : list Packet) (f : firmware) : Prop :=
  match fw_phase f with
  | Draining c => at_drain w0 ps (mkWorld (fw_runner f) c)
  | Waiting c => at_select w0 ps (mkWorld (fw_runner f) c)
  | Idle => ∃ w, at_end w0 ps w ∧ fw_runner f = close_connection w
  end.

Lemma leave_follows w0 ps w s (f f' : firmware) : at_end w0 ps w → leave w s f = Some f' →
  follows w0 ps f'.
Proof.
  intros Hend. unfold leave. cbv zeta. destruct (tune _ s) as [[[] s']|]; [|done]. intros [= <-].
  by exists w.
Qed.

Lemma stay_follows w0 ps w s (f : firmware) :
  (at_drain w0 ps w → follows w0 ps (stay Draining w s f)) ∧
  (at_select w0 ps w → follows w0 ps (stay Waiting w s f)).
Proof. by destruct w. Qed.

Lemma packet_follows w0 ps p (f f' : firmware) : follows w0 ps f → fw_phase f ≠ Idle →
  take_packet p f = Some f' → follows w0 (ps ++ [p]) f'.
Proof.
  intros Hf Hne. unfold take_packet.
  assert (∀ c, (at_drain w0 ps (mkWorld (fw_runner f) c) ∨ at_select w0 ps (mkWorld (fw_runner f) c)) →
    match drain_host_packets [p] (mkWorld (fw_runner f) c) with
    | Next _ w => at_drain w0 (ps ++ [p]) w
    | Return _ w => at_end w0 (ps ++ [p]) w
    | Panic => True
    end) as Hturn.
  { intros c [Hc|Hc]; [by apply drain_turn|].
    pose proof (λ w' e, select_turn w0 ps _ (WakePacket p) w' e Hc) as Hs.
    unfold run, run_wake, mbind, M_bind in Hs.
    destruct (drain_host_packets [p] (mkWorld (fw_runner f) c)) as [[] w'|e w'|] eqn:E; [| |done].
    - apply (Hs w' false eq_refl).
    - assert (e = true) as ->; [|apply (Hs w' true eq_refl)].
      revert E. unfold drain_host_packets, mbind, M_bind, disconnect, emit, modify, return_,
        mret, M_ret. destruct (process_connected_host_packet p _) as [[[] ?]|]; by intros [=]. }
  unfold follows in Hf. destruct (fw_phase f) as [|c|c] eqn:Ephase; [done| |].
  - specialize (Hturn c (or_introl Hf)).
    destruct (drain_host_packets [p] _) as [[] w|e w|]; cbn [settle];
      (destruct (tune_if _ _ _) as [s|]; [|done]) || done.
    + intros [= <-]. by apply stay_follows.
    + by apply leave_follows.
  - specialize (Hturn c (or_intror Hf)).
    destruct (drain_host_packets [p] _) as [[] w|e w|]; cbn [settle];
      (destruct (tune_if _ _ _) as [s|]; [|done]) || done.
    + intros [= <-]. by apply stay_follows.
    + by apply leave_follows.
Qed.

Lemma check_follows w0 ps now clock c (f f' : firmware) : follows w0 ps f → fw_phase f = Draining c →
  check_connection now clock c f = Some f' → follows w0 ps f'.
Proof.
  intros Hf Hphase. unfold follows in Hf. rewrite Hphase in Hf. unfold check_connection.
  pose proof (check_turn _ _ _ now clock Hf) as Hturn.
  destruct (run_checks now clock _) as [[] w|e w|] eqn:E;
    [by intros [= <-]; apply stay_follows..| |done].
  apply leave_follows, Hturn. revert E. unfold run_checks, catch_up, disconnect, emit, modify,
    return_, call_conn, call_conn_opt, conn, gets, unwrap, when_, zoom, mbind, M_bind, mret, M_ret.
  repeat case_match; congruence.
Qed.

(** The turn at the receive window is the one of the loop, with the radio's
    answer. *)
Lemma window_follows w0 ps now skip_clock clock c (f f' : firmware) :
  follows w0 ps f → fw_phase f = Waiting c →
  open_window now skip_clock clock c f = Some f' → follows w0 ps f'.
Proof.
  intros Hf Hphase. unfold follows in Hf. rewrite Hphase in Hf. unfold open_window. cbv zeta.
  set (w := mkWorld (fw_runner f) c) in *.
  pose proof (λ w' e, select_turn w0 ps w
    (WakeOpen now skip_clock clock (radio_answer (fw_radio f))) w' e Hf) as Hs.
  cbn zeta in Hs. rewrite app_nil_r in Hs. unfold run, run_wake, mbind, M_bind in Hs.
  destruct (catch_up now skip_clock w) as [skipped w1|e w1|] eqn:E; [| |done].
  - destruct (negb (skipped =? 0)).
    { intros [= <-]. apply stay_follows. by apply (Hs w1 false). }
    unfold system_event.
    destruct (connection_event clock (radio_answer (fw_radio f)) w1) as [[[reason|] w2]|]; [| |done].
    + apply leave_follows. by apply (Hs _ true).
    + intros [= <-]. apply stay_follows. by apply (Hs _ false).
  - apply leave_follows. specialize (Hs w1 e eq_refl).
    assert (e = true) as ->; [|exact Hs].
    revert E. unfold catch_up, disconnect, emit, modify, return_, call_conn_opt, when_, zoom, mbind,
      M_bind, mret, M_ret. repeat case_match; congruence.
Qed.

(** A run of one connection: only its last state may be out of it. *)
Inductive serves : firmware → list Label → firmware → Prop :=
| serves_nil f : serves f [] f
| serves_cons f1 l f2 ls f3 :
    fw_phase f1 ≠ Idle → step f1 l f2 → serves f2 ls f3 → serves f1 (l :: ls) f3.

Lemma step_follows w0 ps l (f f' : firmware) : follows w0 ps f → fw_phase f ≠ Idle →
  step f l f' → follows w0 (ps ++ taken [l]) f'.
Proof.
  intros Hf Hne Hstep. destruct Hstep; cbn; rewrite ?app_nil_r; try exact Hf.
  - match goal with E : take_packet _ _ = Some _ |- _ => exact (packet_follows _ _ _ _ _ Hf Hne E) end.
  - done.
  - by eapply check_follows.
  - by eapply window_follows.
Qed.

Lemma serves_follows w0 ps ls (f f' : firmware) : follows w0 ps f → serves f ls f' →
  follows w0 (ps ++ taken ls) f'.
Proof.
  intros Hf Hruns. revert ps Hf. induction Hruns as [f|f1 l f2 ls f3 Hne Hstep _ IH]; intros ps Hf.
  - by rewrite app_nil_r.
  - assert (taken (l :: ls) = taken [l] ++ taken ls) as -> by (unfold taken; apply (omap_app _ [l])).
    rewrite app_assoc. apply IH. by eapply step_follows.
Qed.

(** ** Advertising events *)

(** An exchange only has to answer on the channels that are tried. *)
Lemma advertising_slots_ext slots exchange exchange' now its r :
  (∀ slot, slot ∈ slots → exchange slot.2 = exchange' slot.2) →
  advertising_slots slots exchange now its r = advertising_slots slots exchange' now its r.
Proof.
  induction slots as [|[slot channel] slots IH]; intros Hext; cbn [advertising_slots]; [done|].
  assert (advertising_slot slot channel exchange (rn_advertiser r) =
    advertising_slot slot channel exchange' (rn_advertiser r)) as ->.
  { pose proof (Hext (slot, channel) ltac:(set_solver)) as Hx. cbn in Hx.
    unfold advertising_slot. by rewrite Hx. }
  rewrite IH by set_solver. done.
Qed.

Lemma broadcast_refines slots a (s : Machine D) o s' :
  NoDup ((λ slot, index slot.2) <$> slots) → broadcast slots a s = Some (o, s') →
  ∃ exchange, ∀ now its r, rn_advertiser r = a →
    advertising_slots slots exchange now its r =
      match o with
      | Some (request, us) => serve_connection request us now its r
      | None => Some ((), r)
      end.
Proof.
  revert s. induction slots as [|[slot channel] slots IH]; intros s Hnd; cbn [broadcast].
  { intros [= <- <-]. by exists (λ _ _ _ _ _, Err ErrorTimeout). }
  apply list.NoDup_cons in Hnd as [Hnot Hnd].
  destruct (slot_plan slot a) as [| |pdu response] eqn:Ep.
  - intros E. destruct (IH s Hnd E) as [exchange Hx]. exists exchange. intros now its r Hr.
    cbn [advertising_slots]. unfold advertising_slot. rewrite Hr, Ep. by apply Hx.
  - intros [= <- <-]. exists (λ _ _ _ _ _, Err ErrorTimeout). intros now its r Hr.
    cbn [advertising_slots]. unfold advertising_slot. by rewrite Hr, Ep.
  - destruct (radio_advertising _ _ _ _ s) as [[received s1]|]; [|done]. intros E.
    assert (∃ exchange, exchange channel = (λ _ _ _ _, received) ∧ ∀ now its r,
      rn_advertiser r = a → slot_received received a = None →
      advertising_slots slots exchange now its r = match o with
        | Some (request, us) => serve_connection request us now its r
        | None => Some ((), r) end) as (exchange & Hhere & Hrest).
    { destruct (slot_received received a) as [c|] eqn:Er; [by exists (λ _ _ _ _ _, received)|].
      destruct (IH s1 Hnd E) as [rest Hx].
      exists (λ ch, if index ch =? index channel then λ _ _ _ _, received else rest ch).
      split; [by rewrite Z.eqb_refl|]. intros now its r Hr _. rewrite <- (Hx now its r Hr).
      apply advertising_slots_ext. intros [n ch] Hin. cbn [snd].
      rewrite (proj2 (Z.eqb_neq _ _)); [done|]. intros Heq. apply Hnot. cbn [snd]. rewrite <- Heq.
      apply (list_elem_of_fmap_2 (λ slot, index slot.2) _ _ Hin). }
    exists exchange. intros now its r Hr. cbn [advertising_slots]. unfold advertising_slot.
    rewrite Hr, Ep, Hhere. destruct (slot_received received a) as [[request us]|] eqn:Er.
    + by injection E as <- <-.
    + by apply Hrest.
Qed.


End refines.

(** ** A connection from its CONNECT_IND to the reset of the Host *)

(** Everything is complete at once, and the packet heard is a CONNECT_IND. *)
Definition heard_device : @RadioDevice ideal_time Z := {|
  rd_read a d := (if a =? lle_status then U32_MAX else 0, d);
  rd_write _ _ d := d;
  rd_write16 _ _ d := d;
  rd_dma i d := (linking_packet !!! i, d);
  rd_fill _ d := d;
  rd_now := (λ t, (t + 100, t + 100)) : Z → @Instant ideal_time * Z;
  rd_irq d := (false, d);
  tx_buffer_address := 0x20000000;
  response_buffer_address := 0x20000040;
  rx_buffer_address := 0x20000080;
|}.
Definition heard_clock : @RunningClock ideal_time Z heard_device :=
  {| clock d := Z.max d 0; stall _ := O; stall_max := O |}.

Section samples.
#[local] Existing Instances ideal_time heard_device heard_clock fifo.

Definition heard_queues (inbox outbox : list Packet) : Queues := mkQueues inbox outbox.
Definition heard_start : Firmware :=
  mkFirmware Idle
    (mkRunner ADV_ACCESS_ADDRESS ADV_CRC_INIT (0 : Rng)
      (mkAdvertiser own_address (200000 : Z) [true; true; true] ad_new ad_new true) false
      transport_init)
    ((radio_new 0 [] [] false) <| m_digital_initialized := true |> <| m_frontend_calibrated := true |>)
    0 (heard_queues [] []).

Definition reset_bytes : list Z := [0x03; 0x0c; 0x00].
Definition reset_packet : Packet :=
  mkPacket Cmd 3 (splice 0 reset_bytes (replicate HCI_PACKET_CAPACITY 0)).

Definition heard_f1 : Firmware := default heard_start (advertise (0 : Z) heard_start).
Definition heard_event : Packet := default reset_packet (head (fw_log heard_f1)).
Definition heard_f2 : Firmware :=
  heard_f1 <| fw_sent := S (fw_sent heard_f1) |> <| fw_queues := heard_queues [] [heard_event] |>.
Definition heard_f3 : Firmware :=
  heard_f2 <| fw_queues := heard_queues [reset_packet] [heard_event] |>.
Definition heard_f4 : Firmware :=
  (default heard_f3 (take_packet reset_packet heard_f3))
    <| fw_queues := heard_queues [] [heard_event] |>.

Lemma heard_serves :
  serves heard_f1 [Internal; HostWrites reset_packet; Takes reset_packet] heard_f4.
Proof.
  apply serves_cons with heard_f2; [vm_compute; discriminate| |].
  { apply (step_send heard_f1 heard_event [] (heard_queues [] [heard_event])); vm_compute; reflexivity. }
  apply serves_cons with heard_f3; [vm_compute; discriminate| |].
  { apply (step_write heard_f2 Cmd reset_bytes reset_packet
      (heard_queues [reset_packet] [heard_event])).
    - unfold reset_bytes. solve_forall; unfold fits; lia.
    - reflexivity.
    - vm_compute. reflexivity. }
  apply serves_cons with heard_f4; [vm_compute; discriminate| |apply serves_nil].
  refine (step_take heard_f3 reset_packet (heard_queues [] [heard_event])
    (default heard_f3 (take_packet reset_packet heard_f3)) _ _ _); vm_compute; reflexivity.
Qed.

Lemma heard_opens : advertise (0 : Z) heard_start = Some heard_f1.
Proof. vm_compute. reflexivity. Qed.


End samples.
