(* ===== verification/Asserts.v ===== *)
(** * Unit tests as programs

    The crates carry their own unit tests.  A test is a body of [Effects] over
    the value under test: a failed assertion and the [unwrap] of an error are
    panics, and the test passes when its body reaches the end.  The files
    [*Tests] translate the tests; each is run by the kernel on the definitions
    the theorems are about, so that the model agrees with the program wherever
    the program's authors wrote down what they expect. *)

From S2P Require Import Prelude Effects.

Definition panic {S R A} : M S R A := λ _, Panic.

(** [assert!] and [assert_eq!]. *)
Definition assert {S R} (b : bool) : M S R () := if b then mret () else panic.

Definition assert_eq {S R A} `{!EqDecision A} (x y : A) : M S R () :=
  assert (bool_decide (x = y)).

(** [r.unwrap()] of a [Result]. *)
Definition expect {S R E A} (r : result E A) : M S R A :=
  match r with Ok a => mret a | Err _ => panic end.

(** [value.operation(..).unwrap()] for an operation that returns nothing, one
    that returns a result, and one that cannot fail. *)
Definition perform {S R E} (f : S → result E S) : M S R () :=
  s ← gets f; s ← expect s; modify (λ _, s).

Definition yields {S R E A} (f : S → result E (A * S)) : M S R A :=
  r ← gets f; '(a, s) ← expect r; modify (λ _, s);; mret a.

Definition always {S R A} (f : S → A * S) : M S R A := call (λ s, Some (f s)).

(** [assert_eq!(value.operation(..), Err(e))]. *)
Definition refused {S R E A} `{!EqDecision E} (f : S → result E A) (e : E) : M S R () :=
  r ← gets f;
  match r with Ok _ => panic | Err e' => assert_eq e' e end.

(** [assert!(result.is_err())]. *)
Definition fails {S R E A} (r : result E A) : M S R () := assert (negb (is_ok r)).

(** A test that starts from [s], and one without a value under test. *)
Definition passes {S A} (s : S) (test : M S () A) : bool :=
  match test s with Next _ _ => true | _ => false end.

(** A mutable variable [let mut x = s] of a test and the statements on it. *)
Definition with_mut {S T R} (s : S) (body : M S () ()) : M T R () := assert (passes s body).

Definition test_ok (test : M () () ()) : bool := passes () test.
