(* ===== verification/LinkLayerTests.v ===== *)
(** * The unit tests of the portable Link Layer

    The test module of [crates/ble-controller/src/link_layer.rs] on the
    definitions of [Channel], [Timing], [Sequence] and [ControlPdu]; the tests of
    the transmit slots are in [EventTxTests]. *)

From S2P Require Import Prelude Effects Asserts Channel Timing Sequence ControlPdu.

#[export] Instance DataSequenceObservation_eq_dec : EqDecision DataSequenceObservation.
Proof. solve_decision. Defined.

(** ** Records and channel selection *)

(*! crates/ble-controller/src/link_layer.rs 1171-1181 default_advertising_uses_all_primary_channels *)
Definition default_advertising_uses_all_primary_channels : M () () () :=
  assert_eq (Records.ac_channels Records.advertising_config_default) [Some ADV_37; Some ADV_38; Some ADV_39].

(** [assert_eq!(selector.next_channel().index(), i)]. *)
Definition hops_to (i : Z) : M ChannelSelection1 () () :=
  c ← call cs_next_channel; assert_eq (index c) i.

Definition all_channels : list Z := [0xff; 0xff; 0xff; 0xff; 0x1f].

(*! crates/ble-controller/src/link_layer.rs 1183-1193 csa1_hops_and_remaps_disabled_channels *)
Definition csa1_hops_and_remaps_disabled_channels : M () () () :=
  all ← expect (cs_new all_channels 5);
  with_mut all (hops_to 5;; hops_to 10;; hops_to 15);;
  sparse ← expect (cs_new [0x05; 0; 0; 0; 0] 5);
  with_mut sparse (hops_to 2;; hops_to 0).

(*! crates/ble-controller/src/link_layer.rs 1195-1208 map_update_preserves_csa1_unmapped_phase *)
Definition map_update_preserves_csa1_unmapped_phase : M () () () :=
  selector ← expect (cs_new all_channels 5);
  with_mut selector (
    hops_to 5;; hops_to 10;;
    perform (λ s, cs_update_map s [0x21; 0; 0; 0; 0]);;
    hops_to 5;; hops_to 0;;
    s ← gets id;
    fails (cs_update_map s [1; 0; 0; 0; 0])).

(*! crates/ble-controller/src/link_layer.rs 1210-1216 encryption_start_headers_commit_both_acknowledgments *)
Definition encryption_start_headers_commit_both_acknowledgments : M () () () :=
  assert_eq (encryption_start_headers 0 1) (0x0f, 0x0b).

(** ** Sequence numbers *)

(** [sequence.observe(header)], and [assert_eq!(sequence, DataSequenceState::new(..))]. *)
Definition observing (header : Z) : M DataSequenceState () DataSequenceObservation :=
  always (λ s, observe s header).
Definition now_at (transmit expected : Z) : M DataSequenceState () () :=
  s ← gets id; assert_eq s (sequence_new transmit expected).

(** Both flags of an observation are asserted. *)
Definition both_advance (o : DataSequenceObservation) : M DataSequenceState () () :=
  assert (acknowledged_transmit o);; assert (accepted_receive o).

(** [assert_eq!(sequence.response_header(staged, more), header)]. *)
Definition answers_with (staged : Z) (more : bool) (header : Z) : M DataSequenceState () () :=
  s ← gets id; assert_eq (response_header s staged more) header.

(*! crates/ble-controller/src/link_layer.rs 1218-1251 data_sequence_accepts_new_pdus_and_rejects_retransmissions *)
Definition data_sequence_accepts_new_pdus_and_rejects_retransmissions : M () () () :=
  with_mut (sequence_new 0 0) (
    o ← observing 0x01;
    assert_eq o (mkDataSequenceObservation false true false);;
    now_at 0 1;;
    o ← observing (Z.lor 0x01 DATA_HEADER_NESN);
    assert_eq o (mkDataSequenceObservation true false false);;
    now_at 1 1;;
    o ← observing (Z.lor (Z.lor 0x01 DATA_HEADER_NESN) DATA_HEADER_SN);
    assert (negb (acknowledged_transmit o));;
    assert (accepted_receive o);;
    now_at 1 0).

(*! crates/ble-controller/src/link_layer.rs 1253-1278 peripheral_entry_packet_cannot_ack_a_fresh_response *)
Definition peripheral_entry_packet_cannot_ack_a_fresh_response : M () () () :=
  let peer_advanced_nesn := Z.lor 0x01 DATA_HEADER_NESN in
  assert (negb (acknowledges_outstanding_transmit peer_advanced_nesn 0 false));;
  assert (acknowledges_outstanding_transmit peer_advanced_nesn 0 true);;
  assert (negb (acknowledges_transmit_owner peer_advanced_nesn 0 false false));;
  assert (acknowledges_transmit_owner peer_advanced_nesn 0 false true).

(*! crates/ble-controller/src/link_layer.rs 1280-1286 response_header_preserves_llid_and_reserved_fields *)
Definition response_header_preserves_llid_and_reserved_fields : M () () () :=
  with_mut (sequence_new 1 0) (
    let staged := Z.lor (Z.lor 0xe3 DATA_HEADER_NESN) DATA_HEADER_MD in
    answers_with staged false 0xeb;;
    answers_with staged true 0xfb).

(*! crates/ble-controller/src/link_layer.rs 1288-1319 gate_b_four_leg_empty_closure_preserves_next_event_ownership *)
Definition gate_b_four_leg_empty_closure_preserves_next_event_ownership : M () () () :=
  with_mut (sequence_new 0 1) (
    request ← observing 0x0e;
    both_advance request;;
    now_at 1 0;;
    answers_with 0x02 true 0x1a;;
    central_empty ← observing 0x01;
    both_advance central_empty;;
    now_at 0 1;;
    answers_with 0x01 false 0x05;;
    next_request ← observing 0x0e;
    both_advance next_request;;
    now_at 1 0).

(*! crates/ble-controller/src/link_layer.rs 1321-1331 md_from_either_participant_allows_event_continuation *)
Definition md_from_either_participant_allows_event_continuation : M () () () :=
  assert (negb (connection_event_may_continue false false));;
  assert (connection_event_may_continue true false);;
  assert (connection_event_may_continue false true);;
  assert (connection_event_may_continue true true);;
  with_mut (sequence_new 0 0) (
    o ← observing (Z.lor (Z.lor 0x01 DATA_HEADER_NESN) DATA_HEADER_MD);
    assert (peer_more_data o)).

(** ** Closing an event *)

(*! crates/ble-controller/src/link_layer.rs 1333-1350 final_fresh_owner_requests_exactly_one_ack_leg *)
Definition final_fresh_owner_requests_exactly_one_ack_leg : M () () () :=
  assert (response_advertises_more_data false true true false true);;
  assert (negb (response_advertises_more_data false true true true true));;
  assert (negb (response_advertises_more_data false true false false true));;
  assert (negb (response_advertises_more_data false true true false false));;
  assert (response_advertises_more_data true false true false true).

Definition decides (input : ConnectionEventDecisionInput) (reason : ConnectionEventCloseReason)
  : M () () () := assert_eq (connection_event_decision input) reason.

(*! crates/ble-controller/src/link_layer.rs 1352-1397 event_decision_prioritizes_integrity_deadline_and_resources *)
Definition event_decision_prioritizes_integrity_deadline_and_resources : M () () () :=
  decides (mkDecisionInput true true true true true true) Continue;;
  decides (mkDecisionInput false true true true true true) InvalidCrc;;
  decides (mkDecisionInput true false true true true true) InvalidMic;;
  decides (mkDecisionInput true true true true false true) Deadline;;
  decides (mkDecisionInput true true false false true true) BothMdClear;;
  decides (mkDecisionInput true true false true true false) ResourceLimit.

(*! crates/ble-controller/src/link_layer.rs 1399-1428 event_decision_keeps_two_four_and_eight_pdu_sequences_open *)
Definition event_decision_keeps_two_four_and_eight_pdu_sequences_open : M () () () :=
  for_each [2; 4; 8] (λ exchanges,
    with_mut (sequence_new 0 0) (
      for_each (seqZ 0 exchanges) (λ index,
        let final_exchange := index + 1 =? exchanges in
        s ← gets id;
        let header := Z.lor (Z.lor (Z.lor 0x01 (u8 (Z.shiftl (transmit_sn s) 2)))
          (u8 (Z.shiftl (expected_sn s) 3))) (if final_exchange then 0 else DATA_HEADER_MD) in
        o ← observing header;
        let decision := connection_event_decision
          (mkDecisionInput true true false (peer_more_data o) true true) in
        assert_eq decision (if final_exchange then BothMdClear else Continue)))).

(*! crates/ble-controller/src/link_layer.rs 1781-1789 failed_response_keeps_the_outstanding_llid_for_retry *)
Definition failed_response_keeps_the_outstanding_llid_for_retry : M () () () :=
  let outstanding := 0x13 in
  assert_eq (committed_response_header outstanding 0 false) outstanding;;
  assert_eq (committed_response_header outstanding 0x1b true) 0x1b.

(** The state counts the deliveries beside the sequence. *)
(*! crates/ble-controller/src/link_layer.rs 1791-1801 duplicate_central_pdus_are_acked_but_delivered_once *)
Definition duplicate_central_pdus_are_acked_but_delivered_once : M () () () :=
  with_mut (sequence_new 0 0, 0) (
    for_each [Z.lor 0x01 DATA_HEADER_MD; Z.lor 0x01 DATA_HEADER_MD; 0x09] (λ header,
      modify (λ '(sequence, deliveries),
        let '(o, sequence) := observe sequence header in
        (sequence, deliveries + b2z (accepted_receive o))));;
    '(sequence, deliveries) ← gets id;
    assert_eq deliveries 2;;
    assert_eq (expected_sn sequence) 0).

(*! crates/ble-controller/src/link_layer.rs 1803-1817 lost_ack_keeps_transmit_sn_for_the_following_event *)
Definition lost_ack_keeps_transmit_sn_for_the_following_event : M () () () :=
  with_mut (sequence_new 1 0) (
    before ← gets transmit_sn;
    o ← observing (Z.lor (Z.lor 0x01 DATA_HEADER_NESN) DATA_HEADER_MD);
    assert (negb (acknowledged_transmit o));;
    sn ← gets transmit_sn;
    assert_eq sn before;;
    following_event ← gets id;
    with_mut following_event (
      o ← observing 0x01;
      assert (acknowledged_transmit o);;
      sn ← gets transmit_sn;
      assert_eq sn (Z.lxor before 1))).

(*! crates/ble-controller/src/link_layer.rs 1819-1838 eighth_receive_slot_closes_with_resource_limit_and_no_md_promise *)
Definition eighth_receive_slot_closes_with_resource_limit_and_no_md_promise : M () () () :=
  decides (mkDecisionInput true true true true true false) ResourceLimit;;
  let state := sequence_new 1 1 in
  assert_eq (Z.land (response_header state (Z.lor 0x03 DATA_HEADER_MD) false) DATA_HEADER_MD) 0.

(** [assert_eq!(connection_event_trace_slot(sequence, 16), slot)]. *)
Definition traced_at (sequence slot : Z) : M () () () :=
  s ← unwrap (connection_event_trace_slot sequence 16); assert_eq s slot.

(*! crates/ble-controller/src/link_layer.rs 1840-1876 connection_event_trace_encoding_preserves_status_sequence_and_close_reason *)
Definition connection_event_trace_encoding_preserves_status_sequence_and_close_reason
  : M () () () :=
  let record := mkTraceRecord 0x1234 37 7 0x0123456789abcdef 0x2005 0x0060 0x1d 0x15 31 2
    true true false true true ResourceLimit in
  assert_eq (trace_encode record)
    [0x07251234; 0x89abcdef; 0x01234567; 0x2005; 0x0060; 0x021f151d; 0x061b];;
  traced_at 0 0;; traced_at 15 15;; traced_at 16 0;; traced_at U32_MAX 15.

(*! crates/ble-controller/src/link_layer.rs 1878-1892 crc_failure_does_not_advance_sequence_state *)
Definition crc_failure_does_not_advance_sequence_state : M () () () :=
  let sequence := sequence_new 1 0 in
  let before := sequence in
  decides (mkDecisionInput false true true true true true) InvalidCrc;;
  assert_eq sequence before.

(** ** Timing *)

(*! crates/ble-controller/src/link_layer.rs 1894-1901 window_widening_uses_both_sca_values_and_rounds_up *)
Definition window_widening_uses_both_sca_values_and_rounds_up : M () () () :=
  assert_eq (sleep_clock_accuracy_ppm 0) 500;;
  assert_eq (sleep_clock_accuracy_ppm 7) 20;;
  assert_eq (window_widening_us 7500 0 50) 5;;
  assert_eq (window_widening_us 1000000 5 50) 100;;
  assert_eq (window_widening_us U64_MAX 0 500) 18446744073709552.

(*! crates/ble-controller/src/link_layer.rs 1903-1917 instant_classification_covers_current_boundary_and_wraparound *)
Definition instant_classification_covers_current_boundary_and_wraparound : M () () () :=
  assert_eq (classify_instant 100 100) Current;;
  assert_eq (classify_instant 100 101) (Future 1);;
  assert_eq (classify_instant 100 (u16 (100 + 32766))) (Future 32766);;
  assert_eq (classify_instant 100 (u16 (100 + 32767))) Passed;;
  assert_eq (classify_instant 0xfffe 1) (Future 3);;
  assert_eq (classify_instant 1 0xfffe) Passed.

(*! crates/ble-controller/src/link_layer.rs 1919-1942 collision_codes_distinguish_same_and_different_instant_procedures *)
Definition collision_codes_distinguish_same_and_different_instant_procedures : M () () () :=
  assert_eq (procedure_collision_error ConnectionParametersRequest ConnectionParametersRequest)
    0x23;;
  assert_eq (procedure_collision_error ConnectionParametersRequest ConnectionUpdate) 0x23;;
  assert_eq (procedure_collision_error ConnectionParametersRequest ChannelMapUpdate) 0x2a.

(*! crates/ble-controller/src/link_layer.rs 1944-1957 data_access_address_enforces_core_bit_patterns *)
Definition data_access_address_enforces_core_bit_patterns : M () () () :=
  assert (data_access_address_is_valid 0x12345678 false);;
  assert (negb (data_access_address_is_valid ADV_ACCESS_ADDRESS false));;
  assert (negb (data_access_address_is_valid (Z.lxor ADV_ACCESS_ADDRESS 1) false));;
  assert (negb (data_access_address_is_valid 0x11111111 false));;
  assert (negb (data_access_address_is_valid 0x0000007f false));;
  assert (negb (data_access_address_is_valid 0xaaaaaaab false));;
  assert (data_access_address_is_valid 0x12345640 false);;
  assert (negb (data_access_address_is_valid 0x12345640 true)).

(** ** Control PDUs *)

(*! crates/ble-controller/src/link_layer.rs 1959-1976 connection_update_payload *)
Definition connection_update_payload
    (window_size window_offset interval latency timeout instant : Z) : list Z :=
  let payload := replicate UPDATE_PDU_LEN 0 in
  let payload := <[0%nat := UPDATE_OPCODE]> payload in
  let payload := <[1%nat := window_size]> payload in
  let payload := splice 2 (to_le 2 window_offset) payload in
  let payload := splice 4 (to_le 2 interval) payload in
  let payload := splice 6 (to_le 2 latency) payload in
  let payload := splice 8 (to_le 2 timeout) payload in
  splice 10 (to_le 2 instant) payload.

(*! crates/ble-controller/src/link_layer.rs 1978-1993 connection_update_accepts_current_and_wrapped_future_instants *)
Definition connection_update_accepts_current_and_wrapped_future_instants : M () () () :=
  let current := connection_update_payload 1 0 6 0 10 42 in
  update ← expect (update_parse current 42);
  assert_eq (cu_instant update) 42;;
  let wrapped := connection_update_payload 1 0 12 0 20 2 in
  update ← expect (update_parse wrapped 0xfffe);
  assert_eq (cu_instant update) 2.

(*! crates/ble-controller/src/link_layer.rs 1995-2024 connection_update_rejects_malformed_invalid_and_passed_values *)
Definition connection_update_rejects_malformed_invalid_and_passed_values : M () () () :=
  let valid := connection_update_payload 1 0 6 0 10 12 in
  assert_eq (update_parse (slice 0 11 valid) 6) (Err Malformed);;
  for_each
    [connection_update_payload 0 0 6 0 10 12;
     connection_update_payload 6 0 6 0 10 12;
     connection_update_payload 1 7 6 0 10 12;
     connection_update_payload 1 0 5 0 10 12;
     connection_update_payload 1 0 6 500 1000 12;
     connection_update_payload 1 0 40 0 10 12]
    (λ invalid, assert_eq (update_parse invalid 6) (Err InvalidParameters));;
  let passed := connection_update_payload 1 0 6 0 10 5 in
  assert_eq (update_parse passed 6) (Err InstantPassed).

(*! crates/ble-controller/src/link_layer.rs 2026-2030 connection_param_payload *)
Definition connection_param_payload (parameters : ConnectionParamPdu) (opcode : Z) : list Z :=
  param_write parameters opcode (replicate PARAM_PDU_LEN 0).

(*! crates/ble-controller/src/link_layer.rs 2032-2042 valid_connection_params *)
Definition valid_connection_params : ConnectionParamPdu :=
  mkConnectionParamPdu 12 24 0 200 6 102 [3; 7; U16_MAX; U16_MAX; U16_MAX; U16_MAX].

#[export] Instance ConnectionParamPdu_eta : Eta ConnectionParamPdu := λ p,
  mkConnectionParamPdu (cp_interval_min p) (cp_interval_max p) (cp_latency p)
    (cp_supervision_timeout p) (cp_preferred_periodicity p) (cp_reference_event_count p)
    (cp_offsets p).
#[export] Instance ConnectionUpdateInd_eta : Eta ConnectionUpdateInd := λ u,
  mkConnectionUpdateInd (cu_window_size u) (cu_window_offset u) (cu_interval u) (cu_latency u)
    (cu_supervision_timeout u) (cu_instant u).

(*! crates/ble-controller/src/link_layer.rs 2044-2063 connection_parameter_request_round_trips_and_accepts_wraparound_reference *)
Definition connection_parameter_request_round_trips_and_accepts_wraparound_reference
  : M () () () :=
  let parameters := valid_connection_params <| cp_reference_event_count := 1 |> in
  let request := connection_param_payload parameters REQUEST_OPCODE in
  assert_eq (parse_request request 0xfffe) (Ok parameters);;
  let response := connection_param_payload parameters RESPONSE_OPCODE in
  assert_eq (parse_response response 0xfffe) (Ok parameters);;
  assert_eq (parse_request response 0xfffe) (Err Malformed).

(*! crates/ble-controller/src/link_layer.rs 2065-2126 connection_parameter_request_validates_timing_and_anchor_preferences *)
Definition connection_parameter_request_validates_timing_and_anchor_preferences : M () () () :=
  let valid := valid_connection_params in
  for_each
    [valid <| cp_interval_min := 5 |>;
     valid <| cp_interval_min := 25 |>;
     valid <| cp_latency := 500 |>;
     valid <| cp_interval_max := 40 |> <| cp_supervision_timeout := 10 |>;
     valid <| cp_preferred_periodicity := 25 |>;
     valid <| cp_offsets := [24; U16_MAX; U16_MAX; U16_MAX; U16_MAX; U16_MAX] |>;
     valid <| cp_offsets := [3; U16_MAX; 7; U16_MAX; U16_MAX; U16_MAX] |>;
     valid <| cp_offsets := [3; 3; U16_MAX; U16_MAX; U16_MAX; U16_MAX] |>;
     valid <| cp_reference_event_count := 99 |>]
    (λ invalid,
      let payload := connection_param_payload invalid REQUEST_OPCODE in
      assert_eq (parse_request payload 100) (Err InvalidParameters));;
  let no_offsets := valid <| cp_reference_event_count := 99 |>
                      <| cp_offsets := replicate 6 U16_MAX |> in
  let payload := connection_param_payload no_offsets REQUEST_OPCODE in
  assert_eq (parse_request payload 100) (Ok no_offsets).

(*! crates/ble-controller/src/link_layer.rs 2128-2159 connection_update_must_satisfy_the_peripheral_request *)
Definition connection_update_must_satisfy_the_peripheral_request : M () () () :=
  let matching := mkConnectionUpdateInd 1 0 18 4 200 10 in
  assert (connection_update_matches_request 12 24 4 200 matching);;
  for_each
    [matching <| cu_interval := 11 |>; matching <| cu_interval := 25 |>;
     matching <| cu_latency := 3 |>; matching <| cu_supervision_timeout := 201 |>]
    (λ update, assert (negb (connection_update_matches_request 12 24 4 200 update))).

(*! crates/ble-controller/src/link_layer.rs 2161-2188 channel_map_update_validates_map_and_instant *)
Definition channel_map_update_validates_map_and_instant : M () () () :=
  let payload := <[0%nat := MAP_OPCODE]> (replicate MAP_PDU_LEN 0) in
  let payload := splice 1 [0x05; 0; 0; 0; 0] payload in
  let payload := splice 6 (to_le 2 2) payload in
  update ← expect (map_parse payload 0xfffe);
  assert_eq (cm_map update) [0x05; 0; 0; 0; 0];;
  let payload := splice 1 [0x01; 0; 0; 0; 0] payload in
  assert_eq (map_parse payload 0xfffe) (Err InvalidParameters);;
  let payload := splice 1 [0x05; 0; 0; 0; 0xe0] payload in
  assert_eq (map_parse payload 0xfffe) (Err InvalidParameters);;
  let payload := splice 1 [0x05; 0; 0; 0; 0] payload in
  let payload := splice 6 (to_le 2 0xfffd) payload in
  assert_eq (map_parse payload 0xfffe) (Err InstantPassed).

Definition link_layer_tests : list (M () () ()) :=
  [default_advertising_uses_all_primary_channels;
   csa1_hops_and_remaps_disabled_channels;
   map_update_preserves_csa1_unmapped_phase;
   encryption_start_headers_commit_both_acknowledgments;
   data_sequence_accepts_new_pdus_and_rejects_retransmissions;
   peripheral_entry_packet_cannot_ack_a_fresh_response;
   response_header_preserves_llid_and_reserved_fields;
   gate_b_four_leg_empty_closure_preserves_next_event_ownership;
   md_from_either_participant_allows_event_continuation;
   final_fresh_owner_requests_exactly_one_ack_leg;
   event_decision_prioritizes_integrity_deadline_and_resources;
   event_decision_keeps_two_four_and_eight_pdu_sequences_open;
   failed_response_keeps_the_outstanding_llid_for_retry;
   duplicate_central_pdus_are_acked_but_delivered_once;
   lost_ack_keeps_transmit_sn_for_the_following_event;
   eighth_receive_slot_closes_with_resource_limit_and_no_md_promise;
   connection_event_trace_encoding_preserves_status_sequence_and_close_reason;
   crc_failure_does_not_advance_sequence_state;
   window_widening_uses_both_sca_values_and_rounds_up;
   instant_classification_covers_current_boundary_and_wraparound;
   collision_codes_distinguish_same_and_different_instant_procedures;
   data_access_address_enforces_core_bit_patterns;
   connection_update_accepts_current_and_wrapped_future_instants;
   connection_update_rejects_malformed_invalid_and_passed_values;
   connection_parameter_request_round_trips_and_accepts_wraparound_reference;
   connection_parameter_request_validates_timing_and_anchor_preferences;
   connection_update_must_satisfy_the_peripheral_request;
   channel_map_update_validates_map_and_instant].

(** Every one of these tests passes. *)
Lemma link_layer_tests_pass : forallb test_ok link_layer_tests = true.
Proof. by vm_compute. Qed.
