(* ===== verification/EventTxTests.v ===== *)
(** * The unit tests of the transmit slots

    The tests of [ConnectionEventTxState] in the test module of
    [crates/ble-controller/src/link_layer.rs] on the definitions of [EventTx]. *)

From S2P Require Import Prelude Effects Asserts Sequence EventTx.

#[export] Instance ConnectionEventTxState_eq_dec : EqDecision ConnectionEventTxState.
Proof. solve_decision. Defined.

(** A statement on the slots, the variable [transmit] of the tests. *)
Abbreviation Tx := (M ConnectionEventTxState ()).

(** [select(ack).unwrap()], [complete_transmit(d).unwrap()] and
    [abort_transmit(d).unwrap()]. *)
Definition selects (ack : bool) : Tx ConnectionEventTxDecision := yields (λ s, select s ack).
Definition completes (d : ConnectionEventTxDecision) : Tx () :=
  perform (λ s, complete_transmit s d).
Definition aborts (d : ConnectionEventTxDecision) : Tx () := perform (λ s, abort_transmit s d).

(** Assertions on the tokens of a decision: the payload or the owner of a token
    that must be there, and of one that may be absent. *)
Definition payload_is {S} (t : option ConnectionEventTxToken) (id : Z) : M S () () :=
  t ← unwrap t; assert_eq (payload_id t) id.
Definition owner_is {S} (t : option ConnectionEventTxToken) (owner : Z) : M S () () :=
  t ← unwrap t; assert_eq (owner_token t) owner.

(*! crates/ble-controller/src/link_layer.rs 1430-1467 rolling_tx_slots_retry_until_nesn_acknowledges_each_payload *)
Definition rolling_tx_slots_retry_until_nesn_acknowledges_each_payload : M () () () :=
  with_mut (tx_new 2) (
    first ← selects false;
    assert_eq (response_slot first) Slot0;;
    payload_is (response_token first) 0;;
    assert (negb (acknowledged_response first));;
    completes first;;
    retry ← selects false;
    assert_eq (response_slot retry) Slot0;;
    payload_is (response_token retry) 0;;
    assert (negb (acknowledged_response retry));;
    completes retry;;
    second ← selects true;
    assert_eq (response_slot second) Slot1;;
    payload_is (response_token second) 1;;
    payload_is (acknowledged_token second) 0;;
    completes second;;
    second_retry ← selects false;
    assert_eq (response_slot second_retry) Slot1;;
    payload_is (response_token second_retry) 1;;
    assert (negb (acknowledged_response second_retry));;
    completes second_retry;;
    empty ← selects true;
    assert_eq (response_slot empty) Slot1;;
    assert_eq (response_token empty) None;;
    payload_is (acknowledged_token empty) 1;;
    completes empty;;
    empty_retry ← selects false;
    assert_eq (response_slot empty_retry) Slot1;;
    assert_eq (response_token empty_retry) None).

(*! crates/ble-controller/src/link_layer.rs 1469-1476 first_incoming_nesn_cannot_ack_a_not_yet_transmitted_slot *)
Definition first_incoming_nesn_cannot_ack_a_not_yet_transmitted_slot : M () () () :=
  with_mut (tx_new 2) (refused (λ s, select s true) AckWithoutOutstandingResponse).

(*! crates/ble-controller/src/link_layer.rs 1478-1512 empty_retry_does_not_consume_or_ack_a_new_host_payload *)
Definition empty_retry_does_not_consume_or_ack_a_new_host_payload : M () () () :=
  for_each [[]; [10]; [10; 20]] (λ owners : list Z,
    tx ← expect (with_empty_retry owners);
    with_mut tx (
      retry ← selects false;
      assert_eq (response_token retry) None;;
      assert (response_is_retry retry);;
      assert_eq (refill_after_transmit retry) None;;
      completes retry;;
      first ← selects true;
      assert (acknowledged_response first);;
      assert_eq (acknowledged_token first) None;;
      assert_eq (owner_token <$> response_token first) (head owners);;
      assert_eq (owner_token ∘ refill_token <$> refill_after_transmit first) (owners !! 1%nat);;
      completes first;;
      retry ← selects false;
      assert_eq (response_token retry) (response_token first);;
      completes retry;;
      when_ (length owners =? 2)%nat (
        second ← selects true;
        owner_is (acknowledged_token second) 10;;
        owner_is (response_token second) 20;;
        completes second;;
        final_ack ← selects true;
        owner_is (acknowledged_token final_ack) 20;;
        assert_eq (response_token final_ack) None))).

(** [sequence] is a value of the test beside the slots. *)
(*! crates/ble-controller/src/link_layer.rs 1514-1537 two_host_payloads_follow_a_closing_empty_without_a_third_event *)
Definition two_host_payloads_follow_a_closing_empty_without_a_third_event : M () () () :=
  let sequence := sequence_new 1 0 in
  tx ← expect (with_empty_retry [10; 20]);
  with_mut tx (
    let '(first, sequence) := observe sequence 0x01 in
    response ← selects (acknowledged_transmit first);
    assert_eq (acknowledged_token response) None;;
    owner_is (response_token response) 10;;
    assert_eq (response_header sequence 0x02 true) 0x16;;
    completes response;;
    let '(second, sequence) := observe sequence 0x0d in
    response ← selects (acknowledged_transmit second);
    owner_is (acknowledged_token response) 10;;
    owner_is (response_token response) 20;;
    assert_eq (response_header sequence 0x02 false) 0x0a;;
    completes response;;
    retry ← selects false;
    owner_is (response_token retry) 20;;
    assert (response_is_retry retry)).

(*! crates/ble-controller/src/link_layer.rs 1539-1555 aborted_first_payload_after_empty_ack_keeps_payload_zero_staged *)
Definition aborted_first_payload_after_empty_ack_keeps_payload_zero_staged : M () () () :=
  tx ← expect (with_empty_retry [10; 20]);
  with_mut tx (
    first ← selects true;
    assert_eq (acknowledged_token first) None;;
    aborts first;;
    retry ← selects false;
    assert (negb (acknowledged_response retry));;
    assert (negb (response_is_retry retry));;
    assert_eq (response_token retry) (response_token first);;
    completes retry;;
    second ← selects true;
    owner_is (acknowledged_token second) 10;;
    owner_is (response_token second) 20).

(*! crates/ble-controller/src/link_layer.rs 1557-1578 response_plan_can_commit_or_abort_exactly_once *)
Definition response_plan_can_commit_or_abort_exactly_once : M () () () :=
  with_mut (tx_new 2) (
    decision ← selects false;
    refused (λ s, select s false) ResponsePlanAlreadyPending;;
    completes decision;;
    refused (λ s, complete_transmit s decision) CompletionDoesNotMatchDecision);;
  with_mut (tx_new 2) (
    decision ← selects false;
    aborts decision;;
    refused (λ s, complete_transmit s decision) CompletionDoesNotMatchDecision).

(** [preview_select] takes [&self]. *)
Definition previews (ack : bool) : Tx ConnectionEventTxDecision :=
  r ← gets (λ s, preview_select s ack); expect r.

(*! crates/ble-controller/src/link_layer.rs 1580-1605 preview_is_not_a_transmit_grant *)
Definition preview_is_not_a_transmit_grant : M () () () :=
  state ← expect (with_empty_retry [10; 20]);
  with_mut state (
    before ← gets id;
    next ← previews true;
    state ← gets id;
    assert_eq state before;;
    owner_is (response_token next) 10;;
    refused (λ s, complete_transmit s next) CompletionDoesNotMatchDecision;;
    retry ← selects false;
    assert (response_is_retry retry);;
    assert_eq (response_token retry) None;;
    refused (λ s, preview_select s true) ResponsePlanAlreadyPending;;
    completes retry;;
    selected ← selects true;
    assert_eq selected next;;
    aborts selected;;
    fresh ← previews false;
    assert (negb (response_is_retry fresh));;
    assert_eq (response_token fresh) (response_token next)).

(** The state of the pseudo-random choice is beside the slots, and one round is
    the body of the loop over 512 rounds. *)
(*! crates/ble-controller/src/link_layer.rs 1619-1635 preview_matches_selection_across_retry_abort_and_refill, one round *)
Definition preview_round : M (ConnectionEventTxState * Z) () () :=
  '(state, random) ← gets id;
  for_each [false; true] (λ ack,
    assert_eq (preview_select state ack) (fst <$> select state ack));;
  let random := Z.lxor random (u32 (Z.shiftl random 13)) in
  let random := Z.lxor random (Z.shiftr random 17) in
  let random := Z.lxor random (u32 (Z.shiftl random 5)) in
  modify (λ '(state, _), (state, random));;
  match select state (negb (Z.land random 1 =? 0)) with
  | Ok (decision, state) =>
      state ← expect (if Z.land random 6 =? 0 then abort_transmit state decision
                      else complete_transmit state decision);
      modify (λ '(_, random), (state, random))
  | Err _ => mret ()
  end.

(*! crates/ble-controller/src/link_layer.rs 1607-1639 preview_matches_selection_across_retry_abort_and_refill *)
Definition preview_matches_selection_across_retry_abort_and_refill : M () () () :=
  for_each (seq 0 (S MAX_CONNECTION_EVENT_TX_PAYLOADS)) (λ count,
    for_each [false; true] (λ empty : bool,
      let owners := [101; 202; 303; 404; 505; 606; 707; 808] in
      state ← expect (if empty then with_empty_retry (take count owners)
                      else new_with_owner_tokens (take count owners));
      with_mut (state, 0x585582) (repeat_ 512 preview_round))).

(*! crates/ble-controller/src/link_layer.rs 1641-1663 aborted_refill_does_not_skip_payload_or_generation *)
Definition aborted_refill_does_not_skip_payload_or_generation : M () () () :=
  with_mut (tx_new 4) (
    first ← selects false;
    completes first;;
    aborted ← selects true;
    refill ← unwrap (refill_after_transmit aborted);
    assert_eq (payload_id (refill_token refill)) 2;;
    assert_eq (generation (refill_token refill)) 1;;
    aborts aborted;;
    retried ← selects false;
    retried_refill ← unwrap (refill_after_transmit retried);
    payload_is (response_token retried) 1;;
    assert_eq (payload_id (refill_token retried_refill)) 2;;
    assert_eq (generation (refill_token retried_refill)) 1;;
    completes retried;;
    next ← selects true;
    payload_is (acknowledged_token next) 1;;
    payload_is (response_token next) 2).

(*! crates/ble-controller/src/link_layer.rs 1665-1690 controller_owner_token_survives_slot_roll_and_retry *)
Definition controller_owner_token_survives_slot_roll_and_retry : M () () () :=
  let owners := [0xA001; 0xB002; 0xC003; 0xD004] in
  transmit ← expect (new_with_owner_tokens owners);
  with_mut transmit (
    first ← selects false;
    owner_is (response_token first) (owners !!! 0%nat);;
    completes first;;
    retry ← selects false;
    owner_is (response_token retry) (owners !!! 0%nat);;
    assert (response_is_retry retry);;
    completes retry;;
    for_each (seq 0 (length owners)) (λ expected,
      decision ← selects true;
      owner_is (acknowledged_token decision) (owners !!! expected);;
      assert_eq (owner_token <$> response_token decision) (owners !! S expected);;
      completes decision)).

(*! crates/ble-controller/src/link_layer.rs 1692-1719 rolling_slots_preserve_payload_identity_for_two_four_and_eight_pdus *)
Definition rolling_slots_preserve_payload_identity_for_two_four_and_eight_pdus : M () () () :=
  for_each [2; 4; 8] (λ payload_count,
    with_mut (tx_new payload_count) (
      first ← selects false;
      payload_is (response_token first) 0;;
      assert (negb (response_is_retry first));;
      completes first;;
      for_each (seqZ 0 payload_count) (λ expected_ack,
        decision ← selects true;
        assert_eq (payload_id <$> acknowledged_token decision) (Some expected_ack);;
        assert_eq (payload_id <$> response_token decision)
          (if expected_ack + 1 <? payload_count then Some (expected_ack + 1) else None);;
        assert (negb (response_is_retry decision));;
        match refill_after_transmit decision with
        | Some refill =>
            assert_eq (payload_id (refill_token refill)) (expected_ack + 2);;
            assert (negb (bool_decide (refill_slot refill = response_slot decision)))
        | None => mret ()
        end;;
        completes decision))).

(*! crates/ble-controller/src/link_layer.rs 1721-1749 ack_loss_never_releases_or_refills_the_outstanding_payload *)
Definition ack_loss_never_releases_or_refills_the_outstanding_payload : M () () () :=
  with_mut (tx_new 4) (
    first ← selects false;
    payload_is (response_token first) 0;;
    completes first;;
    repeat_ 3 (
      retry ← selects false;
      payload_is (response_token retry) 0;;
      assert (response_is_retry retry);;
      assert (negb (acknowledged_response retry));;
      assert_eq (refill_after_transmit retry) None;;
      completes retry);;
    advance ← selects true;
    payload_is (acknowledged_token advance) 0;;
    payload_is (response_token advance) 1;;
    assert_eq (refill_after_transmit advance) (Some (mkTxRefill Slot0 (mkTxToken 2 2 1)))).

(*! crates/ble-controller/src/link_layer.rs 1751-1779 ack_loss_at_every_position_retries_the_exact_token_for_two_four_and_eight_pdus *)
Definition ack_loss_at_every_position_retries_the_exact_token_for_two_four_and_eight_pdus
  : M () () () :=
  for_each [2; 4; 8] (λ payload_count,
    for_each (seqZ 0 payload_count) (λ lost_payload_id,
      with_mut (tx_new payload_count) (
        first ← selects false;
        completes first;;
        for_each (seqZ 0 payload_count) (λ payload_id_,
          when_ (payload_id_ =? lost_payload_id) (
            retry ← selects false;
            payload_is (response_token retry) payload_id_;;
            assert (response_is_retry retry);;
            assert (negb (acknowledged_response retry));;
            assert_eq (acknowledged_token retry) None;;
            assert_eq (refill_after_transmit retry) None;;
            completes retry);;
          advance ← selects true;
          assert_eq (payload_id <$> acknowledged_token advance) (Some payload_id_);;
          completes advance)))).

Definition event_tx_tests : list (M () () ()) :=
  [rolling_tx_slots_retry_until_nesn_acknowledges_each_payload;
   first_incoming_nesn_cannot_ack_a_not_yet_transmitted_slot;
   empty_retry_does_not_consume_or_ack_a_new_host_payload;
   two_host_payloads_follow_a_closing_empty_without_a_third_event;
   aborted_first_payload_after_empty_ack_keeps_payload_zero_staged;
   response_plan_can_commit_or_abort_exactly_once;
   preview_is_not_a_transmit_grant;
   preview_matches_selection_across_retry_abort_and_refill;
   aborted_refill_does_not_skip_payload_or_generation;
   controller_owner_token_survives_slot_roll_and_retry;
   rolling_slots_preserve_payload_identity_for_two_four_and_eight_pdus;
   ack_loss_never_releases_or_refills_the_outstanding_payload;
   ack_loss_at_every_position_retries_the_exact_token_for_two_four_and_eight_pdus].

(** Every one of these tests passes. *)
Lemma event_tx_tests_pass : forallb test_ok event_tx_tests = true.
Proof. by vm_compute. Qed.
