(* ===== verification/LlcpTests.v ===== *)
(** * The unit tests of the procedure manager

    The test module of [crates/ble-controller/src/llcp.rs] on the definitions of
    [Llcp].  Only the test of the size of the records in memory is left out: the
    layout of a Rust type is not part of the model. *)

From S2P Require Import Prelude Effects Asserts ControlPdu Llcp.

(*! crates/ble-controller/src/llcp.rs 415-418 TOKEN *)
Definition TOKEN : ProcedureToken := mkProcedureToken 0x1234 7.

(*! crates/ble-controller/src/llcp.rs 420-430 local_request *)
Definition local_request (kind : ProcedureKind) (response : option Z) : ProcedureContext :=
  context_new kind Local TOKEN 0x0f response None (Some 40000000).

(** [manager.local().unwrap()] and [manager.remote().unwrap()]. *)
Definition local_ : M ProcedureManager () ProcedureContext := c ← gets pm_local; unwrap c.
Definition remote_ : M ProcedureManager () ProcedureContext := c ← gets pm_remote; unwrap c.

(** [assert_eq!(manager.local().unwrap().phase, phase)], and the deadline. *)
Definition in_phase (who : M ProcedureManager () ProcedureContext) (phase : ProcedurePhase)
  : M ProcedureManager () () := c ← who; assert_eq (pc_phase c) phase.
Definition with_deadline (who : M ProcedureManager () ProcedureContext) (deadline : option Z)
  : M ProcedureManager () () := c ← who; assert_eq (response_deadline_us c) deadline.
Definition with_error (who : M ProcedureManager () ProcedureContext) (error : option Z)
  : M ProcedureManager () () := c ← who; assert_eq (pc_error c) error.

(** [assert_eq!(manager.check_timeouts(now, error), expected)]. *)
Definition times_out (now_us error : Z) (expected : bool) : M ProcedureManager () () :=
  failed ← always (λ m, let '(m, failed) := check_timeouts m now_us error in (failed, m)); assert_eq failed expected.
Definition event (counter passed_error : Z) : M ProcedureManager () () :=
  modify (λ m, on_connection_event m counter passed_error).

(*! crates/ble-controller/src/llcp.rs 432-474 queue_plan_tx_ack_and_expected_response_are_distinct *)
Definition queue_plan_tx_ack_and_expected_response_are_distinct : M ProcedureManager () () :=
  perform (λ m, start_local m (local_request KindConnectionParameters (Some 0x10)));;
  perform (λ m, tx_planned m Local TOKEN);;
  in_phase local_ Queued;;
  perform (λ m, tx_done m Local TOKEN);;
  in_phase local_ AwaitingTxAck;;
  perform (λ m, nesn_ack m Local TOKEN 5000);;
  in_phase local_ AwaitingResponse;;
  with_deadline local_ (Some 40005000);;
  refused (λ m, expected_response m Local 0x11) WrongOpcode;;
  in_phase local_ AwaitingResponse;;
  perform (λ m, expected_response m Local 0x10);;
  in_phase local_ Complete;;
  with_deadline local_ None.

(*! crates/ble-controller/src/llcp.rs 476-495 stale_generation_and_duplicate_completion_cannot_advance *)
Definition stale_generation_and_duplicate_completion_cannot_advance : M ProcedureManager () () :=
  perform (λ m, start_local m (local_request Ping (Some 0x13)));;
  let stale := mkProcedureToken (pt_owner_token TOKEN) (u8 (pt_generation TOKEN + 1)) in
  refused (λ m, tx_done m Local stale) StaleToken;;
  perform (λ m, tx_done m Local TOKEN);;
  refused (λ m, tx_done m Local TOKEN) InvalidPhase.

(*! crates/ble-controller/src/llcp.rs 497-524 local_termination_requires_exact_tx_and_ack *)
Definition local_termination_requires_exact_tx_and_ack : M ProcedureManager () () :=
  let terminate := context_new Termination Local TOKEN 0x02 None None None in
  perform (λ m, start_local m terminate);;
  perform (λ m, tx_planned m Local TOKEN);;
  in_phase local_ Queued;;
  perform (λ m, tx_done m Local TOKEN);;
  in_phase local_ AwaitingTxAck;;
  perform (λ m, nesn_ack m Local TOKEN 0);;
  in_phase local_ Complete;;
  with_deadline local_ None.

(*! crates/ble-controller/src/llcp.rs 526-546 unrelated_queue_activity_cannot_restart_response_deadline *)
Definition unrelated_queue_activity_cannot_restart_response_deadline
  : M ProcedureManager () () :=
  perform (λ m, start_local m (local_request Ping (Some 0x13)));;
  perform (λ m, tx_done m Local TOKEN);;
  perform (λ m, nesn_ack m Local TOKEN 100);;
  c ← local_;
  let deadline := response_deadline_us c in
  refused (λ m, start_local m (local_request FeatureExchange (Some 0x09))) Busy;;
  with_deadline local_ deadline;;
  at_ ← unwrap deadline;
  times_out (at_ - 1) 0x22 false;;
  times_out at_ 0x22 true;;
  in_phase local_ Failed;;
  with_error local_ (Some 0x22).

(*! crates/ble-controller/src/llcp.rs 548-583 same_and_different_instant_collisions_keep_existing_owner *)
Definition same_and_different_instant_collisions_keep_existing_owner
  : M ProcedureManager () () :=
  perform (λ m, start_local m (local_request KindConnectionParameters (Some 0x10)));;
  let remote_same := context_new KindConnectionUpdate Remote TOKEN 0x00 None (Some 200) None in
  refused (λ m, start_remote m remote_same) (Collision 0x23);;
  let remote_different := remote_same <| pc_kind := KindChannelMapUpdate |> in
  refused (λ m, start_remote m remote_different) (Collision 0x2a);;
  r ← gets pm_remote;
  assert_eq r None;;
  c ← local_;
  assert_eq (pc_kind c) KindConnectionParameters.

(*! crates/ble-controller/src/llcp.rs 585-609 instant_applies_only_at_current_event_including_wraparound *)
Definition instant_applies_only_at_current_event_including_wraparound
  : M ProcedureManager () () :=
  let context := context_new KindChannelMapUpdate Local TOKEN 0x01 None (Some 1) None in
  perform (λ m, start_local m context);;
  perform (λ m, tx_done m Local TOKEN);;
  perform (λ m, nesn_ack m Local TOKEN 0);;
  event 0xfffe 0x28;;
  in_phase local_ AwaitingInstant;;
  event 1 0x28;;
  in_phase local_ Complete.

(*! crates/ble-controller/src/llcp.rs 611-634 remote_response_requires_queue_tx_done_and_nesn_ack *)
Definition remote_response_requires_queue_tx_done_and_nesn_ack : M ProcedureManager () () :=
  let request := context_new FeatureExchange Remote TOKEN 0 None None None in
  perform (λ m, start_remote m request);;
  perform (λ m, response_queued m TOKEN 0x09);;
  in_phase remote_ ResponseQueued;;
  perform (λ m, tx_done m Remote TOKEN);;
  perform (λ m, nesn_ack m Remote TOKEN 0);;
  in_phase remote_ Complete.

(*! crates/ble-controller/src/llcp.rs 636-685 remote_parameter_response_ack_starts_followup_deadline_until_instant *)
Definition remote_parameter_response_ack_starts_followup_deadline_until_instant
  : M ProcedureManager () () :=
  let context :=
    context_new KindConnectionParameters Remote TOKEN 0x10 (Some 0x00) None (Some 40000000) in
  perform (λ m, start_remote m context);;
  in_phase remote_ Queued;;
  with_deadline remote_ None;;
  perform (λ m, response_queued m TOKEN 0x10);;
  in_phase remote_ ResponseQueued;;
  with_deadline remote_ None;;
  perform (λ m, tx_done m Remote TOKEN);;
  in_phase remote_ AwaitingTxAck;;
  with_deadline remote_ None;;
  perform (λ m, nesn_ack m Remote TOKEN 2000);;
  in_phase remote_ AwaitingResponse;;
  with_deadline remote_ (Some 40002000);;
  perform (λ m, expected_response_with_instant m Remote 0x00 30);;
  event 29 0x28;;
  in_phase remote_ AwaitingInstant;;
  event 30 0x28;;
  in_phase remote_ Complete;;
  with_deadline remote_ None.

(*! crates/ble-controller/src/llcp.rs 687-726 remote_instant_indication_does_not_wait_for_local_tx *)
Definition remote_instant_indication_does_not_wait_for_local_tx : M ProcedureManager () () :=
  let indication := context_new KindChannelMapUpdate Remote TOKEN 0x01 None (Some 10) None in
  perform (λ m, start_remote m indication);;
  in_phase remote_ AwaitingInstant;;
  event 9 0x28;;
  in_phase remote_ AwaitingInstant;;
  let competing := indication <| pc_kind := KindConnectionUpdate |> <| pc_tx_opcode := 0x00 |>
                     <| pc_instant := Some 11 |> in
  refused (λ m, start_remote m competing) (Collision 0x2a);;
  event 10 0x28;;
  in_phase remote_ Complete;;
  perform (λ m, start_remote m competing);;
  in_phase remote_ AwaitingInstant.

(*! crates/ble-controller/src/llcp.rs 734-751 failed_queue_attempt_releases_the_remote_context *)
Definition failed_queue_attempt_releases_the_remote_context : M ProcedureManager () () :=
  let remote := context_new Ping Remote TOKEN 0x13 None None None in
  perform (λ m, start_remote m remote);;
  perform (λ m, fail m Remote 0x3a);;
  in_phase remote_ Failed;;
  with_error remote_ (Some 0x3a);;
  perform (λ m, start_remote m remote).

(** The two managers of the test, one after the other. *)
(*! crates/ble-controller/src/llcp.rs 753-804 peripheral_connection_parameters_keep_timeout_until_update_instant *)
Definition peripheral_connection_parameters_keep_timeout_until_update_instant
  : M ProcedureManager () () :=
  let request :=
    context_new KindConnectionParameters Local TOKEN 0x0f (Some 0x00) None (Some 40000000) in
  let awaiting_instant :=
    perform (λ m, start_local m request);;
    perform (λ m, tx_done m Local TOKEN);;
    perform (λ m, nesn_ack m Local TOKEN 1000);;
    perform (λ m, expected_response_with_instant m Local 0x00 25) in
  awaiting_instant;;
  in_phase local_ AwaitingInstant;;
  with_deadline local_ (Some 40001000);;
  event 24 0x28;;
  in_phase local_ AwaitingInstant;;
  event 25 0x28;;
  in_phase local_ Complete;;
  with_deadline local_ None;;
  modify (λ _, manager_new);;
  awaiting_instant;;
  times_out 40000999 0x22 false;;
  times_out 40001000 0x22 true;;
  in_phase local_ Failed;;
  with_error local_ (Some 0x22);;
  with_deadline local_ None.

Definition llcp_tests : list (M ProcedureManager () ()) :=
  [queue_plan_tx_ack_and_expected_response_are_distinct;
   stale_generation_and_duplicate_completion_cannot_advance;
   local_termination_requires_exact_tx_and_ack;
   unrelated_queue_activity_cannot_restart_response_deadline;
   same_and_different_instant_collisions_keep_existing_owner;
   instant_applies_only_at_current_event_including_wraparound;
   remote_response_requires_queue_tx_done_and_nesn_ack;
   remote_parameter_response_ack_starts_followup_deadline_until_instant;
   remote_instant_indication_does_not_wait_for_local_tx;
   failed_queue_attempt_releases_the_remote_context;
   peripheral_connection_parameters_keep_timeout_until_update_instant].

(** Every test of the procedure manager passes. *)
Lemma llcp_tests_pass : forallb (passes manager_new) llcp_tests = true.
Proof. by vm_compute. Qed.
