(* ===== verification/UnitTests.v ===== *)
(** * The unit tests of the pure modules

    The test modules of [advertising.rs], [hci.rs], [crc.rs], [whitening.rs] and
    [rf_calibration.rs] of [crates/ble-controller/src/], of [radio_dma_policy.rs],
    [radio_phy.rs] and [radio_rx_status.rs] of [crates/ch58x-ble/src/] (which
    [cases/ble-pure.rs] includes for the host), and of
    [src/dataflash_protocol.rs]. *)

From S2P Require Import Prelude Effects Asserts Channel Transforms Advertising Hci.
From S2P Require Import RadioMachine DataFlash.

#[export] Instance LegacyAdvertisement_eq_dec : EqDecision LegacyAdvertisement.
Proof. solve_decision. Defined.
#[export] Instance ConnectInd_eq_dec : EqDecision ConnectInd.
Proof. solve_decision. Defined.
#[export] Instance ConnectIndParseError_eq_dec : EqDecision ConnectIndParseError.
Proof. solve_decision. Defined.
#[export] Instance CalibrationError_eq_dec : EqDecision CalibrationError.
Proof. solve_decision. Defined.
#[export] Instance ReceiveLengthPolicy_eq_dec : EqDecision ReceiveLengthPolicy.
Proof. solve_decision. Defined.

(** The characters of ["rmk-ch582m"]. *)
Definition rmk_ch582m : list Z := [0x72; 0x6d; 0x6b; 0x2d; 0x63; 0x68; 0x35; 0x38; 0x32; 0x6d].

(** ** Advertising *)

(*! crates/ble-controller/src/advertising.rs 364-380 valid_connect_ind *)
Definition valid_connect_ind (address : DeviceAddress) : list Z :=
  let pdu := replicate 36 0 in
  let pdu := <[0%nat := 0x05]> pdu in
  let pdu := <[1%nat := 34]> pdu in
  let pdu := splice 2 [6; 5; 4; 3; 2; 1] pdu in
  let pdu := splice 8 (addr_bytes address) pdu in
  let pdu := splice 14 (to_le 4 0x12345678) pdu in
  let pdu := splice 18 [0x56; 0x34; 0x12] pdu in
  let pdu := <[21%nat := 2]> pdu in
  let pdu := splice 22 (to_le 2 1) pdu in
  let pdu := splice 24 (to_le 2 24) pdu in
  let pdu := splice 26 (to_le 2 0) pdu in
  let pdu := splice 28 (to_le 2 200) pdu in
  let pdu := splice 30 [0xff; 0xff; 0xff; 0xff; 0x1f] pdu in
  <[35%nat := 5]> pdu.

(** [DeviceAddress::random_static([1, 2, 3, 4, 5, 0xc6]).unwrap()]. *)
Definition own_address {S R} : M S R DeviceAddress :=
  expect (random_static [1; 2; 3; 4; 5; 0xc6]).

(*! crates/ble-controller/src/advertising.rs 382-394 parses_legacy_advertising_address_type_and_data *)
Definition parses_legacy_advertising_address_type_and_data : M () () () :=
  let packet := [0x40; 9; 1; 2; 3; 4; 5; 0xc6; 2; 1; 6] in
  parsed ← expect (parse_legacy_advertisement packet);
  assert_eq (la_event_type parsed) 0;;
  assert_eq (addr_bytes (la_address parsed)) [1; 2; 3; 4; 5; 0xc6];;
  assert_eq (addr_kind (la_address parsed)) Random;;
  assert_eq (la_data parsed) [2; 1; 6];;
  let scan_rsp := [0x04; 8; 6; 5; 4; 3; 2; 1; 1; 9] in
  parsed ← expect (parse_legacy_advertisement scan_rsp);
  assert_eq (la_event_type parsed) 4;;
  fails (parse_legacy_advertisement (slice 0 10 packet)).

(*! crates/ble-controller/src/advertising.rs 396-409 connect_ind_builder_round_trips_through_peripheral_parser *)
Definition connect_ind_builder_round_trips_through_peripheral_parser : M () () () :=
  advertiser ← own_address;
  let initiator := address_public [6; 5; 4; 3; 2; 1] in
  parsed ← expect (parse_connect_ind_detailed (valid_connect_ind advertiser) advertiser);
  built ← expect (build_connect_ind initiator advertiser parsed (replicate 36 0)).1;
  assert_eq (built !!! 0%nat) 0x85;;
  again ← expect (parse_connect_ind_detailed built advertiser);
  assert_eq again parsed.

(** [pdu.ends_with(name)]. *)
Definition ends_with (pdu name : list Z) : bool :=
  bool_decide (drop (length pdu - length name) pdu = name).


(*! crates/ble-controller/src/advertising.rs 411-434 builds_named_hid_keyboard_advertisement *)
Definition builds_named_hid_keyboard_advertisement : M () () () :=
  with_mut ad_new (
    perform (λ d, ad_push d AD_TYPE_FLAGS
      [Z.lor FLAG_LE_GENERAL_DISCOVERABLE FLAG_BR_EDR_NOT_SUPPORTED]);;
    perform (λ d, ad_push d AD_TYPE_APPEARANCE (to_le 2 0x03c1));;
    perform (λ d, ad_push d AD_TYPE_COMPLETE_UUID16_LIST [0x12; 0x18; 0x0f; 0x18]);;
    perform (λ d, ad_push d AD_TYPE_COMPLETE_LOCAL_NAME rmk_ch582m);;
    data ← gets id;
    assert_eq (length (as_bytes data)) 25%nat;;
    address ← own_address;
    pdu ← expect (build_adv_ind address data (replicate MAX_LEGACY_ADV_PDU_LEN 0)).1;
    assert_eq (pdu !!! 0%nat) 0x40;;
    assert_eq (pdu !!! 1%nat) 31;;
    assert_eq (slice 2 8 pdu) [1; 2; 3; 4; 5; 0xc6];;
    assert (ends_with pdu rmk_ch582m)).

(*! crates/ble-controller/src/advertising.rs 436-450 rejects_non_static_random_address *)
Definition rejects_non_static_random_address : M () () () :=
  assert_eq (random_static [1; 2; 3; 4; 5; 0x86]) (Err ErrorInvalidPacket);;
  assert_eq (random_static [0; 0; 0; 0; 0; 0xc0]) (Err ErrorInvalidPacket);;
  assert_eq (random_static (replicate 6 0xff)) (Err ErrorInvalidPacket).

(*! crates/ble-controller/src/advertising.rs 452-459 rejects_advertising_data_overflow *)
Definition rejects_advertising_data_overflow : M () () () :=
  with_mut ad_new
    (refused (λ d, ad_push d AD_TYPE_COMPLETE_LOCAL_NAME (replicate 31 0)) ErrorInvalidPacket).

(*! crates/ble-controller/src/advertising.rs 461-471 parses_connect_ind_for_this_advertiser *)
Definition parses_connect_ind_for_this_advertiser : M () () () :=
  address ← own_address;
  let pdu := valid_connect_ind address in
  parsed ← expect (parse_connect_ind pdu address);
  parsed ← unwrap parsed;
  assert_eq (ci_access_address parsed) 0x12345678;;
  assert_eq (ci_crc_init parsed) 0x123456;;
  assert_eq (ci_interval parsed) 24;;
  assert_eq (ci_hop_increment parsed) 5.

(*! crates/ble-controller/src/advertising.rs 473-519 rejects_connect_ind_with_invalid_timing_or_channel_map *)
Definition rejects_connect_ind_with_invalid_timing_or_channel_map : M () () () :=
  address ← own_address;
  let invalid_window := <[21%nat := 0]> (valid_connect_ind address) in
  assert_eq (parse_connect_ind invalid_window address) (Err ErrorInvalidPacket);;
  let invalid_timeout := splice 28 (to_le 2 10) (splice 24 (to_le 2 40)
                           (valid_connect_ind address)) in
  assert_eq (parse_connect_ind invalid_timeout address) (Err ErrorInvalidPacket);;
  let invalid_map := splice 30 [1; 0; 0; 0; 0] (valid_connect_ind address) in
  assert_eq (parse_connect_ind invalid_map address) (Err ErrorInvalidPacket);;
  let invalid_access_address := splice 14 (to_le 4 0x11111111) (valid_connect_ind address) in
  assert_eq (parse_connect_ind invalid_access_address address) (Err ErrorInvalidPacket);;
  assert_eq (parse_connect_ind_detailed invalid_window address) (Err InvalidTiming);;
  assert_eq (parse_connect_ind_detailed invalid_map address) (Err InvalidChannelMap);;
  assert_eq (parse_connect_ind_detailed invalid_access_address address)
    (Err InvalidAccessAddress).

(** ** HCI *)

(*! crates/ble-controller/src/hci.rs 68-98 reject_unsupported_modes_and_malformed_parameters *)
Definition reject_unsupported_modes_and_malformed_parameters : M () () () :=
  let params := splice 0 [0x20; 0; 0x40; 0] (replicate 15 0) in
  let params := <[5%nat := 1]> params in
  let params := <[13%nat := 7]> params in
  parsed ← unwrap (adv_parameters_parse params);
  assert_eq (ap_interval_us parsed) 20000;;
  for_each (seq 0 15) (λ len,
    assert (negb (bool_decide (is_Some (adv_parameters_parse (slice 0 len params))))));;
  for_each [(0%nat, 0x1f); (3%nat, 0x41); (4%nat, 1); (5%nat, 2); (6%nat, 2); (13%nat, 0);
            (13%nat, 8); (14%nat, 1)] (λ '(offset, value),
    let invalid := <[offset := value]> params in
    assert (negb (bool_decide (is_Some (adv_parameters_parse invalid))))).

(*! crates/ble-controller/src/hci.rs 100-114 masks_cannot_suppress_credit_events_or_cross_namespaces *)
Definition masks_cannot_suppress_credit_events_or_cross_namespaces : M () () () :=
  for_each [0x0e; 0x0f; 0x13] (λ code, assert (event_enabled 0 0 code []));;
  assert (negb (event_enabled 0 U64_MAX 0x3e [1]));;
  assert (negb (event_enabled U64_MAX 0 0x3e [1]));;
  assert (event_enabled U64_MAX 1 0x3e [1]);;
  assert (negb (event_enabled U64_MAX 1 0x3e [3]));;
  for_each [0; 65; 255] (λ subevent,
    assert (negb (event_enabled U64_MAX U64_MAX 0x3e [subevent])));;
  assert (negb (event_enabled U64_MAX U64_MAX 0x3e []));;
  assert (negb (event_enabled U64_MAX U64_MAX 0 [])).

(*! crates/ble-controller/src/hci.rs 116-122 capabilities_do_not_advertise_crypto_or_dle *)
Definition capabilities_do_not_advertise_crypto_or_dle : M () () () :=
  assert_eq (Z.land (LE_FEATURES !!! 0%nat) 1) 0;;
  assert_eq (Z.land (LE_FEATURES !!! 0%nat) 0x20) 0;;
  assert_eq ACL_PAYLOAD_LEN 27%nat;;
  assert_eq ACL_CREDITS 5.

(** ** CRC, whitening and calibration *)

(*! crates/ble-controller/src/crc.rs 25-28 empty_pdu_preserves_initial_state *)
Definition empty_pdu_preserves_initial_state : M () () () :=
  assert_eq (Crc.crc24 [] 0x555555) 0x555555.

(*! crates/ble-controller/src/crc.rs 30-42 advertising_crc_regression_vector *)
Definition advertising_crc_regression_vector : M () () () :=
  assert_eq (Crc.crc24 [0x00; 0x06; 0xa1; 0xa2; 0xa3; 0xa4; 0xa5; 0xa6] 0x555555) 0xa4092b.

(*! crates/ble-controller/src/whitening.rs 23-31 applying_whitening_twice_recovers_input *)
Definition applying_whitening_twice_recovers_input : M () () () :=
  let original := rmk_ch582m in
  let bytes := Whitening.apply 37 original in
  assert (negb (bool_decide (bytes = original)));;
  assert_eq (Whitening.apply 37 bytes) original.

(*! crates/ble-controller/src/whitening.rs 33-38 channel_23_initialization_matches_core_example *)
Definition channel_23_initialization_matches_core_example : M () () () :=
  assert_eq (Whitening.apply 23 [0; 0]) [0xaf; 0x42].

(*! crates/ble-controller/src/rf_calibration.rs 73-80 rejects_zero_coarse_span *)
Definition rejects_zero_coarse_span : M () () () :=
  let same := mkMeasurement 20 40 in
  assert_eq (build_table same same (mkMeasurement 10 20)) (Err DegenerateCoarseRange).

(*! crates/ble-controller/src/rf_calibration.rs 112-114 nibble *)
Definition nibble (table : list Z) (slot : nat) : Z :=
  u8 (Z.land (Z.shiftr (table !!! (slot / 8)%nat) (Z.of_nat (slot mod 8 * 4))) 0x0f).

(*! crates/ble-controller/src/rf_calibration.rs 82-97 interpolation_hits_coarse_endpoints *)
Definition interpolation_hits_coarse_endpoints : M () () () :=
  table ← expect (build_table (mkMeasurement 50 60) (mkMeasurement 38 48) (mkMeasurement 28 38));
  for_each [(0%nat, 12); (39%nat, 0); (40%nat, 0); (79%nat, 10); (80%nat, 10); (81%nat, 10)]
    (λ '(slot, value), assert_eq (nibble table slot) value).

(*! crates/ble-controller/src/rf_calibration.rs 99-110 packs_all_thirteen_hardware_words *)
Definition packs_all_thirteen_hardware_words : M () () () :=
  table ← expect (build_table (mkMeasurement 55 62) (mkMeasurement 39 50) (mkMeasurement 23 36));
  assert (negb (table !!! 0%nat =? 0));;
  assert (negb (Z.land (table !!! 12%nat) 0x0fffffff =? 0));;
  assert_eq (Z.shiftr (table !!! 12%nat) 28) 0.

(** ** The radio and the Flash *)

(** [!x] of a [u32]. *)
Definition not32 (x : Z) : Z := Z.lxor U32_MAX x.

(*! crates/ch58x-ble/src/radio_rx_status.rs 13-21 capture_ack_preserves_crc_and_other_sources *)
Definition capture_ack_preserves_crc_and_other_sources : M () () () :=
  for_each (seqZ 0 1024) (λ status,
    let remaining := Z.land status (not32 (capture_ack status)) in
    assert_eq (Z.land remaining (Z.shiftl 1 5)) (Z.land status (Z.shiftl 1 5));;
    assert_eq (Z.land remaining (Z.shiftl 1 6)) 0;;
    assert_eq (Z.land remaining (not32 (Z.shiftl 1 6)))
      (Z.land status (not32 (Z.shiftl 1 6)))).

(*! crates/ch58x-ble/src/radio_rx_status.rs 23-31 old_combined_clear_erased_crc_failure *)
Definition old_combined_clear_erased_crc_failure : M () () () :=
  let capture_with_crc_error := 0x60 in
  assert_eq (Z.land capture_with_crc_error (not32 (Z.land capture_with_crc_error 0x60))) 0;;
  assert_eq (Z.land capture_with_crc_error (not32 (capture_ack capture_with_crc_error))) 0x20.

(*! crates/ch58x-ble/src/radio_dma_policy.rs 50-64 accepts_enabled_legacy_and_pre_dle_limits *)
Definition accepts_enabled_legacy_and_pre_dle_limits : M () () () :=
  assert_eq (classify_received_length true MAX_LEGACY_ADV_PAYLOAD_LEN)
    (Accepted MAX_LEGACY_ADV_WIRE_LEN);;
  assert_eq (classify_received_length false CONNECTION_RX_MAX_WIRE_PAYLOAD_LEN)
    (Accepted MAX_DATA_WIRE_LEN).

(*! crates/ch58x-ble/src/radio_dma_policy.rs 66-84 distinguishes_unsupported_protocol_from_physical_overflow *)
Definition distinguishes_unsupported_protocol_from_physical_overflow : M () () () :=
  assert_eq (classify_received_length true (MAX_LEGACY_ADV_PAYLOAD_LEN + 1))
    UnsupportedCapability;;
  assert_eq (classify_received_length false (CONNECTION_RX_MAX_WIRE_PAYLOAD_LEN + 1))
    UnsupportedCapability;;
  assert_eq (classify_received_length true (RF_DMA_BUFFER_LEN - LL_HEADER_LEN + 1))
    PhysicalDmaOverflow;;
  assert_eq (classify_received_length false U8_MAX) PhysicalDmaOverflow.

(*! crates/ch58x-ble/src/radio_phy.rs 34-41 header_is_not_a_complete_request_until_length_is_exact *)
Definition header_is_not_a_complete_request_until_length_is_exact : M () () () :=
  assert (legacy_request_payload_len_is_valid 3 12);;
  assert (legacy_request_payload_len_is_valid 5 34);;
  for_each [0; 1; 12; 33; 35; 63] (λ length,
    assert (negb (legacy_request_payload_len_is_valid 5 length))).

(*! crates/ch58x-ble/src/radio_phy.rs 42-49 radio_timing_matches_ch585_legacy_register_vectors *)
Definition radio_timing_matches_ch585_legacy_register_vectors : M () () () :=
  assert_eq (tx_1m_countdown 31) 1004;;
  assert_eq (rx_1m_capture_countdown 37) 0x2dc;;
  assert_eq (rx_1m_capture_countdown 27) 0x23c;;
  assert_eq (rx_to_tx_timing 0) 0x76;;
  assert_eq (rx_to_tx_timing 27) 0x76.

(** [encode_transmit_buffer] is the new contents of the bank. *)
(*! crates/ch58x-ble/src/radio_phy.rs 50-57 dma_layout_is_contiguous_and_does_not_keep_old_payload *)
Definition dma_layout_is_contiguous_and_does_not_keep_old_payload : M () () () :=
  let packet := [0x40; 0x08; 1; 2; 3; 4; 5; 0xc0; 0xaa; 0xbb] in
  bank ← unwrap (encode_transmit_buffer packet);
  assert_eq (slice 0 (length packet) bank) packet;;
  assert (forallb (λ byte, byte =? 0) (drop (length packet) bank)).

(*! src/dataflash_protocol.rs 14-19 flash_status_uses_second_received_byte *)
Definition flash_status_uses_second_received_byte : M () () () :=
  assert (status_ready 0x01 0x00);;
  assert (negb (status_ready 0x00 0x01));;
  assert (status_ready 0xff 0x02).

Definition unit_tests : list (M () () ()) :=
  [parses_legacy_advertising_address_type_and_data;
   connect_ind_builder_round_trips_through_peripheral_parser;
   builds_named_hid_keyboard_advertisement;
   rejects_non_static_random_address;
   rejects_advertising_data_overflow;
   parses_connect_ind_for_this_advertiser;
   rejects_connect_ind_with_invalid_timing_or_channel_map;
   reject_unsupported_modes_and_malformed_parameters;
   masks_cannot_suppress_credit_events_or_cross_namespaces;
   capabilities_do_not_advertise_crypto_or_dle;
   empty_pdu_preserves_initial_state;
   advertising_crc_regression_vector;
   applying_whitening_twice_recovers_input;
   channel_23_initialization_matches_core_example;
   rejects_zero_coarse_span;
   interpolation_hits_coarse_endpoints;
   packs_all_thirteen_hardware_words;
   capture_ack_preserves_crc_and_other_sources;
   old_combined_clear_erased_crc_failure;
   accepts_enabled_legacy_and_pre_dle_limits;
   distinguishes_unsupported_protocol_from_physical_overflow;
   header_is_not_a_complete_request_until_length_is_exact;
   radio_timing_matches_ch585_legacy_register_vectors;
   dma_layout_is_contiguous_and_does_not_keep_old_payload;
   flash_status_uses_second_received_byte].

(** Every one of these tests passes. *)
Lemma unit_tests_pass : forallb test_ok unit_tests = true.
Proof. by vm_compute. Qed.
